(** * Geo-entity graph and feature-merge engine: a shallow embedding

    The development follows the Python sources:
    - [node_model.py], [way_model.py], [area_model.py]: the entity graph;
    - [node_collector.py], [way_collector.py], [area_collector.py],
      [geo_object_storage.py]: the registries and the graph store;
    - [IOPs_geojson.py]: the interchange codec;
    - [parce_geojson.py]: the feature-merge engine.

    Python objects live in a heap indexed by address; a reference carries the
    address together with the immutable [_id] of the object, since [__eq__] and
    [__hash__] of [Node], [Way] and [Area] only look at [_id].  Python dicts
    are insertion-ordered association lists.  Exceptions are explicit results;
    loops and recursion that the source does not bound take a fuel argument. *)

From Stdlib Require Import ZArith QArith String List Bool Lia.
From stdpp Require Import base option list gmap strings.
Import ListNotations.

Local Open Scope Z_scope.

(* ===================================================================== *)
(** ** Exceptions and results *)
(* ===================================================================== *)

Inductive exn :=
  | ValueError
  | TypeError
  | IndexError
  | KeyError
  | AttributeError.

(** [OutOfFuel] is not a Python exception: it marks a run whose loop or
    recursion did not finish within the fuel it was given. *)
Inductive result (A : Type) :=
  | Ok (a : A)
  | Raise (e : exn)
  | OutOfFuel.
Arguments Ok {A} a.
Arguments Raise {A} e.
Arguments OutOfFuel {A}.

Definition rbind {A B} (r : result A) (k : A -> result B) : result B :=
  match r with
  | Ok a => k a
  | Raise e => Raise e
  | OutOfFuel => OutOfFuel
  end.

#[global] Instance result_bind : MBind result := fun A B k r => rbind r k.
#[global] Instance result_ret : MRet result := @Ok.

(** [o or raise e]: unwrap an optional value. *)
Definition or_raise {A} (o : option A) (e : exn) : result A :=
  match o with Some a => Ok a | None => Raise e end.

(* ===================================================================== *)
(** ** Python dicts: insertion-ordered association lists *)
(* ===================================================================== *)

Module PyDict.
Section Dict.
Context {K V : Type} `{EqDecision K}.

Definition t := list (K * V).

Definition empty : t := [].

(** [d.get(k)] *)
Fixpoint get (k : K) (d : t) : option V :=
  match d with
  | [] => None
  | (k', v) :: d' => if decide (k = k') then Some v else get k d'
  end.

(** [k in d] *)
Definition mem (k : K) (d : t) : bool :=
  match get k d with Some _ => true | None => false end.

(** [d[k] = v]: an existing key keeps its position, a new key goes last. *)
Fixpoint set (k : K) (v : V) (d : t) : t :=
  match d with
  | [] => [(k, v)]
  | (k', v') :: d' =>
      if decide (k = k') then (k, v) :: d' else (k', v') :: set k v d'
  end.

(** [del d[k]]; the callers only delete a key that is present. *)
Fixpoint del (k : K) (d : t) : t :=
  match d with
  | [] => []
  | (k', v') :: d' => if decide (k = k') then d' else (k', v') :: del k d'
  end.

(** [d.values()], in insertion order *)
Definition values (d : t) : list V := map snd d.

Definition keys (d : t) : list K := map fst d.

End Dict.
Arguments t : clear implicits.
End PyDict.

(* ===================================================================== *)
(** ** The interchange format (GeoJSON features) *)
(* ===================================================================== *)

(** A JSON scalar as it occurs in a tag map and as a Python dict key. *)
Inductive jval :=
  | JStr (s : string)
  | JNum (z : Z).

#[global] Instance jval_eq_dec : EqDecision jval.
Proof. solve_decision. Defined.

(** A coordinate pair, serialized as (longitude, latitude). *)
Definition Coord : Type := Q * Q.

Inductive Geometry :=
  | Point (c : Coord)
  | LineString (coordinates : list Coord)
  | Polygon (rings : list (list Coord)).

(** The geometry constructors of the [geojson] library.  They pass every
    coordinate through [clean_coordinates], which rounds it to the precision
    of the library (none in its older versions).  The rounding of one number
    is a parameter, [round]. *)
Definition clean_coordinate (round : Q -> Q) (c : Coord) : Coord :=
  (round (fst c), round (snd c)).

Definition geojson_Point (round : Q -> Q) (c : Coord) : Geometry :=
  Point (clean_coordinate round c).

Definition geojson_LineString (round : Q -> Q) (coordinates : list Coord) : Geometry :=
  LineString (map (clean_coordinate round) coordinates).

Definition geojson_Polygon (round : Q -> Q) (rings : list (list Coord)) : Geometry :=
  Polygon (map (map (clean_coordinate round)) rings).

(** The [OSM_id_nodes] property: one id per coordinate of a line, one array
    per ring of a polygon. *)
Inductive IdNodes :=
  | LineIds (ids : list Z)
  | RingIds (ids : list (list Z)).

Definition Tags := PyDict.t string jval.

(** [feature.properties]: the entries the code reads; [None] is a missing
    key. *)
Record Properties := {
  OSM_id_nodes : option IdNodes;
  tags : option Tags;
  OSM_id : option jval;
}.

Definition BoundingBox : Type := option Q * option Q * option Q * option Q.

Record Feature := {
  f_id : Z;
  boundingbox : option BoundingBox;
  geometry : Geometry;
  properties : Properties;
}.

Definition FeatureCollection := list Feature.

Definition set_id (f : Feature) (i : Z) : Feature :=
  {| f_id := i; boundingbox := boundingbox f;
     geometry := geometry f; properties := properties f |}.

(** [feature.properties.get("tags").get(key)]: a feature without a tag map
    fails on the second [get]. *)
Definition tags_get (f : Feature) (key : string) : result (option jval) :=
  match tags (properties f) with
  | None => Raise AttributeError
  | Some t => Ok (PyDict.get key t)
  end.

(* ===================================================================== *)
(** ** Feature merge engine: [ParceGeojson.concat_geojson_features] *)
(* ===================================================================== *)

Module ParceGeojson.

(** [random.randint] is an oracle: the [n]-th draw of a run is [rand n]. *)
Definition Rand := nat -> Z.

Record merge_state := {
  dict_ways_collectors : PyDict.t jval Feature;
  dict_areas_collectors : PyDict.t jval Feature;
  draws : nat;
}.

(** LineString branch of the rekey policy:
<<
    new_key = key
    while new_key in dict_ways_collectors:
        int(random.randint(1, 1000000000000000))
>>
    The draw is discarded, [new_key] is never reassigned. *)
Fixpoint rekey_way (fuel : nat) (rand : Rand) (d : PyDict.t jval Feature)
    (new_key : jval) (n : nat) : result (jval * nat) :=
  match fuel with
  | O => OutOfFuel
  | S fuel' =>
      if PyDict.mem new_key d then rekey_way fuel' rand d new_key (S n)
      else Ok (new_key, n)
  end.

(** Polygon branch of the rekey policy:
<<
    new_key = key
    while new_key in dict_areas_collectors:
        new_key = int(random.randint(1, 1000000000000))
>> *)
Fixpoint rekey_area (fuel : nat) (rand : Rand) (d : PyDict.t jval Feature)
    (new_key : jval) (n : nat) : result (jval * nat) :=
  match fuel with
  | O => OutOfFuel
  | S fuel' =>
      if PyDict.mem new_key d then rekey_area fuel' rand d (JNum (rand n)) (S n)
      else Ok (new_key, n)
  end.

(** The body of the inner [for feature in feature_collection.features]. *)
Definition merge_feature (fuel : nat) (rand : Rand)
    (rewrite_duplicates adding_duplicates : bool)
    (st : merge_state) (feature : Feature) : result merge_state :=
  match geometry feature with
  | LineString _ =>
      okey ← tags_get feature "OSM_way_id";
      key ← or_raise okey ValueError;
      let d := dict_ways_collectors st in
      if negb (PyDict.mem key d) then
        Ok {| dict_ways_collectors := PyDict.set key feature d;
              dict_areas_collectors := dict_areas_collectors st;
              draws := draws st |}
      else if rewrite_duplicates then
        (* dict_ways_collectors[key] = feature   is commented out *)
        Ok st
      else if adding_duplicates then
        '(new_key, n) ← rekey_way fuel rand d key (draws st);
        Ok {| dict_ways_collectors := PyDict.set new_key feature d;
              dict_areas_collectors := dict_areas_collectors st;
              draws := n |}
      else Ok st
  | Polygon _ =>
      okey ← tags_get feature "OSM_area_id";
      key ← or_raise okey ValueError;
      let d := dict_areas_collectors st in
      if negb (PyDict.mem key d) then
        Ok {| dict_ways_collectors := dict_ways_collectors st;
              dict_areas_collectors := PyDict.set key feature d;
              draws := draws st |}
      else if rewrite_duplicates then
        (* dict_areas_collectors[key] = feature   is commented out *)
        Ok st
      else if adding_duplicates then
        '(new_key, n) ← rekey_area fuel rand d key (draws st);
        Ok {| dict_ways_collectors := dict_ways_collectors st;
              dict_areas_collectors := PyDict.set new_key feature d;
              draws := n |}
      else Ok st
  | Point _ => Ok st
  end.

Fixpoint merge_features (fuel : nat) (rand : Rand)
    (rewrite_duplicates adding_duplicates : bool)
    (st : merge_state) (features : list Feature) : result merge_state :=
  match features with
  | [] => Ok st
  | feature :: rest =>
      st' ← merge_feature fuel rand rewrite_duplicates adding_duplicates st feature;
      merge_features fuel rand rewrite_duplicates adding_duplicates st' rest
  end.

(** [feature.id = len(feature_collection.features);
     feature_collection.features.append(feature)]
    Features are values here, and every entry of a dict stands for a
    feature object of its own.  That is what the code does as long as no
    object is stored twice: always under the overwrite and the skip policy,
    and under the rekey policy when no object occurs twice in the input.
    (An object that the rekey policy stores under two keys is one object in
    the code: the second assignment of [feature.id] shows in both places of
    the result.) *)
Fixpoint renumber (acc : FeatureCollection) (fs : list Feature) : FeatureCollection :=
  match fs with
  | [] => acc
  | f :: rest => renumber (acc ++ [set_id f (Z.of_nat (length acc))]) rest
  end.

(** The nested loop over collections and their features visits the features
    in the order of the concatenated lists. *)
Definition concat_geojson_features (fuel : nat) (rand : Rand)
    (list_feature_collections : list FeatureCollection)
    (rewrite_duplicates adding_duplicates : bool) : result FeatureCollection :=
  st ← merge_features fuel rand rewrite_duplicates adding_duplicates
         {| dict_ways_collectors := PyDict.empty;
            dict_areas_collectors := PyDict.empty;
            draws := O |}
         (concat list_feature_collections);
  Ok (renumber (renumber [] (PyDict.values (dict_ways_collectors st)))
               (PyDict.values (dict_areas_collectors st))).

(** *** [ParceGeojson.concat_coastline_sea] *)

(** [feature.properties.get("OSM_id_nodes")] of the starting line, on which
    the code calls [reverse()], and [feature.geometry.coordinates] of a line.
    The model follows the code on LineString features whose node ids are a
    flat array.  On a Point, a Polygon or a ring-shaped id array the code
    goes on with the nested lists it finds there (it never tests the
    geometry); the chain of this model, a list of points and a list of node
    ids, holds no such value, and the model stops with [TypeError] instead.
    What the chaining returns is therefore stated for pools of flat
    LineStrings only ([CoastlineFacts.flat_line]). *)
Definition start_ids (f : Feature) : result (list Z) :=
  match OSM_id_nodes (properties f) with
  | None => Raise AttributeError
  | Some (LineIds ids) => Ok ids
  | Some (RingIds _) => Raise TypeError
  end.

Definition line_coordinates (f : Feature) : result (list Coord) :=
  match geometry f with
  | LineString cs => Ok cs
  | _ => Raise TypeError
  end.

(** [l[1:]] *)
Definition drop_first {A} (l : list A) : list A := drop 1 l.

Inductive scan_result :=
  | NoMatch
  | Merged (fid : Z) (points : list Coord) (ids : list Z).

(** One pass of [for feature in dict_line.values()]: the first feature whose
    first or last node id equals [result_line_ids[-1]] is consumed; the
    result holds what is appended to the chain and the key to delete. *)
Fixpoint scan (pool : list Feature) (result_line_ids : list Z) : result scan_result :=
  match pool with
  | [] => Ok NoMatch
  | feature :: rest =>
      trailing ← or_raise (last result_line_ids) IndexError;
      match OSM_id_nodes (properties feature) with
      | None => Raise TypeError
      | Some (RingIds rings) =>
          (* an int never equals a list: no match, after both subscripts *)
          match rings with
          | [] => Raise IndexError
          | _ => scan rest result_line_ids
          end
      | Some (LineIds list_point_ids) =>
          first ← or_raise (head list_point_ids) IndexError;
          if trailing =? first then
            list_point ← line_coordinates feature;
            if f_id feature =? 144 then
              Ok (Merged (f_id feature) (drop_first (reverse list_point))
                         (drop_first (reverse list_point_ids)))
            else
              Ok (Merged (f_id feature) (drop_first list_point)
                         (drop_first list_point_ids))
          else
            final ← or_raise (last list_point_ids) IndexError;
            if trailing =? final then
              list_point ← line_coordinates feature;
              Ok (Merged (f_id feature) (drop_first (reverse list_point))
                         (drop_first (reverse list_point_ids)))
            else scan rest result_line_ids
      end
  end.

(** [while flag_chance]: every pass that merges deletes one line from the
    pool and starts over; a pass without a match ends the loop. *)
Fixpoint chain (fuel : nat) (dict_line : PyDict.t Z Feature)
    (result_line : list Coord) (result_line_ids : list Z)
    : result (PyDict.t Z Feature * list Coord * list Z) :=
  match fuel with
  | O => OutOfFuel
  | S fuel' =>
      r ← scan (PyDict.values dict_line) result_line_ids;
      match r with
      | NoMatch => Ok (dict_line, result_line, result_line_ids)
      | Merged fid points ids =>
          chain fuel' (PyDict.del fid dict_line)
                (result_line ++ points) (result_line_ids ++ ids)
      end
  end.

Definition coastline_tags : Tags :=
  [("natural"%string, JStr "coastline"); ("origin"%string, JStr "manual cast")].

Definition index_features (fc : FeatureCollection) : PyDict.t Z Feature :=
  fold_left (fun d feature => PyDict.set (f_id feature) feature d) fc PyDict.empty.

(** The pool shrinks by one line per merge, so [S (length pool)] passes are
    enough for the loop to reach its fixed point. *)
Definition concat_coastline_sea (round : Q -> Q)
    (feature_collection : FeatureCollection)
    (ind_start_line : Z) : result FeatureCollection :=
  let dict_line := index_features feature_collection in
  start ← or_raise (PyDict.get ind_start_line dict_line) KeyError;
  line ← line_coordinates start;
  ids ← start_ids start;
  let dict_line := PyDict.del ind_start_line dict_line in
  '(dict_line, result_line, result_line_ids) ←
     chain (S (length dict_line)) dict_line (reverse line) (reverse ids);
  let new_feature :=
    {| f_id := ind_start_line;
       boundingbox := None;
       geometry := geojson_LineString round result_line;
       properties := {| OSM_id_nodes := Some (LineIds result_line_ids);
                        tags := Some coastline_tags;
                        OSM_id := None |} |} in
  Ok (PyDict.values (PyDict.set ind_start_line new_feature dict_line)).

(** *** [extracting_coastline], [remove_feature_from_tag], [concat_coastline] *)

(** [feature.properties.get("tags", {})] *)
Definition tags_or_empty (feature : Feature) : Tags :=
  default [] (tags (properties feature)).

(** [tags.get(key_tag) == value_tag] *)
Definition tag_is (key_tag : string) (value_tag : jval) (feature : Feature) : bool :=
  bool_decide (PyDict.get key_tag (tags_or_empty feature) = Some value_tag).

(** [extracting_coastline]: the loop appends to [coastline_features] every
    LineString whose tag [natural] is ["coastline"]. *)
Fixpoint extracting_coastline_from (coastline_features : FeatureCollection)
    (features : list Feature) : FeatureCollection :=
  match features with
  | [] => coastline_features
  | feature :: rest =>
      match geometry feature with
      | LineString _ =>
          if tag_is "natural" (JStr "coastline") feature
          then extracting_coastline_from (coastline_features ++ [feature]) rest
          else extracting_coastline_from coastline_features rest
      | _ => extracting_coastline_from coastline_features rest
      end
  end.

Definition extracting_coastline (feature_collection : FeatureCollection)
    : FeatureCollection :=
  extracting_coastline_from [] feature_collection.

(** [remove_feature_from_tag]: returns [(feature_collections,
    removed_features)]. *)
Fixpoint remove_feature_from_tag_from
    (feature_collections removed_features : FeatureCollection)
    (features : list Feature) (key_tag : string) (value_tag : jval)
    : FeatureCollection * FeatureCollection :=
  match features with
  | [] => (feature_collections, removed_features)
  | feature :: rest =>
      if tag_is key_tag value_tag feature
      then remove_feature_from_tag_from feature_collections
             (removed_features ++ [feature]) rest key_tag value_tag
      else remove_feature_from_tag_from (feature_collections ++ [feature])
             removed_features rest key_tag value_tag
  end.

Definition remove_feature_from_tag (features_collection : FeatureCollection)
    (key_tag : string) (value_tag : jval) : FeatureCollection * FeatureCollection :=
  remove_feature_from_tag_from [] [] features_collection key_tag value_tag.

(** [concat_coastline]: merge with the default policy, keep the coastlines,
    chain them from the line numbered 711.  (The two dumps to files are left
    out; the result is the collection of the second dump.) *)
Definition concat_coastline (round : Q -> Q) (fuel : nat) (rand : Rand)
    (list_feature_collections : list FeatureCollection) : result FeatureCollection :=
  unity_feature_collection ←
    concat_geojson_features fuel rand list_feature_collections true false;
  let unity_coastlines := extracting_coastline unity_feature_collection in
  concat_coastline_sea round unity_coastlines 711.

End ParceGeojson.

(* ===================================================================== *)
(** ** The entity graph: objects, references and the heap *)
(* ===================================================================== *)

Local Open Scope Q_scope.

(** A Python float: the finite ones are rationals, and comparisons between
    floats are exact. *)
Inductive pyfloat :=
  | Finite (q : Q)
  | PosInf
  | NegInf
  | NaN.

(** [lo <= x <= hi] for finite bounds: false for NaN (every comparison with
    it is false) and for the infinities, so a float in range is a rational;
    [in_range lo hi x] is that rational. *)
Definition in_range (lo hi : Q) (x : pyfloat) : option Q :=
  match x with
  | Finite q => if Qle_bool lo q && Qle_bool q hi then Some q else None
  | PosInf | NegInf | NaN => None
  end.

(** [x < y] on the rationals stored in a node. *)
Definition Qltb (x y : Q) : bool := negb (Qle_bool y x).

(** A reference to an object: its address, and the [_id] it was built with
    (no method ever reassigns [_id]). *)
Record NodeRef := { n_addr : nat; n_id : Z }.
Record WayRef := { w_addr : nat; w_id : Z }.
Record AreaRef := { a_addr : nat; a_id : Z }.

(** [Node.__eq__], [Way.__eq__], [Area.__eq__]: [self._id == other.id]. *)
Definition node_eqb (a b : NodeRef) : bool := (n_id a =? n_id b)%Z.
Definition way_eqb (a b : WayRef) : bool := (w_id a =? w_id b)%Z.
Definition area_eqb (a b : AreaRef) : bool := (a_id a =? a_id b)%Z.

(** [a is b] *)
Definition node_is (a b : NodeRef) : bool := Nat.eqb (n_addr a) (n_addr b).

(** [x in l] for a list of objects compared with [==]. *)
Definition py_in {A} (eqb : A -> A -> bool) (x : A) (l : list A) : bool :=
  existsb (eqb x) l.

(** [l.remove(x)]: drops the first element equal to [x]; [None] stands for
    the [ValueError] of a missing element. *)
Fixpoint py_remove {A} (eqb : A -> A -> bool) (x : A) (l : list A) : option (list A) :=
  match l with
  | [] => None
  | y :: l' =>
      if eqb y x then Some l'
      else match py_remove eqb x l' with
           | Some r => Some (y :: r)
           | None => None
           end
  end.

(** The state of a [Node]; [None] coordinates are attributes never set. *)
Record NodeObj := {
  node_lat : option Q;
  node_lon : option Q;
  node_ways : list WayRef;
  node_areas : list AreaRef;
  node_neighbors : list NodeRef;
}.

(** The state of a [Way].  [_shapely_line] and [_neighbor_ways] are not read
    by the operations embedded here and are left out. *)
Record WayObj := {
  way_tags : Tags;
  way_nodes : list NodeRef;
  way_is_polygon : bool;
  way_min_lat : option Q;
  way_max_lat : option Q;
  way_min_lon : option Q;
  way_max_lon : option Q;
}.

(** The state of an [Area] (without [_shapely_polygon]). *)
Record AreaObj := {
  area_tags : Tags;
  area_outer_border : list NodeRef;
  area_inner_borders : list (list NodeRef);
  area_min_lon : option Q;
  area_max_lon : option Q;
  area_min_lat : option Q;
  area_max_lat : option Q;
}.

#[global] Instance Node_inhabited : Inhabited NodeObj :=
  populate {| node_lat := None; node_lon := None; node_ways := [];
              node_areas := []; node_neighbors := [] |}.
#[global] Instance Way_inhabited : Inhabited WayObj :=
  populate {| way_tags := []; way_nodes := []; way_is_polygon := false;
              way_min_lat := None; way_max_lat := None;
              way_min_lon := None; way_max_lon := None |}.
#[global] Instance Area_inhabited : Inhabited AreaObj :=
  populate {| area_tags := []; area_outer_border := []; area_inner_borders := [];
              area_min_lon := None; area_max_lon := None;
              area_min_lat := None; area_max_lat := None |}.

Record Heap := {
  nodes : gmap nat NodeObj;
  ways : gmap nat WayObj;
  areas : gmap nat AreaObj;
  next_addr : nat;
}.

Definition empty_heap : Heap :=
  {| nodes := ∅; ways := ∅; areas := ∅; next_addr := O |}.

(** Computations on the heap.  An exception leaves the heap as the
    operations before it changed it. *)
Definition M (A : Type) : Type := Heap -> result A * Heap.

#[global] Instance M_ret : MRet M := fun A a h => (Ok a, h).
#[global] Instance M_bind : MBind M := fun A B k m h =>
  match m h with
  | (Ok a, h') => k a h'
  | (Raise e, h') => (Raise e, h')
  | (OutOfFuel, h') => (OutOfFuel, h')
  end.

Definition raise {A} (e : exn) : M A := fun h => (Raise e, h).
Definition out_of_fuel {A} : M A := fun h => (OutOfFuel, h).
Definition lift {A} (r : result A) : M A := fun h => (r, h).

(** [try: body  except ValueError: handler] *)
Definition try_except_ValueError {A} (body handler : M A) : M A := fun h =>
  match body h with
  | (Raise ValueError, h') => handler h'
  | r => r
  end.

(** [for x in l: body(x)] *)
Fixpoint for_each {A} (l : list A) (body : A -> M unit) : M unit :=
  match l with
  | [] => mret tt
  | x :: l' => _ ← body x; for_each l' body
  end.

(** [[f(x) for x in l]] *)
Fixpoint map_M {A B} (f : A -> M B) (l : list A) : M (list B) :=
  match l with
  | [] => mret []
  | x :: l' => y ← f x; ys ← map_M f l'; mret (y :: ys)
  end.

Definition get_node (r : NodeRef) : M NodeObj := fun h => (Ok (nodes h !!! n_addr r), h).
Definition get_way (r : WayRef) : M WayObj := fun h => (Ok (ways h !!! w_addr r), h).
Definition get_area (r : AreaRef) : M AreaObj := fun h => (Ok (areas h !!! a_addr r), h).

Definition put_node (r : NodeRef) (o : NodeObj) : M unit := fun h =>
  (Ok tt, {| nodes := <[n_addr r := o]> (nodes h); ways := ways h;
             areas := areas h; next_addr := next_addr h |}).
Definition put_way (r : WayRef) (o : WayObj) : M unit := fun h =>
  (Ok tt, {| nodes := nodes h; ways := <[w_addr r := o]> (ways h);
             areas := areas h; next_addr := next_addr h |}).
Definition put_area (r : AreaRef) (o : AreaObj) : M unit := fun h =>
  (Ok tt, {| nodes := nodes h; ways := ways h;
             areas := <[a_addr r := o]> (areas h); next_addr := next_addr h |}).

(** A fresh address for a new object. *)
Definition alloc : M nat := fun h =>
  (Ok (next_addr h), {| nodes := nodes h; ways := ways h; areas := areas h;
                        next_addr := S (next_addr h) |}).

(** [min(l)], [max(l)]: the first smallest (largest) element; [ValueError]
    on an empty list. *)
Definition py_min (l : list Q) : result Q :=
  match l with
  | [] => Raise ValueError
  | x :: l' => Ok (fold_left (fun m y => if Qltb y m then y else m) l' x)
  end.

Definition py_max (l : list Q) : result Q :=
  match l with
  | [] => Raise ValueError
  | x :: l' => Ok (fold_left (fun m y => if Qltb m y then y else m) l' x)
  end.

(** [if cur is None or x < cur: cur = x] and its mirror image. *)
Definition extend_min (cur : option Q) (x : Q) : option Q :=
  match cur with
  | None => Some x
  | Some m => if Qltb x m then Some x else Some m
  end.

Definition extend_max (cur : option Q) (x : Q) : option Q :=
  match cur with
  | None => Some x
  | Some m => if Qltb m x then Some x else Some m
  end.

(** [x <= y] and [x >= y] for a stored bound [x] ([None] when the attribute
    holds [None]: the comparison is a [TypeError]) and a float [y]. *)
Definition bound_le (x : option Q) (y : pyfloat) : result bool :=
  match x with
  | None => Raise TypeError
  | Some q =>
      Ok match y with
         | Finite r => Qle_bool q r
         | PosInf => true
         | NegInf | NaN => false
         end
  end.

Definition bound_ge (x : option Q) (y : pyfloat) : result bool :=
  match x with
  | None => Raise TypeError
  | Some q =>
      Ok match y with
         | Finite r => Qle_bool r q
         | NegInf => true
         | PosInf | NaN => false
         end
  end.

(** The test of the bounding-box queries, with the short circuit of [and]:
<<
    x.min_lat <= max_lat and x.max_lat >= min_lat
    and x.min_lon <= max_lon and x.max_lon >= min_lon
>> *)
Definition box_meets (x_min_lat x_max_lat x_min_lon x_max_lon : option Q)
    (min_lat min_lon max_lat max_lon : pyfloat) : result bool :=
  b ← bound_le x_min_lat max_lat;
  if negb b then Ok false else
  b ← bound_ge x_max_lat min_lat;
  if negb b then Ok false else
  b ← bound_le x_min_lon max_lon;
  if negb b then Ok false else
  bound_ge x_max_lon min_lon.

(* ===================================================================== *)
(** ** [node_model.py]: class [Node] *)
(* ===================================================================== *)

Module Node.

(** [Node._validate_coordinates].  [lon] is [None] when [__init__] is called
    with a latitude only: the comparison with [None] is a [TypeError]. *)
Definition _validate_coordinates (lat : pyfloat) (lon : option pyfloat) : result (Q * Q) :=
  match in_range (-90) 90 lat with
  | None => Raise ValueError
  | Some la =>
      match lon with
      | None => Raise TypeError
      | Some lon =>
          match in_range (-180) 180 lon with
          | None => Raise ValueError
          | Some lo => Ok (la, lo)
          end
      end
  end.

(** [Node.__init__]: the guard reads [lat is not None and lat is not None],
    so a node built without a latitude gets no coordinates, whatever [lon]
    is. *)
Definition __init__ (node_id : Z) (lat lon : option pyfloat)
    (ways : list WayRef) (areas : list AreaRef) : M NodeRef :=
  coords ← lift (match lat with
                 | None => Ok None
                 | Some lat => c ← _validate_coordinates lat lon; Ok (Some c)
                 end);
  a ← alloc;
  let self := {| n_addr := a; n_id := node_id |} in
  _ ← put_node self {| node_lat := fst <$> coords; node_lon := snd <$> coords;
                       node_ways := ways; node_areas := areas;
                       node_neighbors := [] |};
  mret self.

(** The [coordinates] property: [(self._lat, self._lon)]. *)
Definition coordinates (self : NodeRef) : M (Q * Q) :=
  o ← get_node self;
  match node_lat o, node_lon o with
  | Some la, Some lo => mret (la, lo)
  | _, _ => raise AttributeError
  end.

(** The [coordinates] setter. *)
Definition set_coordinates (self : NodeRef) (coords : pyfloat * pyfloat) : M unit :=
  c ← lift (_validate_coordinates (fst coords) (Some (snd coords)));
  o ← get_node self;
  put_node self {| node_lat := Some (fst c); node_lon := Some (snd c);
                   node_ways := node_ways o; node_areas := node_areas o;
                   node_neighbors := node_neighbors o |}.

Definition lat (self : NodeRef) : M Q :=
  o ← get_node self;
  match node_lat o with Some x => mret x | None => raise AttributeError end.

Definition lon (self : NodeRef) : M Q :=
  o ← get_node self;
  match node_lon o with Some x => mret x | None => raise AttributeError end.

Definition with_ways (o : NodeObj) (l : list WayRef) : NodeObj :=
  {| node_lat := node_lat o; node_lon := node_lon o; node_ways := l;
     node_areas := node_areas o; node_neighbors := node_neighbors o |}.

Definition with_areas (o : NodeObj) (l : list AreaRef) : NodeObj :=
  {| node_lat := node_lat o; node_lon := node_lon o; node_ways := node_ways o;
     node_areas := l; node_neighbors := node_neighbors o |}.

Definition with_neighbors (o : NodeObj) (l : list NodeRef) : NodeObj :=
  {| node_lat := node_lat o; node_lon := node_lon o; node_ways := node_ways o;
     node_areas := node_areas o; node_neighbors := l |}.

(** [Node.add_way] *)
Definition add_way (self : NodeRef) (way : WayRef) : M unit :=
  o ← get_node self;
  if negb (py_in way_eqb way (node_ways o))
  then put_node self (with_ways o (node_ways o ++ [way]))
  else mret tt.

(** [Node.remove_way] *)
Definition remove_way (self : NodeRef) (way : WayRef) : M bool :=
  o ← get_node self;
  match py_remove way_eqb way (node_ways o) with
  | Some l => _ ← put_node self (with_ways o l); mret true
  | None => mret false
  end.

(** [Node.add_area] *)
Definition add_area (self : NodeRef) (area : AreaRef) : M unit :=
  o ← get_node self;
  if negb (py_in area_eqb area (node_areas o))
  then put_node self (with_areas o (node_areas o ++ [area]))
  else mret tt.

(** [Node.add_neighbor]; the fuel bounds the depth of the mutual calls. *)
Fixpoint add_neighbor (fuel : nat) (self neighbor : NodeRef) : M unit :=
  match fuel with
  | O => out_of_fuel
  | S fuel' =>
      if node_is neighbor self then raise ValueError
      else
        o ← get_node self;
        if negb (py_in node_eqb neighbor (node_neighbors o)) then
          _ ← put_node self (with_neighbors o (node_neighbors o ++ [neighbor]));
          add_neighbor fuel' neighbor self
        else mret tt
  end.

(** [Node.remove_neighbor] *)
Fixpoint remove_neighbor (fuel : nat) (self neighbor : NodeRef) : M bool :=
  match fuel with
  | O => out_of_fuel
  | S fuel' =>
      o ← get_node self;
      match py_remove node_eqb neighbor (node_neighbors o) with
      | Some l =>
          _ ← put_node self (with_neighbors o l);
          _ ← remove_neighbor fuel' neighbor self;
          mret true
      | None => mret false
      end
  end.

(** The [neighbors] property returns the list itself. *)
Definition neighbors (self : NodeRef) : M (list NodeRef) :=
  o ← get_node self; mret (node_neighbors o).

(** [Node.clear_ways] *)
Definition clear_ways (self : NodeRef) : M unit :=
  o ← get_node self; put_node self (with_ways o []).

(** The properties [way_count], [neighbor_count] and [degree]. *)
Definition way_count (self : NodeRef) : M nat :=
  o ← get_node self; mret (length (node_ways o)).

Definition neighbor_count (self : NodeRef) : M nat :=
  o ← get_node self; mret (length (node_neighbors o)).

Definition degree (self : NodeRef) : M nat :=
  o ← get_node self; mret (length (node_neighbors o)).

(** [Node.clear_neighbors]:
<<
    for neighbor in self._neighbors:
        self.remove_neighbor(neighbor)
>>
    The loop runs over the list that [remove_neighbor] shrinks.  The
    iterator of a list holds an index: pass number [i] reads
    [self._neighbors[i]] of the list as it is then, and the loop ends when
    [i] reaches its length.  The fuel bounds the passes and the depth of
    the calls. *)
Fixpoint clear_neighbors_from (fuel : nat) (self : NodeRef) (i : nat) : M unit :=
  match fuel with
  | O => out_of_fuel
  | S fuel' =>
      o ← get_node self;
      match node_neighbors o !! i with
      | None => mret tt
      | Some neighbor =>
          _ ← remove_neighbor fuel' self neighbor;
          clear_neighbors_from fuel' self (S i)
      end
  end.

Definition clear_neighbors (fuel : nat) (self : NodeRef) : M unit :=
  clear_neighbors_from fuel self 0.

(** The properties [is_isolated_neighbors], [is_isolated_ways] and
    [is_connected]. *)
Definition is_isolated_neighbors (self : NodeRef) : M bool :=
  o ← get_node self;
  mret (match node_neighbors o with [] => true | _ => false end).

Definition is_isolated_ways (self : NodeRef) : M bool :=
  o ← get_node self;
  mret (match node_ways o with [] => true | _ => false end).

Definition is_connected (self : NodeRef) : M bool :=
  a ← is_isolated_neighbors self;
  if a : bool then (b ← is_isolated_ways self; mret (negb b)) else mret true.

End Node.

(* ===================================================================== *)
(** ** [way_model.py]: class [Way] *)
(* ===================================================================== *)

Module Way.

Definition with_nodes (o : WayObj) (l : list NodeRef) : WayObj :=
  {| way_tags := way_tags o; way_nodes := l; way_is_polygon := way_is_polygon o;
     way_min_lat := way_min_lat o; way_max_lat := way_max_lat o;
     way_min_lon := way_min_lon o; way_max_lon := way_max_lon o |}.

Definition with_is_polygon (o : WayObj) (b : bool) : WayObj :=
  {| way_tags := way_tags o; way_nodes := way_nodes o; way_is_polygon := b;
     way_min_lat := way_min_lat o; way_max_lat := way_max_lat o;
     way_min_lon := way_min_lon o; way_max_lon := way_max_lon o |}.

Definition with_min_lat (o : WayObj) (x : option Q) : WayObj :=
  {| way_tags := way_tags o; way_nodes := way_nodes o;
     way_is_polygon := way_is_polygon o;
     way_min_lat := x; way_max_lat := way_max_lat o;
     way_min_lon := way_min_lon o; way_max_lon := way_max_lon o |}.

Definition with_max_lat (o : WayObj) (x : option Q) : WayObj :=
  {| way_tags := way_tags o; way_nodes := way_nodes o;
     way_is_polygon := way_is_polygon o;
     way_min_lat := way_min_lat o; way_max_lat := x;
     way_min_lon := way_min_lon o; way_max_lon := way_max_lon o |}.

Definition with_min_lon (o : WayObj) (x : option Q) : WayObj :=
  {| way_tags := way_tags o; way_nodes := way_nodes o;
     way_is_polygon := way_is_polygon o;
     way_min_lat := way_min_lat o; way_max_lat := way_max_lat o;
     way_min_lon := x; way_max_lon := way_max_lon o |}.

Definition with_max_lon (o : WayObj) (x : option Q) : WayObj :=
  {| way_tags := way_tags o; way_nodes := way_nodes o;
     way_is_polygon := way_is_polygon o;
     way_min_lat := way_min_lat o; way_max_lat := way_max_lat o;
     way_min_lon := way_min_lon o; way_max_lon := x |}.

(** [self._min_lat = v] and the like, on the object in the heap. *)
Definition update (self : WayRef) (f : WayObj -> WayObj) : M unit :=
  o ← get_way self; put_way self (f o).

(** [lats = [node.coordinates[0] for node in self._nodes]] *)
Definition lats_of (l : list NodeRef) : M (list Q) :=
  map_M (fun node => c ← Node.coordinates node; mret (fst c)) l.

Definition lons_of (l : list NodeRef) : M (list Q) :=
  map_M (fun node => c ← Node.coordinates node; mret (snd c)) l.

(** The four assignments that recompute the bounding box from scratch, in
    the order of the source; each [min]/[max] may raise [ValueError]. *)
Definition recompute_bounds (self : WayRef) : M unit :=
  o ← get_way self;
  lats ← lats_of (way_nodes o);
  lons ← lons_of (way_nodes o);
  v ← lift (py_min lats); _ ← update self (fun o => with_min_lat o (Some v));
  v ← lift (py_min lons); _ ← update self (fun o => with_min_lon o (Some v));
  v ← lift (py_max lats); _ ← update self (fun o => with_max_lat o (Some v));
  v ← lift (py_max lons); update self (fun o => with_max_lon o (Some v)).

(** [Way.__init__] (without [shapely_line]) *)
Definition __init__ (way_id : Z) (tags : Tags) (nodes : list NodeRef)
    (min_lat max_lat min_lon max_lon : option Q) : M WayRef :=
  a ← alloc;
  let self := {| w_addr := a; w_id := way_id |} in
  _ ← put_way self {| way_tags := tags; way_nodes := nodes; way_is_polygon := false;
                      way_min_lat := min_lat; way_max_lat := max_lat;
                      way_min_lon := min_lon; way_max_lon := max_lon |};
  _ ← match nodes with
      | [] => mret tt
      | _ =>
          _ ← for_each nodes (fun node => Node.add_way node self);
          recompute_bounds self
      end;
  mret self.

(** The [is_polygon] property *)
Definition closed (l : list NodeRef) : bool :=
  match head l, last l with
  | Some a, Some b => (2 <=? length l)%nat && node_eqb a b
  | _, _ => false
  end.

(** [Way.add_node] *)
Definition add_node (self : WayRef) (node : NodeRef) : M unit :=
  o ← get_way self;
  _ ← put_way self (with_nodes o (way_nodes o ++ [node]));
  _ ← Node.add_way node self;
  o ← get_way self;
  _ ← (if closed (way_nodes o) then put_way self (with_is_polygon o true) else mret tt);
  c ← Node.coordinates node;
  _ ← update self (fun o => with_min_lat o (extend_min (way_min_lat o) (fst c)));
  _ ← update self (fun o => with_max_lat o (extend_max (way_max_lat o) (fst c)));
  _ ← update self (fun o => with_min_lon o (extend_min (way_min_lon o) (snd c)));
  update self (fun o => with_max_lon o (extend_max (way_max_lon o) (snd c))).

(** [Way.remove_node] *)
Definition remove_node (self : WayRef) (node : NodeRef) : M bool :=
  try_except_ValueError
    (_ ← Node.remove_way node self;
     o ← get_way self;
     l ← lift (or_raise (py_remove node_eqb node (way_nodes o)) ValueError);
     _ ← put_way self (with_nodes o l);
     _ ← recompute_bounds self;
     mret true)
    (mret false).

Definition nodes_of (self : WayRef) : M (list NodeRef) :=
  o ← get_way self; mret (way_nodes o).

(** The [node_count] property, [get_node_ids], [has_node]. *)
Definition node_count (self : WayRef) : M nat :=
  o ← get_way self; mret (length (way_nodes o)).

Definition get_node_ids (self : WayRef) : M (list Z) :=
  o ← get_way self; mret (map n_id (way_nodes o)).

Definition has_node (self : WayRef) (node : NodeRef) : M bool :=
  o ← get_way self; mret (py_in node_eqb node (way_nodes o)).

(** [Way.clear_nodes]:
<<
    for node in self._nodes:
        self.remove_node(node)
>>
    As in [Node.clear_neighbors], pass number [i] reads [self._nodes[i]] of
    the list that [remove_node] shrinks. *)
Fixpoint clear_nodes_from (fuel : nat) (self : WayRef) (i : nat) : M unit :=
  match fuel with
  | O => out_of_fuel
  | S fuel' =>
      o ← get_way self;
      match way_nodes o !! i with
      | None => mret tt
      | Some node =>
          _ ← remove_node self node;
          clear_nodes_from fuel' self (S i)
      end
  end.

Definition clear_nodes (fuel : nat) (self : WayRef) : M unit :=
  clear_nodes_from fuel self 0.

(** [self._neighbor_ways : Dict[Way, List[Node]]].  No other operation
    embedded here reads it, so it is passed beside the way object.  Its keys
    are [Way] objects, hashed and compared by id; an entry keeps the key
    object it was created with. *)
Definition NeighborWays : Type := list (WayRef * list NodeRef).

(** [Way.__eq__] with an operand that is not a [Way]: [isinstance] fails and
    the answer is [False]. *)
Definition eq_int (self : WayRef) (other : Z) : bool := false.

(** [way.id in self._neighbor_ways]: the key looked up is the [int] id, and
    it is compared with the [Way] keys of the dict. *)
Definition id_in_neighbor_ways (way_id : Z) (d : NeighborWays) : bool :=
  existsb (fun entry => eq_int (fst entry) way_id) d.

(** [self._neighbor_ways[way]] *)
Fixpoint neighbor_ways_get (way : WayRef) (d : NeighborWays) : option (list NodeRef) :=
  match d with
  | [] => None
  | (w, l) :: rest => if way_eqb w way then Some l else neighbor_ways_get way rest
  end.

(** [self._neighbor_ways[way] = l] *)
Fixpoint neighbor_ways_set (way : WayRef) (l : list NodeRef) (d : NeighborWays)
    : NeighborWays :=
  match d with
  | [] => [(way, l)]
  | (w, l') :: rest =>
      if way_eqb w way then (w, l) :: rest
      else (w, l') :: neighbor_ways_set way l rest
  end.

(** [Way.add_neighbor_way] *)
Definition add_neighbor_way (self : WayRef) (d : NeighborWays)
    (way : WayRef) (shared_node : NodeRef) : M NeighborWays :=
  if (w_id way =? w_id self)%Z then raise ValueError
  else
    o ← get_way self;
    other ← get_way way;
    if negb (py_in node_eqb shared_node (way_nodes o))
       || negb (py_in node_eqb shared_node (way_nodes other))
    then raise ValueError
    else if id_in_neighbor_ways (w_id way) d then
      match neighbor_ways_get way d with
      | Some l => mret (neighbor_ways_set way (l ++ [shared_node]) d)
      | None => raise KeyError
      end
    else mret (neighbor_ways_set way [shared_node] d).

(** [Way.set_neighbor_way]: the dict is cleared and filled again from the
    way lists of the nodes. *)
Fixpoint set_neighbor_way_ways (self : WayRef) (node : NodeRef)
    (l : list WayRef) (d : NeighborWays) : M NeighborWays :=
  match l with
  | [] => mret d
  | way :: rest =>
      d ← (if negb (w_id way =? w_id self)%Z
           then add_neighbor_way self d way node else mret d);
      set_neighbor_way_ways self node rest d
  end.

Fixpoint set_neighbor_way_nodes (self : WayRef) (l : list NodeRef)
    (d : NeighborWays) : M NeighborWays :=
  match l with
  | [] => mret d
  | node :: rest =>
      o ← get_node node;
      d ← set_neighbor_way_ways self node (node_ways o) d;
      set_neighbor_way_nodes self rest d
  end.

Definition set_neighbor_way (self : WayRef) : M NeighborWays :=
  o ← get_way self; set_neighbor_way_nodes self (way_nodes o) [].

End Way.

(* ===================================================================== *)
(** ** [area_model.py]: class [Area] *)
(* ===================================================================== *)

Module Area.

Definition with_outer_border (o : AreaObj) (l : list NodeRef) : AreaObj :=
  {| area_tags := area_tags o; area_outer_border := l;
     area_inner_borders := area_inner_borders o;
     area_min_lon := area_min_lon o; area_max_lon := area_max_lon o;
     area_min_lat := area_min_lat o; area_max_lat := area_max_lat o |}.

Definition with_inner_borders (o : AreaObj) (l : list (list NodeRef)) : AreaObj :=
  {| area_tags := area_tags o; area_outer_border := area_outer_border o;
     area_inner_borders := l;
     area_min_lon := area_min_lon o; area_max_lon := area_max_lon o;
     area_min_lat := area_min_lat o; area_max_lat := area_max_lat o |}.

(** One step of the double loop of [_calculate_bounding_box]. *)
Definition extend_box (self : AreaRef) (node : NodeRef) : M unit :=
  c ← Node.coordinates node;
  o ← get_area self;
  put_area self
    {| area_tags := area_tags o; area_outer_border := area_outer_border o;
       area_inner_borders := area_inner_borders o;
       area_min_lon := extend_min (area_min_lon o) (snd c);
       area_max_lon := extend_max (area_max_lon o) (snd c);
       area_min_lat := extend_min (area_min_lat o) (fst c);
       area_max_lat := extend_max (area_max_lat o) (fst c) |}.

(** [Area._calculate_bounding_box] *)
Definition _calculate_bounding_box (self : AreaRef) : M unit :=
  o ← get_area self;
  for_each (area_outer_border o :: area_inner_borders o)
    (fun border => for_each border (extend_box self)).

(** [Area.__init__] (without [shapely_polygon]) *)
Definition __init__ (area_id : Z) (tags : Tags) (outer_border : list NodeRef)
    (inner_borders : list (list NodeRef))
    (min_lon max_lon min_lat max_lat : option Q) : M AreaRef :=
  match inner_borders, outer_border with
  | _ :: _, [] => raise ValueError
  | _, _ =>
      a ← alloc;
      let self := {| a_addr := a; a_id := area_id |} in
      _ ← put_area self {| area_tags := tags; area_outer_border := outer_border;
                           area_inner_borders := inner_borders;
                           area_min_lon := min_lon; area_max_lon := max_lon;
                           area_min_lat := min_lat; area_max_lat := max_lat |};
      _ ← match outer_border, inner_borders with
          | [], [] => mret tt
          | _, _ => _calculate_bounding_box self
          end;
      mret self
  end.

(** The [bounding_box] property: [[min_lon, min_lat, max_lon, max_lat]], or
    [None] as soon as one of the four is [None]. *)
Definition bounding_box (self : AreaRef) : M (option (Q * Q * Q * Q)) :=
  o ← get_area self;
  mret (match area_min_lon o, area_max_lon o, area_min_lat o, area_max_lat o with
        | Some min_lon, Some max_lon, Some min_lat, Some max_lat =>
            Some (min_lon, min_lat, max_lon, max_lat)
        | _, _, _, _ => None
        end).

Definition with_tags (o : AreaObj) (t : Tags) : AreaObj :=
  {| area_tags := t; area_outer_border := area_outer_border o;
     area_inner_borders := area_inner_borders o;
     area_min_lon := area_min_lon o; area_max_lon := area_max_lon o;
     area_min_lat := area_min_lat o; area_max_lat := area_max_lat o |}.

(** [self._min_lon = self._max_lon = self._min_lat = self._max_lat = None] *)
Definition without_box (o : AreaObj) : AreaObj :=
  {| area_tags := area_tags o; area_outer_border := area_outer_border o;
     area_inner_borders := area_inner_borders o;
     area_min_lon := None; area_max_lon := None;
     area_min_lat := None; area_max_lat := None |}.

(** [Area.add_tag]: the key must be a string that is not empty, the value a
    string. *)
Definition add_tag (self : AreaRef) (key : string) (value : jval) : M unit :=
  if bool_decide (key = ""%string) then raise ValueError
  else
    match value with
    | JNum _ => raise ValueError
    | JStr _ =>
        o ← get_area self;
        put_area self (with_tags o (PyDict.set key value (area_tags o)))
    end.

Definition get_tag (self : AreaRef) (key : string) : M (option jval) :=
  o ← get_area self; mret (PyDict.get key (area_tags o)).

Definition has_tag (self : AreaRef) (key : string) : M bool :=
  o ← get_area self; mret (PyDict.mem key (area_tags o)).

Definition remove_tag (self : AreaRef) (key : string) : M bool :=
  o ← get_area self;
  if PyDict.mem key (area_tags o) then
    _ ← put_area self (with_tags o (PyDict.del key (area_tags o)));
    mret true
  else mret false.

Definition clear_tags (self : AreaRef) : M unit :=
  o ← get_area self; put_area self (with_tags o []).

(** [Area.set_outer_border] *)
Definition set_outer_border (self : AreaRef) (border : list NodeRef) : M unit :=
  o ← get_area self;
  _ ← put_area self (with_outer_border o border);
  _calculate_bounding_box self.

(** The setters of the properties [outer_border] and [inner_borders]: the
    argument is a list of nodes (a list of lists of nodes), so the
    [isinstance] tests pass; the attribute is assigned and nothing else is
    done. *)
Definition outer_border_setter (self : AreaRef) (new_outer_border : list NodeRef)
    : M unit :=
  o ← get_area self; put_area self (with_outer_border o new_outer_border).

Definition inner_borders_setter (self : AreaRef)
    (new_inner_borders : list (list NodeRef)) : M unit :=
  o ← get_area self; put_area self (with_inner_borders o new_inner_borders).

(** [Area.remove_outer_border] *)
Definition remove_outer_border (self : AreaRef) : M unit :=
  o ← get_area self;
  match area_inner_borders o with
  | _ :: _ => raise ValueError
  | [] => put_area self (without_box (with_outer_border o []))
  end.

(** [Area.add_inner_border] *)
Definition add_inner_border (self : AreaRef) (border : list NodeRef) : M unit :=
  o ← get_area self;
  match area_outer_border o with
  | [] => raise ValueError
  | _ :: _ => put_area self (with_inner_borders o (area_inner_borders o ++ [border]))
  end.

(** [a == b] for two lists of nodes: the same length and equal nodes ([==],
    by id) at every position. *)
Fixpoint border_eqb (a b : list NodeRef) : bool :=
  match a, b with
  | [], [] => true
  | x :: a', y :: b' => node_eqb x y && border_eqb a' b'
  | _, _ => false
  end.

(** [Area.remove_inner_border] *)
Definition remove_inner_border (self : AreaRef) (border : list NodeRef) : M bool :=
  o ← get_area self;
  match py_remove border_eqb border (area_inner_borders o) with
  | Some l =>
      _ ← put_area self (without_box (with_inner_borders o l));
      mret true
  | None => mret false
  end.

(** [Area.clear_inner_borders] *)
Definition clear_inner_borders (self : AreaRef) : M unit :=
  o ← get_area self;
  put_area self (without_box (with_inner_borders o [])).

End Area.

(* ===================================================================== *)
(** ** The registries and the graph store *)
(* ===================================================================== *)

Module NodeCollector.

(** [_nodes : Dict[int, Node]] *)
Definition t := PyDict.t Z NodeRef.

Definition empty : t := PyDict.empty.

(** [NodeCollector.add_node] *)
Definition add_node (self : t) (node : NodeRef) : t :=
  PyDict.set (n_id node) node self.

(** [NodeCollector.remove_node]: the entry is deleted, nothing else is
    touched. *)
Definition remove_node (self : t) (node_id : Z) : M (bool * t) :=
  if PyDict.mem node_id self then mret (true, PyDict.del node_id self)
  else mret (false, self).

(** [NodeCollector.clear_nodes] *)
Definition clear_nodes (self : t) : t := PyDict.empty.

(** [{node_id: node for node_id, node in self._nodes.items() if keep(node)}] *)
Fixpoint comprehension (keep : NodeRef -> M bool) (items : list (Z * NodeRef))
    (acc : t) : M t :=
  match items with
  | [] => mret acc
  | (node_id, node) :: rest =>
      b ← keep node;
      comprehension keep rest (if b : bool then PyDict.set node_id node acc else acc)
  end.

(** [NodeCollector.clear_isolated_nodes]; the result is the new [_nodes]. *)
Definition clear_isolated_nodes (self : t)
    (from_isolated_neighbors from_isolated_ways : bool) : M t :=
  self ← (if from_isolated_neighbors
          then comprehension Node.is_isolated_neighbors self PyDict.empty
          else mret self);
  self ← (if from_isolated_ways
          then comprehension Node.is_isolated_ways self PyDict.empty
          else mret self);
  if negb from_isolated_neighbors && negb from_isolated_ways
  then comprehension (fun node => b ← Node.is_connected node; mret (negb b))
         self PyDict.empty
  else mret self.

End NodeCollector.

Module WayCollector.

Definition t := PyDict.t Z WayRef.

Definition empty : t := PyDict.empty.

(** [WayCollector.add_way] *)
Definition add_way (self : t) (way : WayRef) : t :=
  PyDict.set (w_id way) way self.

(** [WayCollector.remove_way] *)
Definition remove_way (self : t) (way_id : Z) : M (bool * t) :=
  match PyDict.get way_id self with
  | Some way =>
      l ← Way.nodes_of way;
      _ ← for_each l (fun node => _ ← Node.remove_way node way; mret tt);
      mret (true, PyDict.del way_id self)
  | None => mret (false, self)
  end.

(** [WayCollector.get_ways_by_bounding_box]: the loop over
    [self._ways.values()], with the dict [result] built so far. *)
Fixpoint ways_in_box (l : list WayRef) (result : t)
    (min_lat min_lon max_lat max_lon : pyfloat) : M t :=
  match l with
  | [] => mret result
  | way :: rest =>
      o ← get_way way;
      b ← lift (box_meets (way_min_lat o) (way_max_lat o)
                          (way_min_lon o) (way_max_lon o)
                          min_lat min_lon max_lat max_lon);
      ways_in_box rest (if b : bool then PyDict.set (w_id way) way result else result)
        min_lat min_lon max_lat max_lon
  end.

Definition get_ways_by_bounding_box (self : t)
    (min_lat min_lon max_lat max_lon : pyfloat) : M t :=
  ways_in_box (PyDict.values self) PyDict.empty min_lat min_lon max_lat max_lon.

(** [WayCollector.get_way] *)
Definition get_way (self : t) (way_id : Z) : option WayRef := PyDict.get way_id self.

End WayCollector.

Module AreaCollector.

Definition t := PyDict.t Z AreaRef.

Definition empty : t := PyDict.empty.

(** [AreaCollector.add_area] *)
Definition add_area (self : t) (area : AreaRef) : t :=
  PyDict.set (a_id area) area self.


(** [AreaCollector.replace_area] *)
Definition replace_area (self : t) (old_area new_area : AreaRef) : t :=
  let self := if PyDict.mem (a_id old_area) self
              then PyDict.del (a_id old_area) self else self in
  PyDict.set (a_id new_area) new_area self.

(** [AreaCollector.clean_areas] *)
Definition clean_areas (self : t) : t := PyDict.empty.

(** [AreaCollector.get_areas_by_bounding_box]: the loop over
    [self._areas.items()]. *)
Fixpoint areas_in_box (items : list (Z * AreaRef)) (result : t)
    (min_lat min_lon max_lat max_lon : pyfloat) : M t :=
  match items with
  | [] => mret result
  | (area_id, area) :: rest =>
      o ← get_area area;
      b ← lift (box_meets (area_min_lat o) (area_max_lat o)
                          (area_min_lon o) (area_max_lon o)
                          min_lat min_lon max_lat max_lon);
      areas_in_box rest (if b : bool then PyDict.set area_id area result else result)
        min_lat min_lon max_lat max_lon
  end.

Definition get_areas_by_bounding_box (self : t)
    (min_lat min_lon max_lat max_lon : pyfloat) : M t :=
  areas_in_box self PyDict.empty min_lat min_lon max_lat max_lon.

(** [AreaCollector.get_area] *)
Definition get_area (self : t) (area_id : Z) : option AreaRef :=
  PyDict.get area_id self.

End AreaCollector.

Module GeoObjectStorage.

Record t := {
  node_collector : NodeCollector.t;
  ways_collector : WayCollector.t;
  area_collector : AreaCollector.t;
}.

(** The [global_bounding_box] property:
<<
    # min_lat, min_lon, max_lat, max_lon = None, None, None, None
    return 0, 90, 0, 90  # TODO
>> *)
Definition global_bounding_box (self : t) : Q * Q * Q * Q :=
  (0, 90, 0, 90).

End GeoObjectStorage.

(* ===================================================================== *)
(** ** [IOPs_geojson.py]: the interchange codec *)
(* ===================================================================== *)

Module IOPs_geojson.

(** [(node.lon, node.lat)] *)
Definition lon_lat (node : NodeRef) : M Coord :=
  x ← Node.lon node; y ← Node.lat node; mret (x, y).

Definition no_properties : Properties :=
  {| OSM_id_nodes := None; tags := None; OSM_id := None |}.

Section Write.
(** The rounding of the [geojson] geometry constructors. *)
Variable round : Q -> Q.

(** [_convert_way_collector_to_list_features] *)
Definition _convert_way_collector_to_list_features (ways_collector : WayCollector.t)
    : M (list Feature) :=
  map_M (fun way =>
    o ← get_way way;
    coordinates ← map_M lon_lat (way_nodes o);
    let list_node_id_from_way := map n_id (way_nodes o) in
    mret {| f_id := w_id way;
            boundingbox := Some (way_min_lon o, way_min_lat o,
                                 way_max_lon o, way_max_lat o);
            geometry := geojson_LineString round coordinates;
            properties := {| OSM_id_nodes := Some (LineIds list_node_id_from_way);
                             tags := Some (way_tags o);
                             OSM_id := None |} |})
    (PyDict.values ways_collector).

(** [ring[0] != ring[-1]] on a ring that is not empty *)
Definition unclosed (ring : list NodeRef) : bool :=
  match head ring, last ring with
  | Some a, Some b => negb (node_eqb a b)
  | _, _ => false
  end.

(** [ring.append(ring[0])] *)
Definition close_ring (ring : list NodeRef) : list NodeRef :=
  match ring with
  | [] => ring
  | first :: _ => ring ++ [first]
  end.

(** [for inner_border in area.inner_borders], at ring number [j] with the
    rings [pending].  A ring under 3 nodes is skipped; an unclosed ring gets
    its first node appended, in the list held by the area object.  (Every
    ring is a list object of its own, as [read_geojson] builds them.) *)
Fixpoint convert_inner_borders (area : AreaRef) (j : nat)
    (pending : list (list NodeRef))
    (all_rings : list (list Coord)) (list_node_id_from_area : list (list Z))
    : M (list (list Coord) * list (list Z)) :=
  match pending with
  | [] => mret (all_rings, list_node_id_from_area)
  | inner_border :: rest =>
      if (length inner_border <? 3)%nat then
        convert_inner_borders area (S j) rest all_rings list_node_id_from_area
      else
        inner_border ←
          (if unclosed inner_border then
             o ← get_area area;
             _ ← put_area area
                   (Area.with_inner_borders o
                      (<[j := close_ring inner_border]> (area_inner_borders o)));
             mret (close_ring inner_border)
           else mret inner_border);
        inner_coordinates ← map_M lon_lat inner_border;
        convert_inner_borders area (S j) rest
          (all_rings ++ [inner_coordinates])
          (list_node_id_from_area ++ [map n_id inner_border])
  end.

(** The body of [for area in areas_collector.areas.values()]; [None] is the
    [continue] of an outer ring under 3 nodes. *)
Definition convert_area (area : AreaRef) : M (option Feature) :=
  o ← get_area area;
  if (length (area_outer_border o) <? 3)%nat then mret None
  else
    outer_border ←
      (if unclosed (area_outer_border o) then
         _ ← put_area area
               (Area.with_outer_border o (close_ring (area_outer_border o)));
         mret (close_ring (area_outer_border o))
       else mret (area_outer_border o));
    outer_coordinates ← map_M lon_lat outer_border;
    o ← get_area area;
    '(all_rings, list_node_id_from_area) ←
       convert_inner_borders area 0 (area_inner_borders o)
         [outer_coordinates] [map n_id outer_border];
    o ← get_area area;
    mret (Some {| f_id := a_id area;
                  boundingbox := Some (area_min_lon o, area_min_lat o,
                                       area_max_lon o, area_max_lat o);
                  geometry := geojson_Polygon round all_rings;
                  properties := {| OSM_id_nodes := Some (RingIds list_node_id_from_area);
                                   tags := Some (area_tags o);
                                   OSM_id := None |} |}).

(** [_convert_area_collector_to_list_features] *)
Fixpoint convert_areas (l : list AreaRef) : M (list Feature) :=
  match l with
  | [] => mret []
  | area :: rest =>
      f ← convert_area area;
      fs ← convert_areas rest;
      mret (match f with Some f => f :: fs | None => fs end)
  end.

Definition _convert_area_collector_to_list_features (areas_collector : AreaCollector.t)
    : M (list Feature) :=
  convert_areas (PyDict.values areas_collector).

(** [_convert_list_point_to_list_features] *)
Definition _convert_list_point_to_list_features (list_points : list NodeRef)
    : M (list Feature) :=
  map_M (fun node =>
    c ← lon_lat node;
    mret {| f_id := n_id node; boundingbox := None;
            geometry := geojson_Point round c;
            properties := no_properties |})
    list_points.

Definition is_empty {K V} (c : option (PyDict.t K V)) : bool :=
  match c with
  | None => true
  | Some d => (length d =? 0)%nat
  end.

(** [write_geojson]; the result is the collection dumped to the file. *)
Definition write_geojson (nodes_collector : option NodeCollector.t)
    (areas_collector : option AreaCollector.t)
    (ways_collector : option WayCollector.t)
    (list_print_points : option (list NodeRef)) : M FeatureCollection :=
  if is_empty nodes_collector && is_empty ways_collector
     && is_empty areas_collector
     && match list_print_points with None | Some [] => true | _ => false end
  then raise ValueError
  else
    ways_features ← match ways_collector with
                    | Some c => _convert_way_collector_to_list_features c
                    | None => mret []
                    end;
    areas_features ← match areas_collector with
                     | Some c => _convert_area_collector_to_list_features c
                     | None => mret []
                     end;
    points_features ← match list_print_points with
                      | Some (p :: l) => _convert_list_point_to_list_features (p :: l)
                      | _ => mret []
                      end;
    mret (ways_features ++ areas_features ++ points_features).

End Write.

(** *** [read_geojson] *)

(** What [read_geojson] logs about array lengths that disagree; for a way
    the message names [feature.properties.get("OSM_id", -1)]. *)
Inductive log_entry :=
  | WayLengthMismatch (osm_id : jval)
  | OuterLengthMismatch (area_id : Z)
  | InnerLengthMismatch (area_id : Z) (j : nat).

(** [id_nodes[i]] used as a node id: an entry of a ring-shaped array is a
    list, which cannot be a dict key ([TypeError]). *)
Definition line_id_entries (p : Properties) : list (result Z) :=
  match OSM_id_nodes p with
  | None => []
  | Some (LineIds ids) => map Ok ids
  | Some (RingIds rings) => map (fun _ => Raise TypeError) rings
  end.

(** [id_nodes_rings[j]] used as an array of node ids: an entry of a flat
    array is an int, which has no [len] ([TypeError]). *)
Definition ring_ids_at (p : Properties) (j : nat) : result (list Z) :=
  match OSM_id_nodes p with
  | None => Raise IndexError
  | Some (RingIds rings) => or_raise (rings !! j) IndexError
  | Some (LineIds ids) =>
      match ids !! j with
      | Some _ => Raise TypeError
      | None => Raise IndexError
      end
  end.

Definition new_node (node_id : Z) (coordinate : Coord) : M NodeRef :=
  Node.__init__ node_id (Some (Finite (snd coordinate)))
                (Some (Finite (fst coordinate))) [] [].

(** The node registered under [node_id], or a new node that is registered. *)
Definition registered_node (node_collector : NodeCollector.t) (node_id : Z)
    (coordinate : Coord) : M (NodeRef * NodeCollector.t) :=
  match PyDict.get node_id node_collector with
  | Some node => mret (node, node_collector)
  | None =>
      node ← new_node node_id coordinate;
      mret (node, NodeCollector.add_node node_collector node)
  end.

(** [for i, coordinate in enumerate(coordinates)] of the LineString branch
    and of the outer ring; [ids] are the entries [id_nodes[i:]]. *)
Fixpoint read_registered_nodes (node_collector : NodeCollector.t)
    (coordinates : list Coord) (ids : list (result Z)) (acc : list NodeRef)
    : M (list NodeRef * NodeCollector.t) :=
  match coordinates with
  | [] => mret (acc, node_collector)
  | coordinate :: coordinates' =>
      match ids with
      | [] => raise IndexError
      | entry :: ids' =>
          node_id ← lift entry;
          '(node, node_collector) ← registered_node node_collector node_id coordinate;
          read_registered_nodes node_collector coordinates' ids' (acc ++ [node])
      end
  end.

(** The nodes of an inner ring: always new objects, never registered.  The
    lengths agree when this loop runs. *)
Fixpoint read_inner_nodes (coordinates : list Coord) (ids : list Z)
    : M (list NodeRef) :=
  match coordinates, ids with
  | coordinate :: coordinates', node_id :: ids' =>
      node ← new_node node_id coordinate;
      rest ← read_inner_nodes coordinates' ids';
      mret (node :: rest)
  | [], _ => mret []
  | _ :: _, [] => raise IndexError
  end.

(** [for j in range(1, len(all_rings))], at ring [j] with the rings
    [all_rings[j:]]. *)
Fixpoint read_inner_borders (feature : Feature) (j : nat) (rings : list (list Coord))
    (inner_borders : list (list NodeRef)) (log : list log_entry)
    : M (list (list NodeRef) * list log_entry) :=
  match rings with
  | [] => mret (inner_borders, log)
  | inner_ring_coords :: rings' =>
      inner_ring_ids ← lift (ring_ids_at (properties feature) j);
      if negb (length inner_ring_coords =? length inner_ring_ids)%nat then
        read_inner_borders feature (S j) rings' inner_borders
          (log ++ [InnerLengthMismatch (f_id feature) j])
      else
        inner_border ← read_inner_nodes inner_ring_coords inner_ring_ids;
        read_inner_borders feature (S j) rings' (inner_borders ++ [inner_border]) log
  end.

Record read_state := {
  node_collector : NodeCollector.t;
  way_collector : WayCollector.t;
  area_collector : AreaCollector.t;
  log : list log_entry;
}.

Definition feature_tags (feature : Feature) : Tags :=
  default [] (tags (properties feature)).

(** The body of [for feature in data.features]. *)
Definition read_feature (st : read_state) (feature : Feature) : M read_state :=
  match geometry feature with
  | LineString coordinates =>
      let id_nodes := line_id_entries (properties feature) in
      let log' :=
        if negb (length coordinates =? length id_nodes)%nat
        then log st ++ [WayLengthMismatch
                          (default (JNum (-1)) (OSM_id (properties feature)))]
        else log st in
      (* the warning is logged and the loop goes on with the same feature *)
      '(nodes, node_collector') ←
         read_registered_nodes (node_collector st) coordinates id_nodes [];
      way ← Way.__init__ (f_id feature) (feature_tags feature) nodes
              None None None None;
      l ← Way.nodes_of way;
      _ ← for_each l (fun node => Node.add_way node way);
      mret {| node_collector := node_collector';
              way_collector := WayCollector.add_way (way_collector st) way;
              area_collector := area_collector st;
              log := log' |}
  | Polygon all_rings =>
      outer_ring_coords ← lift (or_raise (head all_rings) IndexError);
      outer_ring_ids ← lift (ring_ids_at (properties feature) 0);
      if negb (length outer_ring_coords =? length outer_ring_ids)%nat then
        mret {| node_collector := node_collector st;
                way_collector := way_collector st;
                area_collector := area_collector st;
                log := log st ++ [OuterLengthMismatch (f_id feature)] |}
      else
        '(outer_border, node_collector') ←
           read_registered_nodes (node_collector st) outer_ring_coords
             (map Ok outer_ring_ids) [];
        '(inner_borders, log') ←
           read_inner_borders feature 1 (drop 1 all_rings) [] (log st);
        area ← Area.__init__ (f_id feature) (feature_tags feature)
                 outer_border inner_borders None None None None;
        o ← get_area area;
        _ ← for_each (area_outer_border o) (fun node => Node.add_area node area);
        _ ← for_each (area_inner_borders o)
              (fun inner_border =>
                 for_each inner_border (fun node => Node.add_area node area));
        mret {| node_collector := node_collector';
                way_collector := way_collector st;
                area_collector := AreaCollector.add_area (area_collector st) area;
                log := log' |}
  | Point _ => mret st
  end.

Fixpoint read_features (st : read_state) (features : list Feature) : M read_state :=
  match features with
  | [] => mret st
  | feature :: rest => st' ← read_feature st feature; read_features st' rest
  end.

(** [read_geojson] on the collection loaded from the file. *)
Definition read_geojson (data : FeatureCollection) : M read_state :=
  read_features {| node_collector := NodeCollector.empty;
                   way_collector := WayCollector.empty;
                   area_collector := AreaCollector.empty;
                   log := [] |} data.

End IOPs_geojson.

(* ===================================================================== *)
(** * Properties *)
(* ===================================================================== *)

Local Close Scope Q_scope.

(** ** Facts about dicts *)

Module PyDictFacts.
Section Facts.
Context {K V : Type} `{EqDecision K}.
Implicit Types (k : K) (v : V) (d : PyDict.t K V).

Lemma get_set_eq k v d : PyDict.get k (PyDict.set k v d) = Some v.
Proof.
  induction d as [|[k' v'] d IH]; simpl.
  - by rewrite decide_True.
  - destruct (decide (k = k')) as [->|Hne]; simpl.
    + by rewrite decide_True.
    + by rewrite decide_False.
Qed.

Lemma get_set_ne k k' v d :
  k <> k' -> PyDict.get k' (PyDict.set k v d) = PyDict.get k' d.
Proof.
  intros Hne. induction d as [|[k0 v0] d IH]; simpl.
  - by rewrite decide_False.
  - destruct (decide (k = k0)) as [->|Hne0]; simpl.
    + by rewrite !decide_False.
    + destruct (decide (k' = k0)); [done|apply IH].
Qed.

Lemma mem_set_eq k v d : PyDict.mem k (PyDict.set k v d) = true.
Proof. unfold PyDict.mem. by rewrite get_set_eq. Qed.

Lemma length_del_le k d : (length (PyDict.del k d) <= length d)%nat.
Proof.
  induction d as [|[k' v'] d IH]; simpl; [done|].
  destruct (decide (k = k')); simpl; lia.
Qed.

Lemma length_del_mem k d :
  PyDict.mem k d = true -> S (length (PyDict.del k d)) = length d.
Proof.
  unfold PyDict.mem. induction d as [|[k' v'] d IH]; simpl; [done|].
  destruct (decide (k = k')); simpl; [done|].
  intros Hm. by rewrite IH.
Qed.

Lemma get_del_eq_None k d : PyDict.get k d = None -> PyDict.del k d = d.
Proof.
  induction d as [|[k' v'] d IH]; simpl; [done|].
  destruct (decide (k = k')); [done|]. intros Hg. by rewrite IH.
Qed.

End Facts.
End PyDictFacts.

(** ** Dedup-by-tag-key *)

Module MergeFacts.
Import ParceGeojson.

(** A LineString feature carrying [OSM_way_id = key]. *)
Definition way_feature (i : Z) (key : string) (coordinates : list Coord)
    (ids : list Z) (name : string) : Feature :=
  {| f_id := i; boundingbox := None;
     geometry := LineString coordinates;
     properties := {| OSM_id_nodes := Some (LineIds ids);
                      tags := Some [("OSM_way_id"%string, JStr key);
                                    ("name"%string, JStr name)];
                      OSM_id := None |} |}.

(** Two LineString features that share the merge key ["42"] and differ in
    geometry and in properties. *)
Definition earlier : Feature :=
  way_feature 10 "42" [(0, 0); (1, 1)]%Q [1; 2] "old".
Definition later : Feature :=
  way_feature 11 "42" [(5, 5); (6, 6); (7, 7)]%Q [5; 6; 7] "new".

(** Under [rewrite_duplicates=True] a colliding feature changes nothing: the
    overwrite policy acts as the skip policy. *)
Lemma merge_feature_rewrite_is_skip fuel rand adding st feature :
  merge_feature fuel rand true adding st feature
  = merge_feature fuel rand false false st feature.
Proof.
  unfold merge_feature. destruct (geometry feature); reflexivity.
Qed.

Lemma merge_features_rewrite_is_skip fuel rand adding features : forall st,
  merge_features fuel rand true adding st features
  = merge_features fuel rand false false st features.
Proof.
  induction features as [|f fs IH]; intros st; simpl; [done|].
  rewrite merge_feature_rewrite_is_skip.
  destruct (merge_feature fuel rand false false st f); simpl; auto.
Qed.

(** The loop of the LineString rekey branch never leaves once entered. *)
Lemma rekey_way_loops fuel rand d key : forall n,
  PyDict.mem key d = true -> rekey_way fuel rand d key n = OutOfFuel.
Proof.
  induction fuel as [|fuel IH]; intros n Hmem; simpl; [done|].
  rewrite Hmem. by apply IH.
Qed.

(** The loop of the Polygon rekey branch ends at the first draw that is a
    free key. *)
Lemma rekey_area_fresh fuel rand d key n :
  PyDict.mem key d = true ->
  PyDict.mem (JNum (rand n)) d = false ->
  rekey_area (S (S fuel)) rand d key n = Ok (JNum (rand n), S n).
Proof. intros Hk Hf. simpl. by rewrite Hk, Hf. Qed.

(** A LineString feature whose key is taken never gets through the rekey
    policy. *)
Lemma merge_feature_rekey_way_diverges fuel rand st feature coordinates key :
  geometry feature = LineString coordinates ->
  tags_get feature "OSM_way_id" = Ok (Some key) ->
  PyDict.mem key (dict_ways_collectors st) = true ->
  merge_feature fuel rand false true st feature = OutOfFuel.
Proof.
  intros Hg Ht Hm. unfold merge_feature. rewrite Hg, Ht. simpl.
  rewrite Hm. simpl. by rewrite rekey_way_loops.
Qed.

(** The first feature of a run enters the dict of its kind. *)
Lemma merge_first_way fuel rand rw ad f coordinates key :
  geometry f = LineString coordinates ->
  tags_get f "OSM_way_id" = Ok (Some key) ->
  merge_feature fuel rand rw ad
    {| dict_ways_collectors := PyDict.empty;
       dict_areas_collectors := PyDict.empty; draws := O |} f
  = Ok {| dict_ways_collectors := [(key, f)];
          dict_areas_collectors := PyDict.empty; draws := O |}.
Proof. intros Hg Ht. unfold merge_feature. by rewrite Hg, Ht. Qed.

Lemma merge_first_area fuel rand rw ad f rings key :
  geometry f = Polygon rings ->
  tags_get f "OSM_area_id" = Ok (Some key) ->
  merge_feature fuel rand rw ad
    {| dict_ways_collectors := PyDict.empty;
       dict_areas_collectors := PyDict.empty; draws := O |} f
  = Ok {| dict_ways_collectors := PyDict.empty;
          dict_areas_collectors := [(key, f)]; draws := O |}.
Proof. intros Hg Ht. unfold merge_feature. by rewrite Hg, Ht. Qed.

Lemma mem_singleton (key : jval) (f : Feature) : PyDict.mem key [(key, f)] = true.
Proof. unfold PyDict.mem. simpl. by rewrite decide_True. Qed.

(** C2 (defect of the code): with the default policy
    [rewrite_duplicates=True], of two LineString features with the same
    [OSM_way_id], or two Polygon features with the same [OSM_area_id], the
    EARLIER one is the one in the output, with its geometry and properties;
    the later one is dropped.  The claim asks for the later feature to
    win. *)
Theorem C2_overwrite_keeps_earlier fuel rand adding (f1 f2 : Feature) (key : jval) :
  (forall c1 c2,
     geometry f1 = LineString c1 -> geometry f2 = LineString c2 ->
     tags_get f1 "OSM_way_id" = Ok (Some key) ->
     tags_get f2 "OSM_way_id" = Ok (Some key) ->
     concat_geojson_features fuel rand [[f1; f2]] true adding = Ok [set_id f1 0])
  /\ (forall r1 r2,
     geometry f1 = Polygon r1 -> geometry f2 = Polygon r2 ->
     tags_get f1 "OSM_area_id" = Ok (Some key) ->
     tags_get f2 "OSM_area_id" = Ok (Some key) ->
     concat_geojson_features fuel rand [[f1; f2]] true adding = Ok [set_id f1 0]).
Proof.
  split.
  - intros c1 c2 Hg1 Hg2 Ht1 Ht2.
    unfold concat_geojson_features. simpl concat. cbn [merge_features].
    rewrite (merge_first_way _ _ _ _ _ c1 key) by done.
    cbn [mbind result_bind rbind].
    unfold merge_feature. rewrite Hg2, Ht2. cbn [mbind result_bind rbind or_raise].
    cbn [dict_ways_collectors]. by rewrite mem_singleton.
  - intros r1 r2 Hg1 Hg2 Ht1 Ht2.
    unfold concat_geojson_features. simpl concat. cbn [merge_features].
    rewrite (merge_first_area _ _ _ _ _ r1 key) by done.
    cbn [mbind result_bind rbind].
    unfold merge_feature. rewrite Hg2, Ht2. cbn [mbind result_bind rbind or_raise].
    cbn [dict_areas_collectors]. by rewrite mem_singleton.
Qed.

Lemma C2_overwrite_keeps_earlier_witness :
  concat_geojson_features 0 (fun _ => 0) [[earlier; later]] true false
    = Ok [set_id earlier 0]
  /\ geometry (set_id earlier 0) <> geometry later
  /\ properties (set_id earlier 0) <> properties later.
Proof.
  split; [|split; discriminate].
  apply (proj1 (C2_overwrite_keeps_earlier 0 (fun _ => 0) false earlier later
                  (JStr "42")) [(0, 0); (1, 1)]%Q [(5, 5); (6, 6); (7, 7)]%Q);
    reflexivity.
Defined.

(** C5 (defect of the code): with the rekey policy
    ([rewrite_duplicates=False], [adding_duplicates=True]) two LineString
    features with the same [OSM_way_id] make the call loop forever: whatever
    the fuel and whatever the random draws, the run does not finish.  The
    claim asks for the call to end with both features kept. *)
Theorem C5_rekey_linestring_diverges fuel rand (f1 f2 : Feature) (key : jval) c1 c2 :
  geometry f1 = LineString c1 -> geometry f2 = LineString c2 ->
  tags_get f1 "OSM_way_id" = Ok (Some key) ->
  tags_get f2 "OSM_way_id" = Ok (Some key) ->
  concat_geojson_features fuel rand [[f1; f2]] false true = OutOfFuel.
Proof.
  intros Hg1 Hg2 Ht1 Ht2.
  unfold concat_geojson_features. simpl concat. cbn [merge_features].
  rewrite (merge_first_way _ _ _ _ _ c1 key) by done.
  cbn [mbind result_bind rbind].
  rewrite (merge_feature_rekey_way_diverges _ _ _ _ c2 key); try done.
  apply mem_singleton.
Qed.

Lemma C5_rekey_linestring_diverges_witness :
  concat_geojson_features 1000 (fun n => Z.of_nat n) [[earlier; later]] false true
  = OutOfFuel.
Proof.
  apply (C5_rekey_linestring_diverges 1000 (fun n => Z.of_nat n) earlier later
           (JStr "42") [(0, 0); (1, 1)]%Q [(5, 5); (6, 6); (7, 7)]%Q); reflexivity.
Defined.

(** The Polygon branch of the same policy does what the LineString branch
    misses: with a first draw that is a free key, both features are kept,
    the second under the drawn key. *)
Definition area_feature (i : Z) (key : string) (rings : list (list Coord)) : Feature :=
  {| f_id := i; boundingbox := None;
     geometry := Polygon rings;
     properties := {| OSM_id_nodes := None;
                      tags := Some [("OSM_area_id"%string, JStr key)];
                      OSM_id := None |} |}.

Lemma rekey_polygon_keeps_both :
  concat_geojson_features 2 (fun _ => 77)
    [[area_feature 10 "42" [[(0, 0); (1, 0); (1, 1); (0, 0)]%Q];
      area_feature 11 "42" [[(5, 5); (6, 5); (6, 6); (5, 5)]%Q]]] false true
  = Ok [set_id (area_feature 10 "42" [[(0, 0); (1, 0); (1, 1); (0, 0)]%Q]) 0;
        set_id (area_feature 11 "42" [[(5, 5); (6, 5); (6, 6); (5, 5)]%Q]) 1].
Proof. reflexivity. Qed.

End MergeFacts.

(** ** Coastline chaining *)

Module ChainFacts.
Import ParceGeojson.

(** A coastline LineString feature. *)
Definition coast (i : Z) (coordinates : list Coord) (ids : list Z) : Feature :=
  {| f_id := i; boundingbox := None;
     geometry := LineString coordinates;
     properties := {| OSM_id_nodes := Some (LineIds ids);
                      tags := Some [("natural"%string, JStr "coastline")];
                      OSM_id := None |} |}.

(** The feature [concat_coastline_sea] builds for the chain. *)
Definition merged (round : Q -> Q) (i : Z) (coordinates : list Coord)
    (ids : list Z) : Feature :=
  {| f_id := i; boundingbox := None;
     geometry := geojson_LineString round coordinates;
     properties := {| OSM_id_nodes := Some (LineIds ids);
                      tags := Some coastline_tags;
                      OSM_id := None |} |}.

Definition point_of (z : Z) : Coord := (inject_Z z, inject_Z z).

(** The pool of the claim: A = [1,2,3], B = [3,4], C = [5,4]. *)
Definition line_A : Feature := coast 1 (map point_of [1; 2; 3]) [1; 2; 3].
Definition line_B : Feature := coast 2 (map point_of [3; 4]) [3; 4].
Definition line_C : Feature := coast 3 (map point_of [5; 4]) [5; 4].

(** A feature that [scan] merges is one of the pool.  With it, every merge
    shrinks the pool, so the loop reaches its fixed point within the fuel
    that [concat_coastline_sea] gives it. *)
Lemma scan_merged_mem pool ids fid points new_ids :
  scan pool ids = Ok (Merged fid points new_ids) ->
  exists feature, In feature pool /\ f_id feature = fid.
Proof.
  induction pool as [|feature rest IH]; simpl; [done|].
  destruct (last ids) as [trailing|]; simpl; [|done].
  destruct (OSM_id_nodes (properties feature)) as [[l|rings]|]; [| |done].
  - destruct (head l) as [first|]; simpl; [|done].
    destruct (trailing =? first).
    + destruct (line_coordinates feature); simpl; [|done..].
      destruct (f_id feature =? 144); intros [= <- _ _];
        exists feature; split; auto.
    + destruct (last l) as [final|]; simpl; [|done].
      destruct (trailing =? final).
      * destruct (line_coordinates feature); simpl; [|done..].
        intros [= <- _ _]. exists feature; split; auto.
      * intros H. destruct (IH H) as (f & Hin & Hf).
        exists f. split; auto.
  - destruct rings; [done|].
    intros H. destruct (IH H) as (f & Hin & Hf).
    exists f. split; auto.
Qed.

(** A pass over the pool is a bounded loop. *)
Lemma scan_total pool ids : scan pool ids <> OutOfFuel.
Proof.
  induction pool as [|feature rest IH]; simpl; [done|].
  destruct (last ids) as [trailing|]; simpl; [|done].
  destruct (OSM_id_nodes (properties feature)) as [[l|rings]|]; [| |done].
  - destruct (head l) as [first|]; simpl; [|done].
    unfold line_coordinates.
    destruct (trailing =? first).
    + destruct (geometry feature); simpl; try done.
      by destruct (f_id feature =? 144).
    + destruct (last l) as [final|]; simpl; [|done].
      destruct (trailing =? final); [|done].
      destruct (geometry feature); simpl; done.
  - by destruct rings.
Qed.

(** Every line of the pool is stored under its own id. *)
Definition keyed_by_id (d : PyDict.t Z Feature) : Prop :=
  forall k feature, In (k, feature) d -> f_id feature = k.

Lemma keyed_by_id_set d feature :
  keyed_by_id d -> keyed_by_id (PyDict.set (f_id feature) feature d).
Proof.
  induction d as [|[k f] d IH]; intros Hk k' f'; simpl.
  - intros [[= <- <-]|[]]. done.
  - destruct (decide (f_id feature = k)) as [<-|Hne]; simpl.
    + intros [[= <- <-]|Hin]; [done|]. apply Hk. by right.
    + intros [[= <- <-]|Hin].
      * apply Hk. by left.
      * apply IH; [|done]. intros k0 f0 Hin0. apply Hk. by right.
Qed.

Lemma keyed_by_id_del d k : keyed_by_id d -> keyed_by_id (PyDict.del k d).
Proof.
  induction d as [|[k0 f] d IH]; intros Hk k' f'; simpl; [done|].
  destruct (decide (k = k0)) as [<-|Hne]; simpl.
  - intros Hin. apply Hk. by right.
  - intros [[= <- <-]|Hin].
    + apply Hk. by left.
    + apply IH; [|done]. intros k1 f1 Hin1. apply Hk. by right.
Qed.

Lemma keyed_by_id_index fc : keyed_by_id (index_features fc).
Proof.
  unfold index_features.
  assert (forall d, keyed_by_id d ->
            keyed_by_id (fold_left (fun d feature =>
                           PyDict.set (f_id feature) feature d) fc d)) as H.
  { induction fc as [|f fc IH]; intros d Hd; simpl; [done|].
    apply IH. by apply keyed_by_id_set. }
  apply H. intros k f [].
Qed.

Lemma keyed_value_mem d feature :
  keyed_by_id d -> In feature (PyDict.values d) ->
  PyDict.mem (f_id feature) d = true.
Proof.
  unfold PyDict.mem, PyDict.values.
  induction d as [|[k f] d IH]; intros Hk; simpl; [done|].
  destruct (decide (f_id feature = k)); [done|].
  intros [->|Hin].
  - exfalso. apply n. apply Hk. by left.
  - apply IH; [|done]. intros k0 f0 Hin0. apply Hk. by right.
Qed.

(** With more fuel than lines in the pool, the loop ends. *)
Lemma chain_terminates fuel : forall d points ids,
  keyed_by_id d -> (length d < fuel)%nat ->
  chain fuel d points ids <> OutOfFuel.
Proof.
  induction fuel as [|fuel IH]; intros d points ids Hk Hlen; [lia|].
  simpl. destruct (scan (PyDict.values d) ids) as [[|fid ps new_ids]| |] eqn:Hscan;
    simpl; try done; [|by apply scan_total in Hscan].
  apply IH; [by apply keyed_by_id_del|].
  destruct (scan_merged_mem _ _ _ _ _ Hscan) as (f & Hin & <-).
  pose proof (PyDictFacts.length_del_mem (f_id f) d (keyed_value_mem d f Hk Hin)).
  lia.
Qed.

(** [concat_coastline_sea] is total: it returns a collection or raises. *)
Lemma concat_coastline_sea_total round fc start :
  concat_coastline_sea round fc start <> OutOfFuel.
Proof.
  unfold concat_coastline_sea.
  destruct (PyDict.get start (index_features fc)) as [f|];
    cbn [mbind result_bind rbind or_raise]; [|done].
  unfold line_coordinates, start_ids.
  destruct (geometry f); cbn [mbind result_bind rbind]; try done.
  destruct (OSM_id_nodes (properties f)) as [[l|rings]|];
    cbn [mbind result_bind rbind]; try done.
  match goal with |- context [chain ?n ?d ?p ?i] =>
    pose proof (chain_terminates n d p i) as Hc;
    destruct (chain n d p i) as [[[d' ps] is']| |] end;
    cbn [mbind result_bind rbind]; try discriminate.
  exfalso. apply Hc; [|lia|done]. apply keyed_by_id_del, keyed_by_id_index.
Qed.

(** C1, as stated, fails: chained from A = [1,2,3], the pool does not come
    back as one feature with the id sequence [1,2,3,4,5], however the
    library rounds. *)
Lemma C1_counterexample :
  ~ (exists round f,
       concat_coastline_sea round [line_A; line_B; line_C] (f_id line_A) = Ok [f]
       /\ OSM_id_nodes (properties f) = Some (LineIds [1; 2; 3; 4; 5])).
Proof. intros (round & f & Hrun & _). cbv in Hrun. discriminate. Qed.

(** C1 (amended).  [concat_coastline_sea] reverses the starting line before
    it chains.  With the starting line stored as [3,2,1] the chain runs
    1,2,3, takes B = [3,4] by its first id and C = [5,4], reversed, by its
    last id, and the result is the single merged feature [1,2,3,4,5].  With
    the starting line stored as [1,2,3] the chain is [3,2,1]; its trailing
    id 1 matches no end of B or C, which come back unmerged before the
    merged feature. *)
Theorem C1_chaining_reverses_start (round : Q -> Q) (a b c : Z)
    (pa pb pc : list Coord) :
  a <> b -> a <> c -> b <> c -> b <> 144 ->
  concat_coastline_sea round
    [coast a pa [3; 2; 1]; coast b pb [3; 4]; coast c pc [5; 4]] a
    = Ok [merged round a (reverse pa ++ drop_first pb ++ drop_first (reverse pc))
                 [1; 2; 3; 4; 5]]
  /\ concat_coastline_sea round
    [coast a pa [1; 2; 3]; coast b pb [3; 4]; coast c pc [5; 4]] a
    = Ok [coast b pb [3; 4]; coast c pc [5; 4];
          merged round a (reverse pa) [3; 2; 1]].
Proof.
  intros Hab Hac Hbc Hb.
  assert ((b =? 144) = false) as Hb' by (by apply Z.eqb_neq).
  split.
  - unfold concat_coastline_sea, index_features. simpl.
    repeat (first [rewrite decide_True by done | rewrite decide_False by congruence]; simpl).
    rewrite Hb'. simpl.
    repeat (first [rewrite decide_True by done | rewrite decide_False by congruence]; simpl).
    by rewrite <- app_assoc.
  - unfold concat_coastline_sea, index_features. simpl.
    repeat (first [rewrite decide_True by done | rewrite decide_False by congruence]; simpl).
    reflexivity.
Qed.

Lemma C1_chaining_reverses_start_witness :
  concat_coastline_sea (fun q => q)
    [coast 1 (map point_of [3; 2; 1]) [3; 2; 1];
     coast 2 (map point_of [3; 4]) [3; 4];
     coast 3 (map point_of [5; 4]) [5; 4]] 1
  = Ok [merged (fun q => q) 1 (map point_of [1; 2; 3; 4; 5]) [1; 2; 3; 4; 5]].
Proof.
  exact (proj1 (C1_chaining_reverses_start (fun q => q) 1 2 3
                  (map point_of [3; 2; 1]) (map point_of [3; 4])
                  (map point_of [5; 4])
                  ltac:(lia) ltac:(lia) ltac:(lia) ltac:(lia))).
Defined.

End ChainFacts.

(** ** Node coordinates *)

Module NodeFacts.

(** [x] lies outside the closed interval from [lo] to [hi]; infinities and
    NaN are outside every interval. *)
Definition outside (lo hi : Q) (x : pyfloat) : Prop :=
  match x with
  | Finite q => (q < lo)%Q \/ (hi < q)%Q
  | _ => True
  end.

Lemma in_range_outside lo hi x : outside lo hi x -> in_range lo hi x = None.
Proof.
  destruct x as [q| | |]; simpl; try done.
  intros Hout.
  assert (Qle_bool lo q && Qle_bool q hi = false) as ->; [|done].
  apply andb_false_iff.
  destruct Hout as [Hlt|Hlt]; [left|right];
    apply not_true_iff_false; rewrite Qle_bool_iff;
    by apply Qlt_not_le.
Qed.

Lemma in_range_inside lo hi q :
  (lo <= q)%Q -> (q <= hi)%Q -> in_range lo hi (Finite q) = Some q.
Proof.
  intros Hlo Hhi. simpl.
  assert (Qle_bool lo q && Qle_bool q hi = true) as ->; [|done].
  apply andb_true_iff. by rewrite !Qle_bool_iff.
Qed.

(** A float is either in the interval or outside of it. *)
Lemma in_range_None lo hi x : in_range lo hi x = None -> outside lo hi x.
Proof.
  destruct x as [q| | |]; simpl; try done.
  destruct (Qle_bool lo q) eqn:E1; simpl.
  - destruct (Qle_bool q hi) eqn:E2; [done|]. intros _. right.
    apply Qnot_le_lt. rewrite <- Qle_bool_iff. by rewrite E2.
  - intros _. left. apply Qnot_le_lt. rewrite <- Qle_bool_iff. by rewrite E1.
Qed.

(** [_validate_coordinates] rejects exactly the pairs with a coordinate out
    of range, and returns an accepted pair as it is. *)
Lemma validate_outside lat lon :
  outside (-90) 90 lat \/ outside (-180) 180 lon ->
  Node._validate_coordinates lat (Some lon) = Raise ValueError.
Proof.
  intros Hout. unfold Node._validate_coordinates.
  destruct (in_range (-90) 90 lat) as [la|] eqn:Hlat; [|done].
  destruct Hout as [Hout|Hout].
  - by rewrite (in_range_outside _ _ _ Hout) in Hlat.
  - by rewrite (in_range_outside _ _ _ Hout).
Qed.

Lemma validate_inside la lo :
  (-90 <= la)%Q -> (la <= 90)%Q -> (-180 <= lo)%Q -> (lo <= 180)%Q ->
  Node._validate_coordinates (Finite la) (Some (Finite lo)) = Ok (la, lo).
Proof.
  intros H1 H2 H3 H4. unfold Node._validate_coordinates.
  by rewrite !in_range_inside.
Qed.

(** The node that [__init__] builds from an accepted pair. *)
Definition built (la lo : Q) (ways : list WayRef) (areas : list AreaRef) : NodeObj :=
  {| node_lat := Some la; node_lon := Some lo; node_ways := ways;
     node_areas := areas; node_neighbors := [] |}.

(** The node after an accepted assignment of coordinates. *)
Definition moved (o : NodeObj) (la lo : Q) : NodeObj :=
  {| node_lat := Some la; node_lon := Some lo; node_ways := node_ways o;
     node_areas := node_areas o; node_neighbors := node_neighbors o |}.

Lemma init_inside node_id la lo ways areas h :
  (-90 <= la)%Q -> (la <= 90)%Q -> (-180 <= lo)%Q -> (lo <= 180)%Q ->
  exists self h',
    Node.__init__ node_id (Some (Finite la)) (Some (Finite lo)) ways areas h
      = (Ok self, h')
    /\ n_id self = node_id
    /\ nodes h' !!! n_addr self = built la lo ways areas.
Proof.
  intros H1 H2 H3 H4. unfold Node.__init__.
  eexists _, _. split; [|split].
  - unfold mbind, M_bind, lift. cbn [mbind result_bind rbind].
    rewrite validate_inside by done. reflexivity.
  - reflexivity.
  - cbn. by rewrite lookup_total_insert_eq.
Qed.

Lemma set_coordinates_inside self la lo h :
  (-90 <= la)%Q -> (la <= 90)%Q -> (-180 <= lo)%Q -> (lo <= 180)%Q ->
  exists h',
    Node.set_coordinates self (Finite la, Finite lo) h = (Ok tt, h')
    /\ nodes h' !!! n_addr self = moved (nodes h !!! n_addr self) la lo.
Proof.
  intros H1 H2 H3 H4. unfold Node.set_coordinates.
  eexists. split.
  - unfold mbind, M_bind, lift. cbn [fst snd].
    rewrite validate_inside by done. reflexivity.
  - cbn. by rewrite lookup_total_insert_eq.
Qed.

(** Outside the reach of the validation: a node built without a latitude
    has no coordinates, whatever longitude it is given; a node built with a
    latitude in range and no longitude fails on the comparison with
    [None]. *)
Lemma init_without_latitude node_id lon ways areas h :
  exists self h',
    Node.__init__ node_id None lon ways areas h = (Ok self, h')
    /\ node_lat (nodes h' !!! n_addr self) = None
    /\ node_lon (nodes h' !!! n_addr self) = None.
Proof.
  unfold Node.__init__, mbind, M_bind, lift, alloc, put_node, mret, M_ret.
  eexists _, _. split; [reflexivity|].
  cbn. by rewrite lookup_total_insert_eq.
Qed.

Lemma init_latitude_only node_id la ways areas h :
  (-90 <= la)%Q -> (la <= 90)%Q ->
  Node.__init__ node_id (Some (Finite la)) None ways areas h = (Raise TypeError, h).
Proof.
  intros H1 H2. unfold Node.__init__, Node._validate_coordinates.
  unfold mbind at 1, M_bind, lift. cbn [mbind result_bind rbind].
  by rewrite in_range_inside.
Qed.

(** C8, as stated, fails: the constructor validates only when it is given a
    latitude.  [Node(2, lon=500)] is built without an error, and the new
    node has no coordinates. *)
Lemma C8_counterexample :
  outside (-180) 180 (Finite 500)
  /\ exists self h',
       Node.__init__ 2 None (Some (Finite 500)) [] [] empty_heap = (Ok self, h')
       /\ n_id self = 2%Z
       /\ node_lat (nodes h' !!! n_addr self) = None
       /\ node_lon (nodes h' !!! n_addr self) = None.
Proof.
  split; [right; reflexivity|].
  unfold Node.__init__, mbind, M_bind, lift, alloc, put_node, mret, M_ret.
  eexists _, _. split; [reflexivity|]. split; [reflexivity|].
  cbn. by rewrite lookup_total_insert_eq.
Qed.

(** C8 (amended).  When both coordinates are passed, a latitude outside
    [-90,90] or a longitude outside [-180,180] makes both the construction
    of a [Node] and the assignment of its coordinates raise [ValueError],
    with the heap (no node built, the assigned node as before) unchanged;
    the boundary values -90, 90, -180 and 180 are accepted and stored as
    they are. *)
Theorem C8_coordinates_validated :
  (forall lat lon, outside (-90) 90 lat \/ outside (-180) 180 lon ->
     (forall node_id ways areas h,
        Node.__init__ node_id (Some lat) (Some lon) ways areas h
          = (Raise ValueError, h))
     /\ (forall self h,
        Node.set_coordinates self (lat, lon) h = (Raise ValueError, h)))
  /\ (forall la lo, In la [-90; 90]%Q -> In lo [-180; 180]%Q ->
     (forall node_id ways areas h, exists self h',
        Node.__init__ node_id (Some (Finite la)) (Some (Finite lo)) ways areas h
          = (Ok self, h')
        /\ n_id self = node_id
        /\ nodes h' !!! n_addr self = built la lo ways areas)
     /\ (forall self h, exists h',
        Node.set_coordinates self (Finite la, Finite lo) h = (Ok tt, h')
        /\ nodes h' !!! n_addr self = moved (nodes h !!! n_addr self) la lo)).
Proof.
  split.
  - intros lat lon Hout. split.
    + intros node_id ways areas h. unfold Node.__init__.
      unfold mbind at 1, M_bind, lift. cbn [mbind result_bind rbind].
      by rewrite (validate_outside _ _ Hout).
    + intros self h. unfold Node.set_coordinates.
      unfold mbind at 1, M_bind, lift. cbn [fst snd].
      by rewrite (validate_outside _ _ Hout).
  - intros la lo Hla Hlo.
    assert ((-90 <= la)%Q /\ (la <= 90)%Q) as [H1 H2].
    { destruct Hla as [<-|[<-|[]]]; split; by apply Qle_bool_iff. }
    assert ((-180 <= lo)%Q /\ (lo <= 180)%Q) as [H3 H4].
    { destruct Hlo as [<-|[<-|[]]]; split; by apply Qle_bool_iff. }
    split; intros.
    + by apply init_inside.
    + by apply set_coordinates_inside.
Qed.

Lemma C8_coordinates_validated_witness :
  Node.__init__ 1 (Some (Finite (91#1))) (Some (Finite 0)) [] [] empty_heap
    = (Raise ValueError, empty_heap)
  /\ Node.set_coordinates {| n_addr := 0; n_id := 1 |} (NaN, Finite 0) empty_heap
    = (Raise ValueError, empty_heap).
Proof.
  destruct (proj1 C8_coordinates_validated (Finite (91#1)) (Finite 0)) as [Hi _].
  { left. simpl. right. reflexivity. }
  destruct (proj1 C8_coordinates_validated NaN (Finite 0)) as [_ Hs].
  { left. exact I. }
  split; [apply Hi|apply Hs].
Defined.

End NodeFacts.

(** ** Lists of objects compared by id *)

Module KeyedLists.
Section Keyed.
Context {A : Type} (key : A -> Z) (eqb : A -> A -> bool).
Hypothesis eqb_key : forall a b, eqb a b = (key a =? key b)%Z.

Lemma py_in_true x l : py_in eqb x l = true <-> In (key x) (map key l).
Proof.
  unfold py_in. induction l as [|y l IH]; simpl; [done|].
  rewrite orb_true_iff, IH, eqb_key, Z.eqb_eq. intuition.
Qed.

Lemma py_in_false x l : py_in eqb x l = false <-> ~ In (key x) (map key l).
Proof. rewrite <- py_in_true. by destruct (py_in eqb x l). Qed.

Lemma py_in_app x l l' :
  py_in eqb x (l ++ l') = py_in eqb x l || py_in eqb x l'.
Proof. unfold py_in. apply existsb_app. Qed.

Lemma py_in_snoc x l y :
  py_in eqb x (l ++ [y]) = py_in eqb x l || (key x =? key y)%Z.
Proof. rewrite py_in_app. simpl. by rewrite orb_false_r, eqb_key. Qed.

Lemma py_in_same_key x y l : key x = key y -> py_in eqb x l = py_in eqb y l.
Proof.
  intros Hk. unfold py_in. induction l as [|z l IH]; simpl; [done|].
  by rewrite IH, !eqb_key, Hk.
Qed.

Lemma py_remove_None x l : py_remove eqb x l = None <-> py_in eqb x l = false.
Proof.
  unfold py_in. induction l as [|y l IH]; simpl; [done|].
  rewrite !eqb_key, (Z.eqb_sym (key x)).
  destruct (key y =? key x)%Z; simpl; [done|].
  destruct (py_remove eqb x l); split; intros H; try done.
  - apply IH in H. done.
  - by apply IH.
Qed.

Lemma py_remove_Some x l l' : py_remove eqb x l = Some l' -> py_in eqb x l = true.
Proof.
  intros H. destruct (py_in eqb x l) eqn:E; [done|].
  apply py_remove_None in E. congruence.
Qed.

Lemma py_remove_is_Some x l : py_in eqb x l = true -> exists l', py_remove eqb x l = Some l'.
Proof.
  intros H. destruct (py_remove eqb x l) eqn:E; [by eexists|].
  apply py_remove_None in E. congruence.
Qed.

Lemma py_remove_other x y l : forall l',
  py_remove eqb x l = Some l' -> key y <> key x ->
  py_in eqb y l' = py_in eqb y l.
Proof.
  unfold py_in. induction l as [|z l IH]; intros l'; simpl; [done|].
  rewrite !eqb_key. destruct (key z =? key x)%Z eqn:E.
  - intros [= <-] Hne. apply Z.eqb_eq in E.
    assert ((key y =? key z)%Z = false) as -> by (apply Z.eqb_neq; congruence).
    done.
  - destruct (py_remove eqb x l) as [r|]; [|done].
    intros [= <-] Hne. simpl. rewrite eqb_key. by rewrite (IH r).
Qed.

Lemma py_remove_map x l : forall l',
  py_remove eqb x l = Some l' ->
  exists l1 z l2, l = l1 ++ z :: l2 /\ l' = l1 ++ l2 /\ key z = key x
                  /\ ~ In (key x) (map key l1).
Proof.
  induction l as [|z l IH]; intros l'; simpl; [done|].
  rewrite eqb_key. destruct (key z =? key x)%Z eqn:E.
  - intros [= <-]. apply Z.eqb_eq in E. exists [], z, l. repeat split; auto.
  - destruct (py_remove eqb x l) as [r|]; [|done].
    intros [= <-]. destruct (IH r eq_refl) as (l1 & z' & l2 & -> & -> & Hk & Hn).
    exists (z :: l1), z', l2. repeat split; try done.
    simpl. intros [Heq|Hin]; [|done]. apply Z.eqb_neq in E. congruence.
Qed.

Lemma py_remove_nodup x l l' :
  NoDup (map key l) -> py_remove eqb x l = Some l' ->
  NoDup (map key l') /\ py_in eqb x l' = false.
Proof.
  intros Hnd Hrm.
  destruct (py_remove_map x l l' Hrm) as (l1 & z & l2 & -> & -> & Hk & Hn).
  rewrite map_app in Hnd. simpl in Hnd.
  apply NoDup_app in Hnd as (Hnd1 & Hdisj & [Hz Hnd2]%NoDup_cons).
  split.
  - rewrite map_app. apply NoDup_app. repeat split; try done.
    intros k Hk1 Hk2. apply (Hdisj k Hk1). by right.
  - apply py_in_false. rewrite map_app, in_app_iff. intros [Hin|Hin]; [done|].
    apply Hz. rewrite Hk. by apply list_elem_of_In.
Qed.

Lemma nodup_snoc l y :
  NoDup (map key l) -> py_in eqb y l = false -> NoDup (map key (l ++ [y])).
Proof.
  intros Hnd Hin. apply py_in_false in Hin.
  rewrite map_app. simpl. apply NoDup_app. repeat split; try done.
  - intros k Hk [<-|[]]%list_elem_of_In. apply Hin. by apply list_elem_of_In.
  - apply NoDup_singleton.
Qed.

End Keyed.
End KeyedLists.

(** ** The neighbor relation *)

Module NeighborFacts.
Import KeyedLists.

(** [x.neighbors] and [y in x.neighbors] in a heap. *)
Definition neighbors_of (h : Heap) (x : NodeRef) : list NodeRef :=
  node_neighbors (nodes h !!! n_addr x).

Definition is_neighbor (h : Heap) (x y : NodeRef) : bool :=
  py_in node_eqb y (neighbors_of h x).

(** The nodes of one registry scope: the id names the object. *)
Definition registry_scope (scope : list NodeRef) : Prop :=
  forall x y, In x scope -> In y scope ->
    (n_addr x = n_addr y <-> n_id x = n_id y).

(** The neighbor relation is symmetric, and no neighbor is listed twice. *)
Definition symmetric (h : Heap) (scope : list NodeRef) : Prop :=
  forall x y, In x scope -> In y scope -> is_neighbor h x y = is_neighbor h y x.

Definition duplicate_free (h : Heap) (scope : list NodeRef) : Prop :=
  forall x, In x scope -> NoDup (map n_id (neighbors_of h x)).

(** The heap after [x._neighbors] is replaced by [l]. *)
Definition set_neighbors (h : Heap) (x : NodeRef) (l : list NodeRef) : Heap :=
  {| nodes := <[n_addr x := Node.with_neighbors (nodes h !!! n_addr x) l]> (nodes h);
     ways := ways h; areas := areas h; next_addr := next_addr h |}.

Lemma node_eqb_key a b : node_eqb a b = (n_id a =? n_id b)%Z.
Proof. reflexivity. Qed.

Lemma neighbors_of_set h x l y :
  neighbors_of (set_neighbors h x l) y
  = if decide (n_addr x = n_addr y) then l else neighbors_of h y.
Proof.
  unfold neighbors_of, set_neighbors. simpl.
  destruct (decide (n_addr x = n_addr y)) as [->|Hne].
  - by rewrite lookup_total_insert_eq.
  - by rewrite lookup_total_insert_ne.
Qed.

Lemma node_is_false a b : n_addr a <> n_addr b -> node_is a b = false.
Proof. intros H. unfold node_is. by apply Nat.eqb_neq. Qed.

(** [add_neighbor] when the neighbor is already listed: nothing happens. *)
Lemma add_neighbor_present fuel A B h :
  n_addr A <> n_addr B -> is_neighbor h A B = true ->
  Node.add_neighbor (S fuel) A B h = (Ok tt, h).
Proof.
  intros Hne Hin. simpl. rewrite node_is_false by done.
  unfold mbind, M_bind, get_node. fold (neighbors_of h A).
  unfold is_neighbor in Hin. by rewrite Hin.
Qed.

(** [add_neighbor] on two nodes that do not list each other: three nested
    calls, after which each is appended to the list of the other. *)
Lemma add_neighbor_absent fuel A B h :
  n_addr A <> n_addr B ->
  is_neighbor h A B = false -> is_neighbor h B A = false ->
  Node.add_neighbor (S (S (S fuel))) A B h
  = (Ok tt, set_neighbors (set_neighbors h A (neighbors_of h A ++ [B]))
                          B (neighbors_of h B ++ [A])).
Proof.
  intros Hne HAB HBA.
  remember (S (S fuel)) as fuel2. simpl.
  rewrite node_is_false by done.
  unfold mbind at 1, M_bind at 1, get_node at 1. fold (neighbors_of h A).
  unfold is_neighbor in HAB. rewrite HAB. cbn [negb].
  unfold mbind at 1, M_bind at 1, put_node at 1.
  fold (set_neighbors h A (neighbors_of h A ++ [B])).
  subst fuel2. remember (S fuel) as fuel1. simpl.
  rewrite node_is_false by done.
  unfold mbind at 1, M_bind at 1, get_node at 1.
  match goal with |- context [node_neighbors (nodes ?h' !!! n_addr B)] =>
    change (node_neighbors (nodes h' !!! n_addr B)) with (neighbors_of h' B) end.
  rewrite !neighbors_of_set, decide_False by done.
  unfold is_neighbor in HBA. rewrite HBA. cbn [negb].
  unfold mbind at 1, M_bind at 1, put_node at 1.
  match goal with |- context [Node.add_neighbor fuel1 A B ?h'] =>
    assert (h' = set_neighbors (set_neighbors h A (neighbors_of h A ++ [B]))
                               B (neighbors_of h B ++ [A])) as ->
  end.
  { reflexivity. }
  subst fuel1. apply add_neighbor_present; [done|].
  unfold is_neighbor. rewrite !neighbors_of_set.
  rewrite decide_False by done. rewrite decide_True by done.
  rewrite (py_in_snoc n_id) by apply node_eqb_key.
  by rewrite Z.eqb_refl, orb_true_r.
Qed.

(** [remove_neighbor] of a node that is not listed: [False], no change. *)
Lemma remove_neighbor_absent fuel A B h :
  is_neighbor h A B = false ->
  Node.remove_neighbor (S fuel) A B h = (Ok false, h).
Proof.
  intros Hin. simpl.
  unfold mbind, M_bind, get_node. fold (neighbors_of h A).
  apply (py_remove_None n_id) in Hin; [|apply node_eqb_key].
  by rewrite Hin.
Qed.

(** [remove_neighbor] on two nodes that list each other once: three nested
    calls, after which each is gone from the list of the other. *)
Lemma remove_neighbor_present fuel A B h lA lB :
  n_addr A <> n_addr B ->
  py_remove node_eqb B (neighbors_of h A) = Some lA ->
  py_remove node_eqb A (neighbors_of h B) = Some lB ->
  py_in node_eqb B lA = false ->
  Node.remove_neighbor (S (S (S fuel))) A B h
  = (Ok true, set_neighbors (set_neighbors h A lA) B lB).
Proof.
  intros Hne HA HB HlA.
  remember (S (S fuel)) as fuel2. simpl.
  unfold mbind at 1, M_bind at 1, get_node at 1. fold (neighbors_of h A).
  rewrite HA.
  unfold mbind at 1, M_bind at 1, put_node at 1.
  fold (set_neighbors h A lA).
  subst fuel2. remember (S fuel) as fuel1. simpl.
  unfold mbind at 1, M_bind at 1.
  unfold mbind at 1, M_bind at 1, get_node at 1.
  fold (neighbors_of (set_neighbors h A lA) B).
  rewrite !neighbors_of_set, decide_False by done.
  rewrite HB.
  unfold mbind at 1, M_bind at 1, put_node at 1.
  unfold mbind at 1, M_bind at 1.
  change (Node.remove_neighbor fuel1 A B _)
    with (Node.remove_neighbor fuel1 A B (set_neighbors (set_neighbors h A lA) B lB)).
  subst fuel1. rewrite remove_neighbor_absent; [done|].
  unfold is_neighbor. rewrite !neighbors_of_set.
  rewrite decide_False by done. by rewrite decide_True.
Qed.

(** The pair of ids of an edge between [A] and [B], in either direction. *)
Definition edge (A B x y : NodeRef) : bool :=
  ((n_id x =? n_id A)%Z && (n_id y =? n_id B)%Z)
  || ((n_id x =? n_id B)%Z && (n_id y =? n_id A)%Z).

Lemma edge_sym A B x y : edge A B x y = edge A B y x.
Proof.
  unfold edge. rewrite orb_comm. f_equal; apply andb_comm.
Qed.

Section Scope.
Context (scope : list NodeRef) (A B : NodeRef).
Hypothesis Hscope : registry_scope scope.
Hypothesis HA : In A scope.
Hypothesis HB : In B scope.
Hypothesis HAB : A <> B.

Lemma scope_eq x y : In x scope -> In y scope -> n_addr x = n_addr y -> x = y.
Proof.
  intros Hx Hy Haddr. pose proof (proj1 (Hscope x y Hx Hy) Haddr) as Hid.
  destruct x, y; simpl in *; congruence.
Qed.

Lemma scope_addr_ne : n_addr A <> n_addr B.
Proof. intros H. by apply HAB, scope_eq. Qed.

Lemma scope_id_eqb x y :
  In x scope -> In y scope ->
  (n_id x =? n_id y)%Z = bool_decide (n_addr x = n_addr y).
Proof.
  intros Hx Hy. destruct (Hscope x y Hx Hy) as [H1 H2].
  case_bool_decide as Hd.
  - apply Z.eqb_eq; auto.
  - apply Z.eqb_neq; auto.
Qed.

(** The relation after the lists of [A] and [B] got [B] and [A] appended:
    the old relation with the edge added. *)
Lemma is_neighbor_added h x y :
  In x scope -> In y scope ->
  is_neighbor (set_neighbors (set_neighbors h A (neighbors_of h A ++ [B]))
                             B (neighbors_of h B ++ [A])) x y
  = is_neighbor h x y || edge A B x y.
Proof.
  intros Hx Hy. pose proof scope_addr_ne as Hne.
  unfold is_neighbor, edge. rewrite !neighbors_of_set.
  rewrite !scope_id_eqb by done.
  destruct (decide (n_addr B = n_addr x)) as [HBx|HBx].
  - rewrite (py_in_snoc n_id) by apply node_eqb_key.
    rewrite scope_id_eqb by done. fold (neighbors_of h x).
    assert (x = B) as -> by (by apply scope_eq).
    rewrite (bool_decide_eq_false_2 (n_addr B = n_addr A)) by done.
    rewrite (bool_decide_eq_true_2 (n_addr B = n_addr B)) by done.
    done.
  - destruct (decide (n_addr A = n_addr x)) as [HAx|HAx].
    + rewrite (py_in_snoc n_id) by apply node_eqb_key.
      rewrite scope_id_eqb by done.
      assert (x = A) as -> by (by apply scope_eq).
      rewrite (bool_decide_eq_false_2 (n_addr A = n_addr B)) by done.
      rewrite (bool_decide_eq_true_2 (n_addr A = n_addr A)) by done.
      simpl. by rewrite orb_false_r.
    + rewrite (bool_decide_eq_false_2 (n_addr x = n_addr A)) by done.
      rewrite (bool_decide_eq_false_2 (n_addr x = n_addr B)) by done.
      simpl. by rewrite orb_false_r.
Qed.

(** The relation after [B] and [A] were removed from duplicate-free lists
    of [A] and [B]: the old relation without the edge. *)
Lemma is_neighbor_removed h lA lB x y :
  duplicate_free h scope ->
  py_remove node_eqb B (neighbors_of h A) = Some lA ->
  py_remove node_eqb A (neighbors_of h B) = Some lB ->
  In x scope -> In y scope ->
  is_neighbor (set_neighbors (set_neighbors h A lA) B lB) x y
  = is_neighbor h x y && negb (edge A B x y).
Proof.
  intros Hnd HrA HrB Hx Hy. pose proof scope_addr_ne as Hne.
  unfold is_neighbor, edge. rewrite !neighbors_of_set.
  rewrite !scope_id_eqb by done.
  destruct (decide (n_addr B = n_addr x)) as [HBx|HBx].
  - assert (x = B) as -> by (by apply scope_eq).
    rewrite (bool_decide_eq_false_2 (n_addr B = n_addr A)) by done.
    rewrite (bool_decide_eq_true_2 (n_addr B = n_addr B)) by done.
    simpl. case_bool_decide as Hd.
    + assert (y = A) as -> by (by apply scope_eq).
      rewrite andb_false_r.
      by apply (py_remove_nodup n_id node_eqb node_eqb_key A _ _ (Hnd B HB)).
    + rewrite andb_true_r.
      apply (py_remove_other n_id node_eqb node_eqb_key A y _ _ HrB).
      intros Hid. apply Hd. by apply Hscope.
  - destruct (decide (n_addr A = n_addr x)) as [HAx|HAx].
    + assert (x = A) as -> by (by apply scope_eq).
      rewrite (bool_decide_eq_false_2 (n_addr A = n_addr B)) by done.
      rewrite (bool_decide_eq_true_2 (n_addr A = n_addr A)) by done.
      simpl. rewrite orb_false_r. case_bool_decide as Hd.
      * assert (y = B) as -> by (by apply scope_eq).
        rewrite andb_false_r.
        by apply (py_remove_nodup n_id node_eqb node_eqb_key B _ _ (Hnd A HA)).
      * rewrite andb_true_r.
        apply (py_remove_other n_id node_eqb node_eqb_key B y _ _ HrA).
        intros Hid. apply Hd. by apply Hscope.
    + rewrite (bool_decide_eq_false_2 (n_addr x = n_addr A)) by done.
      rewrite (bool_decide_eq_false_2 (n_addr x = n_addr B)) by done.
      simpl. by rewrite andb_true_r.
Qed.

Lemma edge_self : edge A B A B = true.
Proof. unfold edge. by rewrite !Z.eqb_refl. Qed.

Lemma duplicate_free_added h :
  duplicate_free h scope ->
  is_neighbor h A B = false -> is_neighbor h B A = false ->
  duplicate_free (set_neighbors (set_neighbors h A (neighbors_of h A ++ [B]))
                                B (neighbors_of h B ++ [A])) scope.
Proof.
  intros Hnd HinA HinB x Hx. rewrite !neighbors_of_set.
  destruct (decide (n_addr B = n_addr x)).
  - apply (nodup_snoc n_id node_eqb node_eqb_key); [by apply Hnd|done].
  - destruct (decide (n_addr A = n_addr x)); [|by apply Hnd].
    apply (nodup_snoc n_id node_eqb node_eqb_key); [by apply Hnd|done].
Qed.

Lemma duplicate_free_removed h lA lB :
  duplicate_free h scope ->
  py_remove node_eqb B (neighbors_of h A) = Some lA ->
  py_remove node_eqb A (neighbors_of h B) = Some lB ->
  duplicate_free (set_neighbors (set_neighbors h A lA) B lB) scope.
Proof.
  intros Hnd HrA HrB x Hx. rewrite !neighbors_of_set.
  destruct (decide (n_addr B = n_addr x)).
  - by apply (py_remove_nodup n_id node_eqb node_eqb_key A _ _ (Hnd B HB)).
  - destruct (decide (n_addr A = n_addr x)); [|by apply Hnd].
    by apply (py_remove_nodup n_id node_eqb node_eqb_key B _ _ (Hnd A HA)).
Qed.

End Scope.

(** One call in a symmetric state of a registry scope: [add_neighbor(A,B)]
    leaves B in A.neighbors and A in B.neighbors, [remove_neighbor(A,B)]
    leaves neither, and after either call the relation is again symmetric
    and free of duplicates.  Three levels of the mutual recursion are
    enough. *)
Lemma neighbor_step (scope : list NodeRef) (A B : NodeRef)
    (h : Heap) (fuel : nat) :
  registry_scope scope -> In A scope -> In B scope -> A <> B ->
  symmetric h scope -> duplicate_free h scope -> (3 <= fuel)%nat ->
  (exists h', Node.add_neighbor fuel A B h = (Ok tt, h')
      /\ is_neighbor h' A B = true /\ is_neighbor h' B A = true
      /\ symmetric h' scope /\ duplicate_free h' scope)
  /\ (exists r h', Node.remove_neighbor fuel A B h = (Ok r, h')
      /\ is_neighbor h' A B = false /\ is_neighbor h' B A = false
      /\ symmetric h' scope /\ duplicate_free h' scope).
Proof.
  intros Hscope HA HB HAB Hsym Hnd Hfuel.
  destruct fuel as [|[|[|fuel]]]; try lia.
  pose proof (scope_addr_ne scope A B Hscope HA HB HAB) as Hne.
  pose proof (Hsym A B HA HB) as HsymAB.
  destruct (is_neighbor h A B) eqn:HinA; symmetry in HsymAB.
  - split.
    + exists h. rewrite add_neighbor_present by done. by repeat split.
    + destruct (py_remove_is_Some n_id node_eqb node_eqb_key B _ HinA) as [lA HrA].
      destruct (py_remove_is_Some n_id node_eqb node_eqb_key A _ HsymAB) as [lB HrB].
      destruct (py_remove_nodup n_id node_eqb node_eqb_key B _ _ (Hnd A HA) HrA)
        as [_ HlA].
      exists true, (set_neighbors (set_neighbors h A lA) B lB).
      rewrite (remove_neighbor_present fuel A B h lA lB) by done.
      split; [done|].
      rewrite !(is_neighbor_removed scope A B Hscope HA HB HAB h lA lB) by done.
      rewrite HinA, HsymAB, (edge_sym A B B A), edge_self.
      repeat split; try done.
      * intros x y Hx Hy.
        rewrite !(is_neighbor_removed scope A B Hscope HA HB HAB h lA lB) by done.
        by rewrite (Hsym x y), (edge_sym A B x y).
      * by apply duplicate_free_removed.
  - split.
    + exists (set_neighbors (set_neighbors h A (neighbors_of h A ++ [B]))
                            B (neighbors_of h B ++ [A])).
      rewrite add_neighbor_absent by done. split; [done|].
      rewrite !(is_neighbor_added scope A B Hscope HA HB HAB) by done.
      rewrite (edge_sym A B B A), edge_self, !orb_true_r.
      repeat split; try done.
      * intros x y Hx Hy.
        rewrite !(is_neighbor_added scope A B Hscope HA HB HAB) by done.
        by rewrite (Hsym x y), (edge_sym A B x y).
      * by apply duplicate_free_added.
    + exists false, h. rewrite remove_neighbor_absent by done. by repeat split.
Qed.

(** Freshly built nodes list no neighbors: the relation starts symmetric. *)
Lemma fresh_nodes_symmetric h scope :
  (forall x, In x scope -> neighbors_of h x = []) ->
  symmetric h scope /\ duplicate_free h scope.
Proof.
  intros Hfresh. split.
  - intros x y Hx Hy. unfold is_neighbor. by rewrite !Hfresh.
  - intros x Hx. rewrite Hfresh by done. constructor.
Qed.

(** The states that the code builds over the nodes of [scope]: the nodes as
    the constructor leaves them, without neighbors, and then any number of
    [add_neighbor] and [remove_neighbor] calls on two different nodes. *)
Inductive built (scope : list NodeRef) : Heap -> Prop :=
  | built_fresh h :
      (forall x, In x scope -> neighbors_of h x = []) -> built scope h
  | built_add h A B fuel :
      built scope h -> In A scope -> In B scope -> A <> B -> (3 <= fuel)%nat ->
      built scope (snd (Node.add_neighbor fuel A B h))
  | built_remove h A B fuel :
      built scope h -> In A scope -> In B scope -> A <> B -> (3 <= fuel)%nat ->
      built scope (snd (Node.remove_neighbor fuel A B h)).

Lemma built_symmetric scope h :
  registry_scope scope -> built scope h ->
  symmetric h scope /\ duplicate_free h scope.
Proof.
  intros Hscope. induction 1 as [h Hfresh|h A B fuel _ [Hsym Hnd] HA HB HAB Hfuel
                                  |h A B fuel _ [Hsym Hnd] HA HB HAB Hfuel].
  - by apply fresh_nodes_symmetric.
  - destruct (neighbor_step scope A B h fuel Hscope HA HB HAB Hsym Hnd Hfuel)
      as [(h' & -> & _ & _ & Hsym' & Hnd') _]. done.
  - destruct (neighbor_step scope A B h fuel Hscope HA HB HAB Hsym Hnd Hfuel)
      as [_ (r & h' & -> & _ & _ & Hsym' & Hnd')]. done.
Qed.

(** Two nodes with ids 1 and 2 at addresses 0 and 1. *)
Definition node_1 : NodeRef := {| n_addr := 0; n_id := 1 |}.
Definition node_2 : NodeRef := {| n_addr := 1; n_id := 2 |}.

(** A second node object with the id 2, built after nodes 1 and 2 were made
    neighbors. *)
Definition twin : NodeRef := {| n_addr := 2; n_id := 2 |}.

Definition twin_heap : Heap :=
  snd ((a ← Node.__init__ 1 None None [] [];
        b ← Node.__init__ 2 None None [] [];
        _ ← Node.add_neighbor 3 a b;
        Node.__init__ 2 None None [] []) empty_heap).

(** C4, as stated, fails for two node objects that share an id.  Node 1 has
    node 2 for a neighbor; [twin] is another object with the id 2.
    [add_neighbor(node_1, twin)] finds [twin in node_1.neighbors] true (the
    comparison is by id), does nothing, and node 1 is not in the neighbors
    of [twin]. *)
Lemma C4_counterexample :
  n_addr node_1 <> n_addr twin
  /\ neighbors_of twin_heap node_1 = [node_2]
  /\ Node.add_neighbor 3 node_1 twin twin_heap = (Ok tt, twin_heap)
  /\ is_neighbor twin_heap twin node_1 = false.
Proof. repeat split; done. Qed.

(** C4 (amended).  Among node objects that their ids tell apart (no two
    objects of the scope share an id), the neighbor relation of every state
    that the code builds (fresh nodes, then [add_neighbor] and
    [remove_neighbor] calls on two different nodes) is symmetric and lists
    no neighbor twice.  In every such state, for distinct nodes A and B: one
    call of [add_neighbor(A,B)] leaves B in A.neighbors and A in
    B.neighbors, one call of [remove_neighbor(A,B)] leaves neither, and
    after either call the relation is again symmetric and free of
    duplicates.  Three levels of the mutual recursion are enough. *)
Theorem C4_neighbor_symmetry (scope : list NodeRef) :
  registry_scope scope ->
  (forall h, built scope h -> symmetric h scope /\ duplicate_free h scope)
  /\ (forall (A B : NodeRef) (h : Heap) (fuel : nat),
        built scope h -> In A scope -> In B scope -> A <> B -> (3 <= fuel)%nat ->
        (exists h', Node.add_neighbor fuel A B h = (Ok tt, h')
            /\ is_neighbor h' A B = true /\ is_neighbor h' B A = true
            /\ symmetric h' scope /\ duplicate_free h' scope)
        /\ (exists r h', Node.remove_neighbor fuel A B h = (Ok r, h')
            /\ is_neighbor h' A B = false /\ is_neighbor h' B A = false
            /\ symmetric h' scope /\ duplicate_free h' scope)).
Proof.
  intros Hscope. split.
  - intros h Hbuilt. by apply built_symmetric.
  - intros A B h fuel Hbuilt HA HB HAB Hfuel.
    destruct (built_symmetric scope h Hscope Hbuilt) as [Hsym Hnd].
    by apply neighbor_step.
Qed.

(** Nodes 1 and 2, as the constructor leaves them. *)
Definition pair_heap : Heap :=
  snd ((_ ← Node.__init__ 1 None None [] [];
        Node.__init__ 2 None None [] []) empty_heap).

Lemma C4_neighbor_symmetry_witness :
  (symmetric pair_heap [node_1; node_2] /\ duplicate_free pair_heap [node_1; node_2])
  /\ exists h', Node.add_neighbor 3 node_1 node_2 pair_heap = (Ok tt, h')
    /\ is_neighbor h' node_1 node_2 = true /\ is_neighbor h' node_2 node_1 = true
    /\ symmetric h' [node_1; node_2] /\ duplicate_free h' [node_1; node_2].
Proof.
  destruct (C4_neighbor_symmetry [node_1; node_2]) as [Hbuilt Hstep].
  { intros x y [<-|[<-|[]]] [<-|[<-|[]]]; simpl; split; intros; congruence. }
  assert (built [node_1; node_2] pair_heap) as Hfresh
    by (apply built_fresh; by intros x [<-|[<-|[]]]).
  split; [by apply Hbuilt|].
  refine (proj1 (Hstep node_1 node_2 pair_heap 3%nat Hfresh _ _ _ _)).
  - simpl; auto.
  - simpl; auto.
  - discriminate.
  - lia.
Defined.

End NeighborFacts.

(** ** Ways and their bounding box *)

Module WayFacts.
Import KeyedLists.

Lemma way_eqb_key a b : way_eqb a b = (w_id a =? w_id b)%Z.
Proof. reflexivity. Qed.

(** The heap after [node.remove_way(way)]. *)
Definition detach (h : Heap) (node : NodeRef) (way : WayRef) : Heap :=
  snd (Node.remove_way node way h).

Lemma remove_way_run node way h :
  Node.remove_way node way h
  = (Ok (py_in way_eqb way (node_ways (nodes h !!! n_addr node))),
     detach h node way).
Proof.
  unfold detach, Node.remove_way, mbind, M_bind, get_node.
  destruct (py_remove way_eqb way (node_ways (nodes h !!! n_addr node))) eqn:E.
  - by rewrite (py_remove_Some w_id way_eqb way_eqb_key _ _ _ E).
  - apply (py_remove_None w_id way_eqb way_eqb_key) in E. by rewrite E.
Qed.

Lemma detach_ways h node way : ways (detach h node way) = ways h.
Proof.
  unfold detach, Node.remove_way, mbind, M_bind, get_node.
  by destruct (py_remove way_eqb way (node_ways (nodes h !!! n_addr node))).
Qed.

Lemma detach_coordinates h node way a :
  node_lat (nodes (detach h node way) !!! a) = node_lat (nodes h !!! a)
  /\ node_lon (nodes (detach h node way) !!! a) = node_lon (nodes h !!! a).
Proof.
  unfold detach, Node.remove_way, mbind, M_bind, get_node.
  destruct (py_remove way_eqb way (node_ways (nodes h !!! n_addr node))); [|done].
  simpl. destruct (decide (n_addr node = a)) as [<-|Hne].
  - by rewrite lookup_total_insert_eq.
  - by rewrite lookup_total_insert_ne.
Qed.


(** The heap after [self._nodes] is replaced by [l]. *)
Definition set_nodes (h : Heap) (self : WayRef) (l : list NodeRef) : Heap :=
  {| nodes := nodes h;
     ways := <[w_addr self := Way.with_nodes (ways h !!! w_addr self) l]> (ways h);
     areas := areas h; next_addr := next_addr h |}.

(** C3 (defect of the code): removing the only node of a way.  The node is
    taken out of the list and its back-reference is detached, but [min] of
    the empty list raises [ValueError], which the method's own handler turns
    into the result [False]; the four bounds keep the values they had with
    the node.  The claim asks for [True] and undefined bounds. *)
Theorem C3_remove_only_node (h : Heap) (self : WayRef) (node : NodeRef) :
  way_nodes (ways h !!! w_addr self) = [node] ->
  exists h', Way.remove_node self node h = (Ok false, h')
    /\ h' = set_nodes (detach h node self) self []
    /\ way_nodes (ways h' !!! w_addr self) = []
    /\ way_min_lat (ways h' !!! w_addr self) = way_min_lat (ways h !!! w_addr self)
    /\ way_max_lat (ways h' !!! w_addr self) = way_max_lat (ways h !!! w_addr self)
    /\ way_min_lon (ways h' !!! w_addr self) = way_min_lon (ways h !!! w_addr self)
    /\ way_max_lon (ways h' !!! w_addr self) = way_max_lon (ways h !!! w_addr self).
Proof.
  intros Hnodes. eexists. split; [|split; [reflexivity|]].
  - assert (way_nodes (ways (detach h node self) !!! w_addr self) = [node])
      as Hnodes' by (by rewrite detach_ways).
    unfold Way.remove_node, try_except_ValueError.
    unfold mbind at 1, M_bind at 1. rewrite remove_way_run.
    unfold mbind at 1, M_bind at 1, get_way at 1.
    rewrite Hnodes'. simpl py_remove.
    unfold node_eqb. rewrite Z.eqb_refl.
    unfold mbind at 1, M_bind at 1, lift at 1, or_raise.
    unfold mbind at 1, M_bind at 1, put_way at 1.
    fold (set_nodes (detach h node self) self []).
    unfold mbind at 1, M_bind at 1.
    unfold Way.recompute_bounds.
    unfold mbind at 1, M_bind at 1, get_way at 1.
    assert (way_nodes (ways (set_nodes (detach h node self) self []) !!! w_addr self) = [])
      as -> by (simpl; by rewrite lookup_total_insert_eq).
    reflexivity.
  - unfold set_nodes. simpl. rewrite detach_ways, lookup_total_insert_eq. done.
Qed.

(** [m] is a smallest (largest) element of [l]. *)
Definition is_min (m : Q) (l : list Q) : Prop :=
  In m l /\ forall x, In x l -> (m <= x)%Q.
Definition is_max (m : Q) (l : list Q) : Prop :=
  In m l /\ forall x, In x l -> (x <= m)%Q.

Lemma Qltb_true x y : Qltb x y = true -> (x < y)%Q.
Proof.
  unfold Qltb. rewrite negb_true_iff. intros H.
  apply Qnot_le_lt. rewrite <- Qle_bool_iff. by rewrite H.
Qed.

Lemma Qltb_false x y : Qltb x y = false -> (y <= x)%Q.
Proof.
  unfold Qltb. rewrite negb_false_iff. apply Qle_bool_iff.
Qed.

Lemma fold_min_spec l : forall m0,
  let m := fold_left (fun m y => if Qltb y m then y else m) l m0 in
  In m (m0 :: l) /\ (m <= m0)%Q /\ forall x, In x l -> (m <= x)%Q.
Proof.
  induction l as [|y l IH]; intros m0; simpl.
  - split; [by left|]. split; [apply Qle_refl|]. by intros x [].
  - destruct (IH (if Qltb y m0 then y else m0)) as (Hin & Hle & Hall).
    destruct (Qltb y m0) eqn:E.
    + apply Qltb_true in E. split; [|split].
      * destruct Hin as [<-|Hin]; [right; by left|right; by right].
      * eapply Qle_trans; [exact Hle|]. by apply Qlt_le_weak.
      * intros x [<-|Hx]; [done|by apply Hall].
    + apply Qltb_false in E. split; [|split].
      * destruct Hin as [<-|Hin]; [by left|right; by right].
      * done.
      * intros x [<-|Hx]; [|by apply Hall].
        eapply Qle_trans; [exact Hle|done].
Qed.

Lemma fold_max_spec l : forall m0,
  let m := fold_left (fun m y => if Qltb m y then y else m) l m0 in
  In m (m0 :: l) /\ (m0 <= m)%Q /\ forall x, In x l -> (x <= m)%Q.
Proof.
  induction l as [|y l IH]; intros m0; simpl.
  - split; [by left|]. split; [apply Qle_refl|]. by intros x [].
  - destruct (IH (if Qltb m0 y then y else m0)) as (Hin & Hle & Hall).
    destruct (Qltb m0 y) eqn:E.
    + apply Qltb_true in E. split; [|split].
      * destruct Hin as [<-|Hin]; [right; by left|right; by right].
      * eapply Qle_trans; [|exact Hle]. by apply Qlt_le_weak.
      * intros x [<-|Hx]; [done|by apply Hall].
    + apply Qltb_false in E. split; [|split].
      * destruct Hin as [<-|Hin]; [by left|right; by right].
      * done.
      * intros x [<-|Hx]; [|by apply Hall].
        eapply Qle_trans; [|exact Hle]. done.
Qed.

(** [min] and [max] of a list that is not empty return its extrema. *)
Lemma py_min_spec l : l <> [] -> exists m, py_min l = Ok m /\ is_min m l.
Proof.
  destruct l as [|x l]; [done|]. intros _. eexists. split; [reflexivity|].
  destruct (fold_min_spec l x) as (Hin & Hle & Hall). split; [done|].
  intros y [<-|Hy]; [done|by apply Hall].
Qed.

Lemma py_max_spec l : l <> [] -> exists m, py_max l = Ok m /\ is_max m l.
Proof.
  destruct l as [|x l]; [done|]. intros _. eexists. split; [reflexivity|].
  destruct (fold_max_spec l x) as (Hin & Hle & Hall). split; [done|].
  intros y [<-|Hy]; [done|by apply Hall].
Qed.

(** The coordinates of a node that has them. *)
Definition lat_at (h : Heap) (node : NodeRef) : Q :=
  default 0%Q (node_lat (nodes h !!! n_addr node)).
Definition lon_at (h : Heap) (node : NodeRef) : Q :=
  default 0%Q (node_lon (nodes h !!! n_addr node)).
Definition has_coordinates (h : Heap) (node : NodeRef) : Prop :=
  is_Some (node_lat (nodes h !!! n_addr node))
  /\ is_Some (node_lon (nodes h !!! n_addr node)).

Lemma coordinates_run h node la lo :
  node_lat (nodes h !!! n_addr node) = Some la ->
  node_lon (nodes h !!! n_addr node) = Some lo ->
  Node.coordinates node h = (Ok (la, lo), h).
Proof.
  intros Hla Hlo. unfold Node.coordinates, mbind, M_bind, get_node.
  by rewrite Hla, Hlo.
Qed.

Lemma lats_of_run h l :
  (forall node, In node l -> has_coordinates h node) ->
  Way.lats_of l h = (Ok (map (lat_at h) l), h).
Proof.
  unfold Way.lats_of. induction l as [|node l IH]; intros Hc; [done|].
  destruct (Hc node (or_introl eq_refl)) as [[la Hla] [lo Hlo]].
  cbn [map_M map].
  unfold mbind at 1, M_bind at 1. unfold mbind at 1, M_bind at 1.
  rewrite (coordinates_run h node la lo) by done.
  unfold mret at 1, M_ret at 1.
  unfold mbind at 1, M_bind at 1. rewrite IH by (intros; apply Hc; by right).
  unfold lat_at. by rewrite Hla.
Qed.

Lemma lons_of_run h l :
  (forall node, In node l -> has_coordinates h node) ->
  Way.lons_of l h = (Ok (map (lon_at h) l), h).
Proof.
  unfold Way.lons_of. induction l as [|node l IH]; intros Hc; [done|].
  destruct (Hc node (or_introl eq_refl)) as [[la Hla] [lo Hlo]].
  cbn [map_M map].
  unfold mbind at 1, M_bind at 1. unfold mbind at 1, M_bind at 1.
  rewrite (coordinates_run h node la lo) by done.
  unfold mret at 1, M_ret at 1.
  unfold mbind at 1, M_bind at 1. rewrite IH by (intros; apply Hc; by right).
  unfold lon_at. by rewrite Hlo.
Qed.

(** The heap after the four bounds of [self] are assigned. *)
Definition set_bounds (h : Heap) (self : WayRef) (min_lat max_lat min_lon max_lon : Q)
    : Heap :=
  let o := ways h !!! w_addr self in
  {| nodes := nodes h;
     ways := <[w_addr self :=
               {| way_tags := way_tags o; way_nodes := way_nodes o;
                  way_is_polygon := way_is_polygon o;
                  way_min_lat := Some min_lat; way_max_lat := Some max_lat;
                  way_min_lon := Some min_lon; way_max_lon := Some max_lon |}]>
             (ways h);
     areas := areas h; next_addr := next_addr h |}.

Lemma update_run self f h :
  Way.update self f h
  = (Ok tt, {| nodes := nodes h;
               ways := <[w_addr self := f (ways h !!! w_addr self)]> (ways h);
               areas := areas h; next_addr := next_addr h |}).
Proof. reflexivity. Qed.

(** Recomputing the bounds of a way that has nodes, all with coordinates. *)
Lemma recompute_bounds_run h self :
  way_nodes (ways h !!! w_addr self) <> [] ->
  (forall node, In node (way_nodes (ways h !!! w_addr self)) -> has_coordinates h node) ->
  exists min_lat max_lat min_lon max_lon,
    Way.recompute_bounds self h
      = (Ok tt, set_bounds h self min_lat max_lat min_lon max_lon)
    /\ is_min min_lat (map (lat_at h) (way_nodes (ways h !!! w_addr self)))
    /\ is_max max_lat (map (lat_at h) (way_nodes (ways h !!! w_addr self)))
    /\ is_min min_lon (map (lon_at h) (way_nodes (ways h !!! w_addr self)))
    /\ is_max max_lon (map (lon_at h) (way_nodes (ways h !!! w_addr self))).
Proof.
  intros Hne Hc. set (l := way_nodes (ways h !!! w_addr self)) in *.
  assert (map (lat_at h) l <> []) as Hlat by (by destruct l).
  assert (map (lon_at h) l <> []) as Hlon by (by destruct l).
  destruct (py_min_spec _ Hlat) as (min_lat & Hmin_lat & ?).
  destruct (py_max_spec _ Hlat) as (max_lat & Hmax_lat & ?).
  destruct (py_min_spec _ Hlon) as (min_lon & Hmin_lon & ?).
  destruct (py_max_spec _ Hlon) as (max_lon & Hmax_lon & ?).
  exists min_lat, max_lat, min_lon, max_lon. split; [|done].
  unfold Way.recompute_bounds.
  unfold mbind at 1, M_bind at 1, get_way at 1. fold l.
  unfold mbind at 1, M_bind at 1. rewrite lats_of_run by done.
  unfold mbind at 1, M_bind at 1. rewrite lons_of_run by done.
  unfold mbind at 1, M_bind at 1, lift at 1. rewrite Hmin_lat.
  unfold mbind at 1, M_bind at 1. rewrite update_run.
  unfold mbind at 1, M_bind at 1, lift at 1. rewrite Hmin_lon.
  unfold mbind at 1, M_bind at 1. rewrite update_run.
  unfold mbind at 1, M_bind at 1, lift at 1. rewrite Hmax_lat.
  unfold mbind at 1, M_bind at 1. rewrite update_run.
  unfold mbind at 1, M_bind at 1, lift at 1. rewrite Hmax_lon.
  rewrite update_run. unfold set_bounds. cbn [nodes ways areas next_addr].
  rewrite !lookup_total_insert_eq, !insert_insert_eq. reflexivity.
Qed.

(** Removing a node that leaves the way with nodes (all with coordinates):
    the result is [True], the first occurrence is gone, and the bounds are
    the extrema of the coordinates of the remaining nodes. *)
Lemma remove_node_recomputes h self node l :
  py_remove node_eqb node (way_nodes (ways h !!! w_addr self)) = Some l ->
  l <> [] ->
  (forall n, In n l -> has_coordinates h n) ->
  exists h' min_lat max_lat min_lon max_lon,
    Way.remove_node self node h = (Ok true, h')
    /\ h' = set_bounds (set_nodes (detach h node self) self l) self
                       min_lat max_lat min_lon max_lon
    /\ is_min min_lat (map (lat_at h) l) /\ is_max max_lat (map (lat_at h) l)
    /\ is_min min_lon (map (lon_at h) l) /\ is_max max_lon (map (lon_at h) l).
Proof.
  intros Hrm Hne Hc.
  set (h2 := set_nodes (detach h node self) self l).
  assert (way_nodes (ways h2 !!! w_addr self) = l) as Hl
    by (unfold h2; simpl; by rewrite lookup_total_insert_eq).
  assert (forall n, lat_at h2 n = lat_at h n /\ lon_at h2 n = lon_at h n) as Hsame.
  { intros n. unfold lat_at, lon_at, h2. simpl.
    by destruct (detach_coordinates h node self (n_addr n)) as [-> ->]. }
  assert (forall n, In n l -> has_coordinates h2 n) as Hc2.
  { intros n Hn. destruct (Hc n Hn) as [H1 H2]. unfold has_coordinates, h2. simpl.
    by destruct (detach_coordinates h node self (n_addr n)) as [-> ->]. }
  destruct (recompute_bounds_run h2 self) as
    (min_lat & max_lat & min_lon & max_lon & Hrun & H1 & H2 & H3 & H4);
    [by rewrite Hl|by rewrite Hl|].
  rewrite Hl in H1, H2, H3, H4.
  assert (map (lat_at h2) l = map (lat_at h) l) as Elat
    by (apply map_ext; intros; apply Hsame).
  assert (map (lon_at h2) l = map (lon_at h) l) as Elon
    by (apply map_ext; intros; apply Hsame).
  rewrite Elat in H1, H2. rewrite Elon in H3, H4.
  exists (set_bounds h2 self min_lat max_lat min_lon max_lon),
    min_lat, max_lat, min_lon, max_lon.
  split; [|done].
  unfold Way.remove_node, try_except_ValueError.
  unfold mbind at 1, M_bind at 1. rewrite remove_way_run.
  unfold mbind at 1, M_bind at 1, get_way at 1.
  rewrite detach_ways at 1. rewrite Hrm.
  unfold mbind at 1, M_bind at 1, lift at 1, or_raise.
  unfold mbind at 1, M_bind at 1, put_way at 1.
  fold (set_nodes (detach h node self) self l). fold h2.
  unfold mbind at 1, M_bind at 1. rewrite Hrun. reflexivity.
Qed.

(** A way with the single node 7 at (10, 20), built by the constructors. *)
Definition node_7 : NodeRef := {| n_addr := 0; n_id := 7 |}.
Definition way_1 : WayRef := {| w_addr := 1; w_id := 1 |}.
Definition single_node_heap : Heap :=
  snd ((node ← Node.__init__ 7 (Some (Finite 10)) (Some (Finite 20)) [] [];
        Way.__init__ 1 [] [node] None None None None) empty_heap).

Lemma C3_remove_only_node_witness :
  exists h', Way.remove_node way_1 node_7 single_node_heap = (Ok false, h')
    /\ way_nodes (ways h' !!! w_addr way_1) = []
    /\ way_min_lat (ways h' !!! w_addr way_1) = Some 10%Q
    /\ way_max_lon (ways h' !!! w_addr way_1) = Some 20%Q.
Proof.
  destruct (C3_remove_only_node single_node_heap way_1 node_7 eq_refl)
    as (h' & Hrun & _ & Hnodes & Hmin & _ & _ & Hmax).
  exists h'. rewrite Hmin, Hmax. repeat split; done.
Defined.

End WayFacts.

(** ** Registries: removal and cascade *)

Module RegistryFacts.
Import KeyedLists WayFacts.




Definition ways_at (h : Heap) (a : nat) : list WayRef := node_ways (nodes h !!! a).

Lemma detach_at h node way a :
  ways_at (detach h node way) a = ways_at h a
  \/ (a = n_addr node /\ py_remove way_eqb way (ways_at h a) = Some (ways_at (detach h node way) a)).
Proof.
  unfold ways_at, detach, Node.remove_way, mbind, M_bind, get_node.
  destruct (py_remove way_eqb way (node_ways (nodes h !!! n_addr node))) eqn:E;
    [|by left].
  simpl. destruct (decide (n_addr node = a)) as [<-|Hne].
  - right. by rewrite lookup_total_insert_eq.
  - left. by rewrite lookup_total_insert_ne.
Qed.

Lemma detach_nodup h node way a :
  NoDup (map w_id (ways_at h a)) -> NoDup (map w_id (ways_at (detach h node way) a)).
Proof.
  intros Hnd. destruct (detach_at h node way a) as [->|[_ Hrm]]; [done|].
  by apply (py_remove_nodup w_id way_eqb way_eqb_key way _ _ Hnd).
Qed.


Lemma fold_detach_nodup way l a : forall h,
  NoDup (map w_id (ways_at h a)) ->
  NoDup (map w_id (ways_at (fold_left (fun h node => detach h node way) l h) a)).
Proof.
  induction l as [|node l IH]; intros h Hnd; simpl; [done|].
  by apply IH, detach_nodup.
Qed.




(** A node that lists way 1 without being on its node list: node 8 was
    given the way by [Node.add_way]. *)
Definition node_8 : NodeRef := {| n_addr := 2; n_id := 8 |}.





End RegistryFacts.

(** ** The graph store's global bounding box *)

Module StoreFacts.
Import WayFacts.

(** A box [(min_lat, min_lon, max_lat, max_lon)]. *)
Definition Box : Type := Q * Q * Q * Q.

Definition node_box (h : Heap) (r : NodeRef) : option Box :=
  match node_lat (nodes h !!! n_addr r), node_lon (nodes h !!! n_addr r) with
  | Some la, Some lo => Some (la, lo, la, lo)
  | _, _ => None
  end.

Definition way_box (h : Heap) (r : WayRef) : option Box :=
  let o := ways h !!! w_addr r in
  match way_min_lat o, way_min_lon o, way_max_lat o, way_max_lon o with
  | Some a, Some b, Some c, Some d => Some (a, b, c, d)
  | _, _, _, _ => None
  end.

Definition area_box (h : Heap) (r : AreaRef) : option Box :=
  let o := areas h !!! a_addr r in
  match area_min_lat o, area_min_lon o, area_max_lat o, area_max_lon o with
  | Some a, Some b, Some c, Some d => Some (a, b, c, d)
  | _, _, _, _ => None
  end.

Definition join (b1 b2 : Box) : Box :=
  let '(a1, b1', c1, d1) := b1 in
  let '(a2, b2', c2, d2) := b2 in
  (if Qltb a2 a1 then a2 else a1, if Qltb b2' b1' then b2' else b1',
   if Qltb c1 c2 then c2 else c1, if Qltb d1 d2 then d2 else d1).

(** The accessor as the specification words it: the aggregate min/max over
    the bounding boxes of all entities held in the three registries; an
    empty registry contributes nothing. *)
Definition global_bounding_box_spec (h : Heap) (s : GeoObjectStorage.t) : option Box :=
  let boxes :=
    omap (node_box h) (PyDict.values (GeoObjectStorage.node_collector s))
    ++ omap (way_box h) (PyDict.values (GeoObjectStorage.ways_collector s))
    ++ omap (area_box h) (PyDict.values (GeoObjectStorage.area_collector s)) in
  match boxes with
  | [] => None
  | b :: bs => Some (fold_left join bs b)
  end.

(** A store holding the way of [single_node_heap] (a single node at latitude
    10, longitude 20). *)
Definition single_way_store : GeoObjectStorage.t :=
  {| GeoObjectStorage.node_collector := [(7, node_7)];
     GeoObjectStorage.ways_collector := [(1, way_1)];
     GeoObjectStorage.area_collector := [] |}.

(** C9 (defect of the code): the accessor is a stub.  Whatever the store
    holds it returns the placeholder (0, 90, 0, 90); for the store with one
    way at (10, 20) the aggregate of the claim is (10, 20, 10, 20). *)
Theorem C9_global_bounding_box_is_placeholder :
  (forall s, GeoObjectStorage.global_bounding_box s = (0, 90, 0, 90)%Q)
  /\ global_bounding_box_spec single_node_heap single_way_store
     = Some (10, 20, 10, 20)%Q
  /\ GeoObjectStorage.global_bounding_box single_way_store <> (10, 20, 10, 20)%Q.
Proof. repeat split. discriminate. Qed.

End StoreFacts.

(** ** The codec: reading *)

Module ReadFacts.
Import IOPs_geojson.

Definition line (i : Z) (coordinates : list Coord) (ids : list Z) : Feature :=
  {| f_id := i; boundingbox := None;
     geometry := LineString coordinates;
     properties := {| OSM_id_nodes := Some (LineIds ids); tags := Some [];
                      OSM_id := None |} |}.

Definition polygon (i : Z) (rings : list (list Coord)) (ids : list (list Z)) : Feature :=
  {| f_id := i; boundingbox := None;
     geometry := Polygon rings;
     properties := {| OSM_id_nodes := Some (RingIds ids); tags := Some [];
                      OSM_id := None |} |}.

(** A LineString with two coordinates and one node id, one with one
    coordinate and two node ids, and a well-formed one. *)
Definition more_coordinates : Feature := line 5 [(1, 2); (3, 4)]%Q [11].
Definition more_ids : Feature := line 6 [(1, 2)]%Q [11; 12].
Definition well_formed : Feature := line 7 [(5, 6); (7, 8)]%Q [21; 22].

(** A Polygon whose outer ring has three coordinates and two node ids. *)
Definition bad_polygon : Feature :=
  polygon 8 [[(0, 0); (1, 0); (1, 1)]%Q] [[31; 32]].

(** A coordinate pair that [Node] accepts. *)
Definition valid (c : Coord) : Prop :=
  (-90 <= snd c)%Q /\ (snd c <= 90)%Q /\ (-180 <= fst c)%Q /\ (fst c <= 180)%Q.

Lemma registered_node_returns node_collector node_id c h :
  valid c ->
  exists r h', registered_node node_collector node_id c h = (Ok r, h').
Proof.
  intros (H1 & H2 & H3 & H4). unfold registered_node.
  destruct (PyDict.get node_id node_collector); [by eexists _, _|].
  unfold new_node.
  destruct (NodeFacts.init_inside node_id (snd c) (fst c) [] [] h H1 H2 H3 H4)
    as (self & h' & Hrun & _).
  unfold mbind, M_bind. rewrite Hrun. by eexists _, _.
Qed.

(** With fewer node ids than coordinates, the loop over the coordinates of a
    line runs past the end of the id array. *)
Lemma read_registered_nodes_short coordinates : forall ids node_collector acc h,
  (length ids < length coordinates)%nat ->
  Forall valid coordinates ->
  fst (read_registered_nodes node_collector coordinates (map Ok ids) acc h)
  = Raise IndexError.
Proof.
  induction coordinates as [|c cs IH]; intros ids nc acc h Hlen Hvalid;
    [simpl in Hlen; lia|].
  apply Forall_cons in Hvalid as [Hc Hcs].
  destruct ids as [|i ids]; [done|].
  cbn [read_registered_nodes map].
  unfold mbind at 1, M_bind at 1, lift at 1.
  destruct (registered_node_returns nc i c h Hc) as ([node nc'] & h' & Hrun).
  unfold mbind at 1, M_bind at 1. rewrite Hrun.
  apply IH; [simpl in Hlen; lia|done].
Qed.

Lemma read_feature_short st feature coordinates ids h :
  geometry feature = LineString coordinates ->
  OSM_id_nodes (properties feature) = Some (LineIds ids) ->
  (length ids < length coordinates)%nat ->
  Forall valid coordinates ->
  fst (read_feature st feature h) = Raise IndexError.
Proof.
  intros Hg Hi Hlen Hvalid. unfold read_feature. rewrite Hg.
  unfold line_id_entries. rewrite Hi.
  unfold mbind at 1, M_bind at 1.
  pose proof (read_registered_nodes_short coordinates ids (node_collector st) [] h
                Hlen Hvalid) as Hrun.
  destruct (read_registered_nodes (node_collector st) coordinates (map Ok ids) [] h)
    as [[r|e|] h']; simpl in Hrun; try discriminate.
  by injection Hrun as ->.
Qed.

(** C7 (defect of the code): a LineString whose coordinates and node ids
    differ in number is logged but not skipped (the LineString branch has
    no [continue], the Polygon branch has one).  With more coordinates than
    ids the read aborts with [IndexError] and the features after it are
    never read; with more ids than coordinates the way is added, with the
    nodes of its coordinates registered.  The claim asks for the feature to
    be skipped and the read to complete. *)
Theorem C7_mismatched_line_not_skipped :
  (forall feature coordinates ids rest h,
     geometry feature = LineString coordinates ->
     OSM_id_nodes (properties feature) = Some (LineIds ids) ->
     (length ids < length coordinates)%nat ->
     Forall valid coordinates ->
     fst (read_geojson (feature :: rest) h) = Raise IndexError)
  /\ fst (read_geojson [more_coordinates; well_formed] empty_heap) = Raise IndexError
  /\ (exists st, fst (read_geojson [more_ids; well_formed] empty_heap) = Ok st
        /\ log st = [WayLengthMismatch (JNum (-1))]
        /\ PyDict.keys (way_collector st) = [6; 7]
        /\ PyDict.keys (node_collector st) = [11; 21; 22])
  /\ (exists st, fst (read_geojson [bad_polygon; well_formed] empty_heap) = Ok st
        /\ log st = [OuterLengthMismatch 8]
        /\ PyDict.keys (area_collector st) = []
        /\ PyDict.keys (way_collector st) = [7]
        /\ PyDict.keys (node_collector st) = [21; 22]).
Proof.
  split; [|split; [|split]].
  - intros feature coordinates ids rest h Hg Hi Hlen Hvalid.
    unfold read_geojson. cbn [read_features].
    unfold mbind, M_bind.
    pose proof (read_feature_short
                  {| node_collector := NodeCollector.empty;
                     way_collector := WayCollector.empty;
                     area_collector := AreaCollector.empty; log := [] |}
                  feature coordinates ids h Hg Hi Hlen Hvalid) as Hrun.
    destruct (read_feature _ feature h) as [[r|e|] h']; simpl in Hrun;
      try discriminate.
    by injection Hrun as ->.
  - vm_compute. reflexivity.
  - eexists. split; [vm_compute; reflexivity|]. repeat split.
  - eexists. split; [vm_compute; reflexivity|]. repeat split.
Qed.

End ReadFacts.

(** ** The codec: writing *)

Module WriteFacts.
Import IOPs_geojson.

(** A sequence returns normally only if both of its parts do. *)
Lemma bind_Ok_inv {A B} (m : M A) (k : A -> M B) h r h' :
  (m ≫= k) h = (Ok r, h') ->
  exists a h1, m h = (Ok a, h1) /\ k a h1 = (Ok r, h').
Proof.
  unfold mbind, M_bind. destruct (m h) as [[a|e|] h1]; [|done..].
  intros H. by exists a, h1.
Qed.

(** Computations that only read leave the heap as it is, whatever they
    return. *)
Definition read_only {A} (m : M A) : Prop := forall h, snd (m h) = h.

Lemma read_only_bind {A B} (m : M A) (k : A -> M B) :
  read_only m -> (forall a, read_only (k a)) -> read_only (m ≫= k).
Proof.
  intros Hm Hk h. unfold mbind, M_bind.
  pose proof (Hm h) as Hh. destruct (m h) as [[a|e|] h1]; simpl in *; subst; [|done..].
  apply Hk.
Qed.

Lemma read_only_mret {A} (a : A) : read_only (mret a).
Proof. by intros h. Qed.

Lemma read_only_raise {A} e : read_only (raise e : M A).
Proof. by intros h. Qed.

Lemma read_only_map_M {A B} (f : A -> M B) l :
  (forall x, read_only (f x)) -> read_only (map_M f l).
Proof.
  intros Hf. induction l as [|x l IH]; simpl; [apply read_only_mret|].
  apply read_only_bind; [done|]. intros y.
  apply read_only_bind; [done|]. intros ys. apply read_only_mret.
Qed.

Lemma read_only_lon_lat node : read_only (lon_lat node).
Proof.
  unfold lon_lat, Node.lon, Node.lat.
  apply read_only_bind.
  - apply read_only_bind; [by intros h|]. intros o.
    destruct (node_lon o); [apply read_only_mret|apply read_only_raise].
  - intros x. apply read_only_bind.
    + apply read_only_bind; [by intros h|]. intros o.
      destruct (node_lat o); [apply read_only_mret|apply read_only_raise].
    + intros y. apply read_only_mret.
Qed.

Section Rounding.
Variable round : Q -> Q.

Lemma read_only_ways c : read_only (_convert_way_collector_to_list_features round c).
Proof.
  unfold _convert_way_collector_to_list_features.
  apply read_only_map_M. intros way.
  apply read_only_bind; [by intros h|]. intros o.
  apply read_only_bind; [apply read_only_map_M, read_only_lon_lat|].
  intros cs. apply read_only_mret.
Qed.

Lemma read_only_points l : read_only (_convert_list_point_to_list_features round l).
Proof.
  unfold _convert_list_point_to_list_features.
  apply read_only_map_M. intros node.
  apply read_only_bind; [apply read_only_lon_lat|].
  intros c. apply read_only_mret.
Qed.

Lemma read_only_Ok {A} (m : M A) h r h' : read_only m -> m h = (r, h') -> h' = h.
Proof. intros Hm Hrun. pose proof (Hm h) as Hh. by rewrite Hrun in Hh. Qed.

(** What the write does to one ring and to one area.  A ring counts as
    closed when its first and last node are equal ([==], by id). *)
Definition close_if_open (ring : list NodeRef) : list NodeRef :=
  if unclosed ring then close_ring ring else ring.

Definition close_inner (ring : list NodeRef) : list NodeRef :=
  if (length ring <? 3)%nat then ring else close_if_open ring.

Definition closed_area (o : AreaObj) : AreaObj :=
  if (length (area_outer_border o) <? 3)%nat then o
  else Area.with_inner_borders
         (Area.with_outer_border o (close_if_open (area_outer_border o)))
         (map close_inner (area_inner_borders o)).

Lemma unclosed_close_ring ring : unclosed (close_ring ring) = false.
Proof.
  destruct ring as [|first rest]; [done|].
  unfold unclosed, close_ring. rewrite last_snoc. simpl.
  unfold node_eqb. by rewrite Z.eqb_refl.
Qed.

Lemma length_close_if_open ring : (length ring <= length (close_if_open ring))%nat.
Proof.
  unfold close_if_open, close_ring. destruct (unclosed ring); [|done].
  destruct ring; [done|]. rewrite length_app. lia.
Qed.

Lemma close_if_open_idemp ring : close_if_open (close_if_open ring) = close_if_open ring.
Proof.
  unfold close_if_open at 2. destruct (unclosed ring) eqn:E.
  - unfold close_if_open. by rewrite unclosed_close_ring, E.
  - unfold close_if_open. by rewrite E.
Qed.

Lemma close_inner_idemp ring : close_inner (close_inner ring) = close_inner ring.
Proof.
  unfold close_inner at 2. destruct (length ring <? 3)%nat eqn:E.
  - unfold close_inner. by rewrite E.
  - unfold close_inner.
    assert ((length (close_if_open ring) <? 3)%nat = false) as ->.
    { apply Nat.ltb_ge. apply Nat.ltb_ge in E.
      pose proof (length_close_if_open ring). lia. }
    rewrite E. apply close_if_open_idemp.
Qed.

Lemma closed_area_idemp o : closed_area (closed_area o) = closed_area o.
Proof.
  unfold closed_area at 2. destruct (length (area_outer_border o) <? 3)%nat eqn:E.
  - unfold closed_area. by rewrite E.
  - unfold closed_area. simpl.
    assert ((length (close_if_open (area_outer_border o)) <? 3)%nat = false) as ->.
    { apply Nat.ltb_ge. apply Nat.ltb_ge in E.
      pose proof (length_close_if_open (area_outer_border o)). lia. }
    rewrite E. unfold Area.with_inner_borders, Area.with_outer_border. simpl.
    rewrite close_if_open_idemp. f_equal.
    rewrite map_map. apply map_ext. intros. apply close_inner_idemp.
Qed.

(** [h'] is [h] with the area at address [a] replaced by [o']. *)
Definition area_updated (h h' : Heap) (a : nat) (o' : AreaObj) : Prop :=
  nodes h' = nodes h /\ ways h' = ways h /\ areas h' !!! a = o'
  /\ forall b, b <> a -> areas h' !!! b = areas h !!! b.

Lemma with_inner_borders_same o : Area.with_inner_borders o (area_inner_borders o) = o.
Proof. by destruct o. Qed.

Lemma with_outer_border_same o : Area.with_outer_border o (area_outer_border o) = o.
Proof. by destruct o. Qed.

Lemma put_area_updated area o h :
  area_updated h (snd (put_area area o h)) (a_addr area) o.
Proof.
  repeat split; simpl.
  - by rewrite lookup_total_insert_eq.
  - intros b Hb. by rewrite lookup_total_insert_ne.
Qed.

(** The loop over the inner rings, when it returns: the rings before [j]
    are as they were, those from [j] on are closed where the loop closes. *)
Lemma convert_inner_borders_spec area pending : forall j h acc ids r h',
  drop j (area_inner_borders (areas h !!! a_addr area)) = pending ->
  convert_inner_borders area j pending acc ids h = (Ok r, h') ->
  area_updated h h' (a_addr area)
    (Area.with_inner_borders (areas h !!! a_addr area)
       (take j (area_inner_borders (areas h !!! a_addr area))
        ++ map close_inner pending)).
Proof.
  induction pending as [|ring rest IH]; intros j h acc ids r h' Hdrop Hrun.
  - injection Hrun as _ <-. repeat split; try done.
    rewrite app_nil_r, take_ge; [by rewrite with_inner_borders_same|].
    apply (f_equal length) in Hdrop. rewrite length_drop in Hdrop.
    simpl in Hdrop. lia.
  - set (o := areas h !!! a_addr area) in *.
    set (inner := area_inner_borders o) in *.
    assert (inner !! j = Some ring) as Hj.
    { rewrite <- (Nat.add_0_r j), <- lookup_drop, Hdrop. done. }
    assert (drop (S j) inner = rest) as Hrest.
    { change rest with (drop 1 (ring :: rest)). rewrite <- Hdrop, drop_drop.
      f_equal. lia. }
    assert (take (S j) inner = take j inner ++ [ring]) as Htake
      by (by apply take_S_r).
    cbn [convert_inner_borders] in Hrun.
    unfold close_inner at 1. cbn [map].
    destruct (length ring <? 3)%nat eqn:Elen.
    + apply IH in Hrun; [|done]. fold o inner in Hrun.
      rewrite Htake, <- app_assoc in Hrun. exact Hrun.
    + apply bind_Ok_inv in Hrun as (ring' & h1 & Hclose & Hrun).
      apply bind_Ok_inv in Hrun as (cs & h2 & Hcs & Hrun).
      apply read_only_Ok in Hcs as ->;
        [|apply read_only_map_M, read_only_lon_lat].
      unfold close_if_open. destruct (unclosed ring) eqn:Eopen.
      * (* the ring is closed in the area object *)
        unfold mbind, M_bind, get_area, put_area, mret, M_ret in Hclose.
        injection Hclose as <- <-. fold o inner in Hrun.
        match type of Hrun with convert_inner_borders _ _ _ _ _ ?h1 = _ =>
          set (h1' := h1) in * end.
        assert (areas h1' !!! a_addr area
                = Area.with_inner_borders o (<[j := close_ring ring]> inner)) as Ho1
          by (unfold h1'; simpl; by rewrite lookup_total_insert_eq).
        apply IH in Hrun.
        2:{ rewrite Ho1. simpl. rewrite drop_insert_lt by lia. done. }
        rewrite Ho1 in Hrun. simpl in Hrun.
        destruct Hrun as (Hn & Hw & Ha & Hother).
        repeat split.
        -- by rewrite Hn.
        -- by rewrite Hw.
        -- rewrite Ha. unfold Area.with_inner_borders. simpl. f_equal.
           rewrite (take_S_r _ _ (close_ring ring)).
           ++ rewrite take_insert_ge by lia. by rewrite <- app_assoc.
           ++ apply list_lookup_insert_eq. by apply lookup_lt_Some in Hj.
        -- intros b Hb. rewrite Hother by done. unfold h1'. simpl.
           by rewrite lookup_total_insert_ne.
      * (* the ring is closed already *)
        injection Hclose as <- <-.
        apply IH in Hrun; [|done]. fold o inner in Hrun.
        rewrite Htake, <- app_assoc in Hrun. exact Hrun.
Qed.

Lemma area_updated_refl h a : area_updated h h a (areas h !!! a).
Proof. by repeat split. Qed.

Lemma area_updated_trans h h1 h2 a o1 o2 :
  area_updated h h1 a o1 -> area_updated h1 h2 a o2 -> area_updated h h2 a o2.
Proof.
  intros (Hn1 & Hw1 & Ha1 & Ho1) (Hn2 & Hw2 & Ha2 & Ho2). repeat split.
  - by rewrite Hn2.
  - by rewrite Hw2.
  - done.
  - intros b Hb. by rewrite Ho2, Ho1.
Qed.

(** One area, when its conversion returns: the area object is closed as
    [closed_area] says, nothing else changes. *)
Lemma convert_area_spec area h f h' :
  convert_area round area h = (Ok f, h') ->
  area_updated h h' (a_addr area) (closed_area (areas h !!! a_addr area)).
Proof.
  unfold convert_area. intros Hrun.
  apply bind_Ok_inv in Hrun as (o & h0 & Hget & Hrun).
  injection Hget as <- <-.
  set (o := areas h !!! a_addr area) in *.
  unfold closed_area. fold o.
  destruct (length (area_outer_border o) <? 3)%nat eqn:Elen.
  { injection Hrun as _ <-. apply area_updated_refl. }
  apply bind_Ok_inv in Hrun as (outer & h1 & Hclose & Hrun).
  apply bind_Ok_inv in Hrun as (cs & h2 & Hcs & Hrun).
  apply read_only_Ok in Hcs as ->; [|apply read_only_map_M, read_only_lon_lat].
  apply bind_Ok_inv in Hrun as (o1 & h2 & Hget & Hrun).
  injection Hget as <- <-.
  apply bind_Ok_inv in Hrun as ([rings ids] & h3 & Hinner & Hrun).
  apply bind_Ok_inv in Hrun as (o3 & h4 & Hget & Hrun).
  injection Hget as <- <-. injection Hrun as _ <-.
  apply convert_inner_borders_spec in Hinner; [|done].
  rewrite take_0 in Hinner. cbn [app] in Hinner.
  assert (area_updated h h1 (a_addr area)
            (Area.with_outer_border o (close_if_open (area_outer_border o)))) as H1.
  { unfold close_if_open. destruct (unclosed (area_outer_border o)).
    - apply bind_Ok_inv in Hclose as ([] & h1' & Hput & Hret).
      injection Hret as _ <-. injection Hput as <-. apply put_area_updated.
    - injection Hclose as _ <-. rewrite with_outer_border_same.
      apply area_updated_refl. }
  eapply area_updated_trans; [exact H1|].
  destruct H1 as (_ & _ & Ho1 & _). rewrite Ho1 in Hinner. exact Hinner.
Qed.

(** All areas of the collector, when the conversion returns. *)
Lemma convert_areas_spec l : forall h fs h',
  convert_areas round l h = (Ok fs, h') ->
  nodes h' = nodes h /\ ways h' = ways h
  /\ (forall b, In b (map a_addr l) -> areas h' !!! b = closed_area (areas h !!! b))
  /\ (forall b, ~ In b (map a_addr l) -> areas h' !!! b = areas h !!! b).
Proof.
  induction l as [|area rest IH]; intros h fs h' Hrun.
  - injection Hrun as _ <-. by repeat split.
  - cbn [convert_areas] in Hrun.
    apply bind_Ok_inv in Hrun as (f & h1 & Harea & Hrun).
    apply bind_Ok_inv in Hrun as (fs' & h2 & Hrest & Hrun).
    injection Hrun as _ <-.
    apply convert_area_spec in Harea as (Hn1 & Hw1 & Ha1 & Ho1).
    apply IH in Hrest as (Hn2 & Hw2 & Hin2 & Hout2).
    repeat split.
    + by rewrite Hn2.
    + by rewrite Hw2.
    + intros b Hb. destruct (in_dec Nat.eq_dec b (map a_addr rest)) as [Hr|Hr].
      * rewrite Hin2 by done. destruct (decide (b = a_addr area)) as [->|Hne].
        -- by rewrite Ha1, closed_area_idemp.
        -- by rewrite Ho1.
      * rewrite Hout2 by done. destruct Hb as [<-|Hb]; [done|by destruct Hr].
    + intros b Hb. simpl in Hb.
      rewrite Hout2 by tauto. apply Ho1. intros ->. tauto.
Qed.

(** *** The write returns when the nodes it reads have coordinates *)

Definition located (h : Heap) (node : NodeRef) : Prop :=
  is_Some (node_lat (nodes h !!! n_addr node))
  /\ is_Some (node_lon (nodes h !!! n_addr node)).

(** Every node of every ring of the area has coordinates. *)
Definition area_located (h : Heap) (o : AreaObj) : Prop :=
  (forall node, In node (area_outer_border o) -> located h node)
  /\ (forall ring node, In ring (area_inner_borders o) -> In node ring ->
        located h node).

Lemma located_nodes h h' node : nodes h' = nodes h -> located h node -> located h' node.
Proof. unfold located. by intros ->. Qed.

Lemma lon_lat_returns h l :
  (forall node, In node l -> located h node) ->
  exists cs, map_M lon_lat l h = (Ok cs, h).
Proof.
  induction l as [|node l IH]; intros Hl; [by eexists|].
  destruct (Hl node (or_introl eq_refl)) as [[la Hla] [lo Hlo]].
  destruct IH as [cs Hcs]; [intros; apply Hl; by right|].
  exists ((lo, la) :: cs). cbn [map_M].
  unfold mbind at 1, M_bind at 1.
  assert (Node.lon node h = (Ok lo, h)) as Hlon
    by (unfold Node.lon, mbind, M_bind, get_node; by rewrite Hlo).
  assert (Node.lat node h = (Ok la, h)) as Hlat
    by (unfold Node.lat, mbind, M_bind, get_node; by rewrite Hla).
  assert (lon_lat node h = (Ok (lo, la), h)) as ->.
  { unfold lon_lat. unfold mbind at 1, M_bind at 1. rewrite Hlon.
    unfold mbind at 1, M_bind at 1. by rewrite Hlat. }
  unfold mbind at 1, M_bind at 1. by rewrite Hcs.
Qed.

Lemma in_close_ring node ring : In node (close_ring ring) -> In node ring.
Proof.
  destruct ring as [|first rest]; [done|]. unfold close_ring.
  rewrite in_app_iff. intros [H|[<-|[]]]; [done|by left].
Qed.

Lemma in_close_if_open node ring : In node (close_if_open ring) -> In node ring.
Proof.
  unfold close_if_open. destruct (unclosed ring); [apply in_close_ring|done].
Qed.

Lemma in_close_inner node ring : In node (close_inner ring) -> In node ring.
Proof.
  unfold close_inner. destruct (length ring <? 3)%nat; [done|apply in_close_if_open].
Qed.

Lemma area_located_closed h o : area_located h o -> area_located h (closed_area o).
Proof.
  intros [Houter Hinner]. unfold closed_area.
  destruct (length (area_outer_border o) <? 3)%nat; [done|]. split; simpl.
  - intros node Hn. by apply Houter, in_close_if_open.
  - intros ring node (ring0 & <- & Hr)%in_map_iff Hn.
    by apply (Hinner ring0), in_close_inner.
Qed.

Lemma convert_inner_borders_returns area pending : forall j h acc ids,
  (forall ring node, In ring pending -> In node ring -> located h node) ->
  exists r h', convert_inner_borders area j pending acc ids h = (Ok r, h').
Proof.
  induction pending as [|ring rest IH]; intros j h acc ids Hl; [by eexists _, _|].
  cbn [convert_inner_borders].
  destruct (length ring <? 3)%nat.
  { apply IH. intros r n Hr. apply Hl. by right. }
  assert (forall h1, nodes h1 = nodes h ->
            forall ring', (forall n, In n ring' -> In n ring) ->
            exists r h', (inner_coordinates ← map_M lon_lat ring';
                          convert_inner_borders area (S j) rest
                            (acc ++ [inner_coordinates])
                            (ids ++ [map n_id ring'])) h1 = (Ok r, h')) as Hrest.
  { intros h1 Hn ring' Hsub.
    destruct (lon_lat_returns h1 ring') as [cs Hcs].
    { intros n Hin. apply (located_nodes h); [done|].
      apply (Hl ring); [by left|by apply Hsub]. }
    unfold mbind at 1, M_bind at 1. rewrite Hcs. apply IH.
    intros r n Hr Hin. apply (located_nodes h); [done|].
    apply (Hl r); [by right|done]. }
  destruct (unclosed ring).
  - unfold mbind at 1, M_bind at 1.
    unfold mbind at 1, M_bind at 1, get_area at 1.
    unfold mbind at 1, M_bind at 1, put_area at 1.
    unfold mret at 1, M_ret at 1.
    apply Hrest; [done|intros n; apply in_close_ring].
  - unfold mbind at 1, M_bind at 1, mret at 1, M_ret at 1.
    by apply Hrest.
Qed.

Lemma convert_area_returns area h :
  area_located h (areas h !!! a_addr area) ->
  exists f h', convert_area round area h = (Ok f, h').
Proof.
  intros [Houter Hinner]. unfold convert_area.
  unfold mbind at 1, M_bind at 1, get_area at 1.
  set (o := areas h !!! a_addr area) in *.
  destruct (length (area_outer_border o) <? 3)%nat; [by eexists _, _|].
  assert (forall h1 outer, nodes h1 = nodes h ->
            (forall n, In n outer -> In n (area_outer_border o)) ->
            area_inner_borders (areas h1 !!! a_addr area) = area_inner_borders o ->
            exists f h',
              (outer_coordinates ← map_M lon_lat outer;
               o ← get_area area;
               '(all_rings, list_node_id_from_area) ←
                  convert_inner_borders area 0 (area_inner_borders o)
                    [outer_coordinates] [map n_id outer];
               o ← get_area area;
               mret (Some {| f_id := a_id area;
                             boundingbox := Some (area_min_lon o, area_min_lat o,
                                                  area_max_lon o, area_max_lat o);
                             geometry := geojson_Polygon round all_rings;
                             properties :=
                               {| OSM_id_nodes := Some (RingIds list_node_id_from_area);
                                  tags := Some (area_tags o); OSM_id := None |} |}))
                h1 = (Ok f, h')) as Hrest.
  { intros h1 outer Hn Hsub Hsame.
    destruct (lon_lat_returns h1 outer) as [cs Hcs].
    { intros n Hin. apply (located_nodes h); [done|]. by apply Houter, Hsub. }
    unfold mbind at 1, M_bind at 1. rewrite Hcs.
    unfold mbind at 1, M_bind at 1, get_area at 1. rewrite Hsame.
    destruct (convert_inner_borders_returns area (area_inner_borders o) 0 h1
                [cs] [map n_id outer]) as ([rings ids] & h2 & Hrun).
    { intros r n Hr Hin. apply (located_nodes h); [done|]. by apply (Hinner r). }
    unfold mbind at 1, M_bind at 1. rewrite Hrun.
    by eexists _, _. }
  destruct (unclosed (area_outer_border o)).
  - unfold mbind at 1, M_bind at 1.
    unfold mbind at 1, M_bind at 1, put_area at 1.
    unfold mret at 1, M_ret at 1.
    apply Hrest; [done|intros n; apply in_close_ring|].
    simpl. by rewrite lookup_total_insert_eq.
  - unfold mbind at 1, M_bind at 1, mret at 1, M_ret at 1.
    by apply Hrest.
Qed.

Lemma convert_areas_returns l : forall h,
  (forall area, In area l -> area_located h (areas h !!! a_addr area)) ->
  exists fs h', convert_areas round l h = (Ok fs, h').
Proof.
  induction l as [|area rest IH]; intros h Hl; [by eexists _, _|].
  cbn [convert_areas].
  destruct (convert_area_returns area h) as (f & h1 & Harea); [apply Hl; by left|].
  unfold mbind at 1, M_bind at 1. rewrite Harea.
  pose proof (convert_area_spec area h f h1 Harea) as (Hn & _ & Ha & Hother).
  destruct (IH h1) as (fs & h2 & Hrest).
  { intros b Hb.
    assert (area_located h (areas h1 !!! a_addr b)) as [H1 H2].
    { destruct (decide (a_addr b = a_addr area)) as [->|Hne].
      - rewrite Ha. apply area_located_closed, Hl. by left.
      - rewrite Hother by done. apply Hl. by right. }
    split.
    - intros n Hin. apply (located_nodes h); [done|by apply H1].
    - intros r n Hr Hin. apply (located_nodes h); [done|by apply (H2 r)]. }
  unfold mbind at 1, M_bind at 1. rewrite Hrest. by eexists _, _.
Qed.

(** Writing a collection of areas that is not empty returns as soon as the
    nodes of their rings have coordinates. *)
Lemma write_geojson_areas_returns (areas_collector : AreaCollector.t) h :
  areas_collector <> [] ->
  (forall area, In area (PyDict.values areas_collector) ->
     area_located h (areas h !!! a_addr area)) ->
  exists fc h', write_geojson round None (Some areas_collector) None None h = (Ok fc, h').
Proof.
  intros Hne Hl. unfold write_geojson.
  assert (is_empty (Some areas_collector) = false) as ->
    by (by destruct areas_collector).
  cbn [is_empty andb].
  unfold mbind at 1, M_bind at 1, mret at 1, M_ret at 1.
  unfold _convert_area_collector_to_list_features.
  destruct (convert_areas_returns _ h Hl) as (fs & h1 & Hrun).
  unfold mbind at 1, M_bind at 1. rewrite Hrun. by eexists _, _.
Qed.

(** [closed_area] in the words of the claim. *)
Lemma closed_area_outer o first rest :
  area_outer_border o = first :: rest ->
  (3 <= length (area_outer_border o))%nat ->
  unclosed (area_outer_border o) = true ->
  area_outer_border (closed_area o) = area_outer_border o ++ [first].
Proof.
  intros Hfirst Hlen Hopen. unfold closed_area.
  apply Nat.ltb_ge in Hlen. rewrite Hlen. simpl.
  unfold close_if_open. rewrite Hopen, Hfirst. done.
Qed.

Lemma closed_area_inner o j ring first rest :
  (3 <= length (area_outer_border o))%nat ->
  area_inner_borders o !! j = Some ring ->
  ring = first :: rest ->
  (3 <= length ring)%nat ->
  unclosed ring = true ->
  area_inner_borders (closed_area o) !! j = Some (ring ++ [first]).
Proof.
  intros Hlen Hj Hfirst Hring Hopen. unfold closed_area.
  apply Nat.ltb_ge in Hlen. rewrite Hlen. simpl.
  rewrite list_lookup_fmap, Hj. simpl. f_equal.
  unfold close_inner. apply Nat.ltb_ge in Hring. rewrite Hring.
  unfold close_if_open. rewrite Hopen, Hfirst. done.
Qed.

Lemma closed_area_same o :
  unclosed (area_outer_border o) = false ->
  (forall ring, In ring (area_inner_borders o) -> unclosed ring = false) ->
  closed_area o = o.
Proof.
  intros Houter Hinner. unfold closed_area.
  destruct (length (area_outer_border o) <? 3)%nat; [done|].
  unfold close_if_open at 1. rewrite Houter.
  assert (map close_inner (area_inner_borders o) = area_inner_borders o) as ->.
  { rewrite <- (map_id (area_inner_borders o)) at 2.
    apply map_ext_in. intros ring Hring. unfold close_inner, close_if_open.
    rewrite (Hinner ring Hring). by destruct (length ring <? 3)%nat. }
  by destruct o.
Qed.

(** C10.  [write_geojson] changes the areas of the collection it writes,
    and nothing else.  When it returns, every written area whose outer ring
    has at least 3 nodes and is not closed has the first node of that ring
    appended to its own [outer_border], and likewise every inner ring of at
    least 3 nodes that is not closed; an area whose rings are closed is as
    it was; nodes, ways and the areas outside the collection are unchanged.
    And it does return for a collection of areas whose ring nodes all have
    coordinates. *)
Theorem C10_write_closes_rings (nodes_collector : option NodeCollector.t)
    (areas_collector : AreaCollector.t) (ways_collector : option WayCollector.t)
    (list_print_points : option (list NodeRef)) (h : Heap) :
  (forall fc h',
     write_geojson round nodes_collector (Some areas_collector) ways_collector
                   list_print_points h = (Ok fc, h') ->
     nodes h' = nodes h /\ ways h' = ways h
     /\ (forall area, In area (PyDict.values areas_collector) ->
           let o := areas h !!! a_addr area in
           let o' := areas h' !!! a_addr area in
           o' = closed_area o
           /\ (forall first rest,
                 area_outer_border o = first :: rest ->
                 (3 <= length (area_outer_border o))%nat ->
                 unclosed (area_outer_border o) = true ->
                 area_outer_border o' = area_outer_border o ++ [first])
           /\ (forall j ring first rest,
                 (3 <= length (area_outer_border o))%nat ->
                 area_inner_borders o !! j = Some ring ->
                 ring = first :: rest ->
                 (3 <= length ring)%nat ->
                 unclosed ring = true ->
                 area_inner_borders o' !! j = Some (ring ++ [first]))
           /\ (unclosed (area_outer_border o) = false ->
                (forall ring, In ring (area_inner_borders o) -> unclosed ring = false) ->
                o' = o))
     /\ (forall b, ~ In b (map a_addr (PyDict.values areas_collector)) ->
           areas h' !!! b = areas h !!! b))
  /\ (areas_collector <> [] ->
      (forall area, In area (PyDict.values areas_collector) ->
         area_located h (areas h !!! a_addr area)) ->
      exists fc h',
        write_geojson round None (Some areas_collector) None None h = (Ok fc, h')).
Proof.
  split; [|apply write_geojson_areas_returns].
  unfold write_geojson. intros fc h' Hrun.
  match type of Hrun with (if ?c then _ else _) _ = _ => destruct c end; [done|].
  apply bind_Ok_inv in Hrun as (fw & h1 & Hways & Hrun).
  apply read_only_Ok in Hways as ->.
  2:{ destruct ways_collector; [apply read_only_ways|apply read_only_mret]. }
  apply bind_Ok_inv in Hrun as (fa & h2 & Hareas & Hrun).
  apply bind_Ok_inv in Hrun as (fp & h3 & Hpoints & Hrun).
  injection Hrun as _ <-.
  apply read_only_Ok in Hpoints as ->.
  2:{ destruct list_print_points as [[|p l]|];
        [apply read_only_mret|apply read_only_points|apply read_only_mret]. }
  apply convert_areas_spec in Hareas as (Hn & Hw & Hin & Hout).
  split; [done|]. split; [done|]. split; [|done].
  intros area Harea. cbv zeta. repeat split.
  - by apply Hin, in_map.
  - intros first rest Hfirst Hlen Hopen. rewrite Hin by (by apply in_map).
    by apply closed_area_outer with rest.
  - intros j ring first rest Hlen Hj Hfirst Hring Hopen.
    rewrite Hin by (by apply in_map). by apply closed_area_inner with rest.
  - intros Houter Hinner. rewrite Hin by (by apply in_map).
    by apply closed_area_same.
Qed.

End Rounding.

(** An area with id 9 whose outer ring 1,2,3 and inner ring 4,5,6 are both
    open, built by the constructors. *)
Definition ring_node (i : nat) : NodeRef := {| n_addr := i; n_id := Z.of_nat (S i) |}.
Definition area_9 : AreaRef := {| a_addr := 6; a_id := 9 |}.
Definition open_area_heap : Heap :=
  snd ((n1 ← Node.__init__ 1 (Some (Finite 0)) (Some (Finite 0)) [] [];
        n2 ← Node.__init__ 2 (Some (Finite 0)) (Some (Finite 9)) [] [];
        n3 ← Node.__init__ 3 (Some (Finite 9)) (Some (Finite 9)) [] [];
        n4 ← Node.__init__ 4 (Some (Finite 1)) (Some (Finite 2)) [] [];
        n5 ← Node.__init__ 5 (Some (Finite 1)) (Some (Finite 3)) [] [];
        n6 ← Node.__init__ 6 (Some (Finite 2)) (Some (Finite 3)) [] [];
        Area.__init__ 9 [] [n1; n2; n3] [[n4; n5; n6]] None None None None)
       empty_heap).

Lemma C10_write_closes_rings_witness :
  exists fc h',
    write_geojson (fun q => q) None (Some [(9, area_9)]) None None open_area_heap
      = (Ok fc, h')
    /\ area_outer_border (areas open_area_heap !!! 6%nat)
       = [ring_node 0; ring_node 1; ring_node 2]
    /\ area_outer_border (areas h' !!! 6%nat)
       = [ring_node 0; ring_node 1; ring_node 2; ring_node 0]
    /\ area_inner_borders (areas h' !!! 6%nat)
       = [[ring_node 3; ring_node 4; ring_node 5; ring_node 3]].
Proof.
  destruct (C10_write_closes_rings (fun q => q) None [(9, area_9)] None None
              open_area_heap) as [Heffect Hreturns].
  destruct Hreturns as (fc & h' & Hrun).
  { discriminate. }
  { intros area [<-|[]]. split.
    - intros node Hin. vm_compute in Hin.
      destruct Hin as [<-|[<-|[<-|[]]]]; split; vm_compute; by eexists.
    - intros ring node Hr Hin. vm_compute in Hr. destruct Hr as [<-|[]].
      vm_compute in Hin.
      destruct Hin as [<-|[<-|[<-|[]]]]; split; vm_compute; by eexists. }
  exists fc, h'. split; [done|]. split; [vm_compute; reflexivity|].
  destruct (Heffect fc h' Hrun) as (_ & _ & Hareas & _).
  destruct (Hareas area_9 (or_introl eq_refl)) as (Hclosed & _).
  change (a_addr area_9) with 6%nat in Hclosed.
  rewrite Hclosed. split; vm_compute; reflexivity.
Defined.

End WriteFacts.

(** ** More facts about dicts *)

Module DictMore.
Section Facts.
Context {K V : Type} `{EqDecision K}.
Implicit Types (k : K) (v : V) (d : PyDict.t K V).

Lemma get_None_keys k d : PyDict.get k d = None <-> ~ In k (PyDict.keys d).
Proof.
  induction d as [|[k' v'] d IH]; simpl; [tauto|].
  destruct (decide (k = k')) as [->|Hne].
  - split; [done|]. intros Hn. exfalso. apply Hn. by left.
  - rewrite IH. split.
    + intros Hn [Heq|Hin]; [congruence|done].
    + intros Hn Hin. apply Hn. by right.
Qed.

Lemma get_Some_in k v d : PyDict.get k d = Some v -> In (k, v) d.
Proof.
  induction d as [|[k' v'] d IH]; simpl; [done|].
  destruct (decide (k = k')) as [->|Hne].
  - intros [= ->]. by left.
  - intros Hg. right. by apply IH.
Qed.

Lemma in_get_Some k v d : NoDup (PyDict.keys d) -> In (k, v) d -> PyDict.get k d = Some v.
Proof.
  induction d as [|[k' v'] d IH]; simpl; [done|].
  intros [Hk Hnd]%NoDup_cons [[= -> ->]|Hin].
  - by rewrite decide_True.
  - destruct (decide (k = k')) as [->|Hne]; [|by apply IH].
    exfalso. apply Hk. apply list_elem_of_In.
    change k' with (fst (k', v)). by apply in_map.
Qed.

(** Assigning to a key that is absent appends the entry. *)
Lemma set_absent k v d : PyDict.get k d = None -> PyDict.set k v d = d ++ [(k, v)].
Proof.
  induction d as [|[k' v'] d IH]; simpl; [done|].
  destruct (decide (k = k')); [done|]. intros Hg. by rewrite IH.
Qed.

Lemma keys_set_present k v d :
  PyDict.get k d <> None -> PyDict.keys (PyDict.set k v d) = PyDict.keys d.
Proof.
  induction d as [|[k' v'] d IH]; simpl; [done|].
  destruct (decide (k = k')) as [->|Hne]; [done|].
  intros Hg. simpl. f_equal. by apply IH.
Qed.

Lemma in_set k v d x : In x (PyDict.set k v d) -> x = (k, v) \/ In x d.
Proof.
  induction d as [|[k' v'] d IH]; simpl.
  - intros [<-|[]]. by left.
  - destruct (decide (k = k')); simpl.
    + intros [<-|Hin]; [by left|right; by right].
    + intros [<-|Hin]; [right; by left|].
      destruct (IH Hin) as [->|Hd]; [by left|right; by right].
Qed.

Lemma in_del k d x : In x (PyDict.del k d) -> In x d.
Proof.
  induction d as [|[k' v'] d IH]; simpl; [done|].
  destruct (decide (k = k')); simpl.
  - intros Hin. by right.
  - intros [<-|Hin]; [by left|right; by apply IH].
Qed.

Lemma get_del_ne k k' d : k <> k' -> PyDict.get k' (PyDict.del k d) = PyDict.get k' d.
Proof.
  intros Hne. induction d as [|[k0 v0] d IH]; simpl; [done|].
  destruct (decide (k = k0)) as [<-|Hne0]; simpl.
  - by rewrite decide_False by congruence.
  - destruct (decide (k' = k0)); [done|apply IH].
Qed.

Lemma get_del_absent k k' d :
  PyDict.get k' d = None -> PyDict.get k' (PyDict.del k d) = None.
Proof.
  induction d as [|[k0 v0] d IH]; simpl; [done|].
  destruct (decide (k' = k0)) as [->|Hne]; [done|]. intros Hg.
  destruct (decide (k = k0)); simpl; [done|].
  rewrite decide_False by done. by apply IH.
Qed.

Lemma get_del_eq k d : NoDup (PyDict.keys d) -> PyDict.get k (PyDict.del k d) = None.
Proof.
  induction d as [|[k0 v0] d IH]; simpl; [done|].
  intros [Hk Hnd]%NoDup_cons.
  destruct (decide (k = k0)) as [->|Hne]; simpl.
  - apply get_None_keys. intros Hin. apply Hk. by apply list_elem_of_In.
  - rewrite decide_False by done. by apply IH.
Qed.

Lemma nodup_keys_set k v d : NoDup (PyDict.keys d) -> NoDup (PyDict.keys (PyDict.set k v d)).
Proof.
  intros Hnd. destruct (PyDict.get k d) as [v0|] eqn:Hg.
  - rewrite keys_set_present; [done|]. by rewrite Hg.
  - rewrite set_absent by done. unfold PyDict.keys. rewrite map_app. simpl.
    apply NoDup_app. repeat split; [done| |apply NoDup_singleton].
    intros k0 Hk0 [<-|[]]%list_elem_of_In.
    apply get_None_keys in Hg. apply Hg. by apply list_elem_of_In.
Qed.

Lemma nodup_keys_del k d : NoDup (PyDict.keys d) -> NoDup (PyDict.keys (PyDict.del k d)).
Proof.
  induction d as [|[k0 v0] d IH]; simpl; [done|].
  intros [Hk Hnd]%NoDup_cons.
  destruct (decide (k = k0)); simpl; [done|].
  apply NoDup_cons. split; [|by apply IH].
  intros Hin. apply Hk. apply list_elem_of_In in Hin. apply list_elem_of_In.
  apply in_map_iff in Hin as ([k1 v1] & <- & Hin). apply in_del in Hin.
  change (fst (k1, v1)) with (fst (k1, v1)). by apply (in_map fst) in Hin.
Qed.

Lemma length_set_le k v d : (length (PyDict.set k v d) <= S (length d))%nat.
Proof.
  induction d as [|[k' v'] d IH]; simpl; [done|].
  destruct (decide (k = k')); simpl; lia.
Qed.

End Facts.
End DictMore.

(** ** The merged collection *)

Module MergeOutput.
Import ParceGeojson DictMore.

Definition is_line (f : Feature) : bool :=
  match geometry f with LineString _ => true | _ => false end.

Definition is_polygon (f : Feature) : bool :=
  match geometry f with Polygon _ => true | _ => false end.

(** The features [fs] with the ids [start], [start + 1], ... *)
Fixpoint renumbered (start : nat) (fs : list Feature) : list Feature :=
  match fs with
  | [] => []
  | f :: rest => set_id f (Z.of_nat start) :: renumbered (S start) rest
  end.

Lemma renumber_eq fs : forall acc,
  renumber acc fs = acc ++ renumbered (length acc) fs.
Proof.
  induction fs as [|f rest IH]; intros acc; simpl.
  - by rewrite app_nil_r.
  - rewrite IH, length_app, <- app_assoc. simpl.
    by rewrite Nat.add_1_r.
Qed.

Lemma length_renumbered fs : forall start, length (renumbered start fs) = length fs.
Proof. induction fs as [|f rest IH]; intros start; simpl; [done|]. by rewrite IH. Qed.

Lemma ids_renumbered fs : forall start,
  map f_id (renumbered start fs) = map Z.of_nat (seq start (length fs)).
Proof. induction fs as [|f rest IH]; intros start; simpl; [done|]. by rewrite IH. Qed.

Lemma in_renumbered fs : forall start g,
  In g (renumbered start fs) -> exists f, In f fs /\ g = set_id f (f_id g).
Proof.
  induction fs as [|f rest IH]; intros start g; simpl; [done|].
  intros [<-|Hin].
  - exists f. split; [by left|done].
  - destruct (IH _ _ Hin) as (f0 & Hf0 & Hg). exists f0. split; [by right|done].
Qed.

Lemma renumbered_idemp fs : forall start start',
  renumbered start (renumbered start' fs) = renumbered start fs.
Proof.
  induction fs as [|f rest IH]; intros start start'; simpl; [done|].
  by rewrite IH.
Qed.

(** What the call returns: the values of the two dicts, ways first,
    numbered in that order. *)
Lemma concat_output fuel rand colls rw ad fc :
  concat_geojson_features fuel rand colls rw ad = Ok fc ->
  exists st,
    merge_features fuel rand rw ad
      {| dict_ways_collectors := PyDict.empty;
         dict_areas_collectors := PyDict.empty; draws := O |} (concat colls) = Ok st
    /\ fc = renumbered 0 (PyDict.values (dict_ways_collectors st))
            ++ renumbered (length (PyDict.values (dict_ways_collectors st)))
                 (PyDict.values (dict_areas_collectors st)).
Proof.
  unfold concat_geojson_features. intros Hrun.
  destruct (merge_features _ _ _ _ _ _) as [st| |]; [|done..].
  exists st. split; [done|].
  cbn [mbind result_bind rbind] in Hrun. injection Hrun as <-.
  rewrite !renumber_eq. simpl. by rewrite length_renumbered.
Qed.

(** No feature object is stored twice by the merge: the overwrite and the
    skip policy never store a feature under a second key, and the rekey
    policy does not when the features of the input are pairwise different
    (so that no object occurs twice). *)
Definition stored_once (rw ad : bool) (colls : list FeatureCollection) : Prop :=
  rw = true \/ ad = false \/ NoDup (concat colls).

(** X1.  When no feature object is stored twice ([stored_once]), then
    whatever ids the input features carry, the features of the merged
    collection are numbered 0, 1, 2, ... in the order of the collection. *)
Theorem merge_numbers_features_from_zero fuel rand colls rw ad fc :
  stored_once rw ad colls ->
  concat_geojson_features fuel rand colls rw ad = Ok fc ->
  map f_id fc = map Z.of_nat (seq 0 (length fc)).
Proof.
  intros _ (st & _ & ->)%concat_output.
  rewrite map_app, !ids_renumbered, length_app, !length_renumbered.
  by rewrite seq_app, map_app.
Qed.

(** A tagged line and a tagged polygon with ids of their own. *)
Definition sample_line (i : Z) (key name : string) : Feature :=
  {| f_id := i; boundingbox := None;
     geometry := LineString [(0, 0); (1, 1)]%Q;
     properties := {| OSM_id_nodes := Some (LineIds [1; 2]);
                      tags := Some [("OSM_way_id"%string, JStr key);
                                    ("name"%string, JStr name)];
                      OSM_id := None |} |}.

Definition sample_polygon (i : Z) (key : string) : Feature :=
  {| f_id := i; boundingbox := None;
     geometry := Polygon [[(0, 0); (1, 0); (1, 1); (0, 0)]%Q];
     properties := {| OSM_id_nodes := Some (RingIds [[1; 2; 3; 1]]);
                      tags := Some [("OSM_area_id"%string, JStr key)];
                      OSM_id := None |} |}.

Definition sample_point (i : Z) : Feature :=
  {| f_id := i; boundingbox := None; geometry := Point (0, 0)%Q;
     properties := {| OSM_id_nodes := None; tags := None; OSM_id := None |} |}.

Lemma merge_numbers_features_from_zero_witness :
  exists fc,
    concat_geojson_features 0 (fun _ => 0)
      [[sample_polygon 77 "a"]; [sample_line 10 "w" "n"]] true false = Ok fc
    /\ map f_id fc = [0; 1].
Proof.
  eexists. split; [reflexivity|].
  exact (merge_numbers_features_from_zero 0 (fun _ => 0)
           [[sample_polygon 77 "a"]; [sample_line 10 "w" "n"]] true false
           _ (or_introl eq_refl) eq_refl).
Defined.

(** *** Where the features of the result come from *)

(** Every value of the dict is one of [inputs] and satisfies [P]. *)
Definition drawn_from (inputs : list Feature) (P : Feature -> bool)
    (d : PyDict.t jval Feature) : Prop :=
  forall k f, In (k, f) d -> In f inputs /\ P f = true.

Lemma drawn_from_set inputs P d k f :
  drawn_from inputs P d -> In f inputs -> P f = true ->
  drawn_from inputs P (PyDict.set k f d).
Proof.
  intros Hd Hin HP k' f' [[= -> ->]|Hin']%in_set; [done|by apply (Hd k')].
Qed.

Lemma merge_feature_drawn inputs fuel rand rw ad st f st' :
  In f inputs ->
  drawn_from inputs is_line (dict_ways_collectors st) ->
  drawn_from inputs is_polygon (dict_areas_collectors st) ->
  merge_feature fuel rand rw ad st f = Ok st' ->
  drawn_from inputs is_line (dict_ways_collectors st')
  /\ drawn_from inputs is_polygon (dict_areas_collectors st').
Proof.
  intros Hin Hw Ha. unfold merge_feature.
  destruct (geometry f) as [c|cs|rings] eqn:Hg.
  - by intros [= <-].
  - assert (is_line f = true) as Hl by (unfold is_line; by rewrite Hg).
    destruct (tags_get f "OSM_way_id") as [[key|]| |]; simpl; try done.
    destruct (PyDict.mem key (dict_ways_collectors st)); simpl.
    + destruct rw; [by intros [= <-]|].
      destruct ad; [|by intros [= <-]].
      destruct (rekey_way _ _ _ _ _) as [[new_key n]| |]; simpl; [|done..].
      intros [= <-]. simpl. split; [by apply drawn_from_set|done].
    + intros [= <-]. simpl. split; [by apply drawn_from_set|done].
  - assert (is_polygon f = true) as Hl by (unfold is_polygon; by rewrite Hg).
    destruct (tags_get f "OSM_area_id") as [[key|]| |]; simpl; try done.
    destruct (PyDict.mem key (dict_areas_collectors st)); simpl.
    + destruct rw; [by intros [= <-]|].
      destruct ad; [|by intros [= <-]].
      destruct (rekey_area _ _ _ _ _) as [[new_key n]| |]; simpl; [|done..].
      intros [= <-]. simpl. split; [done|by apply drawn_from_set].
    + intros [= <-]. simpl. split; [done|by apply drawn_from_set].
Qed.

Lemma merge_features_drawn inputs fuel rand rw ad fs : forall st st',
  (forall f, In f fs -> In f inputs) ->
  drawn_from inputs is_line (dict_ways_collectors st) ->
  drawn_from inputs is_polygon (dict_areas_collectors st) ->
  merge_features fuel rand rw ad st fs = Ok st' ->
  drawn_from inputs is_line (dict_ways_collectors st')
  /\ drawn_from inputs is_polygon (dict_areas_collectors st').
Proof.
  induction fs as [|f rest IH]; intros st st' Hsub Hw Ha; simpl.
  - by intros [= <-].
  - destruct (merge_feature fuel rand rw ad st f) as [st1| |] eqn:Hstep; [|done..].
    cbn [mbind result_bind rbind]. intros Hrest.
    destruct (merge_feature_drawn inputs _ _ _ _ _ _ _ (Hsub f (or_introl eq_refl))
                Hw Ha Hstep) as [Hw1 Ha1].
    apply (IH st1 st'); try done. intros g Hg. apply Hsub. by right.
Qed.

Lemma drawn_from_values inputs P d f :
  drawn_from inputs P d -> In f (PyDict.values d) -> In f inputs /\ P f = true.
Proof.
  intros Hd (kf & <- & Hin)%in_map_iff. destruct kf as [k f0]. by apply (Hd k).
Qed.

(** X2.  When no feature object is stored twice ([stored_once]), the merged
    collection holds the LineStrings it kept, then the Polygons it kept:
    each is a feature of the input with nothing but its id changed.  Point
    features never reach the result, and no feature is made up. *)
Theorem merge_keeps_input_lines_then_polygons fuel rand colls rw ad fc :
  stored_once rw ad colls ->
  concat_geojson_features fuel rand colls rw ad = Ok fc ->
  exists lines polygons,
    fc = renumbered 0 lines ++ renumbered (length lines) polygons
    /\ (forall f, In f lines -> In f (concat colls) /\ is_line f = true)
    /\ (forall f, In f polygons -> In f (concat colls) /\ is_polygon f = true)
    /\ (forall g, In g fc ->
          exists f, In f (concat colls) /\ g = set_id f (f_id g)
                    /\ (is_line f = true \/ is_polygon f = true)).
Proof.
  intros _ (st & Hmerge & ->)%concat_output.
  assert (forall P, drawn_from (concat colls) P PyDict.empty) as Hempty
    by (by intros P k f []).
  destruct (merge_features_drawn (concat colls) _ _ _ _ _
              {| dict_ways_collectors := PyDict.empty;
                 dict_areas_collectors := PyDict.empty; draws := O |} st
              (fun f H => H) (Hempty _) (Hempty _) Hmerge) as [Hw Ha].
  exists (PyDict.values (dict_ways_collectors st)),
    (PyDict.values (dict_areas_collectors st)).
  split; [done|]. split; [|split].
  - intros f Hf. by apply (drawn_from_values _ _ _ _ Hw).
  - intros f Hf. by apply (drawn_from_values _ _ _ _ Ha).
  - intros g [Hg|Hg]%in_app_iff; apply in_renumbered in Hg as (f & Hf & Hgf);
      exists f.
    + destruct (drawn_from_values _ _ _ _ Hw Hf). auto.
    + destruct (drawn_from_values _ _ _ _ Ha Hf). auto.
Qed.

Lemma merge_keeps_input_lines_then_polygons_witness :
  let colls := [[sample_polygon 77 "a"; sample_point 5]; [sample_line 10 "w" "n"]] in
  let fc := [set_id (sample_line 10 "w" "n") 0; set_id (sample_polygon 77 "a") 1] in
  concat_geojson_features 0 (fun _ => 0) colls true false = Ok fc
  /\ exists lines polygons,
      fc = renumbered 0 lines ++ renumbered (length lines) polygons
      /\ (forall f, In f lines -> In f (concat colls) /\ is_line f = true)
      /\ (forall f, In f polygons -> In f (concat colls) /\ is_polygon f = true)
      /\ (forall g, In g fc ->
            exists f, In f (concat colls) /\ g = set_id f (f_id g)
                      /\ (is_line f = true \/ is_polygon f = true)).
Proof.
  intros colls fc. split; [reflexivity|].
  exact (merge_keeps_input_lines_then_polygons 0 (fun _ => 0) colls true false fc
           (or_introl eq_refl) eq_refl).
Defined.

(** *** Features without a merge key *)

(** A LineString without [OSM_way_id] in its tag map, or a Polygon without
    [OSM_area_id]. *)
Definition keyless (f : Feature) : Prop :=
  match geometry f with
  | LineString _ => tags_get f "OSM_way_id" = Ok None
  | Polygon _ => tags_get f "OSM_area_id" = Ok None
  | Point _ => False
  end.

Lemma merge_feature_keyless fuel rand rw ad st f :
  keyless f -> merge_feature fuel rand rw ad st f = Raise ValueError.
Proof.
  unfold keyless, merge_feature.
  destruct (geometry f); [done| |]; by intros ->.
Qed.

(** The rekey loops return or run out of fuel. *)
Lemma rekey_way_outcomes fuel rand d key n :
  (exists r, rekey_way fuel rand d key n = Ok r)
  \/ rekey_way fuel rand d key n = OutOfFuel.
Proof.
  revert n. induction fuel as [|fuel IH]; intros n; simpl; [by right|].
  destruct (PyDict.mem key d); [apply IH|left; by eexists].
Qed.

Lemma rekey_area_outcomes fuel rand d : forall key n,
  (exists r, rekey_area fuel rand d key n = Ok r)
  \/ rekey_area fuel rand d key n = OutOfFuel.
Proof.
  induction fuel as [|fuel IH]; intros key n; simpl; [by right|].
  destruct (PyDict.mem key d); [apply IH|left; by eexists].
Qed.

(** One step of the merge returns, or raises [ValueError], or raises
    [AttributeError] on a feature without a tag map, or, under the rekey
    policy only, does not leave its rekey loop. *)
Lemma merge_feature_outcomes fuel rand rw ad st f :
  (exists st', merge_feature fuel rand rw ad st f = Ok st')
  \/ merge_feature fuel rand rw ad st f = Raise ValueError
  \/ (tags (properties f) = None
      /\ merge_feature fuel rand rw ad st f = Raise AttributeError)
  \/ (rw = false /\ ad = true
      /\ merge_feature fuel rand rw ad st f = OutOfFuel).
Proof.
  unfold merge_feature, tags_get.
  destruct (geometry f); cbn [mbind result_bind rbind].
  - left. by eexists.
  - destruct (tags (properties f)) as [t|]; cbn [mbind result_bind rbind];
      [|right; right; left; done].
    destruct (PyDict.get "OSM_way_id" t); simpl; [|right; by left].
    destruct (PyDict.mem j (dict_ways_collectors st)); simpl; [|left; by eexists].
    destruct rw; [left; by eexists|]. destruct ad; [|left; by eexists].
    destruct (rekey_way_outcomes fuel rand (dict_ways_collectors st) j (draws st))
      as [[[k n] ->]| ->]; cbn [mbind result_bind rbind].
    + left. by eexists.
    + right; right; right. done.
  - destruct (tags (properties f)) as [t|]; cbn [mbind result_bind rbind];
      [|right; right; left; done].
    destruct (PyDict.get "OSM_area_id" t); simpl; [|right; by left].
    destruct (PyDict.mem j (dict_areas_collectors st)); simpl; [|left; by eexists].
    destruct rw; [left; by eexists|]. destruct ad; [|left; by eexists].
    destruct (rekey_area_outcomes fuel rand (dict_areas_collectors st) j (draws st))
      as [[[k n] ->]| ->]; cbn [mbind result_bind rbind].
    + left. by eexists.
    + right; right; right. done.
Qed.

Lemma merge_features_keyless_outcomes fuel rand rw ad fs f : forall st,
  In f fs -> keyless f ->
  merge_features fuel rand rw ad st fs = Raise ValueError
  \/ (merge_features fuel rand rw ad st fs = Raise AttributeError
      /\ exists g, In g fs /\ tags (properties g) = None)
  \/ (merge_features fuel rand rw ad st fs = OutOfFuel
      /\ rw = false /\ ad = true).
Proof.
  induction fs as [|g rest IH]; intros st Hin Hk; [done|].
  simpl. destruct Hin as [->|Hin].
  - left. by rewrite merge_feature_keyless.
  - destruct (merge_feature_outcomes fuel rand rw ad st g)
      as [[st1 ->]|[->|[[Hnone ->]|(Hrw & Had & ->)]]]; cbn [mbind result_bind rbind].
    + destruct (IH st1 Hin Hk) as [->|[[-> (g0 & Hg0 & Hnone)]|[-> Hpolicy]]].
      * by left.
      * right; left. split; [done|]. exists g0. by split; [right|].
      * right; right. done.
    + by left.
    + right; left. split; [done|]. exists g. by split; [left|].
    + right; right. done.
Qed.

(** X3.  A LineString without [OSM_way_id], or a Polygon without
    [OSM_area_id], anywhere in the input: the merge returns no collection.
    It raises [ValueError]; or it raises [AttributeError], and then the
    input also has a feature without a tag map; or, under the rekey policy
    only, it does not leave the rekey loop of a feature that comes before
    (the model runs out of fuel).  So under the overwrite and the skip
    policy, when every feature has a tag map, it raises [ValueError]. *)
Theorem merge_fails_on_keyless_feature fuel rand colls rw ad f :
  In f (concat colls) -> keyless f ->
  (concat_geojson_features fuel rand colls rw ad = Raise ValueError
   \/ (concat_geojson_features fuel rand colls rw ad = Raise AttributeError
       /\ exists g, In g (concat colls) /\ tags (properties g) = None)
   \/ (concat_geojson_features fuel rand colls rw ad = OutOfFuel
       /\ rw = false /\ ad = true))
  /\ (rw = true \/ ad = false ->
      (forall g, In g (concat colls) -> tags (properties g) <> None) ->
      concat_geojson_features fuel rand colls rw ad = Raise ValueError).
Proof.
  intros Hin Hk.
  assert (concat_geojson_features fuel rand colls rw ad = Raise ValueError
          \/ (concat_geojson_features fuel rand colls rw ad = Raise AttributeError
              /\ exists g, In g (concat colls) /\ tags (properties g) = None)
          \/ (concat_geojson_features fuel rand colls rw ad = OutOfFuel
              /\ rw = false /\ ad = true)) as Hraise.
  { unfold concat_geojson_features.
    destruct (merge_features_keyless_outcomes fuel rand rw ad (concat colls) f
                {| dict_ways_collectors := PyDict.empty;
                   dict_areas_collectors := PyDict.empty; draws := O |}
                Hin Hk) as [->|[[-> Hg]|[-> Hpolicy]]]; auto. }
  split; [exact Hraise|].
  intros Hpolicy Htags.
  destruct Hraise as [->|[[_ (g & Hg & Hnone)]|(_ & -> & ->)]]; [done| |].
  - by destruct (Htags g Hg).
  - by destruct Hpolicy.
Qed.

Lemma merge_fails_on_keyless_feature_witness :
  concat_geojson_features 5 (fun _ => 0)
    [[sample_line 1 "w" "n"];
     [set_id (sample_polygon 2 "a") 3;
      {| f_id := 4; boundingbox := None; geometry := LineString [];
         properties := {| OSM_id_nodes := None;
                          tags := Some [("name"%string, JStr "x")];
                          OSM_id := None |} |}]] true false
  = Raise ValueError.
Proof.
  refine (proj2 (merge_fails_on_keyless_feature 5 (fun _ => 0) _ true false
                   {| f_id := 4; boundingbox := None; geometry := LineString [];
                      properties := {| OSM_id_nodes := None;
                                       tags := Some [("name"%string, JStr "x")];
                                       OSM_id := None |} |} _ _) _ _).
  - simpl. auto.
  - reflexivity.
  - by left.
  - intros g Hg. simpl in Hg. destruct Hg as [<-|[<-|[<-|[]]]]; discriminate.
Defined.

(** *** Merging a merged collection again *)

(** Every entry of the dict is stored under the value of its own tag
    [tag], and satisfies [P]. *)
Definition keyed_by_tag (tag : string) (P : Feature -> bool)
    (d : PyDict.t jval Feature) : Prop :=
  forall k f, In (k, f) d -> P f = true /\ tags_get f tag = Ok (Some k).

Lemma keyed_by_tag_set tag P d k f :
  keyed_by_tag tag P d -> P f = true -> tags_get f tag = Ok (Some k) ->
  keyed_by_tag tag P (PyDict.set k f d).
Proof.
  intros Hd HP Ht k' f' [[= -> ->]|Hin']%in_set; [done|by apply Hd].
Qed.

Definition merge_invariant (st : merge_state) : Prop :=
  keyed_by_tag "OSM_way_id" is_line (dict_ways_collectors st)
  /\ keyed_by_tag "OSM_area_id" is_polygon (dict_areas_collectors st)
  /\ NoDup (PyDict.keys (dict_ways_collectors st))
  /\ NoDup (PyDict.keys (dict_areas_collectors st)).

Lemma merge_feature_invariant fuel rand ad st f st' :
  merge_invariant st ->
  merge_feature fuel rand true ad st f = Ok st' -> merge_invariant st'.
Proof.
  intros (Hw & Ha & Hnw & Hna). unfold merge_feature.
  destruct (geometry f) as [c|cs|rings] eqn:Hg.
  - by intros [= <-].
  - assert (is_line f = true) as Hl by (unfold is_line; by rewrite Hg).
    destruct (tags_get f "OSM_way_id") as [[key|]| |] eqn:Ht; simpl; try done.
    destruct (PyDict.mem key (dict_ways_collectors st)); simpl.
    + by intros [= <-].
    + intros [= <-]. split; [|split; [|split]]; simpl; try done.
      * by apply keyed_by_tag_set.
      * by apply nodup_keys_set.
  - assert (is_polygon f = true) as Hl by (unfold is_polygon; by rewrite Hg).
    destruct (tags_get f "OSM_area_id") as [[key|]| |] eqn:Ht; simpl; try done.
    destruct (PyDict.mem key (dict_areas_collectors st)); simpl.
    + by intros [= <-].
    + intros [= <-]. split; [|split; [|split]]; simpl; try done.
      * by apply keyed_by_tag_set.
      * by apply nodup_keys_set.
Qed.

Lemma merge_features_invariant fuel rand ad fs : forall st st',
  merge_invariant st ->
  merge_features fuel rand true ad st fs = Ok st' -> merge_invariant st'.
Proof.
  induction fs as [|f rest IH]; intros st st' Hinv; simpl.
  - by intros [= <-].
  - destruct (merge_feature fuel rand true ad st f) as [st1| |] eqn:Hstep; [|done..].
    cbn [mbind result_bind rbind]. apply IH.
    by apply (merge_feature_invariant _ _ _ _ _ _ Hinv Hstep).
Qed.

Lemma merge_features_app fuel rand rw ad fs1 fs2 : forall st,
  merge_features fuel rand rw ad st (fs1 ++ fs2)
  = st' ← merge_features fuel rand rw ad st fs1;
    merge_features fuel rand rw ad st' fs2.
Proof.
  induction fs1 as [|f rest IH]; intros st; simpl; [done|].
  destruct (merge_feature fuel rand rw ad st f) as [st1| |]; [|done..].
  cbn [mbind result_bind rbind]. apply IH.
Qed.

(** The entries of a dict, their features numbered from [start]. *)
Fixpoint renumbered_dict (start : nat) (d : PyDict.t jval Feature)
    : PyDict.t jval Feature :=
  match d with
  | [] => []
  | (k, f) :: rest => (k, set_id f (Z.of_nat start)) :: renumbered_dict (S start) rest
  end.

Lemma values_renumbered_dict d : forall start,
  PyDict.values (renumbered_dict start d) = renumbered start (PyDict.values d).
Proof.
  induction d as [|[k f] rest IH]; intros start; simpl; [done|].
  f_equal. apply IH.
Qed.

Lemma mem_absent (k : jval) (d : PyDict.t jval Feature) :
  ~ In k (PyDict.keys d) -> PyDict.mem k d = false.
Proof. intros Hk. apply get_None_keys in Hk. unfold PyDict.mem. by rewrite Hk. Qed.

(** Lines with keys of their own, all new to the dict, are appended. *)
Lemma remerge_lines fuel rand ad d : forall start st,
  keyed_by_tag "OSM_way_id" is_line d ->
  NoDup (PyDict.keys (dict_ways_collectors st) ++ PyDict.keys d) ->
  merge_features fuel rand true ad st (renumbered start (PyDict.values d))
  = Ok {| dict_ways_collectors := dict_ways_collectors st ++ renumbered_dict start d;
          dict_areas_collectors := dict_areas_collectors st;
          draws := draws st |}.
Proof.
  induction d as [|[k f] rest IH]; intros start st Hk Hnd.
  - simpl. rewrite app_nil_r. by destruct st.
  - destruct (Hk k f (or_introl eq_refl)) as [Hl Ht].
    cbn [PyDict.values map snd renumbered merge_features].
    assert (merge_feature fuel rand true ad st (set_id f (Z.of_nat start))
            = Ok {| dict_ways_collectors :=
                      dict_ways_collectors st ++ [(k, set_id f (Z.of_nat start))];
                    dict_areas_collectors := dict_areas_collectors st;
                    draws := draws st |}) as ->.
    { unfold merge_feature. unfold is_line in Hl. simpl geometry.
      destruct (geometry f); try done.
      change (tags_get (set_id f (Z.of_nat start)) "OSM_way_id")
        with (tags_get f "OSM_way_id").
      rewrite Ht. cbn [mbind result_bind rbind or_raise].
      assert (~ In k (PyDict.keys (dict_ways_collectors st))) as Hfresh.
      { simpl in Hnd. apply NoDup_app in Hnd as (_ & Hdisj & _).
        intros Hin%list_elem_of_In. apply (Hdisj k Hin). by left. }
      rewrite mem_absent by done. simpl.
      rewrite set_absent by (by apply get_None_keys). done. }
    cbn [mbind result_bind rbind].
    fold (PyDict.values rest). rewrite IH.
    + simpl. by rewrite <- app_assoc.
    + intros k' f' Hin. apply Hk. by right.
    + simpl. unfold PyDict.keys in *. rewrite map_app. simpl.
      rewrite <- app_assoc. exact Hnd.
Qed.

Lemma remerge_polygons fuel rand ad d : forall start st,
  keyed_by_tag "OSM_area_id" is_polygon d ->
  NoDup (PyDict.keys (dict_areas_collectors st) ++ PyDict.keys d) ->
  merge_features fuel rand true ad st (renumbered start (PyDict.values d))
  = Ok {| dict_ways_collectors := dict_ways_collectors st;
          dict_areas_collectors := dict_areas_collectors st ++ renumbered_dict start d;
          draws := draws st |}.
Proof.
  induction d as [|[k f] rest IH]; intros start st Hk Hnd.
  - simpl. rewrite app_nil_r. by destruct st.
  - destruct (Hk k f (or_introl eq_refl)) as [Hl Ht].
    cbn [PyDict.values map snd renumbered merge_features].
    assert (merge_feature fuel rand true ad st (set_id f (Z.of_nat start))
            = Ok {| dict_ways_collectors := dict_ways_collectors st;
                    dict_areas_collectors :=
                      dict_areas_collectors st ++ [(k, set_id f (Z.of_nat start))];
                    draws := draws st |}) as ->.
    { unfold merge_feature. unfold is_polygon in Hl. simpl geometry.
      destruct (geometry f); try done.
      change (tags_get (set_id f (Z.of_nat start)) "OSM_area_id")
        with (tags_get f "OSM_area_id").
      rewrite Ht. cbn [mbind result_bind rbind or_raise].
      assert (~ In k (PyDict.keys (dict_areas_collectors st))) as Hfresh.
      { simpl in Hnd. apply NoDup_app in Hnd as (_ & Hdisj & _).
        intros Hin%list_elem_of_In. apply (Hdisj k Hin). by left. }
      rewrite mem_absent by done. simpl.
      rewrite set_absent by (by apply get_None_keys). done. }
    cbn [mbind result_bind rbind].
    fold (PyDict.values rest). rewrite IH.
    + simpl. by rewrite <- app_assoc.
    + intros k' f' Hin. apply Hk. by right.
    + simpl. unfold PyDict.keys in *. rewrite map_app. simpl.
      rewrite <- app_assoc. exact Hnd.
Qed.

(** X4.  Under the default policy the merge is idempotent: a collection it
    returned, merged again on its own, comes back as it is, whatever the
    second call is given for fuel, random source and [adding_duplicates]. *)
Theorem merge_default_is_idempotent fuel rand colls ad fc fuel' rand' ad' :
  concat_geojson_features fuel rand colls true ad = Ok fc ->
  concat_geojson_features fuel' rand' [fc] true ad' = Ok fc.
Proof.
  intros (st & Hmerge & ->)%concat_output.
  apply merge_features_invariant in Hmerge as (Hw & Ha & Hnw & Hna).
  2:{ split; [|split; [|split]]; try (by intros k f []); constructor. }
  unfold concat_geojson_features. simpl concat. rewrite app_nil_r.
  rewrite merge_features_app, remerge_lines by done.
  cbn [mbind result_bind rbind].
  rewrite remerge_polygons by done.
  cbn [mbind result_bind rbind dict_ways_collectors dict_areas_collectors].
  change (PyDict.empty ++ ?d) with d.
  rewrite !renumber_eq, !values_renumbered_dict. simpl.
  by rewrite !renumbered_idemp, !length_renumbered.
Qed.

Lemma merge_default_is_idempotent_witness :
  let fc := [set_id (sample_line 10 "w" "n") 0; set_id (sample_polygon 77 "a") 1] in
  concat_geojson_features 0 (fun _ => 0)
    [[sample_polygon 77 "a"; sample_line 10 "w" "n"; sample_line 11 "w" "m"]]
    true false = Ok fc
  /\ concat_geojson_features 0 (fun _ => 0) [fc] true false = Ok fc.
Proof.
  intros fc. split; [reflexivity|].
  exact (merge_default_is_idempotent 0 (fun _ => 0)
           [[sample_polygon 77 "a"; sample_line 10 "w" "n"; sample_line 11 "w" "m"]]
           false fc 0 (fun _ => 0) false eq_refl).
Defined.

End MergeOutput.

(** ** Selecting features by tag, and the coastline pipeline *)

Module CoastlineFacts.
Import ParceGeojson DictMore.

(** A LineString whose tag [natural] is ["coastline"]. *)
Definition is_coastline (f : Feature) : bool :=
  match geometry f with
  | LineString _ => tag_is "natural" (JStr "coastline") f
  | _ => false
  end.

Definition coastline (f : Feature) : Prop := is_coastline f = true.

#[local] Instance coastline_dec f : Decision (coastline f).
Proof. unfold coastline. apply _. Defined.

Lemma extracting_from_filter fs : forall acc,
  extracting_coastline_from acc fs = acc ++ filter coastline fs.
Proof.
  induction fs as [|f rest IH]; intros acc; simpl.
  - by rewrite app_nil_r.
  - rewrite filter_cons.
    destruct (decide (coastline f)) as [Hc|Hc]; unfold coastline, is_coastline in Hc;
      destruct (geometry f); try done; try apply IH;
      destruct (tag_is "natural" (JStr "coastline") f); try done; try apply IH.
    rewrite IH. by rewrite <- app_assoc.
Qed.

(** X5.  [extracting_coastline] keeps exactly the LineStrings tagged
    [natural = coastline], in the order of the input: a feature is in the
    result iff it is such a feature of the input; Polygons, Points and
    features without a tag map are dropped without an error; extracting
    twice is extracting once, and extraction distributes over
    concatenation. *)
Theorem extracting_coastline_selects (fc fc' : FeatureCollection) :
  sublist (extracting_coastline fc) fc
  /\ (forall f, In f (extracting_coastline fc) <-> In f fc /\ is_coastline f = true)
  /\ extracting_coastline (extracting_coastline fc) = extracting_coastline fc
  /\ extracting_coastline (fc ++ fc')
     = extracting_coastline fc ++ extracting_coastline fc'.
Proof.
  unfold extracting_coastline. rewrite !extracting_from_filter. simpl.
  split; [apply sublist_filter|]. split; [|split].
  - intros f. rewrite <- !list_elem_of_In, list_elem_of_filter. unfold coastline. tauto.
  - rewrite list_filter_filter. apply list_filter_iff. intros f. tauto.
  - apply filter_app.
Qed.

(** *** [remove_feature_from_tag] *)

Definition tagged (key_tag : string) (value_tag : jval) (f : Feature) : Prop :=
  tag_is key_tag value_tag f = true.

#[local] Instance tagged_dec key_tag value_tag f : Decision (tagged key_tag value_tag f).
Proof. unfold tagged. apply _. Defined.

Lemma remove_from_filter key_tag value_tag fs : forall kept removed,
  remove_feature_from_tag_from kept removed fs key_tag value_tag
  = (kept ++ filter (fun f => ~ tagged key_tag value_tag f) fs,
     removed ++ filter (tagged key_tag value_tag) fs).
Proof.
  induction fs as [|f rest IH]; intros kept removed; simpl.
  - by rewrite !app_nil_r.
  - destruct (tag_is key_tag value_tag f) eqn:E; rewrite IH.
    + rewrite (filter_cons_True (tagged key_tag value_tag)) by done.
      rewrite filter_cons_False by (intros Hn; by apply Hn).
      by rewrite <- app_assoc.
    + rewrite (filter_cons_False (tagged key_tag value_tag))
        by (unfold tagged; by rewrite E).
      rewrite filter_cons_True by (unfold tagged; by rewrite E).
      by rewrite <- app_assoc.
Qed.

Lemma filter_none {A} (P : A -> Prop) `{forall x, Decision (P x)} (l : list A) :
  (forall x, ~ P x) -> filter P l = [].
Proof.
  intros HP. induction l as [|x l IH]; [done|].
  by rewrite filter_cons_False.
Qed.

(** X6.  [remove_feature_from_tag] splits the collection in two without
    losing, duplicating or reordering a feature: the removed features are
    those whose tag [key_tag] has the value [value_tag], the kept ones are
    all the others (a feature without a tag map is kept), each part is in
    the order of the input, and a second pass over the kept part removes
    nothing. *)
Theorem remove_feature_from_tag_partitions (fc : FeatureCollection)
    (key_tag : string) (value_tag : jval) :
  let '(kept, removed) := remove_feature_from_tag fc key_tag value_tag in
  Permutation (kept ++ removed) fc
  /\ sublist kept fc /\ sublist removed fc
  /\ (forall f, In f removed <-> In f fc /\ tag_is key_tag value_tag f = true)
  /\ (forall f, In f kept <-> In f fc /\ tag_is key_tag value_tag f = false)
  /\ remove_feature_from_tag kept key_tag value_tag = (kept, []).
Proof.
  unfold remove_feature_from_tag. rewrite !remove_from_filter. simpl.
  split; [|split; [|split; [|split; [|split]]]].
  - rewrite Permutation_app_comm. apply filter_app_complement.
  - apply sublist_filter.
  - apply sublist_filter.
  - intros f. rewrite <- !list_elem_of_In, list_elem_of_filter. unfold tagged. tauto.
  - intros f. rewrite <- !list_elem_of_In, list_elem_of_filter. unfold tagged.
    destruct (tag_is key_tag value_tag f); split; intros [H1 H2]; split; done.
  - f_equal.
    + rewrite list_filter_filter. apply list_filter_iff. intros f. tauto.
    + rewrite list_filter_filter. apply filter_none. intros f. tauto.
Qed.

(** *** The index of the lines, and the pipeline [concat_coastline] *)

Lemma index_fold_absent (k : Z) fc : forall d,
  PyDict.get k d = None -> (forall f, In f fc -> f_id f <> k) ->
  PyDict.get k (fold_left (fun d feature => PyDict.set (f_id feature) feature d) fc d)
  = None.
Proof.
  induction fc as [|f rest IH]; intros d Hd Hne; simpl; [done|].
  apply IH.
  - rewrite PyDictFacts.get_set_ne; [done|]. apply Hne. by left.
  - intros g Hg. apply Hne. by right.
Qed.

Lemma index_fold_sound fc : forall d k f,
  In (k, f) (fold_left (fun d feature => PyDict.set (f_id feature) feature d) fc d) ->
  In (k, f) d \/ In f fc.
Proof.
  induction fc as [|g rest IH]; intros d k f; simpl; [by left|].
  intros [[[= -> ->]|Hin]%in_set|Hin]%IH; auto.
Qed.

Lemma index_fold_nodup fc : forall d,
  NoDup (PyDict.keys d) ->
  NoDup (PyDict.keys
           (fold_left (fun d feature => PyDict.set (f_id feature) feature d) fc d)).
Proof.
  induction fc as [|g rest IH]; intros d Hd; simpl; [done|].
  by apply IH, nodup_keys_set.
Qed.

Lemma index_fold_length fc : forall d,
  (length (fold_left (fun d feature => PyDict.set (f_id feature) feature d) fc d)
   <= length d + length fc)%nat.
Proof.
  induction fc as [|g rest IH]; intros d; simpl; [lia|].
  pose proof (IH (PyDict.set (f_id g) g d)).
  pose proof (length_set_le (f_id g) g d). lia.
Qed.

(** The ids of a merged collection are below its length. *)
Lemma merged_id_bound fuel rand colls rw ad u f :
  concat_geojson_features fuel rand colls rw ad = Ok u ->
  In f u -> 0 <= f_id f < Z.of_nat (length u).
Proof.
  intros (st & _ & ->)%MergeOutput.concat_output Hin.
  apply (in_map f_id) in Hin.
  rewrite map_app, !MergeOutput.ids_renumbered, <- map_app, <- seq_app in Hin.
  apply in_map_iff in Hin as (n & <- & Hn%in_seq).
  rewrite length_app, !MergeOutput.length_renumbered. lia.
Qed.

(** X7.  [concat_coastline] chains from the feature that the merge numbered
    711.  When the merged collection has at most 711 features, or its
    feature 711 is not a coastline LineString, the call raises
    [KeyError]. *)
Theorem concat_coastline_needs_line_711 round fuel rand colls u :
  concat_geojson_features fuel rand colls true false = Ok u ->
  (length u <= 711)%nat
  \/ (forall f, In f u -> f_id f = 711 -> is_coastline f = false) ->
  concat_coastline round fuel rand colls = Raise KeyError.
Proof.
  intros Hmerge Hno. unfold concat_coastline. rewrite Hmerge.
  cbn [mbind result_bind rbind]. unfold concat_coastline_sea.
  assert (PyDict.get 711 (index_features (extracting_coastline u)) = None) as ->;
    [|done].
  unfold index_features. apply index_fold_absent; [done|].
  intros f Hf Hid.
  unfold extracting_coastline in Hf. rewrite extracting_from_filter in Hf.
  apply list_elem_of_In, list_elem_of_filter in Hf as [Hc Hin%list_elem_of_In].
  destruct Hno as [Hlen|Hno].
  - pose proof (merged_id_bound _ _ _ _ _ _ _ Hmerge Hin). lia.
  - unfold coastline in Hc. by rewrite (Hno f Hin Hid) in Hc.
Qed.

(** A coastline with a merge key. *)
Definition keyed_coast (i : Z) (key : string) (coordinates : list Coord)
    (ids : list Z) : Feature :=
  {| f_id := i; boundingbox := None;
     geometry := LineString coordinates;
     properties := {| OSM_id_nodes := Some (LineIds ids);
                      tags := Some [("OSM_way_id"%string, JStr key);
                                    ("natural"%string, JStr "coastline")];
                      OSM_id := None |} |}.

Lemma concat_coastline_needs_line_711_witness :
  concat_coastline (fun q => q) 0 (fun _ => 0)
    [[keyed_coast 711 "a" [(0, 0); (1, 1)]%Q [1; 2];
      keyed_coast 712 "b" [(1, 1); (2, 2)]%Q [2; 3]]]
  = Raise KeyError.
Proof.
  apply (concat_coastline_needs_line_711 _ _ _ _
           [set_id (keyed_coast 711 "a" [(0, 0); (1, 1)]%Q [1; 2]) 0;
            set_id (keyed_coast 712 "b" [(1, 1); (2, 2)]%Q [2; 3]) 1]).
  - reflexivity.
  - left. simpl. lia.
Defined.

(** *** The shape of the chained collection *)

(** The node ids of the feature, if it has any, are a flat array. *)
Definition no_rings (f : Feature) : Prop :=
  forall rings, OSM_id_nodes (properties f) <> Some (RingIds rings).

(** A LineString with a flat array of node ids: the features for which
    [line_coordinates] and [start_ids] are what the code reads. *)
Definition flat_line (f : Feature) : Prop :=
  (exists coordinates, geometry f = LineString coordinates) /\ no_rings f.

(** What the chain, ending with the node id [trailing], takes from a line:
    the line without its first point when its first node id is [trailing]
    (reversed before, for the line with the id 144); otherwise the reversed
    line without its first point when its last node id is [trailing]. *)
Inductive takes (trailing : Z) (f : Feature) : list Coord -> list Z -> Prop :=
  | takes_first cs l :
      geometry f = LineString cs ->
      OSM_id_nodes (properties f) = Some (LineIds l) ->
      head l = Some trailing -> f_id f <> 144 ->
      takes trailing f (drop_first cs) (drop_first l)
  | takes_first_144 cs l :
      geometry f = LineString cs ->
      OSM_id_nodes (properties f) = Some (LineIds l) ->
      head l = Some trailing -> f_id f = 144 ->
      takes trailing f (drop_first (reverse cs)) (drop_first (reverse l))
  | takes_last cs l :
      geometry f = LineString cs ->
      OSM_id_nodes (properties f) = Some (LineIds l) ->
      head l <> Some trailing -> last l = Some trailing ->
      takes trailing f (drop_first (reverse cs)) (drop_first (reverse l)).

(** A line that does not continue the chain: it has a first and a last node
    id, and neither is the node id the chain ends with. *)
Definition unlinked (ids : list Z) (f : Feature) : Prop :=
  exists trailing l first final,
    last ids = Some trailing
    /\ OSM_id_nodes (properties f) = Some (LineIds l)
    /\ head l = Some first /\ last l = Some final
    /\ trailing <> first /\ trailing <> final.

(** [chained_from pool points ids used rest points' ids']: the chain
    [(points, ids)] grows to [(points', ids')] by the lines [used], in this
    order, and leaves [rest] of the [pool].  Each used line is the first
    line of the pool, as it is then, that continues the chain; the chain is
    complete when no line of the pool continues it. *)
Inductive chained_from : list Feature -> list Coord -> list Z -> list Feature ->
                         list Feature -> list Coord -> list Z -> Prop :=
  | chained_done pool points ids :
      (forall f, In f pool -> unlinked ids f) ->
      chained_from pool points ids [] pool points ids
  | chained_step before f after points ids trailing cs l used rest points' ids' :
      last ids = Some trailing ->
      (forall g, In g before -> unlinked ids g) ->
      takes trailing f cs l ->
      chained_from (before ++ after) (points ++ cs) (ids ++ l) used rest points' ids' ->
      chained_from (before ++ f :: after) points ids (f :: used) rest points' ids'.

(** The used lines and the rest are the pool, and the rest is in the order
    of the pool. *)
Lemma chained_from_splits pool points ids used rest points' ids' :
  chained_from pool points ids used rest points' ids' ->
  Permutation pool (used ++ rest) /\ sublist rest pool.
Proof.
  induction 1 as [|before f after points ids trailing cs l used rest points' ids'
                    Hlast Hbefore Htakes Hrest [IHperm IHsub]]; [done|].
  split.
  - rewrite <- Permutation_middle. simpl. by rewrite IHperm.
  - etrans; [exact IHsub|]. apply sublist_app; [done|]. by apply sublist_cons.
Qed.

Lemma scan_no_match pool ids :
  (forall f, In f pool -> no_rings f) ->
  scan pool ids = Ok NoMatch ->
  forall f, In f pool -> unlinked ids f.
Proof.
  induction pool as [|feature rest IH]; simpl; [done|]. intros Hflat.
  destruct (last ids) as [trailing|] eqn:Hlast; simpl; [|done].
  destruct (OSM_id_nodes (properties feature)) as [[l|rings]|] eqn:Hids; [| |done].
  - destruct (head l) as [first|] eqn:Hhead; simpl; [|done].
    destruct (Z.eqb_spec trailing first) as [E1|E1].
    + destruct (line_coordinates feature); simpl; [|done..].
      by destruct (f_id feature =? 144).
    + destruct (last l) as [final|] eqn:Hfinal; simpl; [|done].
      destruct (Z.eqb_spec trailing final) as [E2|E2].
      * by destruct (line_coordinates feature).
      * intros Hrest f [<-|Hin].
        -- by exists trailing, l, first, final.
        -- apply IH; auto.
  - by destruct (Hflat feature (or_introl eq_refl) rings).
Qed.

Lemma scan_merged pool ids fid points new_ids :
  (forall f, In f pool -> no_rings f) ->
  scan pool ids = Ok (Merged fid points new_ids) ->
  exists trailing before f after,
    pool = before ++ f :: after /\ last ids = Some trailing /\ f_id f = fid
    /\ (forall g, In g before -> unlinked ids g)
    /\ takes trailing f points new_ids.
Proof.
  induction pool as [|feature rest IH]; simpl; [done|]. intros Hflat.
  destruct (last ids) as [trailing|] eqn:Hlast; simpl; [|done].
  destruct (OSM_id_nodes (properties feature)) as [[l|rings]|] eqn:Hids; [| |done].
  - destruct (head l) as [first|] eqn:Hhead; simpl; [|done].
    unfold line_coordinates.
    destruct (Z.eqb_spec trailing first) as [<-|E1].
    + destruct (geometry feature) as [|cs|] eqn:Hgeo; simpl; [done| |done].
      destruct (Z.eqb_spec (f_id feature) 144) as [E|E]; intros [= <- <- <-];
        exists trailing, [], feature, rest; repeat split; auto; try done.
      * by apply takes_first_144.
      * by apply takes_first.
    + destruct (last l) as [final|] eqn:Hfinal; simpl; [|done].
      destruct (Z.eqb_spec trailing final) as [<-|E2].
      * destruct (geometry feature) as [|cs|] eqn:Hgeo; simpl; [done| |done].
        intros [= <- <- <-]. exists trailing, [], feature, rest.
        repeat split; auto; try done.
        apply takes_last; try done. congruence.
      * intros (t & before & f & after & -> & Ht & Hid & Hbefore & Htakes)%IH; [|auto].
        exists t, (feature :: before), f, after. repeat split; auto.
        intros g [<-|Hg]; [|by apply Hbefore].
        by exists trailing, l, first, final.
  - by destruct (Hflat feature (or_introl eq_refl) rings).
Qed.

(** Deleting the key of a line takes this line out of the values. *)
Lemma values_del_split (d : PyDict.t Z Feature) : forall before f after,
  ChainFacts.keyed_by_id d -> NoDup (PyDict.keys d) ->
  PyDict.values d = before ++ f :: after ->
  PyDict.values (PyDict.del (f_id f) d) = before ++ after.
Proof.
  induction d as [|[k0 f0] d IH]; intros before f after Hk Hnd Hv.
  { by destruct before. }
  simpl in *. apply NoDup_cons in Hnd as [Hk0 Hnd].
  assert (ChainFacts.keyed_by_id d) as Hk'
    by (intros k1 f1 Hin1; apply Hk; by right).
  assert (f_id f0 = k0) as Hf0 by (apply Hk; by left).
  destruct before as [|b before]; simpl in Hv; injection Hv as -> Hv.
  - by rewrite decide_True.
  - rewrite decide_False.
    + simpl. f_equal. by apply IH.
    + intros E. apply Hk0. apply list_elem_of_In.
      assert (In f (PyDict.values d)) as Hin by (rewrite Hv; apply in_elt).
      apply in_map_iff in Hin as ([k1 f1] & Hf1 & Hin1).
      simpl in Hf1. subst f1. apply in_map_iff. exists (k1, f). split; [|done].
      simpl. rewrite <- E. symmetry. by apply Hk'.
Qed.

Lemma chain_spec fuel : forall d points ids d' points' ids',
  ChainFacts.keyed_by_id d -> NoDup (PyDict.keys d) ->
  (forall f, In f (PyDict.values d) -> no_rings f) ->
  chain fuel d points ids = Ok (d', points', ids') ->
  (exists used,
     chained_from (PyDict.values d) points ids used (PyDict.values d') points' ids')
  /\ (forall k, PyDict.get k d = None -> PyDict.get k d' = None)
  /\ ChainFacts.keyed_by_id d'
  /\ (length d' <= length d)%nat.
Proof.
  induction fuel as [|fuel IH]; intros d points ids d' points' ids' Hk Hnd Hflat; [done|].
  simpl. destruct (scan (PyDict.values d) ids) as [[|fid ps new_ids]| |] eqn:Hscan;
    cbn [mbind result_bind rbind]; [| |done..].
  - intros [= <- <- <-]. split; [|done].
    exists []. constructor. by apply scan_no_match.
  - intros Hrest.
    destruct (scan_merged _ _ _ _ _ Hflat Hscan)
      as (trailing & before & f & after & Hpool & Hlast & <- & Hbefore & Htakes).
    pose proof (values_del_split d before f after Hk Hnd Hpool) as Hdel.
    assert (forall g, In g (PyDict.values (PyDict.del (f_id f) d)) -> no_rings g)
      as Hflat'.
    { intros g Hg. apply Hflat. rewrite Hpool. rewrite Hdel in Hg.
      apply in_app_iff in Hg as [Hg|Hg]; apply in_app_iff; [by left|by right; right]. }
    destruct (IH _ _ _ _ _ _ (ChainFacts.keyed_by_id_del d (f_id f) Hk)
                (nodup_keys_del (f_id f) d Hnd) Hflat' Hrest)
      as ((used & Hchained) & Hnone & Hk' & Hlen).
    split; [|split; [|split]]; try done.
    + exists (f :: used). rewrite Hpool. rewrite Hdel in Hchained.
      by apply (chained_step _ _ _ _ _ trailing ps new_ids).
    + intros k Hg. by apply Hnone, get_del_absent.
    + pose proof (PyDictFacts.length_del_le (f_id f) d). lia.
Qed.

(** The index of a collection whose feature ids are pairwise distinct holds
    the features in the order of the collection. *)
Lemma index_fold_distinct fc : forall d : PyDict.t Z Feature,
  NoDup (PyDict.keys d ++ map f_id fc) ->
  fold_left (fun d feature => PyDict.set (f_id feature) feature d) fc d
  = d ++ map (fun f => (f_id f, f)) fc.
Proof.
  induction fc as [|f fc IH]; intros d Hnd; simpl; [by rewrite app_nil_r|].
  assert (PyDict.get (f_id f) d = None) as Hnone.
  { apply get_None_keys. apply NoDup_app in Hnd as (_ & Hdisj & _).
    intros Hin%list_elem_of_In. apply (Hdisj _ Hin). by left. }
  rewrite set_absent by done. rewrite IH.
  - by rewrite <- app_assoc.
  - unfold PyDict.keys in *. rewrite map_app. simpl. rewrite <- app_assoc. done.
Qed.

Lemma index_distinct fc :
  NoDup (map f_id fc) -> PyDict.values (index_features fc) = fc.
Proof.
  intros Hnd. unfold index_features. rewrite index_fold_distinct by done.
  unfold PyDict.values, PyDict.empty. simpl. rewrite map_map. simpl. apply map_id.
Qed.

(** X8.  [concat_coastline_sea] on a pool of LineStrings with flat node id
    arrays ([flat_line]).  The pool is indexed by feature id; the index
    lists the features of the pool, and lists the pool itself when the
    feature ids are pairwise distinct.  When the function returns, the start
    line [s] is the line of the index with the start id, and the other lines
    of the index, in their order, are the pool of the chaining
    ([chained_from]): the chain begins as the start line reversed
    (coordinates and node ids) and takes, again and again, the first line of
    the pool whose first or last node id is the node id the chain ends with,
    until no line of the pool continues the chain.  The result is the lines
    that are left, in the order of the index, followed by one new feature:
    the chain, stored under the start id with the tags
    [natural = coastline], [origin = manual cast].  No line that is left has
    the start id, and the result is never longer than the pool. *)
Theorem chained_collection_shape round fc start out :
  Forall flat_line fc ->
  concat_coastline_sea round fc start = Ok out ->
  exists s line0 ids0 before after used rest points ids,
    PyDict.values (index_features fc) = before ++ s :: after
    /\ f_id s = start
    /\ geometry s = LineString line0
    /\ OSM_id_nodes (properties s) = Some (LineIds ids0)
    /\ chained_from (before ++ after) (reverse line0) (reverse ids0)
                    used rest points ids
    /\ out = rest ++ [ChainFacts.merged round start points ids]
    /\ Permutation (PyDict.values (index_features fc)) (s :: used ++ rest)
    /\ sublist rest (PyDict.values (index_features fc))
    /\ (forall f, In f rest -> f_id f <> start)
    /\ (forall f, In f (PyDict.values (index_features fc)) -> In f fc)
    /\ (NoDup (map f_id fc) -> PyDict.values (index_features fc) = fc)
    /\ (length out <= length fc)%nat.
Proof.
  intros Hflat. unfold concat_coastline_sea.
  pose proof (ChainFacts.keyed_by_id_index fc) as Hkeyed.
  assert (NoDup (PyDict.keys (index_features fc))) as Hnd
    by (apply index_fold_nodup; constructor).
  assert (forall k f, In (k, f) (index_features fc) -> In f fc) as Hsound.
  { intros k f [[]|Hin]%index_fold_sound. done. }
  assert (forall f, In f (PyDict.values (index_features fc)) -> In f fc) as Hvalues.
  { intros f ([k f0] & <- & Hin)%in_map_iff. by apply (Hsound k). }
  pose proof (index_fold_length fc PyDict.empty) as Hlen. simpl in Hlen.
  fold (index_features fc) in Hlen.
  destruct (PyDict.get start (index_features fc)) as [s|] eqn:Hstart;
    cbn [mbind result_bind rbind or_raise]; [|done].
  unfold line_coordinates, start_ids.
  destruct (geometry s) as [|line0|] eqn:Hgeo; cbn [mbind result_bind rbind]; try done.
  destruct (OSM_id_nodes (properties s)) as [[ids0|rings]|] eqn:Hids;
    cbn [mbind result_bind rbind]; try done.
  destruct (chain _ _ _ _) as [[[d' points'] ids']| |] eqn:Hchain;
    cbn [mbind result_bind rbind]; [|done..].
  intros [= <-].
  apply get_Some_in in Hstart as Hs.
  assert (f_id s = start) as Hsid by (by apply (Hkeyed start)).
  assert (In s (PyDict.values (index_features fc))) as Hsv.
  { apply in_map_iff. by exists (start, s). }
  apply in_split in Hsv as (before & after & Hsplit).
  pose proof (values_del_split _ _ _ _ Hkeyed Hnd Hsplit) as Hpool.
  rewrite Hsid in Hpool.
  apply chain_spec in Hchain as ((used & Hchained) & Hnone & Hk' & Hlen');
    [|by apply ChainFacts.keyed_by_id_del|by apply nodup_keys_del|].
  2:{ intros f Hf. refine (proj2 (proj1 (List.Forall_forall flat_line fc) Hflat f _)).
      apply Hvalues. rewrite Hsplit. rewrite Hpool in Hf.
      apply in_app_iff in Hf as [Hf|Hf]; apply in_app_iff; [by left|by right; right]. }
  rewrite Hpool in Hchained.
  destruct (chained_from_splits _ _ _ _ _ _ _ Hchained) as [Hperm Hsub].
  assert (PyDict.get start d' = None) as Hfree by (by apply Hnone, get_del_eq).
  rewrite set_absent by done.
  exists s, line0, ids0, before, after, used, (PyDict.values d'), points', ids'.
  split; [done|]. split; [done|]. split; [done|]. split; [done|]. split; [done|].
  split. { unfold PyDict.values. by rewrite map_app. }
  split. { rewrite Hsplit, <- Permutation_middle. by rewrite Hperm. }
  split. { rewrite Hsplit. etrans; [exact Hsub|]. apply sublist_app; [done|]. by apply sublist_cons. }
  split.
  { intros f Hf Hid. apply get_None_keys in Hfree. apply Hfree.
    apply in_map_iff in Hf as ([k f0] & Hf0 & Hin). simpl in Hf0. subst f0.
    apply in_map_iff. exists (k, f). split; [|done]. simpl.
    rewrite <- Hid. symmetry. by apply Hk'. }
  split; [done|]. split; [apply index_distinct|].
  unfold PyDict.values. rewrite length_map, length_app. simpl.
  pose proof (PyDictFacts.length_del_mem start (index_features fc)) as Hdel.
  unfold PyDict.mem in Hdel. rewrite Hstart in Hdel. specialize (Hdel eq_refl). lia.
Qed.

(** A start line, a line that continues it, and a line that does not. *)
Definition shore : FeatureCollection :=
  [ChainFacts.coast 1 [(1, 1); (2, 2); (3, 3)]%Q [1; 2; 3];
   ChainFacts.coast 2 [(5, 5); (6, 6)]%Q [5; 6];
   ChainFacts.coast 3 [(1, 1); (4, 4)]%Q [1; 4]].

Lemma chained_collection_shape_witness :
  exists s line0 ids0 before after used rest points ids,
    PyDict.values (index_features shore) = before ++ s :: after
    /\ f_id s = 1
    /\ geometry s = LineString line0
    /\ OSM_id_nodes (properties s) = Some (LineIds ids0)
    /\ chained_from (before ++ after) (reverse line0) (reverse ids0)
                    used rest points ids
    /\ [ChainFacts.coast 2 [(5, 5); (6, 6)]%Q [5; 6];
        ChainFacts.merged (fun q => q) 1
          [(3, 3); (2, 2); (1, 1); (4, 4)]%Q [3; 2; 1; 4]]
       = rest ++ [ChainFacts.merged (fun q => q) 1 points ids]
    /\ Permutation (PyDict.values (index_features shore)) (s :: used ++ rest)
    /\ sublist rest (PyDict.values (index_features shore))
    /\ (forall f, In f rest -> f_id f <> 1)
    /\ (forall f, In f (PyDict.values (index_features shore)) -> In f shore)
    /\ (NoDup (map f_id shore) -> PyDict.values (index_features shore) = shore)
    /\ (2 <= length shore)%nat.
Proof.
  refine (chained_collection_shape (fun q => q) shore 1 _ _ eq_refl).
  repeat constructor; try (by eexists); intros rings; discriminate.
Defined.

End CoastlineFacts.

(** ** Registries: filters and queries *)

Module RegistryQueries.
Import DictMore.

Definition no_neighbors (h : Heap) (node : NodeRef) : bool :=
  match node_neighbors (nodes h !!! n_addr node) with [] => true | _ => false end.

Definition no_ways (h : Heap) (node : NodeRef) : bool :=
  match node_ways (nodes h !!! n_addr node) with [] => true | _ => false end.

Lemma nodup_drop_middle {A} (l1 l2 : list A) x :
  NoDup (l1 ++ x :: l2) -> NoDup (l1 ++ l2).
Proof.
  intros Hnd. apply (sublist_NoDup _ _ Hnd).
  apply sublist_app; [done|]. by apply sublist_cons.
Qed.

(** A dict comprehension over a filter that only reads: the entries that
    pass, in their order. *)
Lemma comprehension_run keep (kb : Heap -> NodeRef -> bool) items : forall acc h,
  (forall node h, keep node h = (Ok (kb h node), h)) ->
  NoDup (PyDict.keys acc ++ PyDict.keys items) ->
  NodeCollector.comprehension keep items acc h
  = (Ok (acc ++ filter (B:=list _) (fun entry => kb h (snd entry) = true) items), h).
Proof.
  unfold PyDict.t.
  induction items as [|[k node] rest IH]; intros acc h Hkeep Hnd.
  - simpl. by rewrite app_nil_r.
  - cbn [NodeCollector.comprehension].
    unfold mbind at 1, M_bind at 1. rewrite Hkeep.
    destruct (kb h node) eqn:E.
    + rewrite filter_cons_True by done.
      assert (PyDict.get k acc = None) as Hfresh.
      { apply get_None_keys. apply NoDup_app in Hnd as (_ & Hdisj & _).
        intros Hin%list_elem_of_In. apply (Hdisj k Hin). by left. }
      rewrite set_absent by done. rewrite IH; [|done|].
      * by rewrite <- app_assoc.
      * unfold PyDict.keys in *. rewrite map_app. simpl.
        by rewrite <- app_assoc.
    + rewrite filter_cons_False by (simpl; by rewrite E).
      apply IH; [done|]. simpl in Hnd. by apply nodup_drop_middle in Hnd.
Qed.

Lemma nodup_keys_filter {K V} (P : K * V -> Prop) `{forall x, Decision (P x)}
    (d : PyDict.t K V) :
  NoDup (PyDict.keys d) -> NoDup (PyDict.keys (filter (B:=list _) P d)).
Proof.
  intros Hnd. apply (sublist_NoDup _ _ Hnd).
  unfold PyDict.keys. apply (fmap_sublist fst), sublist_filter.
Qed.

(** The nodes that [clear_isolated_nodes] keeps. *)
Definition kept (h : Heap) (from_isolated_neighbors from_isolated_ways : bool)
    (node : NodeRef) : bool :=
  if from_isolated_neighbors || from_isolated_ways then
    implb from_isolated_neighbors (no_neighbors h node)
    && implb from_isolated_ways (no_ways h node)
  else no_neighbors h node && no_ways h node.

(** X9.  [clear_isolated_nodes] keeps the isolated nodes and removes the
    others.  Called without a flag it leaves in the registry the nodes that
    have neither neighbors nor ways, in their order, and removes every node
    that has a neighbor or a way; with [from_isolated_neighbors] it keeps
    the nodes without neighbors, with [from_isolated_ways] those without
    ways.  No node object is changed, and both flags together give what no
    flag gives. *)
Theorem clear_isolated_nodes_keeps_isolated (self : NodeCollector.t)
    (from_isolated_neighbors from_isolated_ways : bool) (h : Heap) :
  NoDup (PyDict.keys self) ->
  NodeCollector.clear_isolated_nodes self from_isolated_neighbors from_isolated_ways h
  = (Ok (filter (B:=list _)
            (fun entry =>
               kept h from_isolated_neighbors from_isolated_ways (snd entry) = true)
            self), h)
  /\ NodeCollector.clear_isolated_nodes self true true h
     = NodeCollector.clear_isolated_nodes self false false h.
Proof.
  unfold NodeCollector.t, PyDict.t in *. intros Hnd.
  assert (forall node h0,
            Node.is_isolated_neighbors node h0 = (Ok (no_neighbors h0 node), h0)) as Hn
    by done.
  assert (forall node h0,
            Node.is_isolated_ways node h0 = (Ok (no_ways h0 node), h0)) as Hw
    by done.
  assert (forall node h0,
            (b ← Node.is_connected node; mret (negb b)) h0
            = (Ok (no_neighbors h0 node && no_ways h0 node), h0)) as Hc.
  { intros node h0. unfold Node.is_connected, Node.is_isolated_neighbors,
      Node.is_isolated_ways, no_neighbors, no_ways, mbind, M_bind, get_node, mret, M_ret.
    destruct (node_neighbors (nodes h0 !!! n_addr node)); [|done].
    by destruct (node_ways (nodes h0 !!! n_addr node)). }
  assert (forall d : NodeCollector.t,
            NoDup (PyDict.keys (PyDict.empty (K:=Z) (V:=NodeRef)) ++ PyDict.keys d)
            <-> NoDup (PyDict.keys d)) as Hempty by done.
  assert (NodeCollector.clear_isolated_nodes self true true h
          = (Ok (filter (B:=list _) (fun entry => kept h true true (snd entry) = true) self), h))
    as Htt.
  { unfold NodeCollector.clear_isolated_nodes.
    unfold mbind at 1, M_bind at 1.
    rewrite (comprehension_run _ no_neighbors) by done.
    unfold mbind at 1, M_bind at 1.
    rewrite (comprehension_run _ no_ways); [|done|by apply Hempty, nodup_keys_filter].
    simpl. unfold mret, M_ret. do 2 f_equal.
    rewrite list_filter_filter. apply list_filter_iff. intros [k node].
    unfold kept. simpl. rewrite andb_true_iff. tauto. }
  assert (NodeCollector.clear_isolated_nodes self false false h
          = (Ok (filter (B:=list _) (fun entry => kept h false false (snd entry) = true) self), h))
    as Hff.
  { unfold NodeCollector.clear_isolated_nodes.
    unfold mbind at 1, M_bind at 1, mret at 1, M_ret at 1.
    unfold mbind at 1, M_bind at 1, mret at 1, M_ret at 1.
    cbn [negb andb].
    by rewrite (comprehension_run _ (fun h0 node => no_neighbors h0 node && no_ways h0 node)). }
  split.
  - destruct from_isolated_neighbors, from_isolated_ways; [done| | |done].
    + unfold NodeCollector.clear_isolated_nodes.
      unfold mbind at 1, M_bind at 1.
      rewrite (comprehension_run _ no_neighbors) by done.
      simpl. unfold mbind, M_bind, mret, M_ret. do 2 f_equal.
      apply list_filter_iff. intros [k node]. unfold kept. simpl.
      by rewrite andb_true_r.
    + unfold NodeCollector.clear_isolated_nodes.
      unfold mbind at 1, M_bind at 1, mret at 1, M_ret at 1.
      unfold mbind at 1, M_bind at 1.
      rewrite (comprehension_run _ no_ways) by done.
      simpl. unfold mret, M_ret. do 2 f_equal.
  - rewrite Htt, Hff. do 2 f_equal.
Qed.

(** Lists of concrete keys without duplicates. *)
Ltac solve_nodup := unfold PyDict.keys; simpl; by apply (bool_decide_unpack _).

(** A node with a way and a node without, built by the constructors. *)
Definition two_node_heap : Heap :=
  snd ((node ← Node.__init__ 7 (Some (Finite 10)) (Some (Finite 20)) [] [];
        _ ← Way.__init__ 1 [] [node] None None None None;
        Node.__init__ 8 (Some (Finite 11)) (Some (Finite 21)) [] []) empty_heap).

Definition node_8 : NodeRef := {| n_addr := 2; n_id := 8 |}.

Lemma clear_isolated_nodes_keeps_isolated_witness :
  NodeCollector.clear_isolated_nodes [(7, WayFacts.node_7); (8, node_8)] false false
    two_node_heap
  = (Ok [(8, node_8)], two_node_heap).
Proof.
  rewrite (proj1 (clear_isolated_nodes_keeps_isolated
                    [(7, WayFacts.node_7); (8, node_8)] false false two_node_heap
                    ltac:(solve_nodup))).
  reflexivity.
Defined.

(** *** [AreaCollector.replace_area] *)

(** X10.  After [replace_area(old_area, new_area)] on a registry, the id of
    [new_area] leads to [new_area], the id of [old_area] (when it differs)
    leads to nothing, and every other id leads to what it led to before; the
    ids of the registry stay pairwise distinct.  An [old_area] that is not
    registered makes the call a plain [add_area]. *)
Theorem replace_area_lookup (self : AreaCollector.t) (old_area new_area : AreaRef) :
  NoDup (PyDict.keys self) ->
  (forall area_id,
     AreaCollector.get_area (AreaCollector.replace_area self old_area new_area) area_id
     = if decide (area_id = a_id new_area) then Some new_area
       else if decide (area_id = a_id old_area) then None
       else AreaCollector.get_area self area_id)
  /\ NoDup (PyDict.keys (AreaCollector.replace_area self old_area new_area))
  /\ (AreaCollector.get_area self (a_id old_area) = None ->
      AreaCollector.replace_area self old_area new_area
      = AreaCollector.add_area self new_area).
Proof.
  intros Hnd. unfold AreaCollector.get_area, AreaCollector.replace_area,
    AreaCollector.add_area, PyDict.mem.
  split; [|split].
  - intros k. destruct (decide (k = a_id new_area)) as [->|Hnew].
    { apply PyDictFacts.get_set_eq. }
    rewrite PyDictFacts.get_set_ne by done.
    destruct (PyDict.get (a_id old_area) self) as [a|] eqn:Hold.
    + destruct (decide (k = a_id old_area)) as [->|Hne].
      * by apply get_del_eq.
      * by apply get_del_ne.
    + destruct (decide (k = a_id old_area)) as [->|Hne]; done.
  - apply nodup_keys_set. destruct (PyDict.get (a_id old_area) self); [|done].
    by apply nodup_keys_del.
  - by intros ->.
Qed.

Lemma replace_area_lookup_witness :
  let a1 := {| a_addr := 0; a_id := 1 |} in
  let a2 := {| a_addr := 1; a_id := 2 |} in
  let a3 := {| a_addr := 2; a_id := 3 |} in
  AreaCollector.replace_area [(1, a1); (2, a2)] a1 a3 = [(2, a2); (3, a3)]
  /\ AreaCollector.get_area (AreaCollector.replace_area [(1, a1); (2, a2)] a1 a3) 1
     = None
  /\ AreaCollector.get_area (AreaCollector.replace_area [(1, a1); (2, a2)] a1 a3) 3
     = Some a3.
Proof.
  intros a1 a2 a3. split; [reflexivity|].
  destruct (replace_area_lookup [(1, a1); (2, a2)] a1 a3
              ltac:(solve_nodup)) as (Hget & _ & _).
  split; [exact (Hget 1)|exact (Hget 3)].
Defined.

(** *** Bounding-box queries *)

Lemma box_meets_total a b c d q1 q2 q3 q4 :
  (exists r, box_meets a b c d q1 q2 q3 q4 = Ok r)
  \/ box_meets a b c d q1 q2 q3 q4 = Raise TypeError.
Proof.
  unfold box_meets, bound_le, bound_ge.
  destruct a as [a|]; [|by right]. cbn [mbind result_bind rbind].
  match goal with |- context [negb ?x] => destruct x end; simpl; [|left; by eexists].
  destruct b as [b|]; [|by right]. cbn [mbind result_bind rbind].
  match goal with |- context [negb ?x] => destruct x end; simpl; [|left; by eexists].
  destruct c as [c|]; [|by right]. cbn [mbind result_bind rbind].
  match goal with |- context [negb ?x] => destruct x end; simpl; [|left; by eexists].
  destruct d as [d|]; [|by right]. left. by eexists.
Qed.

Lemma ways_in_box_unbounded h q1 q2 q3 q4 l : forall result way,
  In way l -> way_min_lat (ways h !!! w_addr way) = None ->
  WayCollector.ways_in_box l result q1 q2 q3 q4 h = (Raise TypeError, h).
Proof.
  induction l as [|w rest IH]; intros result way Hin Hnone; [done|].
  cbn [WayCollector.ways_in_box].
  unfold mbind at 1, M_bind at 1, get_way at 1.
  unfold mbind at 1, M_bind at 1, lift at 1.
  destruct Hin as [->|Hin].
  - rewrite Hnone. done.
  - destruct (box_meets_total (way_min_lat (ways h !!! w_addr w))
                (way_max_lat (ways h !!! w_addr w))
                (way_min_lon (ways h !!! w_addr w))
                (way_max_lon (ways h !!! w_addr w)) q1 q2 q3 q4) as [[r ->]| ->];
      [|done].
    by apply (IH _ way).
Qed.

Lemma in_values_set {K V} `{EqDecision K} (k : K) (v : V) (d : PyDict.t K V) :
  In v (PyDict.values (PyDict.set k v d)).
Proof.
  unfold PyDict.values. change v with (snd (k, v)) at 1. apply in_map.
  apply get_Some_in, PyDictFacts.get_set_eq.
Qed.

(** X11.  A way built without nodes has no bounds, and a registry that holds
    a way without [min_lat] cannot be queried by bounding box: whatever the
    box, [get_ways_by_bounding_box] raises [TypeError] on the comparison
    with [None].  In particular, registering an empty way breaks every
    bounding-box query of the registry. *)
Theorem box_query_fails_on_way_without_bounds (self : WayCollector.t)
    (min_lat min_lon max_lat max_lon : pyfloat) (h : Heap) :
  (forall way, In way (PyDict.values self) ->
     way_min_lat (ways h !!! w_addr way) = None ->
     WayCollector.get_ways_by_bounding_box self min_lat min_lon max_lat max_lon h
     = (Raise TypeError, h))
  /\ (forall way_id way_tags, exists way h',
        Way.__init__ way_id way_tags [] None None None None h = (Ok way, h')
        /\ WayCollector.get_ways_by_bounding_box (WayCollector.add_way self way)
             min_lat min_lon max_lat max_lon h'
           = (Raise TypeError, h')).
Proof.
  split.
  - intros way Hin Hnone. by apply (ways_in_box_unbounded _ _ _ _ _ _ _ way).
  - intros way_id way_tags.
    unfold Way.__init__, mbind, M_bind, alloc, put_way, mret, M_ret. simpl.
    eexists _, _. split; [reflexivity|].
    match goal with |- WayCollector.get_ways_by_bounding_box (_ _ ?w) _ _ _ _ ?h1 = _ =>
      apply (ways_in_box_unbounded h1 _ _ _ _ _ _ w) end.
    + apply in_values_set.
    + simpl. by rewrite lookup_total_insert_eq.
Qed.

(** A registry that holds one way, built without nodes. *)
Definition empty_way_heap : Heap :=
  snd (Way.__init__ 5 [] [] None None None None empty_heap).

Definition way_5 : WayRef := {| w_addr := 0; w_id := 5 |}.

Lemma box_query_fails_on_way_without_bounds_witness :
  WayCollector.get_ways_by_bounding_box [(5%Z, way_5)]
    (Finite 0) (Finite 0) (Finite 1) (Finite 1) empty_way_heap
  = (Raise TypeError, empty_way_heap).
Proof.
  apply (proj1 (box_query_fails_on_way_without_bounds [(5%Z, way_5)]
                  (Finite 0) (Finite 0) (Finite 1) (Finite 1) empty_way_heap) way_5).
  - simpl. by left.
  - reflexivity.
Defined.


(** The box of the way meets the box of the query (touching counts). *)
Definition overlaps (h : Heap) (way : WayRef) (min_lat min_lon max_lat max_lon : Q)
    : Prop :=
  let o := ways h !!! w_addr way in
  match way_min_lat o, way_max_lat o, way_min_lon o, way_max_lon o with
  | Some a, Some b, Some c, Some d =>
      (a <= max_lat)%Q /\ (min_lat <= b)%Q /\ (c <= max_lon)%Q /\ (min_lon <= d)%Q
  | _, _, _, _ => False
  end.

Definition overlapsb (h : Heap) (way : WayRef) (min_lat min_lon max_lat max_lon : Q)
    : bool :=
  let o := ways h !!! w_addr way in
  match way_min_lat o, way_max_lat o, way_min_lon o, way_max_lon o with
  | Some a, Some b, Some c, Some d =>
      Qle_bool a max_lat && Qle_bool min_lat b
      && Qle_bool c max_lon && Qle_bool min_lon d
  | _, _, _, _ => false
  end.

Lemma overlapsb_spec h way a b c d :
  overlapsb h way a b c d = true <-> overlaps h way a b c d.
Proof.
  unfold overlapsb, overlaps. cbv zeta.
  destruct (way_min_lat (ways h !!! w_addr way)),
    (way_max_lat (ways h !!! w_addr way)),
    (way_min_lon (ways h !!! w_addr way)),
    (way_max_lon (ways h !!! w_addr way));
    try (split; [discriminate|tauto]).
  rewrite !andb_true_iff, !Qle_bool_iff. tauto.
Qed.

(** The four bounds of the way are set. *)
Definition bounded (h : Heap) (way : WayRef) : Prop :=
  let o := ways h !!! w_addr way in
  is_Some (way_min_lat o) /\ is_Some (way_max_lat o)
  /\ is_Some (way_min_lon o) /\ is_Some (way_max_lon o).

Lemma box_meets_bounded h way a b c d :
  bounded h way ->
  box_meets (way_min_lat (ways h !!! w_addr way)) (way_max_lat (ways h !!! w_addr way))
            (way_min_lon (ways h !!! w_addr way)) (way_max_lon (ways h !!! w_addr way))
            (Finite a) (Finite b) (Finite c) (Finite d)
  = Ok (overlapsb h way a b c d).
Proof.
  unfold bounded, overlapsb, box_meets, bound_le, bound_ge.
  intros ([x1 ->] & [x2 ->] & [x3 ->] & [x4 ->]).
  cbn [mbind result_bind rbind].
  destruct (Qle_bool x1 c); simpl; [|done].
  destruct (Qle_bool a x2); simpl; [|done].
  destruct (Qle_bool x3 d); simpl; done.
Qed.

Lemma ways_in_box_bounded h a b c d l : forall acc,
  (forall way, In way l -> bounded h way) ->
  NoDup (PyDict.keys acc ++ map w_id l) ->
  WayCollector.ways_in_box l acc (Finite a) (Finite b) (Finite c) (Finite d) h
  = (Ok (acc ++ map (fun way => (w_id way, way))
                    (filter (fun way => overlapsb h way a b c d = true) l)), h).
Proof.
  induction l as [|w rest IH]; intros acc Hb Hnd.
  - simpl. by rewrite app_nil_r.
  - cbn [WayCollector.ways_in_box].
    unfold mbind at 1, M_bind at 1, get_way at 1.
    unfold mbind at 1, M_bind at 1, lift at 1.
    rewrite box_meets_bounded by (apply Hb; by left).
    destruct (overlapsb h w a b c d) eqn:E.
    + rewrite filter_cons_True by done.
      assert (PyDict.get (w_id w) acc = None) as Hfresh.
      { apply get_None_keys. apply NoDup_app in Hnd as (_ & Hdisj & _).
        intros Hin%list_elem_of_In. apply (Hdisj _ Hin). by left. }
      rewrite set_absent by done. rewrite IH.
      * simpl. by rewrite <- app_assoc.
      * intros way Hw. apply Hb. by right.
      * unfold PyDict.keys in *. rewrite map_app. simpl.
        by rewrite <- app_assoc.
    + rewrite filter_cons_False by (by rewrite E).
      apply IH.
      * intros way Hw. apply Hb. by right.
      * simpl in Hnd. by apply nodup_drop_middle in Hnd.
Qed.

(** X12.  For a registry whose ways all have their four bounds, and a box
    given by four finite floats, [get_ways_by_bounding_box] returns, keyed by
    their ids and in the order of the registry, exactly the ways whose
    bounding box meets the box of the query (boxes that only touch count as
    meeting); the registry and the ways are not changed. *)
Theorem box_query_selects_overlapping (self : WayCollector.t)
    (min_lat min_lon max_lat max_lon : Q) (h : Heap) :
  (forall way, In way (PyDict.values self) -> bounded h way) ->
  NoDup (map w_id (PyDict.values self)) ->
  exists result,
    WayCollector.get_ways_by_bounding_box self (Finite min_lat) (Finite min_lon)
      (Finite max_lat) (Finite max_lon) h = (Ok result, h)
    /\ (forall way, In way (PyDict.values result)
          <-> In way (PyDict.values self)
              /\ overlaps h way min_lat min_lon max_lat max_lon)
    /\ (forall k way, In (k, way) result -> k = w_id way)
    /\ sublist (PyDict.values result) (PyDict.values self).
Proof.
  intros Hb Hnd. eexists. split.
  - unfold WayCollector.get_ways_by_bounding_box. by apply ways_in_box_bounded.
  - assert (forall l : list WayRef,
              PyDict.values (map (fun way => (w_id way, way)) l) = l) as Hvalues.
    { intros l. unfold PyDict.values. rewrite map_map. simpl. apply map_id. }
    unfold PyDict.empty. cbn [app]. rewrite Hvalues. split; [|split].
    + intros way. rewrite <- !list_elem_of_In, list_elem_of_filter.
      rewrite overlapsb_spec. tauto.
    + by intros k way (w & [= <- <-] & _)%in_map_iff.
    + apply sublist_filter.
Qed.

Lemma box_query_selects_overlapping_witness :
  exists result,
    WayCollector.get_ways_by_bounding_box [(1, WayFacts.way_1)]
      (Finite 0) (Finite 0) (Finite 10) (Finite 30) two_node_heap
    = (Ok result, two_node_heap)
    /\ In WayFacts.way_1 (PyDict.values result).
Proof.
  destruct (box_query_selects_overlapping [(1, WayFacts.way_1)] 0 0 10 30 two_node_heap)
    as (result & Hrun & Hin & _).
  - intros way [<-|[]]. vm_compute. repeat split; by eexists.
  - solve_nodup.
  - exists result. split; [exact Hrun|]. apply Hin. split; [by left|].
    vm_compute. repeat split; discriminate.
Defined.

End RegistryQueries.

(** ** Areas: bounding box, borders and tags *)

Module AreaFacts.
Import DictMore WayFacts WriteFacts.



(** The area after one step of [_calculate_bounding_box], for a node at
    latitude [la] and longitude [lo]. *)
Definition extended (o : AreaObj) (p : Q * Q) : AreaObj :=
  {| area_tags := area_tags o; area_outer_border := area_outer_border o;
     area_inner_borders := area_inner_borders o;
     area_min_lon := extend_min (area_min_lon o) (snd p);
     area_max_lon := extend_max (area_max_lon o) (snd p);
     area_min_lat := extend_min (area_min_lat o) (fst p);
     area_max_lat := extend_max (area_max_lat o) (fst p) |}.





Lemma fold_extended_borders points : forall o,
  area_outer_border (fold_left extended points o) = area_outer_border o
  /\ area_inner_borders (fold_left extended points o) = area_inner_borders o
  /\ area_tags (fold_left extended points o) = area_tags o.
Proof.
  induction points as [|p rest IH]; intros o; simpl; [done|].
  by destruct (IH (extended o p)) as (-> & -> & ->).
Qed.

(** The coordinates of the nodes of a ring, (latitude, longitude). *)
Definition points_of (h : Heap) (ring : list NodeRef) : list (Q * Q) :=
  map (fun node => (lat_at h node, lon_at h node)) ring.

Lemma points_of_nodes h h' ring : nodes h' = nodes h -> points_of h' ring = points_of h ring.
Proof.
  intros Hn. unfold points_of, lat_at, lon_at. by rewrite Hn.
Qed.

Lemma has_coordinates_nodes h h' node :
  nodes h' = nodes h -> has_coordinates h node -> has_coordinates h' node.
Proof. unfold has_coordinates. by intros ->. Qed.

Lemma extend_box_spec h self node :
  has_coordinates h node ->
  exists h', Area.extend_box self node h = (Ok tt, h')
    /\ area_updated h h' (a_addr self)
         (extended (areas h !!! a_addr self) (lat_at h node, lon_at h node)).
Proof.
  intros [[la Hla] [lo Hlo]]. unfold Area.extend_box.
  unfold mbind at 1, M_bind at 1. rewrite (coordinates_run h node la lo) by done.
  unfold mbind at 1, M_bind at 1, get_area at 1.
  eexists. split; [reflexivity|].
  unfold lat_at, lon_at. rewrite Hla, Hlo. apply put_area_updated.
Qed.

Lemma for_each_extend_spec self ring : forall h,
  (forall node, In node ring -> has_coordinates h node) ->
  exists h', for_each ring (Area.extend_box self) h = (Ok tt, h')
    /\ area_updated h h' (a_addr self)
         (fold_left extended (points_of h ring) (areas h !!! a_addr self)).
Proof.
  induction ring as [|node rest IH]; intros h Hc.
  - exists h. split; [done|]. apply area_updated_refl.
  - destruct (extend_box_spec h self node (Hc node (or_introl eq_refl)))
      as (h1 & Hstep & Hup).
    pose proof Hup as (Hn & _ & Ha & _).
    destruct (IH h1) as (h2 & Hrest & Hup2).
    { intros n Hin. apply (has_coordinates_nodes h); [done|]. apply Hc. by right. }
    exists h2. split.
    + cbn [for_each]. unfold mbind at 1, M_bind at 1. by rewrite Hstep.
    + eapply area_updated_trans; [exact Hup|].
      rewrite Ha, (points_of_nodes h h1) in Hup2 by done. exact Hup2.
Qed.

Lemma for_each_rings_spec self rings : forall h,
  (forall ring node, In ring rings -> In node ring -> has_coordinates h node) ->
  exists h',
    for_each rings (fun border => for_each border (Area.extend_box self)) h = (Ok tt, h')
    /\ area_updated h h' (a_addr self)
         (fold_left extended (points_of h (concat rings)) (areas h !!! a_addr self)).
Proof.
  induction rings as [|ring rest IH]; intros h Hc.
  - exists h. split; [done|]. apply area_updated_refl.
  - destruct (for_each_extend_spec self ring h) as (h1 & Hstep & Hup).
    { intros n Hin. apply (Hc ring); [by left|done]. }
    pose proof Hup as (Hn & _ & Ha & _).
    destruct (IH h1) as (h2 & Hrest & Hup2).
    { intros r n Hr Hin. apply (has_coordinates_nodes h); [done|].
      apply (Hc r); [by right|done]. }
    exists h2. split.
    + cbn [for_each]. unfold mbind at 1, M_bind at 1. by rewrite Hstep.
    + eapply area_updated_trans; [exact Hup|].
      rewrite Ha, (points_of_nodes h h1) in Hup2 by done.
      simpl. unfold points_of in *. by rewrite map_app, fold_left_app.
Qed.



(** Three nodes with coordinates, built by the constructor. *)
Definition three_node_heap : Heap :=
  snd ((_ ← Node.__init__ 1 (Some (Finite 0)) (Some (Finite 0)) [] [];
        _ ← Node.__init__ 2 (Some (Finite 0)) (Some (Finite 9)) [] [];
        Node.__init__ 3 (Some (Finite 9)) (Some (Finite 9)) [] []) empty_heap).


(** *** Inner borders need an outer border *)

Definition inner_needs_outer (o : AreaObj) : Prop :=
  area_inner_borders o <> [] -> area_outer_border o <> [].

(** The borders of the area at [a] are the same in both heaps. *)
Definition same_borders (a : nat) (h h' : Heap) : Prop :=
  area_outer_border (areas h' !!! a) = area_outer_border (areas h !!! a)
  /\ area_inner_borders (areas h' !!! a) = area_inner_borders (areas h !!! a).

Lemma extend_box_borders self node a h r h' :
  Area.extend_box self node h = (r, h') -> same_borders a h h'.
Proof.
  unfold Area.extend_box, Node.coordinates, mbind, M_bind, get_node, get_area, put_area.
  destruct (node_lat (nodes h !!! n_addr node));
    [destruct (node_lon (nodes h !!! n_addr node))|]; simpl;
    intros [= _ <-]; try done.
  unfold same_borders. simpl.
  destruct (decide (a_addr self = a)) as [<-|Hne].
  - by rewrite lookup_total_insert_eq.
  - by rewrite lookup_total_insert_ne.
Qed.

Lemma for_each_borders {A} (body : A -> M unit) a l :
  (forall x h r h', body x h = (r, h') -> same_borders a h h') ->
  forall h r h', for_each l body h = (r, h') -> same_borders a h h'.
Proof.
  intros Hbody. induction l as [|x rest IH]; intros h r h'.
  - by intros [= _ <-].
  - cbn [for_each]. unfold mbind, M_bind.
    destruct (body x h) as [[[]|e|] h1] eqn:Hstep.
    + intros Hrest. destruct (Hbody _ _ _ _ Hstep) as [H1 H2].
      destruct (IH _ _ _ Hrest) as [H3 H4]. split; congruence.
    + intros [= _ <-]. by apply (Hbody _ _ _ _ Hstep).
    + intros [= _ <-]. by apply (Hbody _ _ _ _ Hstep).
Qed.

Lemma calculate_borders self a h r h' :
  Area._calculate_bounding_box self h = (r, h') -> same_borders a h h'.
Proof.
  unfold Area._calculate_bounding_box. unfold mbind, M_bind, get_area.
  apply for_each_borders. intros border. apply for_each_borders.
  intros node. apply extend_box_borders.
Qed.

(** X14.  Which operations keep an area free of inner borders without an
    outer border.  The constructor does: it raises [ValueError], building
    nothing, when it is given inner borders and no outer border, and an area
    it returns has the property.  [add_inner_border], [remove_outer_border],
    [remove_inner_border] and [clear_inner_borders] keep the property,
    whether they return or raise ([add_inner_border] raises [ValueError] on
    an area without outer border, [remove_outer_border] on an area with
    inner borders; both leave the area as it was).  [set_outer_border] and
    the setters of [outer_border] and [inner_borders] do not test anything:
    on an area with inner borders, [set_outer_border([])] and
    [outer_border = []] leave the inner borders without an outer border,
    and so does [inner_borders = [ring, ...]] on an area without outer
    border. *)
Theorem area_inner_borders_need_outer (self : AreaRef) (h : Heap) :
  inner_needs_outer (areas h !!! a_addr self) ->
  (forall border r h',
     Area.add_inner_border self border h = (r, h') ->
     inner_needs_outer (areas h' !!! a_addr self)
     /\ (area_outer_border (areas h !!! a_addr self) = [] ->
         r = Raise ValueError /\ h' = h))
  /\ (forall r h',
     Area.remove_outer_border self h = (r, h') ->
     inner_needs_outer (areas h' !!! a_addr self)
     /\ (area_inner_borders (areas h !!! a_addr self) <> [] ->
         r = Raise ValueError /\ h' = h))
  /\ (forall border r h',
     Area.remove_inner_border self border h = (r, h') ->
     inner_needs_outer (areas h' !!! a_addr self))
  /\ (forall r h',
     Area.clear_inner_borders self h = (r, h') ->
     inner_needs_outer (areas h' !!! a_addr self))
  /\ (forall area_id tags0 outer_border inner_borders b1 b2 b3 b4,
     (forall new h',
        Area.__init__ area_id tags0 outer_border inner_borders b1 b2 b3 b4 h
          = (Ok new, h') ->
        inner_needs_outer (areas h' !!! a_addr new))
     /\ (inner_borders <> [] -> outer_border = [] ->
         Area.__init__ area_id tags0 outer_border inner_borders b1 b2 b3 b4 h
           = (Raise ValueError, h)))
  /\ (area_inner_borders (areas h !!! a_addr self) <> [] ->
      (forall r h',
         Area.set_outer_border self [] h = (r, h') ->
         ~ inner_needs_outer (areas h' !!! a_addr self))
      /\ (forall r h',
         Area.outer_border_setter self [] h = (r, h') ->
         r = Ok tt /\ ~ inner_needs_outer (areas h' !!! a_addr self)))
  /\ (area_outer_border (areas h !!! a_addr self) = [] ->
      forall ring rest r h',
        Area.inner_borders_setter self (ring :: rest) h = (r, h') ->
        r = Ok tt /\ ~ inner_needs_outer (areas h' !!! a_addr self)).
Proof.
  intros Hwf. unfold inner_needs_outer in *.
  set (o := areas h !!! a_addr self) in *.
  split; [|split; [|split; [|split; [|split; [|split]]]]].
  - intros border r h'. unfold Area.add_inner_border, mbind, M_bind, get_area, put_area.
    fold o. destruct (area_outer_border o) as [|first rest] eqn:Hout.
    + intros [= <- <-]. fold o. rewrite Hout. split; [done|]. by intros _.
    + intros [= <- <-]. simpl. rewrite lookup_total_insert_eq. simpl.
      rewrite Hout. split; done.
  - intros r h'. unfold Area.remove_outer_border, mbind, M_bind, get_area, put_area.
    fold o. destruct (area_inner_borders o) as [|ring rest] eqn:Hin.
    + intros [= <- <-]. simpl. rewrite lookup_total_insert_eq. simpl.
      rewrite Hin. split; done.
    + intros [= <- <-]. fold o. rewrite Hin. split; [done|]. by intros _.
  - intros border r h'.
    unfold Area.remove_inner_border, mbind, M_bind, get_area, put_area. fold o.
    destruct (py_remove Area.border_eqb border (area_inner_borders o)) as [l|] eqn:Hrm.
    + intros [= <- <-]. simpl. rewrite lookup_total_insert_eq. simpl.
      intros _. apply Hwf. by destruct (area_inner_borders o).
    + by intros [= <- <-].
  - intros r h'. unfold Area.clear_inner_borders, mbind, M_bind, get_area, put_area.
    intros [= <- <-]. simpl. by rewrite lookup_total_insert_eq.
  - intros area_id tags0 outer inner b1 b2 b3 b4. split.
    + intros new h'. unfold Area.__init__.
      destruct inner as [|ring rest].
      * destruct outer as [|first outer].
        -- intros [= <- <-]. simpl. by rewrite lookup_total_insert_eq.
        -- intros (a & h1 & [= <- <-] & Hrun)%bind_Ok_inv.
           apply bind_Ok_inv in Hrun as ([] & h2 & [= <-] & Hrun).
           apply bind_Ok_inv in Hrun as ([] & h3 & Hcalc & [= <- <-]).
           destruct (calculate_borders _ (next_addr h) _ _ _ Hcalc) as [H1 H2].
           simpl in *. rewrite lookup_total_insert_eq in H1, H2. by rewrite H1.
      * destruct outer as [|first outer]; [done|].
        intros (a & h1 & [= <- <-] & Hrun)%bind_Ok_inv.
        apply bind_Ok_inv in Hrun as ([] & h2 & [= <-] & Hrun).
        apply bind_Ok_inv in Hrun as ([] & h3 & Hcalc & [= <- <-]).
        destruct (calculate_borders _ (next_addr h) _ _ _ Hcalc) as [H1 H2].
        simpl in *. rewrite lookup_total_insert_eq in H1, H2. by rewrite H1.
    + intros Hinner ->. unfold Area.__init__. by destruct inner.
  - intros Hinner. split.
    + intros r h'. unfold Area.set_outer_border.
      unfold mbind at 1, M_bind at 1, get_area at 1.
      unfold mbind at 1, M_bind at 1, put_area at 1. fold o.
      intros Hcalc.
      destruct (calculate_borders self (a_addr self) _ r h' Hcalc) as [H1 H2].
      simpl in H1, H2. rewrite lookup_total_insert_eq in H1, H2. simpl in H1, H2.
      intros Hkeep. rewrite H1, H2 in Hkeep. by apply Hkeep.
    + intros r h'. unfold Area.outer_border_setter, mbind, M_bind, get_area, put_area.
      fold o. intros [= <- <-]. split; [done|]. simpl.
      rewrite lookup_total_insert_eq. simpl. intros Hkeep. by apply Hkeep.
  - intros Houter ring rest r h'.
    unfold Area.inner_borders_setter, mbind, M_bind, get_area, put_area. fold o.
    intros [= <- <-]. split; [done|]. simpl.
    rewrite lookup_total_insert_eq. simpl. intros Hkeep. by apply Hkeep.
Qed.

Lemma area_inner_borders_need_outer_witness :
  Area.remove_outer_border area_9 open_area_heap = (Raise ValueError, open_area_heap)
  /\ (forall border r h',
       Area.add_inner_border area_9 border open_area_heap = (r, h') ->
       inner_needs_outer (areas h' !!! a_addr area_9))
  /\ (forall r h',
       Area.set_outer_border area_9 [] open_area_heap = (r, h') ->
       ~ inner_needs_outer (areas h' !!! a_addr area_9)).
Proof.
  destruct (area_inner_borders_need_outer area_9 open_area_heap)
    as (Hadd & Hrem & _ & _ & _ & Hset & _).
  { intros _. vm_compute. discriminate. }
  split; [|split].
  - destruct (Area.remove_outer_border area_9 open_area_heap) as [r h'] eqn:E.
    destruct (Hrem r h' eq_refl) as [_ Hraise].
    destruct Hraise as [-> ->]; [vm_compute; discriminate|reflexivity].
  - intros border r h' Hrun. by apply (Hadd border r h').
  - apply Hset. vm_compute. discriminate.
Defined.

(** *** Operations that reset the box *)

Lemma areas_in_box_unbounded h q1 q2 q3 q4 items : forall result area_id area,
  In (area_id, area) items -> area_min_lat (areas h !!! a_addr area) = None ->
  AreaCollector.areas_in_box items result q1 q2 q3 q4 h = (Raise TypeError, h).
Proof.
  induction items as [|[k a] rest IH]; intros result area_id area Hin Hnone; [done|].
  cbn [AreaCollector.areas_in_box].
  unfold mbind at 1, M_bind at 1, get_area at 1.
  unfold mbind at 1, M_bind at 1, lift at 1.
  destruct Hin as [[= -> ->]|Hin].
  - rewrite Hnone. done.
  - destruct (RegistryQueries.box_meets_total
                (area_min_lat (areas h !!! a_addr a))
                (area_max_lat (areas h !!! a_addr a))
                (area_min_lon (areas h !!! a_addr a))
                (area_max_lon (areas h !!! a_addr a)) q1 q2 q3 q4) as [[r ->]| ->];
      [|done].
    by apply (IH _ area_id area).
Qed.

(** X15.  [remove_inner_border] (when it removes), [clear_inner_borders] and
    [remove_outer_border] (when it is allowed) reset the four bounds of the
    area to [None] and do not compute them again: afterwards [bounding_box]
    is [None], although the outer border that the first two leave in place
    still has its nodes, and every bounding-box query of a registry that
    holds the area raises [TypeError]. *)
Theorem area_box_reset_breaks_queries (registry : AreaCollector.t) (area_id : Z)
    (self : AreaRef) (h : Heap) (min_lat min_lon max_lat max_lon : pyfloat) :
  In (area_id, self) registry ->
  let reset h' :=
    Area.bounding_box self h' = (Ok None, h')
    /\ AreaCollector.get_areas_by_bounding_box registry
         min_lat min_lon max_lat max_lon h' = (Raise TypeError, h') in
  (forall border h',
     Area.remove_inner_border self border h = (Ok true, h') ->
     reset h'
     /\ area_outer_border (areas h' !!! a_addr self)
        = area_outer_border (areas h !!! a_addr self))
  /\ (forall h',
     Area.clear_inner_borders self h = (Ok tt, h') ->
     reset h'
     /\ area_outer_border (areas h' !!! a_addr self)
        = area_outer_border (areas h !!! a_addr self))
  /\ (forall h', Area.remove_outer_border self h = (Ok tt, h') -> reset h').
Proof.
  intros Hin reset.
  assert (forall h', area_min_lat (areas h' !!! a_addr self) = None ->
            area_max_lat (areas h' !!! a_addr self) = None -> reset h') as Hreset.
  { intros h' Hmin Hmax. split.
    - unfold Area.bounding_box, mbind, M_bind, get_area, mret, M_ret.
      rewrite Hmin.
      by destruct (area_min_lon (areas h' !!! a_addr self)),
        (area_max_lon (areas h' !!! a_addr self)).
    - by apply (areas_in_box_unbounded _ _ _ _ _ _ _ area_id self). }
  split; [|split].
  - intros border h'.
    unfold Area.remove_inner_border, mbind, M_bind, get_area, put_area.
    destruct (py_remove Area.border_eqb border _) as [l|]; [|done].
    intros [= <-]. split.
    + apply Hreset; simpl; by rewrite lookup_total_insert_eq.
    + simpl. by rewrite lookup_total_insert_eq.
  - intros h'. unfold Area.clear_inner_borders, mbind, M_bind, get_area, put_area.
    intros [= <-]. split.
    + apply Hreset; simpl; by rewrite lookup_total_insert_eq.
    + simpl. by rewrite lookup_total_insert_eq.
  - intros h'. unfold Area.remove_outer_border, mbind, M_bind, get_area, put_area.
    destruct (area_inner_borders (areas h !!! a_addr self)); [|done].
    intros [= <-]. apply Hreset; simpl; by rewrite lookup_total_insert_eq.
Qed.

Lemma area_box_reset_breaks_queries_witness :
  exists h',
    Area.remove_inner_border area_9 [ring_node 3; ring_node 4; ring_node 5]
      open_area_heap = (Ok true, h')
    /\ area_outer_border (areas h' !!! a_addr area_9)
       = [ring_node 0; ring_node 1; ring_node 2]
    /\ Area.bounding_box area_9 open_area_heap = (Ok (Some (0, 0, 9, 9)%Q), open_area_heap)
    /\ Area.bounding_box area_9 h' = (Ok None, h')
    /\ AreaCollector.get_areas_by_bounding_box [(9, area_9)]
         (Finite 0) (Finite 0) (Finite 1) (Finite 1) h' = (Raise TypeError, h').
Proof.
  destruct (area_box_reset_breaks_queries [(9, area_9)] 9 area_9 open_area_heap
              (Finite 0) (Finite 0) (Finite 1) (Finite 1)) as (Hrem & _ & _).
  { by left. }
  eexists. split; [vm_compute; reflexivity|].
  match goal with |- _ /\ _ /\ Area.bounding_box _ ?h1 = _ /\ _ =>
    destruct (Hrem [ring_node 3; ring_node 4; ring_node 5] h1) as [[Hbox Hquery] Houter]
  end.
  { vm_compute. reflexivity. }
  split; [vm_compute; reflexivity|]. split; [vm_compute; reflexivity|].
  split; [exact Hbox|exact Hquery].
Defined.

(** *** Tags *)

Lemma get_tag_run self key h :
  Area.get_tag self key h = (Ok (PyDict.get key (area_tags (areas h !!! a_addr self))), h).
Proof. reflexivity. Qed.

(** X16.  The tags of an area are a dictionary.  [add_tag] with a key that
    is not empty and a string value sets the tag and touches no other tag;
    then [get_tag] returns the value and [has_tag] is [True]; [remove_tag]
    then returns [True], after which the tag is gone and a second
    [remove_tag] returns [False].  [add_tag] with an empty key, or with a
    value that is not a string, raises [ValueError] and changes nothing. *)
Theorem area_tag_round_trip (self : AreaRef) (key value : string) (h : Heap) :
  key <> ""%string ->
  NoDup (PyDict.keys (area_tags (areas h !!! a_addr self))) ->
  (exists h1,
     Area.add_tag self key (JStr value) h = (Ok tt, h1)
     /\ Area.get_tag self key h1 = (Ok (Some (JStr value)), h1)
     /\ Area.has_tag self key h1 = (Ok true, h1)
     /\ (forall other, other <> key ->
           Area.get_tag self other h1
           = (Ok (PyDict.get other (area_tags (areas h !!! a_addr self))), h1))
     /\ exists h2,
          Area.remove_tag self key h1 = (Ok true, h2)
          /\ Area.get_tag self key h2 = (Ok None, h2)
          /\ Area.has_tag self key h2 = (Ok false, h2)
          /\ Area.remove_tag self key h2 = (Ok false, h2)
          /\ (forall other, other <> key ->
                Area.get_tag self other h2
                = (Ok (PyDict.get other (area_tags (areas h !!! a_addr self))), h2)))
  /\ (forall v, Area.add_tag self "" v h = (Raise ValueError, h))
  /\ (forall k z, Area.add_tag self k (JNum z) h = (Raise ValueError, h)).
Proof.
  intros Hkey Hnd. set (t := area_tags (areas h !!! a_addr self)) in *.
  split; [|split].
  - unfold Area.add_tag. rewrite bool_decide_eq_false_2 by done.
    unfold mbind, M_bind, get_area, put_area. fold t.
    eexists. split; [reflexivity|].
    set (h1 := {| nodes := nodes h; ways := ways h;
                  areas := <[a_addr self := Area.with_tags (areas h !!! a_addr self)
                                              (PyDict.set key (JStr value) t)]> (areas h);
                  next_addr := next_addr h |}).
    assert (area_tags (areas h1 !!! a_addr self) = PyDict.set key (JStr value) t) as Ht1
      by (unfold h1; simpl; by rewrite lookup_total_insert_eq).
    split; [|split; [|split]].
    + rewrite get_tag_run, Ht1. by rewrite PyDictFacts.get_set_eq.
    + unfold Area.has_tag, mbind, M_bind, get_area, mret, M_ret. rewrite Ht1.
      by rewrite PyDictFacts.mem_set_eq.
    + intros other Hne. rewrite get_tag_run, Ht1.
      by rewrite PyDictFacts.get_set_ne.
    + unfold Area.remove_tag, mbind, M_bind, get_area, put_area, mret, M_ret.
      rewrite Ht1, PyDictFacts.mem_set_eq.
      eexists. split; [reflexivity|].
      match goal with |- Area.get_tag _ _ ?h2' = _ /\ _ => set (h2 := h2') end.
      assert (area_tags (areas h2 !!! a_addr self)
              = PyDict.del key (PyDict.set key (JStr value) t)) as Ht2
        by (unfold h2; simpl; by rewrite lookup_total_insert_eq).
      assert (PyDict.get key (area_tags (areas h2 !!! a_addr self)) = None) as Hgone
        by (rewrite Ht2; by apply get_del_eq, nodup_keys_set).
      split; [|split; [|split]].
      * by rewrite get_tag_run, Hgone.
      * unfold Area.has_tag, mbind, M_bind, get_area, mret, M_ret, PyDict.mem.
        by rewrite Hgone.
      * unfold PyDict.mem. by rewrite Hgone.
      * intros other Hne. rewrite get_tag_run, Ht2.
        rewrite get_del_ne by done. by rewrite PyDictFacts.get_set_ne.
  - intros v. reflexivity.
  - intros k z. unfold Area.add_tag. by destruct (bool_decide (k = ""%string)).
Qed.

Lemma area_tag_round_trip_witness :
  exists h1,
    Area.add_tag area_9 "name" (JStr "lake") open_area_heap = (Ok tt, h1)
    /\ Area.get_tag area_9 "name" h1 = (Ok (Some (JStr "lake")), h1)
    /\ exists h2, Area.remove_tag area_9 "name" h1 = (Ok true, h2)
                  /\ Area.has_tag area_9 "name" h2 = (Ok false, h2).
Proof.
  destruct (area_tag_round_trip area_9 "name" "lake" open_area_heap)
    as [(h1 & Hadd & Hget & _ & _ & h2 & Hrem & _ & Hhas & _) _].
  - discriminate.
  - vm_compute. constructor.
  - exists h1. split; [exact Hadd|]. split; [exact Hget|].
    exists h2. split; [exact Hrem|exact Hhas].
Defined.

End AreaFacts.

(** ** Ways: construction, growth and clearing *)

Module WayMore.
Import KeyedLists WayFacts.

(** The heap after [node.add_way(way)]. *)
Definition attach (h : Heap) (node : NodeRef) (way : WayRef) : Heap :=
  snd (Node.add_way node way h).

Lemma add_way_run node way h : Node.add_way node way h = (Ok tt, attach h node way).
Proof.
  unfold attach, Node.add_way, mbind, M_bind, get_node.
  by destruct (negb (py_in way_eqb way (node_ways (nodes h !!! n_addr node)))).
Qed.

Lemma attach_ways h node way : ways (attach h node way) = ways h.
Proof.
  unfold attach, Node.add_way, mbind, M_bind, get_node.
  by destruct (negb (py_in way_eqb way (node_ways (nodes h !!! n_addr node)))).
Qed.

(** The way list of the node at address [a] after [node.add_way(way)]. *)
Lemma attach_ways_at h node way a :
  node_ways (nodes (attach h node way) !!! a)
  = if decide (a = n_addr node) then
      if py_in way_eqb way (node_ways (nodes h !!! a))
      then node_ways (nodes h !!! a)
      else node_ways (nodes h !!! a) ++ [way]
    else node_ways (nodes h !!! a).
Proof.
  unfold attach, Node.add_way, mbind, M_bind, get_node.
  destruct (decide (a = n_addr node)) as [->|Hne].
  - destruct (py_in way_eqb way (node_ways (nodes h !!! n_addr node))); simpl; [done|].
    by rewrite lookup_total_insert_eq.
  - destruct (py_in way_eqb way (node_ways (nodes h !!! n_addr node))); simpl; [done|].
    by rewrite lookup_total_insert_ne.
Qed.

Lemma attach_coordinates h node way a :
  node_lat (nodes (attach h node way) !!! a) = node_lat (nodes h !!! a)
  /\ node_lon (nodes (attach h node way) !!! a) = node_lon (nodes h !!! a).
Proof.
  unfold attach, Node.add_way, mbind, M_bind, get_node.
  destruct (py_in way_eqb way (node_ways (nodes h !!! n_addr node))); simpl; [done|].
  destruct (decide (n_addr node = a)) as [<-|Hne].
  - by rewrite lookup_total_insert_eq.
  - by rewrite lookup_total_insert_ne.
Qed.

Lemma attach_lists h node way :
  py_in way_eqb way (node_ways (nodes (attach h node way) !!! n_addr node)) = true.
Proof.
  rewrite attach_ways_at, decide_True by done.
  destruct (py_in way_eqb way (node_ways (nodes h !!! n_addr node))) eqn:E; [done|].
  rewrite (py_in_snoc w_id) by apply way_eqb_key. by rewrite Z.eqb_refl, orb_true_r.
Qed.

Lemma attach_keeps h node way w a :
  py_in way_eqb w (node_ways (nodes h !!! a)) = true ->
  py_in way_eqb w (node_ways (nodes (attach h node way) !!! a)) = true.
Proof.
  intros Hin. rewrite attach_ways_at.
  destruct (decide (a = n_addr node)); [|done].
  destruct (py_in way_eqb way (node_ways (nodes h !!! a))); [done|].
  by rewrite py_in_app, Hin.
Qed.

(** The loop [for node in self._nodes: node.add_way(self)]. *)
Definition attach_all (h : Heap) (l : list NodeRef) (way : WayRef) : Heap :=
  fold_left (fun h node => attach h node way) l h.

Lemma for_each_attach_run way l : forall h,
  for_each l (fun node => Node.add_way node way) h = (Ok tt, attach_all h l way).
Proof.
  induction l as [|node l IH]; intros h; [done|].
  cbn [for_each]. unfold mbind at 1, M_bind at 1. rewrite add_way_run. apply IH.
Qed.

Lemma attach_all_ways way l : forall h, ways (attach_all h l way) = ways h.
Proof.
  induction l as [|node l IH]; intros h; simpl; [done|].
  unfold attach_all in *. simpl. by rewrite IH, attach_ways.
Qed.

Lemma attach_all_coordinates way l a : forall h,
  node_lat (nodes (attach_all h l way) !!! a) = node_lat (nodes h !!! a)
  /\ node_lon (nodes (attach_all h l way) !!! a) = node_lon (nodes h !!! a).
Proof.
  induction l as [|node l IH]; intros h; simpl; [done|].
  unfold attach_all in *. simpl.
  destruct (IH (attach h node way)) as [-> ->]. apply attach_coordinates.
Qed.

Lemma attach_all_keeps way l w a : forall h,
  py_in way_eqb w (node_ways (nodes h !!! a)) = true ->
  py_in way_eqb w (node_ways (nodes (attach_all h l way) !!! a)) = true.
Proof.
  induction l as [|node l IH]; intros h Hin; simpl; [done|].
  unfold attach_all in *. simpl. by apply IH, attach_keeps.
Qed.

Lemma attach_all_lists way l : forall h node,
  In node l ->
  py_in way_eqb way (node_ways (nodes (attach_all h l way) !!! n_addr node)) = true.
Proof.
  induction l as [|n0 l IH]; intros h node Hin; [done|].
  unfold attach_all in *. simpl. destruct Hin as [->|Hin].
  - apply (attach_all_keeps way l way). apply attach_lists.
  - by apply IH.
Qed.

Lemma lat_lon_at_same h h' node :
  node_lat (nodes h' !!! n_addr node) = node_lat (nodes h !!! n_addr node) ->
  node_lon (nodes h' !!! n_addr node) = node_lon (nodes h !!! n_addr node) ->
  lat_at h' node = lat_at h node /\ lon_at h' node = lon_at h node
  /\ (has_coordinates h node -> has_coordinates h' node).
Proof.
  intros Hla Hlo. unfold lat_at, lon_at, has_coordinates. by rewrite Hla, Hlo.
Qed.

(** X17.  A way built from a list of nodes that is not empty, all with
    coordinates: the constructor returns a way with these nodes in this
    order; every one of them then has the way in its way list; the four
    bounds are the extrema of the coordinates of the nodes, whatever bounds
    were passed to the constructor; and no coordinate is changed. *)
Theorem way_init_links_nodes_and_bounds (way_id : Z) (tags0 : Tags)
    (l : list NodeRef) (b1 b2 b3 b4 : option Q) (h : Heap) :
  l <> [] ->
  (forall node, In node l -> has_coordinates h node) ->
  exists self h' min_lat max_lat min_lon max_lon,
    Way.__init__ way_id tags0 l b1 b2 b3 b4 h = (Ok self, h')
    /\ w_id self = way_id
    /\ way_nodes (ways h' !!! w_addr self) = l
    /\ (forall node, In node l ->
          py_in way_eqb self (node_ways (nodes h' !!! n_addr node)) = true)
    /\ way_min_lat (ways h' !!! w_addr self) = Some min_lat
    /\ way_max_lat (ways h' !!! w_addr self) = Some max_lat
    /\ way_min_lon (ways h' !!! w_addr self) = Some min_lon
    /\ way_max_lon (ways h' !!! w_addr self) = Some max_lon
    /\ is_min min_lat (map (lat_at h) l) /\ is_max max_lat (map (lat_at h) l)
    /\ is_min min_lon (map (lon_at h) l) /\ is_max max_lon (map (lon_at h) l)
    /\ (forall node, lat_at h' node = lat_at h node /\ lon_at h' node = lon_at h node).
Proof.
  intros Hne Hc.
  set (self := {| w_addr := next_addr h; w_id := way_id |}).
  set (o0 := {| way_tags := tags0; way_nodes := l; way_is_polygon := false;
                way_min_lat := b1; way_max_lat := b2;
                way_min_lon := b3; way_max_lon := b4 |}).
  set (h1 := snd (put_way self o0 (snd (alloc h)))).
  set (h2 := attach_all h1 l self).
  assert (forall node, lat_at h2 node = lat_at h node /\ lon_at h2 node = lon_at h node
                       /\ (has_coordinates h node -> has_coordinates h2 node)) as Hsame.
  { intros node.
    destruct (attach_all_coordinates self l (n_addr node) h1) as [Hla Hlo].
    apply lat_lon_at_same; unfold h2; [by rewrite Hla|by rewrite Hlo]. }
  assert (way_nodes (ways h2 !!! w_addr self) = l) as Hl.
  { unfold h2. rewrite attach_all_ways. unfold h1. simpl.
    by rewrite lookup_total_insert_eq. }
  destruct (recompute_bounds_run h2 self) as
    (min_lat & max_lat & min_lon & max_lon & Hrun & H1 & H2 & H3 & H4).
  { by rewrite Hl. }
  { rewrite Hl. intros node Hin. by apply Hsame, Hc. }
  rewrite Hl in H1, H2, H3, H4.
  assert (map (lat_at h2) l = map (lat_at h) l) as Elat
    by (apply map_ext; intros; apply Hsame).
  assert (map (lon_at h2) l = map (lon_at h) l) as Elon
    by (apply map_ext; intros; apply Hsame).
  rewrite Elat in H1, H2. rewrite Elon in H3, H4.
  exists self, (set_bounds h2 self min_lat max_lat min_lon max_lon),
    min_lat, max_lat, min_lon, max_lon.
  split.
  { unfold Way.__init__.
    unfold mbind at 1, M_bind at 1. cbn [alloc].
    unfold mbind at 1, M_bind at 1. cbn [put_way].
    fold self o0. destruct l as [|first rest]; [done|].
    unfold mbind at 1, M_bind at 1.
    unfold mbind at 1, M_bind at 1.
    rewrite for_each_attach_run.
    change (attach_all _ (first :: rest) self) with h2. by rewrite Hrun. }
  split; [done|].
  unfold set_bounds. cbn [ways nodes]. rewrite lookup_total_insert_eq.
  cbn [way_nodes way_min_lat way_max_lat way_min_lon way_max_lon].
  split; [done|]. split.
  { intros node Hin. unfold h2. by apply attach_all_lists. }
  repeat (split; [done|]).
  intros node. destruct (Hsame node) as (Hla & Hlo & _).
  unfold lat_at, lon_at in *. done.
Qed.

Lemma way_init_links_nodes_and_bounds_witness :
  exists self h' min_lat max_lat min_lon max_lon,
    Way.__init__ 5 [] [WriteFacts.ring_node 0; WriteFacts.ring_node 1;
                       WriteFacts.ring_node 2]
      (Some 100%Q) None None None AreaFacts.three_node_heap = (Ok self, h')
    /\ w_id self = 5
    /\ way_nodes (ways h' !!! w_addr self)
       = [WriteFacts.ring_node 0; WriteFacts.ring_node 1; WriteFacts.ring_node 2]
    /\ (forall node,
          In node [WriteFacts.ring_node 0; WriteFacts.ring_node 1;
                   WriteFacts.ring_node 2] ->
          py_in way_eqb self (node_ways (nodes h' !!! n_addr node)) = true)
    /\ way_min_lat (ways h' !!! w_addr self) = Some min_lat
    /\ way_max_lat (ways h' !!! w_addr self) = Some max_lat
    /\ way_min_lon (ways h' !!! w_addr self) = Some min_lon
    /\ way_max_lon (ways h' !!! w_addr self) = Some max_lon
    /\ is_min min_lat [0%Q; 0%Q; 9%Q] /\ is_max max_lat [0%Q; 0%Q; 9%Q]
    /\ is_min min_lon [0%Q; 9%Q; 9%Q] /\ is_max max_lon [0%Q; 9%Q; 9%Q]
    /\ (forall node,
          lat_at h' node = lat_at AreaFacts.three_node_heap node
          /\ lon_at h' node = lon_at AreaFacts.three_node_heap node).
Proof.
  apply (way_init_links_nodes_and_bounds 5 []
           [WriteFacts.ring_node 0; WriteFacts.ring_node 1; WriteFacts.ring_node 2]
           (Some 100%Q) None None None AreaFacts.three_node_heap).
  - discriminate.
  - intros node Hin.
    destruct Hin as [<-|[<-|[<-|[]]]]; split; vm_compute; by eexists.
Defined.


End WayMore.

(** ** Ways: adding a node *)

Module WayGrowth.
Import KeyedLists WayFacts WayMore.

(** The way after [add_node(node)], for a node at latitude [la] and
    longitude [lo]. *)
Definition grown (o : WayObj) (node : NodeRef) (la lo : Q) : WayObj :=
  {| way_tags := way_tags o; way_nodes := way_nodes o ++ [node];
     way_is_polygon := if Way.closed (way_nodes o ++ [node]) then true
                       else way_is_polygon o;
     way_min_lat := extend_min (way_min_lat o) la;
     way_max_lat := extend_max (way_max_lat o) la;
     way_min_lon := extend_min (way_min_lon o) lo;
     way_max_lon := extend_max (way_max_lon o) lo |}.

(** [node.add_way(way)] touches the node at the address of [node], and
    reads nothing else. *)
Lemma attach_record h node way :
  attach h node way
  = {| nodes := nodes (attach h node way); ways := ways h;
       areas := areas h; next_addr := next_addr h |}.
Proof.
  unfold attach, Node.add_way, mbind, M_bind, get_node.
  destruct (negb (py_in way_eqb way (node_ways (nodes h !!! n_addr node))));
    by destruct h.
Qed.

Lemma attach_nodes h h1 node way :
  nodes h1 = nodes h -> nodes (attach h1 node way) = nodes (attach h node way).
Proof.
  intros Hn. unfold attach, Node.add_way, mbind, M_bind, get_node, put_node.
  rewrite Hn.
  by destruct (negb (py_in way_eqb way (node_ways (nodes h !!! n_addr node)))); simpl;
    rewrite ?Hn.
Qed.

Lemma add_node_run h self node la lo :
  node_lat (nodes h !!! n_addr node) = Some la ->
  node_lon (nodes h !!! n_addr node) = Some lo ->
  Way.add_node self node h
  = (Ok tt, {| nodes := nodes (attach h node self);
               ways := <[w_addr self := grown (ways h !!! w_addr self) node la lo]>
                         (ways h);
               areas := areas h; next_addr := next_addr h |}).
Proof.
  intros Hla Hlo. set (o := ways h !!! w_addr self).
  unfold Way.add_node.
  unfold mbind at 1, M_bind at 1, get_way at 1.
  unfold mbind at 1, M_bind at 1, put_way at 1.
  unfold mbind at 1, M_bind at 1. rewrite add_way_run.
  unfold mbind at 1, M_bind at 1, get_way at 1.
  rewrite attach_ways. cbn [ways]. rewrite lookup_total_insert_eq. fold o.
  rewrite attach_record. cbn [ways areas next_addr].
  rewrite (attach_nodes h _ node self) by done.
  cbn [Way.with_nodes way_nodes].
  assert (forall w,
            Node.coordinates node
              {| nodes := nodes (attach h node self); ways := w;
                 areas := areas h; next_addr := next_addr h |}
            = (Ok (la, lo),
               {| nodes := nodes (attach h node self); ways := w;
                  areas := areas h; next_addr := next_addr h |})) as Hcoord.
  { intros w.
    destruct (attach_coordinates h node self (n_addr node)) as [Ela Elo].
    apply coordinates_run; cbn [nodes]; [by rewrite Ela|by rewrite Elo]. }
  destruct (Way.closed (way_nodes o ++ [node])) eqn:Ecl.
  - unfold mbind at 1, M_bind at 1, put_way at 1. cbn [nodes ways areas next_addr].
    unfold mbind at 1, M_bind at 1. rewrite Hcoord.
    unfold mbind at 1, M_bind at 1. rewrite update_run.
    unfold mbind at 1, M_bind at 1. rewrite update_run.
    unfold mbind at 1, M_bind at 1. rewrite update_run.
    rewrite update_run. cbn [nodes ways areas next_addr fst snd].
    rewrite !lookup_total_insert_eq, !insert_insert_eq.
    unfold grown. rewrite Ecl. reflexivity.
  - unfold mbind at 1, M_bind at 1, mret at 1, M_ret at 1.
    unfold mbind at 1, M_bind at 1. rewrite Hcoord.
    unfold mbind at 1, M_bind at 1. rewrite update_run.
    unfold mbind at 1, M_bind at 1. rewrite update_run.
    unfold mbind at 1, M_bind at 1. rewrite update_run.
    rewrite update_run. cbn [nodes ways areas next_addr fst snd].
    rewrite !lookup_total_insert_eq, !insert_insert_eq.
    unfold grown. rewrite Ecl. reflexivity.
Qed.






Lemma coordinates_missing h node :
  node_lat (nodes h !!! n_addr node) = None \/ node_lon (nodes h !!! n_addr node) = None ->
  Node.coordinates node h = (Raise AttributeError, h).
Proof.
  intros Hnone. unfold Node.coordinates, mbind, M_bind, get_node.
  destruct Hnone as [-> | ->]; [done|].
  by destruct (node_lat (nodes h !!! n_addr node)).
Qed.

(** X19.  [add_node] of a node that has no coordinates (a node built without
    a latitude) raises [AttributeError], but only after the node has been
    appended to the way and the way to the way list of the node: the call
    fails and leaves both changes behind, with the bounds as they were. *)
Theorem way_add_node_without_coordinates (self : WayRef) (node : NodeRef) (h : Heap) :
  node_lat (nodes h !!! n_addr node) = None \/ node_lon (nodes h !!! n_addr node) = None ->
  exists h',
    Way.add_node self node h = (Raise AttributeError, h')
    /\ way_nodes (ways h' !!! w_addr self)
       = way_nodes (ways h !!! w_addr self) ++ [node]
    /\ py_in way_eqb self (node_ways (nodes h' !!! n_addr node)) = true
    /\ way_min_lat (ways h' !!! w_addr self) = way_min_lat (ways h !!! w_addr self)
    /\ way_max_lat (ways h' !!! w_addr self) = way_max_lat (ways h !!! w_addr self)
    /\ way_min_lon (ways h' !!! w_addr self) = way_min_lon (ways h !!! w_addr self)
    /\ way_max_lon (ways h' !!! w_addr self) = way_max_lon (ways h !!! w_addr self).
Proof.
  intros Hnone. set (o := ways h !!! w_addr self).
  set (o1 := Way.with_nodes o (way_nodes o ++ [node])).
  set (o2 := if Way.closed (way_nodes o ++ [node]) then Way.with_is_polygon o1 true
             else o1).
  exists {| nodes := nodes (attach h node self);
            ways := <[w_addr self := o2]> (ways h);
            areas := areas h; next_addr := next_addr h |}.
  split.
  - unfold Way.add_node.
    unfold mbind at 1, M_bind at 1, get_way at 1.
    unfold mbind at 1, M_bind at 1, put_way at 1.
    unfold mbind at 1, M_bind at 1. rewrite add_way_run.
    unfold mbind at 1, M_bind at 1, get_way at 1.
    rewrite attach_ways. cbn [ways]. rewrite lookup_total_insert_eq. fold o o1.
    rewrite attach_record. cbn [ways areas next_addr].
    rewrite (attach_nodes h _ node self) by done.
    assert (forall w,
              Node.coordinates node
                {| nodes := nodes (attach h node self); ways := w;
                   areas := areas h; next_addr := next_addr h |}
              = (Raise AttributeError,
                 {| nodes := nodes (attach h node self); ways := w;
                    areas := areas h; next_addr := next_addr h |})) as Hcoord.
    { intros w. apply coordinates_missing. cbn [nodes].
      by destruct (attach_coordinates h node self (n_addr node)) as [-> ->]. }
    unfold o2. cbn [way_nodes Way.with_nodes o1].
    destruct (Way.closed (way_nodes o ++ [node])).
    + unfold mbind at 1, M_bind at 1, put_way at 1. cbn [nodes ways areas next_addr].
      unfold mbind at 1, M_bind at 1. rewrite Hcoord.
      by rewrite insert_insert_eq.
    + unfold mbind at 1, M_bind at 1, mret at 1, M_ret at 1.
      unfold mbind at 1, M_bind at 1. by rewrite Hcoord.
  - cbn [ways nodes]. rewrite lookup_total_insert_eq.
    split; [|split; [apply attach_lists|]];
      unfold o2; by destruct (Way.closed (way_nodes o ++ [node])).
Qed.

(** The way of node 7, and a node 9 built without coordinates. *)
Definition bare_node_heap : Heap :=
  snd ((node ← Node.__init__ 7 (Some (Finite 10)) (Some (Finite 20)) [] [];
        _ ← Way.__init__ 1 [] [node] None None None None;
        Node.__init__ 9 None None [] []) empty_heap).

Definition node_9 : NodeRef := {| n_addr := 2; n_id := 9 |}.

Lemma way_add_node_without_coordinates_witness :
  exists h',
    Way.add_node way_1 node_9 bare_node_heap = (Raise AttributeError, h')
    /\ way_nodes (ways bare_node_heap !!! w_addr way_1) = [node_7]
    /\ way_nodes (ways h' !!! w_addr way_1) = [node_7; node_9].
Proof.
  destruct (way_add_node_without_coordinates way_1 node_9 bare_node_heap)
    as (h' & Hrun & Hnodes & _).
  { left. vm_compute. reflexivity. }
  exists h'. split; [exact Hrun|]. split; [vm_compute; reflexivity|exact Hnodes].
Defined.

(** *** Adding a node and removing it again *)

Section Removal.
Context {A : Type} (key : A -> Z) (eqb : A -> A -> bool).
Hypothesis eqb_key : forall a b, eqb a b = (key a =? key b)%Z.

(** [l.remove(x)] takes out the first element with the key of [x]. *)
Lemma py_remove_middle x l1 l2 :
  ~ In (key x) (map key l1) -> py_remove eqb x (l1 ++ x :: l2) = Some (l1 ++ l2).
Proof.
  induction l1 as [|y l1 IH]; intros Hn; simpl.
  - by rewrite eqb_key, Z.eqb_refl.
  - rewrite eqb_key.
    assert ((key y =? key x)%Z = false) as ->.
    { apply Z.eqb_neq. intros Heq. apply Hn. by left. }
    rewrite IH; [done|]. intros Hin. apply Hn. by right.
Qed.

Lemma py_remove_snoc x l : py_in eqb x l = false -> py_remove eqb x (l ++ [x]) = Some l.
Proof.
  intros Hin. rewrite py_remove_middle; [by rewrite app_nil_r|].
  by apply (py_in_false key eqb eqb_key).
Qed.

End Removal.

(** The way list of the node at address [a] after [node.remove_way(way)]. *)
Lemma detach_ways_at h node way a :
  node_ways (nodes (detach h node way) !!! a)
  = if decide (a = n_addr node) then
      default (node_ways (nodes h !!! a))
              (py_remove way_eqb way (node_ways (nodes h !!! a)))
    else node_ways (nodes h !!! a).
Proof.
  unfold detach, Node.remove_way, mbind, M_bind, get_node.
  destruct (decide (a = n_addr node)) as [->|Hne].
  - destruct (py_remove way_eqb way (node_ways (nodes h !!! n_addr node))); simpl; [|done].
    by rewrite lookup_total_insert_eq.
  - destruct (py_remove way_eqb way (node_ways (nodes h !!! n_addr node))); simpl; [|done].
    by rewrite lookup_total_insert_ne.
Qed.

(** Removing the only node of a way: the list is emptied, [min] of the empty
    list raises, the handler returns [False]. *)
Lemma remove_only_node_run h self node :
  py_remove node_eqb node (way_nodes (ways h !!! w_addr self)) = Some [] ->
  Way.remove_node self node h = (Ok false, set_nodes (detach h node self) self []).
Proof.
  intros Hrm.
  unfold Way.remove_node, try_except_ValueError.
  unfold mbind at 1, M_bind at 1. rewrite remove_way_run.
  unfold mbind at 1, M_bind at 1, get_way at 1.
  rewrite detach_ways at 1. rewrite Hrm.
  unfold mbind at 1, M_bind at 1, lift at 1, or_raise.
  unfold mbind at 1, M_bind at 1, put_way at 1.
  fold (set_nodes (detach h node self) self []).
  unfold mbind at 1, M_bind at 1.
  unfold Way.recompute_bounds.
  unfold mbind at 1, M_bind at 1, get_way at 1.
  assert (way_nodes (ways (set_nodes (detach h node self) self []) !!! w_addr self) = [])
    as -> by (simpl; by rewrite lookup_total_insert_eq).
  reflexivity.
Qed.

(** X20.  [add_node] followed by [remove_node] of the same node, for a node
    that was not on the way and did not list the way: the node list of the
    way and the way list of the node are as before.  When the way had nodes
    (all with coordinates) the removal returns [True] and the bounds are the
    extrema over these nodes; when the way was empty the removal returns
    [False] and the four bounds stay as [add_node] left them: each is the
    bound the way had before, extended by the coordinate of the node that is
    gone (that coordinate itself, for a way that had no bounds). *)
Theorem way_add_then_remove_node (self : WayRef) (node : NodeRef) (h : Heap) :
  let l := way_nodes (ways h !!! w_addr self) in
  has_coordinates h node ->
  (forall n, In n l -> has_coordinates h n) ->
  py_in node_eqb node l = false ->
  py_in way_eqb self (node_ways (nodes h !!! n_addr node)) = false ->
  exists h1 r h2,
    Way.add_node self node h = (Ok tt, h1)
    /\ Way.remove_node self node h1 = (Ok r, h2)
    /\ way_nodes (ways h2 !!! w_addr self) = l
    /\ node_ways (nodes h2 !!! n_addr node) = node_ways (nodes h !!! n_addr node)
    /\ (l <> [] ->
        r = true
        /\ exists min_lat max_lat min_lon max_lon,
             way_min_lat (ways h2 !!! w_addr self) = Some min_lat
             /\ way_max_lat (ways h2 !!! w_addr self) = Some max_lat
             /\ way_min_lon (ways h2 !!! w_addr self) = Some min_lon
             /\ way_max_lon (ways h2 !!! w_addr self) = Some max_lon
             /\ is_min min_lat (map (lat_at h) l) /\ is_max max_lat (map (lat_at h) l)
             /\ is_min min_lon (map (lon_at h) l) /\ is_max max_lon (map (lon_at h) l))
    /\ (l = [] ->
        r = false
        /\ way_min_lat (ways h2 !!! w_addr self)
           = extend_min (way_min_lat (ways h !!! w_addr self)) (lat_at h node)
        /\ way_max_lat (ways h2 !!! w_addr self)
           = extend_max (way_max_lat (ways h !!! w_addr self)) (lat_at h node)
        /\ way_min_lon (ways h2 !!! w_addr self)
           = extend_min (way_min_lon (ways h !!! w_addr self)) (lon_at h node)
        /\ way_max_lon (ways h2 !!! w_addr self)
           = extend_max (way_max_lon (ways h !!! w_addr self)) (lon_at h node)
        /\ (way_min_lat (ways h !!! w_addr self) = None ->
            way_max_lat (ways h !!! w_addr self) = None ->
            way_min_lon (ways h !!! w_addr self) = None ->
            way_max_lon (ways h !!! w_addr self) = None ->
            way_min_lat (ways h2 !!! w_addr self) = Some (lat_at h node)
            /\ way_max_lat (ways h2 !!! w_addr self) = Some (lat_at h node)
            /\ way_min_lon (ways h2 !!! w_addr self) = Some (lon_at h node)
            /\ way_max_lon (ways h2 !!! w_addr self) = Some (lon_at h node))).
Proof.
  intros l [[la Hla] [lo Hlo]] Hc Hnew Hfresh.
  pose proof (add_node_run h self node la lo Hla Hlo) as Hadd.
  set (h1 := {| nodes := nodes (attach h node self);
                ways := <[w_addr self := grown (ways h !!! w_addr self) node la lo]>
                          (ways h);
                areas := areas h; next_addr := next_addr h |}) in *.
  assert (way_nodes (ways h1 !!! w_addr self) = l ++ [node]) as Hl1
    by (unfold h1; cbn [ways]; by rewrite lookup_total_insert_eq).
  assert (py_remove node_eqb node (way_nodes (ways h1 !!! w_addr self)) = Some l) as Hrm
    by (rewrite Hl1; by apply (py_remove_snoc n_id)).
  assert (forall n, lat_at h1 n = lat_at h n /\ lon_at h1 n = lon_at h n
                    /\ (has_coordinates h n -> has_coordinates h1 n)) as Hsame.
  { intros n. apply lat_lon_at_same; unfold h1; cbn [nodes];
      by destruct (attach_coordinates h node self (n_addr n)) as [E1 E2]. }
  assert (node_ways (nodes h1 !!! n_addr node)
          = node_ways (nodes h !!! n_addr node) ++ [self]) as Hws1.
  { unfold h1. cbn [nodes]. rewrite attach_ways_at, decide_True by done.
    by rewrite Hfresh. }
  assert (node_ways (nodes (detach h1 node self) !!! n_addr node)
          = node_ways (nodes h !!! n_addr node)) as Hws2.
  { rewrite detach_ways_at, decide_True by done. rewrite Hws1.
    by rewrite (py_remove_snoc w_id). }
  assert (lat_at h node = la) as Ela by (unfold lat_at; by rewrite Hla).
  assert (lon_at h node = lo) as Elo by (unfold lon_at; by rewrite Hlo).
  destruct l as [|first rest] eqn:El.
  - (* the way was empty *)
    exists h1, false, (set_nodes (detach h1 node self) self []).
    split; [exact Hadd|]. split; [by apply remove_only_node_run|].
    unfold set_nodes. cbn [ways nodes]. rewrite lookup_total_insert_eq.
    cbn [Way.with_nodes way_nodes way_min_lat way_max_lat way_min_lon way_max_lon].
    split; [done|]. split; [exact Hws2|]. split; [done|]. intros _.
    rewrite detach_ways. unfold h1. cbn [ways]. rewrite lookup_total_insert_eq.
    rewrite Ela, Elo. cbn [grown way_min_lat way_max_lat way_min_lon way_max_lon].
    repeat (split; [done|]).
    by intros -> -> -> ->.
  - (* the way had nodes *)
    destruct (remove_node_recomputes h1 self node (first :: rest) Hrm)
      as (h2 & min_lat & max_lat & min_lon & max_lon & Hrun & -> & H1 & H2 & H3 & H4).
    { done. }
    { intros n Hn. by apply Hsame, Hc. }
    assert (map (lat_at h1) (first :: rest) = map (lat_at h) (first :: rest)) as Elat
      by (apply map_ext; intros; apply Hsame).
    assert (map (lon_at h1) (first :: rest) = map (lon_at h) (first :: rest)) as Elon
      by (apply map_ext; intros; apply Hsame).
    rewrite Elat in H1, H2. rewrite Elon in H3, H4.
    eexists h1, true, _. split; [exact Hadd|]. split; [exact Hrun|].
    unfold set_bounds, set_nodes. cbn [ways nodes].
    rewrite !lookup_total_insert_eq.
    cbn [Way.with_nodes way_nodes way_min_lat way_max_lat way_min_lon way_max_lon].
    split; [done|]. split; [exact Hws2|]. split; [|done].
    intros _. split; [done|]. by exists min_lat, max_lat, min_lon, max_lon.
Qed.

Lemma way_add_then_remove_node_witness :
  exists h1 h2,
    Way.add_node way_1 RegistryQueries.node_8 RegistryQueries.two_node_heap = (Ok tt, h1)
    /\ Way.remove_node way_1 RegistryQueries.node_8 h1 = (Ok true, h2)
    /\ way_nodes (ways h2 !!! w_addr way_1) = [node_7]
    /\ node_ways (nodes h2 !!! n_addr RegistryQueries.node_8) = [].
Proof.
  destruct (way_add_then_remove_node way_1 RegistryQueries.node_8
              RegistryQueries.two_node_heap)
    as (h1 & r & h2 & Hadd & Hrem & Hnodes & Hways & Hfull & _).
  - split; vm_compute; by eexists.
  - intros n Hn. vm_compute in Hn. destruct Hn as [<-|[]].
    split; vm_compute; by eexists.
  - vm_compute. reflexivity.
  - vm_compute. reflexivity.
  - destruct Hfull as [-> _]; [vm_compute; discriminate|].
    exists h1, h2. split; [exact Hadd|]. split; [exact Hrem|].
    split; [exact Hnodes|exact Hways].
Defined.

End WayGrowth.

(** ** Loops over a list that the loop body shrinks *)

Module Clearing.
Import KeyedLists NeighborFacts WayFacts WayMore WayGrowth.

(** The elements at the odd positions 1, 3, 5, ... of a list. *)
Fixpoint every_other {A} (l : list A) : list A :=
  match l with
  | _ :: y :: rest => y :: every_other rest
  | _ => []
  end.

Lemma length_every_other {A} (l : list A) :
  length (every_other l) = (length l / 2)%nat.
Proof.
  assert (forall n (l : list A), (length l <= n)%nat ->
            length (every_other l) = (length l / 2)%nat) as H.
  { induction n as [|n IH]; intros l0 Hlen.
    - destruct l0; [done|simpl in Hlen; lia].
    - destruct l0 as [|x [|y rest]]; [done|done|].
      simpl in Hlen. cbn [every_other length]. rewrite IH by lia.
      change (S (S (length rest))) with (2 + length rest)%nat.
      replace (2 + length rest)%nat with (length rest + 1 * 2)%nat by lia.
      rewrite Nat.div_add by done. lia. }
  by apply (H (length l)).
Qed.

(** [remove_node] of a node of the way whose other nodes have coordinates:
    the first occurrence is taken out, whatever the call returns. *)
Lemma remove_node_listed h self node l :
  py_remove node_eqb node (way_nodes (ways h !!! w_addr self)) = Some l ->
  (forall n, In n l -> has_coordinates h n) ->
  exists r h',
    Way.remove_node self node h = (Ok r, h')
    /\ way_nodes (ways h' !!! w_addr self) = l
    /\ (forall n, has_coordinates h n -> has_coordinates h' n).
Proof.
  intros Hrm Hc.
  assert (forall n, has_coordinates h n -> has_coordinates (detach h node self) n)
    as Hkeep.
  { intros n. unfold has_coordinates.
    by destruct (detach_coordinates h node self (n_addr n)) as [-> ->]. }
  destruct l as [|first rest].
  - exists false, (set_nodes (detach h node self) self []).
    split; [by apply remove_only_node_run|]. split; [|done].
    simpl. by rewrite lookup_total_insert_eq.
  - destruct (remove_node_recomputes h self node (first :: rest) Hrm)
      as (h' & a & b & c & d & Hrun & -> & _); [done|done|].
    exists true, (set_bounds (set_nodes (detach h node self) self (first :: rest))
                    self a b c d).
    split; [done|]. split; [|done].
    unfold set_bounds, set_nodes. cbn [ways]. by rewrite !lookup_total_insert_eq.
Qed.

(** Past the end of the list the loop stops. *)
Lemma clear_nodes_from_end fuel self i h :
  (length (way_nodes (ways h !!! w_addr self)) <= i)%nat ->
  Way.clear_nodes_from (S fuel) self i h = (Ok tt, h).
Proof.
  intros Hlen. cbn [Way.clear_nodes_from]. unfold mbind, M_bind, get_way.
  by rewrite lookup_ge_None_2.
Qed.

Lemma clear_nodes_from_run self fuel : forall kept rest h,
  way_nodes (ways h !!! w_addr self) = kept ++ rest ->
  NoDup (map n_id (kept ++ rest)) ->
  (forall n, In n (kept ++ rest) -> has_coordinates h n) ->
  (length rest < fuel)%nat ->
  exists h',
    Way.clear_nodes_from fuel self (length kept) h = (Ok tt, h')
    /\ way_nodes (ways h' !!! w_addr self) = kept ++ every_other rest.
Proof.
  induction fuel as [|fuel IH]; intros kept rest h Hl Hnd Hc Hfuel; [lia|].
  destruct rest as [|x rest].
  - exists h. split; [|done]. apply clear_nodes_from_end. rewrite Hl, app_nil_r. lia.
  - assert (py_remove node_eqb x (way_nodes (ways h !!! w_addr self))
            = Some (kept ++ rest)) as Hrm.
    { rewrite Hl. apply (py_remove_middle n_id); [apply node_eqb_key|].
      rewrite map_app in Hnd. apply NoDup_app in Hnd as (_ & Hdisj & _).
      intros Hin%list_elem_of_In. apply (Hdisj _ Hin). by left. }
    destruct (remove_node_listed h self x (kept ++ rest) Hrm)
      as (r & h1 & Hrun & Hl1 & Hkeep).
    { intros n Hn. apply Hc. rewrite in_app_iff in *. simpl. tauto. }
    assert (Way.clear_nodes_from (S fuel) self (length kept) h
            = Way.clear_nodes_from fuel self (S (length kept)) h1) as ->.
    { cbn [Way.clear_nodes_from]. unfold mbind at 1, M_bind at 1, get_way at 1.
      rewrite Hl, lookup_app_r, Nat.sub_diag by done. simpl.
      unfold mbind at 1, M_bind at 1. by rewrite Hrun. }
    assert (NoDup (map n_id (kept ++ rest))) as Hnd1.
    { rewrite map_app in *. simpl in Hnd. by apply RegistryQueries.nodup_drop_middle in Hnd. }
    destruct rest as [|y rest].
    + exists h1. destruct fuel as [|fuel]; [simpl in Hfuel; lia|].
      split; [|done]. apply clear_nodes_from_end. rewrite Hl1, app_nil_r. lia.
    + destruct (IH (kept ++ [y]) rest h1) as (h' & Hrest & Hl').
      * by rewrite Hl1, <- app_assoc.
      * by rewrite <- app_assoc.
      * intros n Hn. apply Hkeep, Hc. rewrite <- app_assoc in Hn. simpl in Hn.
        rewrite in_app_iff in *. simpl in *. tauto.
      * simpl in Hfuel. lia.
      * exists h'. rewrite length_app, Nat.add_1_r in Hrest. split; [done|].
        rewrite Hl'. by rewrite <- app_assoc.
Qed.

(** X21.  [clear_nodes] does not clear a way of two nodes or more.  The loop
    removes from the list it runs over, so it skips every second node: on a
    way whose nodes have pairwise distinct ids (and coordinates) it removes
    the nodes at positions 0, 2, 4, ... and leaves the nodes at positions
    1, 3, 5, ..., half of them, on the way. *)
Theorem way_clear_nodes_keeps_every_other (self : WayRef) (h : Heap) (fuel : nat) :
  let l := way_nodes (ways h !!! w_addr self) in
  NoDup (map n_id l) ->
  (forall n, In n l -> has_coordinates h n) ->
  (length l < fuel)%nat ->
  exists h',
    Way.clear_nodes fuel self h = (Ok tt, h')
    /\ way_nodes (ways h' !!! w_addr self) = every_other l
    /\ length (way_nodes (ways h' !!! w_addr self)) = (length l / 2)%nat.
Proof.
  intros l Hnd Hc Hfuel.
  destruct (clear_nodes_from_run self fuel [] l h) as (h' & Hrun & Hl); try done.
  exists h'. split; [done|]. split; [done|]. rewrite Hl. apply length_every_other.
Qed.

(** A way over the three nodes of [three_node_heap]. *)
Definition three_node_way_heap : Heap :=
  snd (Way.__init__ 5 [] [WriteFacts.ring_node 0; WriteFacts.ring_node 1;
                          WriteFacts.ring_node 2]
         None None None None AreaFacts.three_node_heap).

Definition way_5 : WayRef := {| w_addr := 3; w_id := 5 |}.

Lemma way_clear_nodes_keeps_every_other_witness :
  exists h',
    Way.clear_nodes 4 way_5 three_node_way_heap = (Ok tt, h')
    /\ way_nodes (ways h' !!! w_addr way_5) = [WriteFacts.ring_node 1].
Proof.
  destruct (way_clear_nodes_keeps_every_other way_5 three_node_way_heap 4)
    as (h' & Hrun & Hl & _).
  - vm_compute. by apply (bool_decide_unpack _).
  - intros n Hn. vm_compute in Hn.
    destruct Hn as [<-|[<-|[<-|[]]]]; split; vm_compute; by eexists.
  - vm_compute. lia.
  - exists h'. split; [exact Hrun|]. rewrite Hl. reflexivity.
Defined.

(** *** [Node.clear_neighbors] *)

(** [remove_neighbor] of a listed neighbor, whether or not the neighbor lists
    the node back: the neighbor leaves the list of the node. *)
Lemma remove_neighbor_listed fuel A B h lA :
  n_addr A <> n_addr B ->
  py_remove node_eqb B (neighbors_of h A) = Some lA ->
  py_in node_eqb B lA = false ->
  exists h',
    Node.remove_neighbor (S (S (S fuel))) A B h = (Ok true, h')
    /\ neighbors_of h' A = lA.
Proof.
  intros Hne HA HlA.
  assert (n_addr B <> n_addr A) as Hne' by (intros E; by apply Hne).
  destruct (is_neighbor h B A) eqn:HBA.
  - destruct (py_remove_is_Some n_id node_eqb node_eqb_key A _ HBA) as [lB HrB].
    eexists. split; [by apply (remove_neighbor_present fuel A B h lA lB)|].
    rewrite !neighbors_of_set. rewrite decide_False by done. by rewrite decide_True.
  - exists (set_neighbors h A lA). split.
    + remember (S (S fuel)) as fuel2. simpl.
      unfold mbind at 1, M_bind at 1, get_node at 1. fold (neighbors_of h A).
      rewrite HA.
      unfold mbind at 1, M_bind at 1, put_node at 1.
      fold (set_neighbors h A lA).
      subst fuel2. unfold mbind at 1, M_bind at 1.
      rewrite remove_neighbor_absent; [done|].
      unfold is_neighbor. rewrite neighbors_of_set, decide_False by done. exact HBA.
    + by rewrite neighbors_of_set, decide_True.
Qed.

Lemma clear_neighbors_from_end fuel self i h :
  (length (neighbors_of h self) <= i)%nat ->
  Node.clear_neighbors_from (S fuel) self i h = (Ok tt, h).
Proof.
  intros Hlen. cbn [Node.clear_neighbors_from]. unfold mbind, M_bind, get_node.
  fold (neighbors_of h self). by rewrite lookup_ge_None_2.
Qed.

Lemma clear_neighbors_from_run self fuel : forall kept rest h,
  neighbors_of h self = kept ++ rest ->
  NoDup (map n_id (kept ++ rest)) ->
  (forall n, In n (kept ++ rest) -> n_addr n <> n_addr self) ->
  (length rest + 3 <= fuel)%nat ->
  exists h',
    Node.clear_neighbors_from fuel self (length kept) h = (Ok tt, h')
    /\ neighbors_of h' self = kept ++ every_other rest.
Proof.
  induction fuel as [|fuel IH]; intros kept rest h Hl Hnd Hself Hfuel; [lia|].
  destruct rest as [|x rest].
  - exists h. split; [|done]. apply clear_neighbors_from_end.
    rewrite Hl, app_nil_r. lia.
  - assert (py_remove node_eqb x (neighbors_of h self) = Some (kept ++ rest)) as Hrm.
    { rewrite Hl. apply (py_remove_middle n_id); [apply node_eqb_key|].
      rewrite map_app in Hnd. apply NoDup_app in Hnd as (_ & Hdisj & _).
      intros Hin%list_elem_of_In. apply (Hdisj _ Hin). by left. }
    assert (NoDup (map n_id (kept ++ rest)) /\ py_in node_eqb x (kept ++ rest) = false)
      as [Hnd1 Hout].
    { apply (py_remove_nodup n_id node_eqb node_eqb_key x (neighbors_of h self));
        [by rewrite Hl|done]. }
    destruct fuel as [|[|[|fuel]]]; [simpl in Hfuel; lia..|].
    destruct (remove_neighbor_listed fuel self x h (kept ++ rest)) as (h1 & Hrun & Hl1);
      [|done|done|].
    { intros E. apply (Hself x); [|done]. rewrite in_app_iff. simpl. tauto. }
    assert (Node.clear_neighbors_from (S (S (S (S fuel)))) self (length kept) h
            = Node.clear_neighbors_from (S (S (S fuel))) self (S (length kept)) h1) as ->.
    { remember (S (S (S fuel))) as fuel3. cbn [Node.clear_neighbors_from].
      unfold mbind at 1, M_bind at 1, get_node at 1. fold (neighbors_of h self).
      rewrite Hl, lookup_app_r, Nat.sub_diag by done. simpl.
      unfold mbind at 1, M_bind at 1. subst fuel3. by rewrite Hrun. }
    destruct rest as [|y rest].
    + exists h1. split; [|done]. apply clear_neighbors_from_end.
      rewrite Hl1, app_nil_r. lia.
    + destruct (IH (kept ++ [y]) rest h1) as (h' & Hrest & Hl').
      * by rewrite Hl1, <- app_assoc.
      * by rewrite <- app_assoc.
      * intros n Hn. apply Hself. rewrite <- app_assoc in Hn. simpl in Hn.
        rewrite in_app_iff in *. simpl in *. tauto.
      * simpl in Hfuel. lia.
      * exists h'. rewrite length_app, Nat.add_1_r in Hrest. split; [done|].
        rewrite Hl'. by rewrite <- app_assoc.
Qed.

(** X22.  [clear_neighbors] does not clear the neighbors of a node that has
    two or more.  The loop removes from the list it runs over, so on a node
    whose neighbors are other nodes with pairwise distinct ids it removes the
    neighbors at positions 0, 2, 4, ... and leaves those at positions
    1, 3, 5, ...: afterwards the node is isolated only if it had at most one
    neighbor. *)
Theorem node_clear_neighbors_keeps_every_other (self : NodeRef) (h : Heap)
    (fuel : nat) :
  let l := neighbors_of h self in
  NoDup (map n_id l) ->
  (forall n, In n l -> n_addr n <> n_addr self) ->
  (length l + 3 <= fuel)%nat ->
  exists h',
    Node.clear_neighbors fuel self h = (Ok tt, h')
    /\ neighbors_of h' self = every_other l
    /\ Node.neighbor_count self h' = (Ok (length l / 2)%nat, h')
    /\ Node.is_isolated_neighbors self h' = (Ok (bool_decide (length l <= 1)%nat), h').
Proof.
  intros l Hnd Hself Hfuel.
  destruct (clear_neighbors_from_run self fuel [] l h) as (h' & Hrun & Hl); try done.
  exists h'. split; [done|]. split; [done|]. simpl in Hl. split.
  - unfold Node.neighbor_count, mbind, M_bind, get_node, mret, M_ret.
    fold (neighbors_of h' self). by rewrite Hl, length_every_other.
  - unfold Node.is_isolated_neighbors, mbind, M_bind, get_node, mret, M_ret.
    fold (neighbors_of h' self). rewrite Hl.
    by destruct l as [|x [|y rest]].
Qed.

(** A node with three neighbors, built by the constructor and
    [add_neighbor]. *)
Definition star_heap : Heap :=
  snd ((a ← Node.__init__ 1 None None [] [];
        b ← Node.__init__ 2 None None [] [];
        c ← Node.__init__ 3 None None [] [];
        d ← Node.__init__ 4 None None [] [];
        _ ← Node.add_neighbor 3 a b;
        _ ← Node.add_neighbor 3 a c;
        Node.add_neighbor 3 a d) empty_heap).

Lemma node_clear_neighbors_keeps_every_other_witness :
  exists h',
    Node.clear_neighbors 6 (WriteFacts.ring_node 0) star_heap = (Ok tt, h')
    /\ neighbors_of star_heap (WriteFacts.ring_node 0)
       = [WriteFacts.ring_node 1; WriteFacts.ring_node 2; WriteFacts.ring_node 3]
    /\ neighbors_of h' (WriteFacts.ring_node 0) = [WriteFacts.ring_node 2]
    /\ Node.is_isolated_neighbors (WriteFacts.ring_node 0) h' = (Ok false, h').
Proof.
  destruct (node_clear_neighbors_keeps_every_other (WriteFacts.ring_node 0) star_heap 6)
    as (h' & Hrun & Hl & _ & Hiso).
  - vm_compute. by apply (bool_decide_unpack _).
  - intros n Hn. vm_compute in Hn.
    destruct Hn as [<-|[<-|[<-|[]]]]; vm_compute; lia.
  - vm_compute. lia.
  - exists h'. split; [exact Hrun|]. split; [reflexivity|].
    split; [rewrite Hl; reflexivity|exact Hiso].
Defined.

End Clearing.

(** ** [Way.set_neighbor_way] *)

Module NeighborWayFacts.
Import KeyedLists NeighborFacts WayFacts.

(** An [int] is never found among the [Way] keys. *)
Lemma id_never_in way_id d : Way.id_in_neighbor_ways way_id d = false.
Proof. unfold Way.id_in_neighbor_ways. by induction d. Qed.

Lemma get_set way way' l d :
  Way.neighbor_ways_get way' (Way.neighbor_ways_set way l d)
  = if way_eqb way way' then Some l else Way.neighbor_ways_get way' d.
Proof.
  induction d as [|[w l'] d IH]; [done|].
  cbn [Way.neighbor_ways_set]. unfold way_eqb in *.
  destruct (Z.eqb_spec (w_id w) (w_id way)) as [E1|E1];
    cbn [Way.neighbor_ways_get]; unfold way_eqb; [|rewrite IH];
    destruct (Z.eqb_spec (w_id w) (w_id way')), (Z.eqb_spec (w_id way) (w_id way'));
    congruence.
Qed.

(** [add_neighbor_way] with another way that shares the node: the entry of
    the way is set to the list of that node alone. *)
Lemma add_neighbor_way_run self d way node h :
  w_id way <> w_id self ->
  py_in node_eqb node (way_nodes (ways h !!! w_addr self)) = true ->
  py_in node_eqb node (way_nodes (ways h !!! w_addr way)) = true ->
  Way.add_neighbor_way self d way node h
  = (Ok (Way.neighbor_ways_set way [node] d), h).
Proof.
  intros Hne Hself Hway. unfold Way.add_neighbor_way.
  rewrite (proj2 (Z.eqb_neq _ _) Hne).
  unfold mbind, M_bind, get_way. rewrite Hself, Hway. simpl.
  by rewrite id_never_in.
Qed.

(** Every entry is the list of one node of [L]. *)
Definition singletons (L : list NodeRef) (d : Way.NeighborWays) : Prop :=
  forall way l, Way.neighbor_ways_get way d = Some l ->
    exists node, l = [node] /\ In node L.

Definition listed (d : Way.NeighborWays) (way : WayRef) : Prop :=
  is_Some (Way.neighbor_ways_get way d).

Lemma singletons_set L d way node :
  singletons L d -> In node L ->
  singletons L (Way.neighbor_ways_set way [node] d).
Proof.
  intros Hd Hin way' l. rewrite get_set.
  destruct (way_eqb way way'); [|by apply Hd].
  intros [= <-]. by exists node.
Qed.

Lemma listed_set d way l way' :
  listed d way' -> listed (Way.neighbor_ways_set way l d) way'.
Proof. unfold listed. rewrite get_set. by destruct (way_eqb way way'). Qed.

Lemma listed_set_same d way l way' :
  w_id way = w_id way' -> listed (Way.neighbor_ways_set way l d) way'.
Proof.
  intros E. unfold listed. rewrite get_set. unfold way_eqb.
  by rewrite (proj2 (Z.eqb_eq _ _) E).
Qed.

(** The other ways of the heap that hold a node of [self] list it. *)
Definition shared_nodes_listed (h : Heap) (self : WayRef) : Prop :=
  forall node way,
    In node (way_nodes (ways h !!! w_addr self)) ->
    In way (node_ways (nodes h !!! n_addr node)) ->
    w_id way <> w_id self ->
    py_in node_eqb node (way_nodes (ways h !!! w_addr way)) = true.

Lemma set_neighbor_way_ways_run self node h L : forall l d,
  L = way_nodes (ways h !!! w_addr self) -> In node L ->
  (forall way, In way l -> w_id way <> w_id self ->
     py_in node_eqb node (way_nodes (ways h !!! w_addr way)) = true) ->
  singletons L d ->
  exists d',
    Way.set_neighbor_way_ways self node l d h = (Ok d', h)
    /\ singletons L d'
    /\ (forall way, listed d way -> listed d' way)
    /\ (forall way way', In way l -> w_id way <> w_id self ->
          w_id way' = w_id way -> listed d' way').
Proof.
  intros l d HL Hin. revert d.
  assert (py_in node_eqb node (way_nodes (ways h !!! w_addr self)) = true) as Hself.
  { rewrite <- HL. apply (py_in_true n_id); [apply node_eqb_key|]. by apply in_map. }
  induction l as [|way rest IH]; intros d Hways Hd.
  - exists d. by repeat split.
  - cbn [Way.set_neighbor_way_ways].
    destruct (Z.eqb_spec (w_id way) (w_id self)) as [E|E]; cbn [negb].
    + destruct (IH d) as (d' & Hrun & Hd' & Hmono & Hnew); [|done|].
      { intros w Hw. apply Hways. by right. }
      exists d'. unfold mbind at 1, M_bind at 1. unfold mret at 1, M_ret at 1.
      split; [done|]. split; [done|]. split; [done|].
      intros w w' [<-|Hw] Hne Hid; [done|]. by apply (Hnew w).
    + unfold mbind at 1, M_bind at 1.
      rewrite add_neighbor_way_run; [|done|done|by apply Hways; [left|]].
      destruct (IH (Way.neighbor_ways_set way [node] d)) as (d' & Hrun & Hd' & Hmono & Hnew).
      { intros w Hw. apply Hways. by right. }
      { by apply singletons_set. }
      exists d'. split; [done|]. split; [done|]. split.
      * intros w Hw. by apply Hmono, listed_set.
      * intros w w' [<-|Hw] Hne Hid.
        -- by apply Hmono, listed_set_same.
        -- by apply (Hnew w).
Qed.

Lemma set_neighbor_way_nodes_run self h L :
  L = way_nodes (ways h !!! w_addr self) -> shared_nodes_listed h self ->
  forall l d,
  (forall node, In node l -> In node L) ->
  singletons L d ->
  exists d',
    Way.set_neighbor_way_nodes self l d h = (Ok d', h)
    /\ singletons L d'
    /\ (forall way, listed d way -> listed d' way)
    /\ (forall node way way', In node l ->
          In way (node_ways (nodes h !!! n_addr node)) -> w_id way <> w_id self ->
          w_id way' = w_id way -> listed d' way').
Proof.
  intros HL Hshared.
  induction l as [|node rest IH]; intros d Hsub Hd.
  - exists d. by repeat split.
  - cbn [Way.set_neighbor_way_nodes].
    unfold mbind at 1, M_bind at 1, get_node at 1.
    destruct (set_neighbor_way_ways_run self node h L
                (node_ways (nodes h !!! n_addr node)) d)
      as (d1 & Hrun1 & Hd1 & Hmono1 & Hnew1); [done|by apply Hsub; left| |done|].
    { intros way Hway Hne. apply Hshared; [|done|done].
      rewrite <- HL. apply Hsub. by left. }
    unfold mbind at 1, M_bind at 1. rewrite Hrun1.
    destruct (IH d1) as (d' & Hrun & Hd' & Hmono & Hnew); [|done|].
    { intros n Hn. apply Hsub. by right. }
    exists d'. split; [done|]. split; [done|]. split.
    + intros w Hw. by apply Hmono, Hmono1.
    + intros n w w' [<-|Hn] Hw Hne Hid.
      * by apply Hmono, (Hnew1 w).
      * by apply (Hnew n w).
Qed.

(** X23.  [set_neighbor_way] on a way whose nodes are listed by the other
    ways that hold them: the call returns, changes no object, and the dict
    has an entry for every other way (by id) that holds a node of the way;
    every entry is a list of one node of the way.  The test
    [way.id in self._neighbor_ways] compares an [int] with [Way] keys and is
    never true, so a way that shares several nodes is recorded with one
    shared node only. *)
Theorem set_neighbor_way_records_one_node (self : WayRef) (h : Heap) :
  shared_nodes_listed h self ->
  exists d,
    Way.set_neighbor_way self h = (Ok d, h)
    /\ (forall way l, Way.neighbor_ways_get way d = Some l ->
          exists node, l = [node] /\ In node (way_nodes (ways h !!! w_addr self)))
    /\ (forall node way,
          In node (way_nodes (ways h !!! w_addr self)) ->
          In way (node_ways (nodes h !!! n_addr node)) ->
          w_id way <> w_id self ->
          exists shared, Way.neighbor_ways_get way d = Some [shared]).
Proof.
  intros Hshared. unfold Way.set_neighbor_way.
  unfold mbind at 1, M_bind at 1, get_way at 1.
  destruct (set_neighbor_way_nodes_run self h (way_nodes (ways h !!! w_addr self))
              eq_refl Hshared (way_nodes (ways h !!! w_addr self)) [])
    as (d & Hrun & Hd & _ & Hnew); [done|by intros way l|].
  exists d. split; [done|]. split; [done|].
  intros node way Hnode Hway Hne.
  destruct (Hnew node way way Hnode Hway Hne eq_refl) as [l Hl].
  destruct (Hd way l Hl) as (shared & -> & _). by exists shared.
Qed.

(** Two ways over the nodes of [three_node_heap]; they share two nodes. *)
Definition two_way_heap : Heap :=
  snd ((_ ← Way.__init__ 5 [] [WriteFacts.ring_node 0; WriteFacts.ring_node 1;
                               WriteFacts.ring_node 2] None None None None;
        Way.__init__ 6 [] [WriteFacts.ring_node 0; WriteFacts.ring_node 1]
          None None None None) AreaFacts.three_node_heap).

Definition way_5 : WayRef := {| w_addr := 3; w_id := 5 |}.
Definition way_6 : WayRef := {| w_addr := 4; w_id := 6 |}.

Lemma set_neighbor_way_records_one_node_witness :
  Way.set_neighbor_way way_5 two_way_heap
    = (Ok [(way_6, [WriteFacts.ring_node 1])], two_way_heap)
  /\ exists d,
    Way.set_neighbor_way way_5 two_way_heap = (Ok d, two_way_heap)
    /\ (forall way l, Way.neighbor_ways_get way d = Some l ->
          exists node, l = [node]
            /\ In node (way_nodes (ways two_way_heap !!! w_addr way_5)))
    /\ (forall node way,
          In node (way_nodes (ways two_way_heap !!! w_addr way_5)) ->
          In way (node_ways (nodes two_way_heap !!! n_addr node)) ->
          w_id way <> w_id way_5 ->
          exists shared, Way.neighbor_ways_get way d = Some [shared]).
Proof.
  split; [reflexivity|].
  apply (set_neighbor_way_records_one_node way_5 two_way_heap).
  intros node way Hnode Hway Hne. vm_compute in Hnode.
  destruct Hnode as [<-|[<-|[<-|[]]]]; vm_compute in Hway;
    repeat match goal with
           | H : _ \/ _ |- _ => destruct H as [<-|H]
           | H : False |- _ => destruct H
           end;
    first [reflexivity | exfalso; by apply Hne].
Defined.

End NeighborWayFacts.

(** ** The codec: reading lines, and reading back what was written *)

Module CodecFacts.
Import IOPs_geojson KeyedLists WayFacts WayMore WayGrowth ReadFacts.

(** The first value under a key of a list of pairs that was appended to. *)
Lemma get_app {V} (k : Z) (d1 d2 : PyDict.t Z V) :
  PyDict.get k (d1 ++ d2)
  = match PyDict.get k d1 with Some v => Some v | None => PyDict.get k d2 end.
Proof.
  induction d1 as [|[k' v'] d1 IH]; simpl; [done|].
  by destruct (decide (k = k')).
Qed.

(** The heap grew: the objects below the old [next_addr] kept their way
    state and their coordinates. *)
Definition extends (h h' : Heap) : Prop :=
  (next_addr h <= next_addr h')%nat
  /\ (forall a, (a < next_addr h)%nat -> ways h' !!! a = ways h !!! a)
  /\ (forall a, (a < next_addr h)%nat ->
        node_lat (nodes h' !!! a) = node_lat (nodes h !!! a)
        /\ node_lon (nodes h' !!! a) = node_lon (nodes h !!! a)).

Lemma extends_refl h : extends h h.
Proof. by repeat split. Qed.

Lemma extends_trans h1 h2 h3 : extends h1 h2 -> extends h2 h3 -> extends h1 h3.
Proof.
  intros (Hn1 & Hw1 & Hc1) (Hn2 & Hw2 & Hc2). split; [lia|]. split.
  - intros a Ha. rewrite Hw2 by lia. by apply Hw1.
  - intros a Ha. destruct (Hc2 a) as [-> ->]; [lia|]. by apply Hc1.
Qed.

(** A node built from a coordinate pair that [Node] accepts. *)
Lemma new_node_run k c h :
  valid c ->
  exists h',
    new_node k c h = (Ok {| n_addr := next_addr h; n_id := k |}, h')
    /\ next_addr h' = S (next_addr h)
    /\ ways h' = ways h /\ areas h' = areas h
    /\ node_lon (nodes h' !!! next_addr h) = Some (fst c)
    /\ node_lat (nodes h' !!! next_addr h) = Some (snd c)
    /\ (forall a, a <> next_addr h -> nodes h' !!! a = nodes h !!! a).
Proof.
  intros (H1 & H2 & H3 & H4). unfold new_node, Node.__init__.
  eexists. split.
  { unfold mbind, M_bind, lift. cbn [mbind result_bind rbind].
    rewrite NodeFacts.validate_inside by done. reflexivity. }
  cbn. rewrite lookup_total_insert_eq. repeat split.
  intros a Ha. by rewrite lookup_total_insert_ne.
Qed.

(** The pairs (node id, coordinate) of a LineString feature, in order. *)
Definition entries (f : Feature) : list (Z * Coord) :=
  match geometry f, OSM_id_nodes (properties f) with
  | LineString coordinates, Some (LineIds ids) => combine ids coordinates
  | _, _ => []
  end.

(** The coordinate that comes first with the node id [k] in the file. *)
Definition first_seen (k : Z) (features : list Feature) : option Coord :=
  PyDict.get k (concat (map entries features)).

(** The node registry after the pairs [seen] were read: an id is registered
    iff it was seen, to a node of that id that holds the coordinate seen
    first with the id. *)
Definition registry_ok (seen : list (Z * Coord)) (nc : NodeCollector.t) (h : Heap)
    : Prop :=
  forall k,
    match PyDict.get k nc with
    | Some n =>
        n_id n = k /\ (n_addr n < next_addr h)%nat
        /\ exists c, PyDict.get k seen = Some c
             /\ node_lon (nodes h !!! n_addr n) = Some (fst c)
             /\ node_lat (nodes h !!! n_addr n) = Some (snd c)
    | None => PyDict.get k seen = None
    end.

Lemma registry_ok_extends seen nc h h' :
  registry_ok seen nc h -> extends h h' -> registry_ok seen nc h'.
Proof.
  intros Hok (Hn & _ & Hc) k. specialize (Hok k).
  destruct (PyDict.get k nc) as [n|]; [|done].
  destruct Hok as (Hid & Ha & c & Hseen & Hlo & Hla).
  split; [done|]. split; [lia|]. exists c. split; [done|].
  destruct (Hc (n_addr n) Ha) as [-> ->]. done.
Qed.

Lemma registered_node_run seen nc k c h :
  valid c -> registry_ok seen nc h ->
  exists node nc' h',
    registered_node nc k c h = (Ok (node, nc'), h')
    /\ n_id node = k
    /\ PyDict.get k nc' = Some node
    /\ (forall k' n, PyDict.get k' nc = Some n -> PyDict.get k' nc' = Some n)
    /\ (forall k' n, PyDict.get k' nc' = Some n -> PyDict.get k' nc = Some n \/ n = node)
    /\ registry_ok (seen ++ [(k, c)]) nc' h'
    /\ extends h h' /\ ways h' = ways h /\ areas h' = areas h.
Proof.
  intros Hvalid Hok. unfold registered_node.
  pose proof (Hok k) as Hk.
  destruct (PyDict.get k nc) as [node|] eqn:Hget.
  - exists node, nc, h. split; [done|].
    destruct Hk as (Hid & Ha & c0 & Hseen & Hlo & Hla).
    split; [done|]. split; [done|]. split; [done|]. split; [by left|].
    split; [|split; [apply extends_refl|done]].
    intros k'. specialize (Hok k'). rewrite get_app.
    destruct (PyDict.get k' nc) as [n|] eqn:Hget'.
    + destruct Hok as (Hid' & Ha' & c' & Hseen' & Hlo' & Hla').
      split; [done|]. split; [done|]. exists c'. by rewrite Hseen'.
    + rewrite Hok. simpl. destruct (decide (k' = k)) as [->|Hne]; [|done].
      congruence.
  - destruct (new_node_run k c h Hvalid)
      as (h' & Hrun & Hnext & Hways & Hareas & Hlo & Hla & Hframe).
    set (node := {| n_addr := next_addr h; n_id := k |}) in *.
    exists node, (NodeCollector.add_node nc node), h'.
    unfold mbind, M_bind. rewrite Hrun. split; [done|]. split; [done|].
    unfold NodeCollector.add_node. cbn [n_id node].
    split; [apply PyDictFacts.get_set_eq|].
    assert (extends h h') as Hext.
    { split; [lia|]. split; [intros; by rewrite Hways|].
      intros a Ha. rewrite Hframe by lia. done. }
    split.
    { intros k' n Hn. rewrite PyDictFacts.get_set_ne; [done|]. congruence. }
    split.
    { intros k' n. destruct (decide (k = k')) as [<-|Hne].
      - rewrite PyDictFacts.get_set_eq. intros [= <-]. by right.
      - rewrite PyDictFacts.get_set_ne by done. by left. }
    split; [|done].
    intros k'. rewrite get_app. destruct (decide (k = k')) as [<-|Hne].
    + rewrite PyDictFacts.get_set_eq. split; [done|]. cbn [n_addr node].
      split; [lia|]. exists c. rewrite Hk. simpl. by rewrite decide_True.
    + rewrite PyDictFacts.get_set_ne by done.
      pose proof (registry_ok_extends seen nc h h' Hok Hext k') as Hk'.
      destruct (PyDict.get k' nc) as [n|]; [|].
      * destruct Hk' as (Hid' & Ha' & c' & Hseen' & Hlo' & Hla').
        split; [done|]. split; [done|]. exists c'. by rewrite Hseen'.
      * rewrite Hk'. simpl. by rewrite decide_False by congruence.
Qed.

(** The loop over the coordinates of a line that has one node id per
    coordinate. *)
Lemma read_registered_nodes_run : forall coordinates ids seen nc acc h,
  length coordinates = length ids -> Forall valid coordinates ->
  registry_ok seen nc h ->
  exists nodes' nc' h',
    read_registered_nodes nc coordinates (map Ok ids) acc h
      = (Ok (acc ++ nodes', nc'), h')
    /\ map n_id nodes' = ids
    /\ (forall n, In n nodes' -> PyDict.get (n_id n) nc' = Some n)
    /\ (forall k n, PyDict.get k nc = Some n -> PyDict.get k nc' = Some n)
    /\ (forall k n, PyDict.get k nc' = Some n -> PyDict.get k nc = Some n \/ In n nodes')
    /\ registry_ok (seen ++ combine ids coordinates) nc' h'
    /\ extends h h' /\ ways h' = ways h /\ areas h' = areas h.
Proof.
  induction coordinates as [|c cs IH]; intros ids seen nc acc h Hlen Hvalid Hok.
  - destruct ids; [|done]. exists [], nc, h. simpl. rewrite !app_nil_r.
    repeat split; try done. intros k n Hn. by left.
  - destruct ids as [|i ids]; [done|].
    apply Forall_cons in Hvalid as [Hc Hcs].
    destruct (registered_node_run seen nc i c h Hc Hok)
      as (node & nc1 & h1 & Hrun1 & Hid & Hget1 & Hmono1 & Honly1 & Hok1 & Hext1
          & Hways1 & Hareas1).
    destruct (IH ids (seen ++ [(i, c)]) nc1 (acc ++ [node]) h1)
      as (nodes' & nc' & h' & Hrun & Hids & Hreg & Hmono & Honly & Hok' & Hext
          & Hways & Hareas);
      [by injection Hlen|done|done|].
    exists (node :: nodes'), nc', h'.
    split.
    { cbn [read_registered_nodes map].
      unfold mbind at 1, M_bind at 1, lift at 1.
      unfold mbind at 1, M_bind at 1. rewrite Hrun1.
      rewrite Hrun. by rewrite <- app_assoc. }
    split; [simpl; by rewrite Hid, Hids|].
    split.
    { intros n [<-|Hn]; [|by apply Hreg]. apply Hmono. by rewrite Hid. }
    split; [intros k n Hn; by apply Hmono, Hmono1|].
    split.
    { intros k n Hn. destruct (Honly k n Hn) as [H1|H1]; [|right; by right].
      destruct (Honly1 k n H1) as [H2| ->]; [by left|right; by left]. }
    split; [by rewrite <- app_assoc in Hok'|].
    split; [by apply (extends_trans h h1 h')|]. split; [by rewrite Hways|].
    by rewrite Hareas.
Qed.

Lemma attach_all_next_addr way l : forall h, next_addr (attach_all h l way) = next_addr h.
Proof.
  induction l as [|node l IH]; intros h; [done|].
  unfold attach_all in *. simpl. rewrite IH. by rewrite attach_record.
Qed.

(** The constructor of a way over nodes that have coordinates: the new way
    is the only object that changes its way state, and no coordinate
    changes. *)
Lemma way_init_run way_id tags0 l b1 b2 b3 b4 h :
  (forall node, In node l -> has_coordinates h node) ->
  exists h',
    Way.__init__ way_id tags0 l b1 b2 b3 b4 h
      = (Ok {| w_addr := next_addr h; w_id := way_id |}, h')
    /\ next_addr h' = S (next_addr h)
    /\ way_tags (ways h' !!! next_addr h) = tags0
    /\ way_nodes (ways h' !!! next_addr h) = l
    /\ (forall a, a <> next_addr h -> ways h' !!! a = ways h !!! a)
    /\ (forall a, node_lat (nodes h' !!! a) = node_lat (nodes h !!! a)
                  /\ node_lon (nodes h' !!! a) = node_lon (nodes h !!! a)).
Proof.
  intros Hc.
  set (self := {| w_addr := next_addr h; w_id := way_id |}).
  set (o0 := {| way_tags := tags0; way_nodes := l; way_is_polygon := false;
                way_min_lat := b1; way_max_lat := b2;
                way_min_lon := b3; way_max_lon := b4 |}).
  set (h1 := snd (put_way self o0 (snd (alloc h)))).
  destruct l as [|first rest].
  { exists h1. split; [done|]. unfold h1. cbn.
    rewrite lookup_total_insert_eq. repeat split.
    intros a Ha. by rewrite lookup_total_insert_ne. }
  set (l := first :: rest) in *.
  set (h2 := attach_all h1 l self).
  assert (forall a, node_lat (nodes h2 !!! a) = node_lat (nodes h !!! a)
                    /\ node_lon (nodes h2 !!! a) = node_lon (nodes h !!! a)) as Hsame.
  { intros a. unfold h2. by destruct (attach_all_coordinates self l a h1) as [-> ->]. }
  assert (ways h2 = <[next_addr h := o0]> (ways h)) as Hways.
  { unfold h2. by rewrite attach_all_ways. }
  assert (way_nodes (ways h2 !!! w_addr self) = l) as Hl.
  { rewrite Hways. cbn [w_addr self]. by rewrite lookup_total_insert_eq. }
  destruct (recompute_bounds_run h2 self) as
    (min_lat & max_lat & min_lon & max_lon & Hrun & _).
  { by rewrite Hl. }
  { rewrite Hl. intros node Hin. unfold has_coordinates.
    destruct (Hsame (n_addr node)) as [-> ->]. by apply Hc. }
  exists (set_bounds h2 self min_lat max_lat min_lon max_lon).
  split.
  { unfold Way.__init__.
    unfold mbind at 1, M_bind at 1. cbn [alloc].
    unfold mbind at 1, M_bind at 1. cbn [put_way].
    fold self o0. unfold l.
    unfold mbind at 1, M_bind at 1.
    unfold mbind at 1, M_bind at 1.
    rewrite for_each_attach_run.
    change (attach_all _ (first :: rest) self) with h2. by rewrite Hrun. }
  unfold set_bounds. cbn [ways nodes next_addr w_addr self].
  split; [unfold h2; by rewrite attach_all_next_addr|].
  rewrite lookup_total_insert_eq. cbn [way_tags way_nodes].
  split; [rewrite Hways; by rewrite lookup_total_insert_eq|].
  split; [by apply Hl|].
  split; [|done].
  intros a Ha. rewrite lookup_total_insert_ne by done.
  rewrite Hways. by rewrite lookup_total_insert_ne.
Qed.

(** [read_feature] on a LineString with one node id per coordinate: the
    nodes are registered, the way is built over them and registered under
    the id of the feature, and nothing is logged. *)
Lemma read_line_run st f coordinates ids seen h :
  geometry f = LineString coordinates ->
  OSM_id_nodes (properties f) = Some (LineIds ids) ->
  length coordinates = length ids -> Forall valid coordinates ->
  registry_ok seen (node_collector st) h ->
  exists a nodes' nc' h',
    read_feature st f h
      = (Ok {| node_collector := nc';
               way_collector :=
                 WayCollector.add_way (way_collector st)
                   {| w_addr := a; w_id := f_id f |};
               area_collector := area_collector st;
               log := log st |}, h')
    /\ (next_addr h <= a < next_addr h')%nat
    /\ way_tags (ways h' !!! a) = feature_tags f
    /\ way_nodes (ways h' !!! a) = nodes'
    /\ map n_id nodes' = ids
    /\ (forall n, In n nodes' -> PyDict.get (n_id n) nc' = Some n)
    /\ (forall k n, PyDict.get k (node_collector st) = Some n ->
          PyDict.get k nc' = Some n)
    /\ registry_ok (seen ++ combine ids coordinates) nc' h'
    /\ extends h h'.
Proof.
  intros Hg Hi Hlen Hvalid Hok.
  destruct (read_registered_nodes_run coordinates ids seen (node_collector st) [] h
              Hlen Hvalid Hok)
    as (nodes' & nc' & h1 & Hrun1 & Hids & Hreg & Hmono & _ & Hok1 & Hext1 & Hways1 & _).
  simpl in Hrun1.
  assert (forall node, In node nodes' -> has_coordinates h1 node) as Hc.
  { intros node Hin. pose proof (Hok1 (n_id node)) as Hk.
    rewrite (Hreg node Hin) in Hk.
    destruct Hk as (_ & _ & c & _ & Hlo & Hla). unfold has_coordinates.
    by rewrite Hlo, Hla. }
  destruct (way_init_run (f_id f) (feature_tags f) nodes' None None None None h1 Hc)
    as (h2 & Hrun2 & Hnext2 & Htags2 & Hnodes2 & Hways2 & Hsame2).
  set (way := {| w_addr := next_addr h1; w_id := f_id f |}) in *.
  set (h3 := attach_all h2 nodes' way).
  assert (ways h3 = ways h2) as Hways3 by apply attach_all_ways.
  assert (next_addr h3 = S (next_addr h1)) as Hnext3.
  { unfold h3. by rewrite attach_all_next_addr. }
  assert (extends h1 h3) as Hext3.
  { split; [lia|]. split.
    - intros a Ha. rewrite Hways3. apply Hways2. lia.
    - intros a Ha. unfold h3.
      destruct (attach_all_coordinates way nodes' a h2) as [-> ->]. apply Hsame2. }
  destruct Hext1 as (Hn1 & Hw1 & Hc1).
  exists (next_addr h1), nodes', nc', h3.
  split.
  { unfold read_feature. rewrite Hg. unfold line_id_entries. rewrite Hi.
    rewrite length_map, Hlen, Nat.eqb_refl. cbn [negb].
    unfold mbind at 1, M_bind at 1. rewrite Hrun1.
    unfold mbind at 1, M_bind at 1. rewrite Hrun2.
    unfold mbind at 1, M_bind at 1.
    unfold Way.nodes_of at 1. unfold mbind at 1, M_bind at 1, get_way at 1.
    unfold mret at 1, M_ret at 1. cbn [w_addr way]. rewrite Hnodes2.
    unfold mbind at 1, M_bind at 1. rewrite for_each_attach_run. done. }
  split; [lia|].
  rewrite Hways3. split; [done|]. split; [done|]. split; [done|].
  split; [done|]. split; [done|].
  split; [by apply (registry_ok_extends _ _ h1)|].
  by apply (extends_trans h h1 h3).
Qed.

(** A LineString feature with one node id per coordinate, and coordinates
    that [Node] accepts. *)
Definition well_formed_line (f : Feature) : Prop :=
  exists coordinates ids,
    geometry f = LineString coordinates
    /\ OSM_id_nodes (properties f) = Some (LineIds ids)
    /\ length coordinates = length ids
    /\ Forall valid coordinates.

(** The feature [f] with the node ids [ids] was read into the state: its id
    leads to a way of that id, with the tags of the feature, over registered
    nodes that have the ids [ids], in this order. *)
Definition way_read (st : read_state) (h : Heap) (f : Feature) (ids : list Z) : Prop :=
  exists way,
    PyDict.get (f_id f) (way_collector st) = Some way
    /\ w_id way = f_id f /\ (w_addr way < next_addr h)%nat
    /\ way_tags (ways h !!! w_addr way) = feature_tags f
    /\ map n_id (way_nodes (ways h !!! w_addr way)) = ids
    /\ forall n, In n (way_nodes (ways h !!! w_addr way)) ->
         PyDict.get (n_id n) (node_collector st) = Some n.

(** The state after the features [done] were read. *)
Definition lines_read (done : list Feature) (st : read_state) (h : Heap) : Prop :=
  log st = [] /\ area_collector st = AreaCollector.empty
  /\ PyDict.keys (way_collector st) = map f_id done
  /\ registry_ok (concat (map entries done)) (node_collector st) h
  /\ forall f ids, In f done -> OSM_id_nodes (properties f) = Some (LineIds ids) ->
       way_read st h f ids.

Lemma read_feature_line done st h f :
  lines_read done st h -> well_formed_line f -> ~ In (f_id f) (map f_id done) ->
  exists st' h', read_feature st f h = (Ok st', h') /\ lines_read (done ++ [f]) st' h'.
Proof.
  intros (Hlog & Hareas & Hkeys & Hok & Hways) (coordinates & ids & Hg & Hi & Hlen & Hvalid)
    Hfresh.
  destruct (read_line_run st f coordinates ids _ h Hg Hi Hlen Hvalid Hok)
    as (a & nodes' & nc' & h' & Hrun & Ha & Htags & Hnodes & Hids & Hreg & Hmono
        & Hok' & Hext).
  eexists _, h'. split; [exact Hrun|].
  assert (PyDict.get (f_id f) (way_collector st) = None) as Hnone.
  { apply DictMore.get_None_keys. by rewrite Hkeys. }
  unfold lines_read. cbn [log area_collector way_collector node_collector].
  split; [done|]. split; [done|]. split.
  { unfold WayCollector.add_way. cbn [w_id].
    rewrite DictMore.set_absent by done.
    unfold PyDict.keys in *. by rewrite !map_app, Hkeys. }
  split.
  { rewrite map_app, concat_app. cbn [map concat]. rewrite app_nil_r.
    unfold entries at 2. by rewrite Hg, Hi. }
  intros f' ids' [Hin|[<-|[]]]%in_app_iff Hi'.
  - destruct (Hways f' ids' Hin Hi') as (way & Hget & Hid & Haddr & Htags' & Hids' & Hreg').
    destruct Hext as (Hn & Hw & _).
    exists way. unfold way_read. cbn [way_collector node_collector].
    rewrite (Hw (w_addr way) Haddr).
    split.
    { unfold WayCollector.add_way. cbn [w_id]. rewrite PyDictFacts.get_set_ne; [done|].
      intros E. apply Hfresh. rewrite E. by apply in_map. }
    split; [done|]. split; [lia|]. split; [done|]. split; [done|].
    intros n Hn'. by apply Hmono, Hreg'.
  - rewrite Hi in Hi'. injection Hi' as <-.
    exists {| w_addr := a; w_id := f_id f |}. unfold way_read.
    cbn [way_collector node_collector w_addr w_id].
    split; [apply PyDictFacts.get_set_eq|]. split; [done|]. split; [lia|].
    split; [done|]. rewrite Hnodes. by split.
Qed.

Lemma read_features_lines : forall features done st h,
  lines_read done st h -> Forall well_formed_line features ->
  NoDup (map f_id (done ++ features)) ->
  exists st' h',
    read_features st features h = (Ok st', h') /\ lines_read (done ++ features) st' h'.
Proof.
  induction features as [|f features IH]; intros done st h Hinv Hwf Hnd.
  - exists st, h. by rewrite app_nil_r.
  - apply Forall_cons in Hwf as [Hf Hfs].
    destruct (read_feature_line done st h f Hinv Hf) as (st1 & h1 & Hrun1 & Hinv1).
    { rewrite map_app in Hnd. apply NoDup_app in Hnd as (_ & Hdisj & _).
      intros Hin%list_elem_of_In. apply (Hdisj _ Hin). simpl. by left. }
    destruct (IH (done ++ [f]) st1 h1 Hinv1 Hfs) as (st' & h' & Hrun & Hinv').
    { by rewrite <- app_assoc. }
    exists st', h'. cbn [read_features]. unfold mbind, M_bind. rewrite Hrun1.
    split; [done|]. by rewrite <- app_assoc in Hinv'.
Qed.

(** X24.  A collection of LineString features that each have one node id
    per coordinate, coordinates that [Node] accepts, and pairwise distinct
    feature ids is read completely: nothing is logged, no area is made, the
    way registry holds one way per feature, under the ids of the features in
    their order, each with the tags of its feature and over registered nodes
    with the node ids of the feature; and a node id is registered iff it
    occurs in the collection, to one node that holds the coordinate that
    comes first with this id. *)
Theorem read_well_formed_lines (features : FeatureCollection) (h : Heap) :
  Forall well_formed_line features -> NoDup (map f_id features) ->
  exists st h',
    read_geojson features h = (Ok st, h')
    /\ log st = [] /\ area_collector st = AreaCollector.empty
    /\ PyDict.keys (way_collector st) = map f_id features
    /\ (forall f ids, In f features ->
          OSM_id_nodes (properties f) = Some (LineIds ids) -> way_read st h' f ids)
    /\ (forall k,
          match PyDict.get k (node_collector st) with
          | Some n =>
              n_id n = k
              /\ exists c, first_seen k features = Some c
                   /\ node_lon (nodes h' !!! n_addr n) = Some (fst c)
                   /\ node_lat (nodes h' !!! n_addr n) = Some (snd c)
          | None => first_seen k features = None
          end).
Proof.
  intros Hwf Hnd.
  destruct (read_features_lines features []
              {| node_collector := NodeCollector.empty;
                 way_collector := WayCollector.empty;
                 area_collector := AreaCollector.empty; log := [] |} h)
    as (st & h' & Hrun & Hlog & Hareas & Hkeys & Hok & Hways); [|done|done|].
  { split; [done|]. split; [done|]. split; [done|]. split; [|done]. by intros k. }
  exists st, h'. split; [exact Hrun|]. repeat (split; [done|]).
  intros k. specialize (Hok k). simpl in Hok. unfold first_seen.
  destruct (PyDict.get k (node_collector st)) as [n|]; [|done].
  destruct Hok as (Hid & _ & c & Hseen & Hlo & Hla). split; [done|]. by exists c.
Qed.

Lemma read_well_formed_lines_witness :
  exists st h',
    read_geojson [line 7 [(5, 6); (7, 8)]%Q [21; 22]; line 8 [(1, 1); (7, 8)]%Q [21; 23]]
      empty_heap = (Ok st, h')
    /\ log st = []
    /\ PyDict.keys (way_collector st) = [7; 8]
    /\ PyDict.keys (node_collector st) = [21; 22; 23]
    /\ way_read st h' (line 8 [(1, 1); (7, 8)]%Q [21; 23]) [21; 23]
    /\ first_seen 21 [line 7 [(5, 6); (7, 8)]%Q [21; 22];
                      line 8 [(1, 1); (7, 8)]%Q [21; 23]] = Some (5, 6)%Q.
Proof.
  destruct (read_well_formed_lines
              [line 7 [(5, 6); (7, 8)]%Q [21; 22]; line 8 [(1, 1); (7, 8)]%Q [21; 23]]
              empty_heap)
    as (st & h' & Hrun & Hlog & _ & Hkeys & Hways & _).
  - repeat constructor; eexists _, _;
      (split; [reflexivity|]); (split; [reflexivity|]); (split; [reflexivity|]);
      repeat constructor; done.
  - simpl. by apply (bool_decide_unpack _).
  - exists st, h'. split; [exact Hrun|]. split; [exact Hlog|]. split; [exact Hkeys|].
    split.
    { vm_compute in Hrun. injection Hrun as <- _. reflexivity. }
    split; [|reflexivity].
    apply Hways; [simpl; tauto|reflexivity].
Defined.

(** *** Writing ways, and reading them back *)

Section RoundTrip.
Variable round : Q -> Q.

(** The pair that is written for a node. *)
Definition coord_at (h : Heap) (node : NodeRef) : Coord := (lon_at h node, lat_at h node).

(** The feature that is written for a way. *)
Definition written (h : Heap) (way : WayRef) : Feature :=
  let o := ways h !!! w_addr way in
  {| f_id := w_id way;
     boundingbox := Some (way_min_lon o, way_min_lat o, way_max_lon o, way_max_lat o);
     geometry := geojson_LineString round (map (coord_at h) (way_nodes o));
     properties := {| OSM_id_nodes := Some (LineIds (map n_id (way_nodes o)));
                      tags := Some (way_tags o);
                      OSM_id := None |} |}.

Lemma lon_lat_run h l :
  (forall node, In node l -> has_coordinates h node) ->
  map_M lon_lat l h = (Ok (map (coord_at h) l), h).
Proof.
  induction l as [|node l IH]; intros Hl; [done|].
  destruct (Hl node (or_introl eq_refl)) as [[la Hla] [lo Hlo]].
  cbn [map_M map].
  assert (lon_lat node h = (Ok (coord_at h node), h)) as Hrun.
  { assert (Node.lon node h = (Ok lo, h)) as Hlon
      by (unfold Node.lon, mbind, M_bind, get_node; by rewrite Hlo).
    assert (Node.lat node h = (Ok la, h)) as Hlat
      by (unfold Node.lat, mbind, M_bind, get_node; by rewrite Hla).
    unfold lon_lat. unfold mbind at 1, M_bind at 1. rewrite Hlon.
    unfold mbind at 1, M_bind at 1. rewrite Hlat.
    unfold coord_at, lon_at, lat_at. by rewrite Hlo, Hla. }
  unfold mbind at 1, M_bind at 1. rewrite Hrun.
  unfold mbind at 1, M_bind at 1. rewrite IH by (intros; apply Hl; by right).
  done.
Qed.

(** The nodes of the ways of the registry have coordinates. *)
Definition ways_located (h : Heap) (wc : WayCollector.t) : Prop :=
  forall way node,
    In way (PyDict.values wc) -> In node (way_nodes (ways h !!! w_addr way)) ->
    has_coordinates h node.

Lemma convert_ways_run wc h :
  ways_located h wc ->
  _convert_way_collector_to_list_features round wc h
  = (Ok (map (written h) (PyDict.values wc)), h).
Proof.
  unfold ways_located, _convert_way_collector_to_list_features.
  induction (PyDict.values wc) as [|way l IH]; intros Hl; [done|].
  cbn [map_M map].
  unfold mbind at 1, M_bind at 1.
  unfold mbind at 1, M_bind at 1, get_way at 1.
  unfold mbind at 1, M_bind at 1.
  rewrite lon_lat_run by (intros; apply (Hl way); [by left|done]).
  unfold mret at 1, M_ret at 1.
  unfold mbind at 1, M_bind at 1.
  rewrite IH by (intros w n Hw; apply Hl; by right).
  done.
Qed.

Lemma write_ways_run nc wc h :
  wc <> [] -> ways_located h wc ->
  write_geojson round nc None (Some wc) None h
  = (Ok (map (written h) (PyDict.values wc)), h).
Proof.
  intros Hne Hl. unfold write_geojson.
  assert (is_empty (Some wc) = false) as -> by (by destruct wc).
  rewrite andb_false_r. cbn [andb].
  unfold mbind at 1, M_bind at 1. rewrite convert_ways_run by done.
  unfold mbind, M_bind, mret, M_ret. by rewrite !app_nil_r.
Qed.

Lemma in_combine_map {A} (f : A -> Z) (g : A -> Coord) k c l :
  In (k, c) (combine (map f l) (map g l)) -> exists x, In x l /\ k = f x /\ c = g x.
Proof.
  induction l as [|x l IH]; simpl; [done|].
  intros [[= <- <-]|Hin].
  - exists x. by split; [left|].
  - destruct (IH Hin) as (y & Hy & Hk & Hc). exists y. by split; [right|].
Qed.

(** X25.  Ways that are written and read back.  For a registry of ways with
    pairwise distinct ids whose nodes have coordinates that, once rounded,
    [Node] accepts: [write_geojson] returns a collection without changing
    the graph, and [read_geojson] reads this collection completely, without
    a warning; every way comes back under its id, with its tags and with
    nodes that have the ids of its nodes in their order; and every node that
    is read back holds the rounded coordinates of a written node of the same
    id.  (The file is taken to give back the collection that was dumped
    into it.) *)
Theorem written_ways_are_read_back (nc : option NodeCollector.t)
    (wc : WayCollector.t) (h : Heap) :
  wc <> [] ->
  NoDup (map w_id (PyDict.values wc)) ->
  (forall way node,
     In way (PyDict.values wc) -> In node (way_nodes (ways h !!! w_addr way)) ->
     has_coordinates h node /\ valid (clean_coordinate round (coord_at h node))) ->
  exists fc st h',
    write_geojson round nc None (Some wc) None h = (Ok fc, h)
    /\ read_geojson fc h = (Ok st, h')
    /\ log st = []
    /\ PyDict.keys (way_collector st) = map w_id (PyDict.values wc)
    /\ (forall way, In way (PyDict.values wc) ->
          exists way',
            PyDict.get (w_id way) (way_collector st) = Some way'
            /\ w_id way' = w_id way
            /\ way_tags (ways h' !!! w_addr way') = way_tags (ways h !!! w_addr way)
            /\ map n_id (way_nodes (ways h' !!! w_addr way'))
               = map n_id (way_nodes (ways h !!! w_addr way))
            /\ forall n', In n' (way_nodes (ways h' !!! w_addr way')) ->
                 PyDict.get (n_id n') (node_collector st) = Some n')
    /\ (forall k n', PyDict.get k (node_collector st) = Some n' ->
          n_id n' = k
          /\ exists way node,
               In way (PyDict.values wc)
               /\ In node (way_nodes (ways h !!! w_addr way))
               /\ n_id node = k
               /\ node_lon (nodes h' !!! n_addr n') = Some (round (lon_at h node))
               /\ node_lat (nodes h' !!! n_addr n') = Some (round (lat_at h node))).
Proof.
  intros Hne Hnd Hnodes.
  set (fc := map (written h) (PyDict.values wc)).
  assert (map f_id fc = map w_id (PyDict.values wc)) as Hids.
  { unfold fc. rewrite map_map. by apply map_ext. }
  destruct (read_features_lines fc []
              {| node_collector := NodeCollector.empty;
                 way_collector := WayCollector.empty;
                 area_collector := AreaCollector.empty; log := [] |} h)
    as (st & h' & Hrun & Hlog & _ & Hkeys & Hok & Hways).
  { split; [done|]. split; [done|]. split; [done|]. split; [|done]. by intros k. }
  { apply List.Forall_forall. intros f (way & <- & Hway)%in_map_iff.
    eexists _, _. split; [reflexivity|]. split; [reflexivity|].
    split; [by rewrite !length_map|].
    apply List.Forall_forall. intros c (c0 & <- & (node & <- & Hnode)%in_map_iff)%in_map_iff.
    by apply (Hnodes way node). }
  { simpl. by rewrite Hids. }
  simpl in Hkeys, Hok, Hways.
  exists fc, st, h'.
  split; [apply write_ways_run; [done|]; intros way node Hw Hn; by apply (Hnodes way node)|].
  split; [exact Hrun|]. split; [done|]. split; [by rewrite Hkeys|]. split.
  - intros way Hway.
    destruct (Hways (written h way) (map n_id (way_nodes (ways h !!! w_addr way))))
      as (way' & Hget & Hid & _ & Htags & Hnids & Hreg);
      [unfold fc; by apply in_map|done|].
    by exists way'.
  - intros k n' Hget. specialize (Hok k). rewrite Hget in Hok.
    destruct Hok as (Hid & _ & c & Hseen & Hlo & Hla). split; [done|].
    apply DictMore.get_Some_in in Hseen.
    apply in_concat in Hseen as (es & (f & <- & (way & <- & Hway)%in_map_iff)%in_map_iff
                                  & Hin).
    unfold entries, written in Hin. cbn [geometry properties OSM_id_nodes] in Hin.
    unfold geojson_LineString in Hin. rewrite map_map in Hin.
    apply in_combine_map in Hin as (node & Hnode & -> & ->).
    exists way, node. by repeat split.
Qed.

End RoundTrip.

Lemma written_ways_are_read_back_witness :
  exists fc st h',
    write_geojson (fun q => q) None None (Some [(5%Z, Clearing.way_5)]) None
      Clearing.three_node_way_heap = (Ok fc, Clearing.three_node_way_heap)
    /\ read_geojson fc Clearing.three_node_way_heap = (Ok st, h')
    /\ log st = []
    /\ PyDict.keys (way_collector st) = [5%Z]
    /\ exists way',
         PyDict.get 5%Z (way_collector st) = Some way'
         /\ map n_id (way_nodes (ways h' !!! w_addr way')) = [1%Z; 2%Z; 3%Z].
Proof.
  destruct (written_ways_are_read_back (fun q => q) None [(5%Z, Clearing.way_5)]
              Clearing.three_node_way_heap)
    as (fc & st & h' & Hw & Hr & Hlog & Hkeys & Hways & _).
  - discriminate.
  - simpl. by apply (bool_decide_unpack _).
  - intros way node [<-|[]] Hn. vm_compute in Hn.
    destruct Hn as [<-|[<-|[<-|[]]]];
      (split; [split; vm_compute; by eexists|]);
      repeat split; vm_compute; discriminate.
  - exists fc, st, h'. split; [exact Hw|]. split; [exact Hr|]. split; [exact Hlog|].
    split; [exact Hkeys|].
    destruct (Hways Clearing.way_5) as (way' & Hget & _ & _ & Hids & _); [by left|].
    exists way'. split; [exact Hget|]. rewrite Hids. reflexivity.
Defined.

(** *** Reading a polygon *)

(** The nodes of an inner ring: as many new objects as the ring has
    coordinates, at the next addresses. *)
Lemma read_inner_nodes_run : forall coordinates ids h,
  length coordinates = length ids -> Forall valid coordinates ->
  exists nodes' h',
    read_inner_nodes coordinates ids h = (Ok nodes', h')
    /\ map n_id nodes' = ids
    /\ (forall n, In n nodes' -> (next_addr h <= n_addr n < next_addr h')%nat
                                 /\ has_coordinates h' n)
    /\ (next_addr h <= next_addr h')%nat
    /\ (forall a, (a < next_addr h)%nat -> nodes h' !!! a = nodes h !!! a)
    /\ ways h' = ways h /\ areas h' = areas h.
Proof.
  induction coordinates as [|c cs IH]; intros ids h Hlen Hvalid.
  - destruct ids; [|done]. exists [], h. by repeat split.
  - destruct ids as [|i ids]; [done|].
    apply Forall_cons in Hvalid as [Hc Hcs].
    destruct (new_node_run i c h Hc)
      as (h1 & Hrun1 & Hnext1 & Hways1 & Hareas1 & Hlo1 & Hla1 & Hframe1).
    destruct (IH ids h1) as (nodes' & h' & Hrun & Hids & Hnew & Hnext & Hframe & Hways
                             & Hareas); [by injection Hlen|done|].
    set (node := {| n_addr := next_addr h; n_id := i |}) in *.
    exists (node :: nodes'), h'.
    split.
    { cbn [read_inner_nodes]. unfold mbind at 1, M_bind at 1. rewrite Hrun1.
      unfold mbind at 1, M_bind at 1. by rewrite Hrun. }
    split; [simpl; by rewrite Hids|].
    split.
    { intros n [<-|Hn].
      - cbn [n_addr node]. split; [lia|]. unfold has_coordinates. cbn [n_addr node].
        rewrite Hframe by lia. by rewrite Hlo1, Hla1.
      - destruct (Hnew n Hn) as [Ha Hco]. split; [lia|done]. }
    split; [lia|]. split.
    { intros a Ha. rewrite Hframe by lia. apply Hframe1. lia. }
    split; [by rewrite Hways|by rewrite Hareas].
Qed.

(** A ring with one node id per coordinate, and coordinates that [Node]
    accepts. *)
Definition ring_ok (ring : list Coord) (ids : list Z) : Prop :=
  length ring = length ids /\ Forall valid ring.

Lemma drop_cons_inv {A} j (l : list A) x r :
  drop j l = x :: r -> l !! j = Some x /\ drop (S j) l = r.
Proof.
  intros Hd. assert (l !! j = Some x) as Hx.
  { replace j with (j + 0)%nat by lia. by rewrite <- lookup_drop, Hd. }
  split; [done|]. apply drop_S in Hx. congruence.
Qed.

Lemma read_inner_borders_run f idss :
  OSM_id_nodes (properties f) = Some (RingIds idss) ->
  forall rings j acc lg h,
  Forall2 ring_ok rings (drop j idss) ->
  exists borders h',
    read_inner_borders f j rings acc lg h = (Ok (acc ++ borders, lg), h')
    /\ map (map n_id) borders = drop j idss
    /\ (forall ring n, In ring borders -> In n ring ->
          (next_addr h <= n_addr n < next_addr h')%nat /\ has_coordinates h' n)
    /\ (next_addr h <= next_addr h')%nat
    /\ (forall a, (a < next_addr h)%nat -> nodes h' !!! a = nodes h !!! a)
    /\ ways h' = ways h /\ areas h' = areas h.
Proof.
  intros Hi. induction rings as [|ring rings IH]; intros j acc lg h Hok.
  - apply Forall2_nil_inv_l in Hok. exists [], h. rewrite app_nil_r, Hok.
    by repeat split.
  - apply Forall2_cons_inv_l in Hok as (ids & rest & (Hlen & Hvalid) & Hrest & Hd).
    apply drop_cons_inv in Hd as [Hj Hd]. subst rest.
    destruct (read_inner_nodes_run ring ids h Hlen Hvalid)
      as (nodes' & h1 & Hrun1 & Hids1 & Hnew1 & Hnext1 & Hframe1 & Hways1 & Hareas1).
    destruct (IH (S j) (acc ++ [nodes']) lg h1 Hrest)
      as (borders & h' & Hrun & Hids & Hnew & Hnext & Hframe & Hways & Hareas).
    exists (nodes' :: borders), h'.
    split.
    { cbn [read_inner_borders]. unfold ring_ids_at. rewrite Hi, Hj.
      unfold mbind at 1, M_bind at 1, lift at 1, or_raise at 1.
      rewrite Hlen, Nat.eqb_refl. cbn [negb].
      unfold mbind at 1, M_bind at 1. rewrite Hrun1.
      rewrite Hrun. by rewrite <- app_assoc. }
    split.
    { simpl. rewrite Hids1, Hids. symmetry. by apply drop_S. }
    split.
    { intros r n [<-|Hr] Hn.
      - destruct (Hnew1 n Hn) as [Ha Hco]. split; [lia|].
        unfold has_coordinates. rewrite Hframe by lia. exact Hco.
      - destruct (Hnew r n Hr Hn) as [Ha Hco]. split; [lia|done]. }
    split; [lia|]. split.
    { intros a Ha. rewrite Hframe by lia. by apply Hframe1. }
    split; [by rewrite Hways|by rewrite Hareas].
Qed.

(** The constructor of an area with an outer border, over nodes that have
    coordinates. *)
Lemma area_init_run area_id tags0 outer inner h :
  outer <> [] ->
  (forall ring node, In ring (outer :: inner) -> In node ring -> has_coordinates h node) ->
  exists h',
    Area.__init__ area_id tags0 outer inner None None None None h
      = (Ok {| a_addr := next_addr h; a_id := area_id |}, h')
    /\ nodes h' = nodes h /\ ways h' = ways h
    /\ area_tags (areas h' !!! next_addr h) = tags0
    /\ area_outer_border (areas h' !!! next_addr h) = outer
    /\ area_inner_borders (areas h' !!! next_addr h) = inner.
Proof.
  intros Houter Hc.
  destruct outer as [|first outer]; [done|].
  set (self := {| a_addr := next_addr h; a_id := area_id |}).
  set (o0 := {| area_tags := tags0; area_outer_border := first :: outer;
                area_inner_borders := inner;
                area_min_lon := None; area_max_lon := None;
                area_min_lat := None; area_max_lat := None |}).
  set (h0 := snd (put_area self o0 (snd (alloc h)))).
  destruct (AreaFacts.for_each_rings_spec self ((first :: outer) :: inner) h0)
    as (h' & Hrun & Hup).
  { intros r n Hr Hin. apply (AreaFacts.has_coordinates_nodes h); [done|].
    by apply (Hc r). }
  assert (areas h0 !!! a_addr self = o0) as Ho0
    by (unfold h0; simpl; by rewrite lookup_total_insert_eq).
  rewrite Ho0 in Hup. destruct Hup as (Hn & Hw & Ha & _).
  destruct (AreaFacts.fold_extended_borders
              (AreaFacts.points_of h0 (concat ((first :: outer) :: inner))) o0)
    as (Hb1 & Hb2 & Hb3).
  exists h'. split.
  { transitivity
      (let (r, h1) :=
         for_each (area_outer_border (areas h0 !!! a_addr self)
                   :: area_inner_borders (areas h0 !!! a_addr self))
           (fun border => for_each border (Area.extend_box self)) h0 in
       match r with
       | Ok _ => (Ok self, h1)
       | Raise e => (Raise e, h1)
       | OutOfFuel => (OutOfFuel, h1)
       end).
    - unfold Area.__init__. destruct inner; reflexivity.
    - rewrite Ho0. unfold o0 at 1 2. cbn [area_outer_border area_inner_borders].
      by rewrite Hrun. }
  split; [by rewrite Hn|]. split; [by rewrite Hw|].
  change (next_addr h) with (a_addr self). rewrite Ha.
  by rewrite Hb1, Hb2, Hb3.
Qed.

(** [node.add_area(area)] touches the node only. *)
Lemma add_area_run node area h :
  exists h', Node.add_area node area h = (Ok tt, h')
    /\ areas h' = areas h /\ ways h' = ways h.
Proof.
  unfold Node.add_area, mbind, M_bind, get_node.
  destruct (negb (py_in area_eqb area (node_areas (nodes h !!! n_addr node))));
    by eexists.
Qed.

Lemma for_each_add_area_run area l : forall h,
  exists h', for_each l (fun node => Node.add_area node area) h = (Ok tt, h')
    /\ areas h' = areas h /\ ways h' = ways h.
Proof.
  induction l as [|node l IH]; intros h; [by exists h|].
  destruct (add_area_run node area h) as (h1 & Hrun1 & Ha1 & Hw1).
  destruct (IH h1) as (h' & Hrun & Ha & Hw).
  exists h'. cbn [for_each]. unfold mbind, M_bind. rewrite Hrun1.
  split; [done|]. split; congruence.
Qed.

Lemma for_each_rings_add_area_run area rings : forall h,
  exists h',
    for_each rings (fun border => for_each border (fun node => Node.add_area node area)) h
      = (Ok tt, h')
    /\ areas h' = areas h /\ ways h' = ways h.
Proof.
  induction rings as [|ring rings IH]; intros h; [by exists h|].
  destruct (for_each_add_area_run area ring h) as (h1 & Hrun1 & Ha1 & Hw1).
  destruct (IH h1) as (h' & Hrun & Ha & Hw).
  exists h'. cbn [for_each]. unfold mbind, M_bind. rewrite Hrun1.
  split; [done|]. split; congruence.
Qed.

(** X26.  Reading a Polygon feature whose rings each have one node id per
    coordinate (the outer ring at least one), with coordinates that [Node]
    accepts, into a state whose node registry was built by the reader: an
    area is registered under the id of the feature, with the tags of the
    feature, and its rings have the node ids of the feature.  The nodes of
    the outer ring are registered nodes, and no other node is added to the
    registry: every node of an inner ring is a new object that the registry
    does not hold, even when a node of its id is registered.  Nothing is
    logged and no way is made or changed. *)
Theorem read_polygon_registers_outer_ring_only (st : read_state) (f : Feature)
    (outer_ring : list Coord) (inner_rings : list (list Coord))
    (idss : list (list Z)) (seen : list (Z * Coord)) (h : Heap) :
  geometry f = Polygon (outer_ring :: inner_rings) ->
  OSM_id_nodes (properties f) = Some (RingIds idss) ->
  outer_ring <> [] ->
  Forall2 ring_ok (outer_ring :: inner_rings) idss ->
  registry_ok seen (node_collector st) h ->
  exists area outer inner st' h',
    read_feature st f h = (Ok st', h')
    /\ log st' = log st /\ way_collector st' = way_collector st /\ ways h' = ways h
    /\ area_collector st' = AreaCollector.add_area (area_collector st) area
    /\ a_id area = f_id f
    /\ area_tags (areas h' !!! a_addr area) = feature_tags f
    /\ area_outer_border (areas h' !!! a_addr area) = outer
    /\ area_inner_borders (areas h' !!! a_addr area) = inner
    /\ map n_id outer :: map (map n_id) inner = idss
    /\ (forall n, In n outer -> PyDict.get (n_id n) (node_collector st') = Some n)
    /\ (forall k n, PyDict.get k (node_collector st') = Some n ->
          PyDict.get k (node_collector st) = Some n \/ In n outer)
    /\ (forall ring n, In ring inner -> In n ring ->
          (next_addr h <= n_addr n)%nat
          /\ forall k n', PyDict.get k (node_collector st') = Some n' ->
               n_addr n' <> n_addr n).
Proof.
  intros Hg Hi Hne Hok Hreg.
  apply Forall2_cons_inv_l in Hok as (ids0 & irest & (Hlen0 & Hvalid0) & Hrest & ->).
  destruct (read_registered_nodes_run outer_ring ids0 seen (node_collector st) [] h
              Hlen0 Hvalid0 Hreg)
    as (outer & nc' & h1 & Hrun1 & Hids1 & Hreg1 & Hmono1 & Honly1 & Hok1 & Hext1
        & Hways1 & Hareas1).
  simpl in Hrun1.
  destruct (read_inner_borders_run f (ids0 :: irest) Hi inner_rings 1 [] (log st) h1)
    as (inner & h2 & Hrun2 & Hids2 & Hnew2 & Hnext2 & Hframe2 & Hways2 & Hareas2);
    [done|].
  simpl in Hrun2. cbn [drop] in Hids2.
  assert (outer <> []) as Houter.
  { intros ->. destruct ids0; [|done]. by destruct outer_ring. }
  assert (forall n, In n outer -> (n_addr n < next_addr h1)%nat /\ has_coordinates h1 n)
    as Hout.
  { intros n Hn. pose proof (Hok1 (n_id n)) as Hk. rewrite (Hreg1 n Hn) in Hk.
    destruct Hk as (_ & Ha & c & _ & Hlo & Hla). split; [done|].
    unfold has_coordinates. by rewrite Hlo, Hla. }
  destruct (area_init_run (f_id f) (feature_tags f) outer inner h2 Houter)
    as (h3 & Hrun3 & Hn3 & Hw3 & Htags3 & Hb3 & Hi3).
  { intros ring n [<-|Hr] Hn.
    - destruct (Hout n Hn) as [Ha Hco]. unfold has_coordinates.
      rewrite Hframe2 by done. exact Hco.
    - by apply (Hnew2 ring n Hr Hn). }
  set (area := {| a_addr := next_addr h2; a_id := f_id f |}) in *.
  destruct (for_each_add_area_run area outer h3) as (h4 & Hrun4 & Ha4 & Hw4).
  destruct (for_each_rings_add_area_run area inner h4) as (h5 & Hrun5 & Ha5 & Hw5).
  exists area, outer, inner,
    {| node_collector := nc'; way_collector := way_collector st;
       area_collector := AreaCollector.add_area (area_collector st) area;
       log := log st |}, h5.
  split.
  { unfold read_feature. rewrite Hg. cbn [head].
    unfold mbind at 1, M_bind at 1, lift at 1, or_raise at 1.
    unfold ring_ids_at at 1. rewrite Hi. cbn [lookup list_lookup].
    unfold mbind at 1, M_bind at 1, lift at 1, or_raise at 1.
    rewrite Hlen0, Nat.eqb_refl. cbn [negb].
    unfold mbind at 1, M_bind at 1. rewrite Hrun1.
    unfold mbind at 1, M_bind at 1. cbn [drop]. rewrite drop_0, Hrun2.
    unfold mbind at 1, M_bind at 1. rewrite Hrun3.
    unfold mbind at 1, M_bind at 1, get_area at 1.
    cbn [a_addr area]. rewrite Hb3, Hi3.
    unfold mbind at 1, M_bind at 1. rewrite Hrun4.
    unfold mbind at 1, M_bind at 1. rewrite Hrun5. done. }
  cbn [log way_collector area_collector node_collector a_id a_addr area].
  split; [done|]. split; [done|].
  split; [by rewrite Hw5, Hw4, Hw3, Hways2, Hways1|].
  split; [done|]. split; [done|].
  rewrite Ha5, Ha4.
  split; [done|]. split; [done|]. split; [done|].
  split; [by rewrite Hids1, Hids2|].
  split; [done|]. split; [done|].
  intros ring n Hr Hn. destruct (Hnew2 ring n Hr Hn) as [Ha _].
  destruct Hext1 as (Hnext1 & _). split; [lia|].
  intros k n' Hget. pose proof (Hok1 k) as Hk. rewrite Hget in Hk.
  destruct Hk as (_ & Ha' & _). lia.
Qed.

(** A polygon with a hole; the id 31 occurs in both rings. *)
Definition holed : Feature :=
  polygon 8 [[(0, 0); (9, 0); (9, 9)]%Q; [(0, 0); (2, 1); (2, 2)]%Q]
    [[31; 32; 33]%Z; [31; 35; 36]%Z].

Definition empty_state : read_state :=
  {| node_collector := NodeCollector.empty; way_collector := WayCollector.empty;
     area_collector := AreaCollector.empty; log := [] |}.

Lemma read_polygon_registers_outer_ring_only_witness :
  exists area outer inner st' h',
    read_feature empty_state holed empty_heap = (Ok st', h')
    /\ a_id area = 8%Z
    /\ area_outer_border (areas h' !!! a_addr area) = outer
    /\ area_inner_borders (areas h' !!! a_addr area) = inner
    /\ map n_id outer :: map (map n_id) inner = [[31; 32; 33]%Z; [31; 35; 36]%Z]
    /\ (forall k n, PyDict.get k (node_collector st') = Some n -> In n outer)
    /\ (forall ring n, In ring inner -> In n ring ->
          forall k n', PyDict.get k (node_collector st') = Some n' ->
            n_addr n' <> n_addr n).
Proof.
  destruct (read_polygon_registers_outer_ring_only empty_state holed
              [(0, 0); (9, 0); (9, 9)]%Q [[(0, 0); (2, 1); (2, 2)]%Q]
              [[31; 32; 33]%Z; [31; 35; 36]%Z] [] empty_heap)
    as (area & outer & inner & st' & h' & Hrun & _ & _ & _ & _ & Hid & _ & Ho & Hi
        & Hids & _ & Honly & Hnew).
  - reflexivity.
  - reflexivity.
  - discriminate.
  - repeat constructor; done.
  - by intros k.
  - exists area, outer, inner, st', h'.
    split; [exact Hrun|]. split; [exact Hid|]. split; [exact Ho|]. split; [exact Hi|].
    split; [exact Hids|]. split.
    + intros k n Hget. by destruct (Honly k n Hget).
    + intros ring n Hr Hn. by apply (Hnew ring n Hr Hn).
Defined.

End CodecFacts.
